(* ===== verification/_CoqProject ===== *)
-Q . S2P
Prelude.v
CAbi.v
DemoBackend.v
OpenSSL.v
CryptoLevels.v
Adapter.v
AdapterInv.v
AdapterSession.v
AdapterConfirm.v
AdapterLife.v
AdapterProps.v
PairTranscript.v
PairInv.v
PairLife.v
PairProps.v
Probe.v
TlsBackend.v
TlsTables.v
Codec.v
CodecSafe.v
Packet.v
Headers.v
ControlPackets.v
Frame.v
FrameProps.v
FramePayload.v
RecvRanges.v
RecvRangesProps.v
TransportParams.v
TransportParamsProps.v
Pacer.v
Paths.v
PathsProps.v
WireLen.v
WireLenProps.v
HyStart.v
Cubic.v
Recovery.v
RecoveryProps.v
LossDetection.v
CryptoSend.v
LossDetectionProps.v
AckProps.v
SendProps.v
SentHistory.v
SentExamples.v
Witnesses.v
