(* ===== verification/Prelude.v ===== *)
(** * quicz: the C TLS backends, the transport's side of their ABI, the transport core

    quicz is a QUIC transport.  Its TLS handshake is delegated to a backend
    behind a small C ABI (examples/tls_backend_c_abi.h): the transport hands
    CRYPTO bytes of a packet-number space to the backend ([receive]), asks it
    for CRYPTO bytes to send ([pull]), installs its transport parameters, and
    takes over the peer's parameters, the traffic secrets and the ALPN result.
    This library models every C function of the repository, the transport
    code that calls them, the codecs, and of the connection the packets sent
    and received, congestion control, pacing and paths.  It proves that bytes,
    secrets and parameters cross the ABI exactly, without undefined behaviour
    and without leaks, that packets survive the wire, and that a connection
    accounts for every packet it sends.

    ** Parts and files

    - Prelude: the undefined-behaviour monad ([option], [None] is undefined
      behaviour) with its total-correctness predicate [wp]; C arrays and
      pointers ([read_array], [write_array], [read_ptr], [write_ptr] and the
      views [slice] and [splice]); [size_t] arithmetic modulo 2^64 ([uadd64],
      [usub64]) and [int] counters whose overflow is undefined ([int_inc]);
      record update notation; the tactics [zsimp], [wp_step] and [wp_go].
    - CAbi: examples/tls_backend_c_abi.h.
    - DemoBackend, Module Demo: examples/tls_c_abi_demo_backend.c.  The static
      variables are the record [globals]; [spec] and [spec_step] are the
      abstract specification over byte strings.
    - OpenSSL: what the C code uses of OpenSSL and of the allocator.  Header
      constants are the class [OpenSSLHeaders] with the laws
      [OpenSSLHeadersOk]; every call's result is the parameter [respond];
      [SSL_do_handshake] is a strategy [ssl_prog] that may make any callbacks
      and choose the next one from the answers.  [world] keeps the ledger of
      live objects, so that leaks and double frees are visible.
    - CryptoLevels: the view of the per-level buffers both OpenSSL clients use.
    - Adapter, Module Adapter: examples/tls_openssl_backend_adapter.c, one
      definition per function, the struct as the record [backend].
      AdapterInv: its invariant and the effect of each operation on the
      queues.  AdapterSession: the step relation [step] of callbacks and API
      calls, its runs [steps], and the byte histories [sent], [pulled],
      [received], [consumed] of a run.  AdapterConfirm: runs with OpenSSL's
      reports written down ([traced]), and what a confirmed handshake means.
      AdapterLife: clients as sequences of API calls ([session]) and the whole
      life cycle ([lifecycle]).
      AdapterProps: the functional behaviour of single operations.
    - PairTranscript, Module Pair: examples/tls_openssl_pair_transcript.c, the
      in-process client and server, the loop of at most 80 iterations, the
      static copies of the last run, the copy functions and the context API.
      PairInv, PairLife and PairProps prove it in the same way.
    - Probe, Module Probe: examples/tls_openssl_probe.c.
    - TlsBackend, Module TlsBackend: src/quic/tls_backend.zig, the transport's
      adapter over a table of callbacks [tls_backend], and the class
      [BackendContract] that states what it relies on.  TlsTables: the tables
      of examples/tls_c_abi_adapter.zig and
      examples/tls_openssl_backend_adapter.zig as instances of the class.
    - Codec, Module Codec: the fixed reader and writer of src/quic/buffer.zig
      and the variable-length integers of src/quic/packet.zig, in a monad with
      errors and illegal behaviour.  [emits m bs] says what an encoder writes,
      [parses p bs a k] what a parser reads; both compose along the code.
      CodecSafe: the predicate [safe], what a parser may do on any input.
      Packet, Module Packet: packet numbers.  Headers, Module Headers: long
      and short headers and packets.  ControlPackets: Version Negotiation,
      Retry and stateless reset, parsed from a complete datagram ([consumes]).
    - Frame, Module Frame: src/quic/frame.zig, the frame structs and the union
      [Frame], the validators, [encodeFrame], the owning and the borrowing
      decoder over an allocator [Heap], and deinit.  FrameProps: its theorems.
      FramePayload: src/quic/frame_rules.zig and src/quic/frame_payload.zig,
      which frames a packet may carry and the close error of a payload.
      RecvRanges: src/quic/packet_number_space.zig, the 32 ranges of received
      packet numbers, and the functions of src/quic/connection.zig that record
      packets and build ACK frames.  RecvRangesProps: their theorems, against
      the list of numbers received.
      TransportParams: src/quic/transport_parameters.zig, types, validators,
      encoder and the parser with its ownership.  TransportParamsProps.
      WireLen: src/quic/wire_len.zig, predicted lengths of frames and
      datagrams and the searches that fill a datagram.  WireLenProps: its
      theorems.
    - HyStart and Cubic: src/quic/hybrid_slow_start.zig and src/quic/cubic.zig
      with IEEE 754 arithmetic (binary32 and binary64 of SpecFloat).
      Recovery, Module Recovery: src/quic/recovery.zig, the struct as a record,
      one definition per function, and the histories [event], [run] of calls
      a connection makes.  RecoveryProps: its theorems.
    - LossDetection, Module LossDetection: the packets a connection has sent, of
      src/quic/connection.zig: the three packet number spaces as records
      [State], [recordPacketSentInSpaceWithEcn] with its admission,
      [receiveAckFrame] as a whole (its parts [remove_acked], [ack_removed],
      [ack_losses], [acknowledge] follow the function from top to bottom),
      [removeAckDrivenLosses], the loss timers, ECN validation, and what these
      do to the RTT estimates and the PTO backoff of the other spaces.  The
      allocator is a list of answers and a count of live buffers.
      CryptoSend, Module CryptoSend: queueing CRYPTO data and the packets
      [pollCryptoFrame] makes of it.  LossDetectionProps: loss detection.
      AckProps: the invariant [conn_ok], through an ACK frame and the timers.
      SendProps: the same through sending, with the spaces it discards.
      SentHistory: histories ([reached]), with the bytes that failed ACK
      frames leave in flight ([stuck_after]), and the theorems on them.
      SentExamples: concrete runs.
    - Pacer: src/quic/pacer.zig.  Paths: src/quic/pmtu.zig (Module Pmtu), the
      anti-amplification limit of src/quic/connection.zig (Module PeerAddress)
      and src/quic/migration.zig (Module Migration).  PathsProps: their
      theorems.
    - Witnesses: a small executable OpenSSL, concrete traces, and for each
      theorem with hypotheses an instance that meets them.

    ** What the theorems show

    - Streams: at every protection level the bytes OpenSSL produced are the
      bytes pulled followed by the bytes pending
      ([adapter_outbound_integrity]); the bytes delivered are the bytes OpenSSL
      consumed followed by the bytes pending, under the discipline stated in
      [adapter_inbound_integrity]; buffers lent to OpenSSL do not change under
      it ([adapter_loan_stable]).  For clients this is
      [adapter_session_integrity], for the Zig transport
      [tls_backend_openssl_stream], for the in-process pair
      [pair_run_transcript], [pair_pump_conserves] and
      [pair_context_lifecycle].
    - Handoff: secrets and transport parameters arrive byte for byte and once
      ([adapter_handoff_refines], [adapter_set_local_once],
      [pair_configure_exact], [pair_copy_secret_exact],
      [pair_copy_crypto_exact]), and [handshake_confirmed] is true exactly
      when everything was reported and consumed ([adapter_confirmed_exact]).
    - Safety: life cycles free exactly what they create on every path
      ([adapter_lifecycle_safe], [pair_run_transcript],
      [pair_context_lifecycle], [probe_report_exact], which also says that the
      probe reports what OpenSSL answered); every slice the transport gets
      fits its buffer, also from a backend that lies about lengths
      ([tls_backend_session_safe], [tls_backend_slices_in_bounds]).
    - Specification: the demo backend refines its byte-string specification
      for every sequence of calls ([demo_refines_spec]).
    - Codecs: varints, packet numbers, long and short packets round trip
      ([varint_roundtrip], [packet_number_roundtrip], [long_packet_roundtrip],
      [short_packet_roundtrip]); reconstruction finds the nearest number
      ([reconstruct_nearest]); parsing is safe and leaks nothing on any bytes
      and with any allocator ([packet_parse_safe]); the same for Version
      Negotiation, Retry and stateless reset ([control_packet_roundtrip],
      [control_parse_safe]).
    - Frames: every well-formed frame round trips in both decoding modes
      ([frame_roundtrip]); the owning decoder is safe on any bytes and returns
      only well-formed frames, the borrowing one except on NEW_CONNECTION_ID
      frames, where it is not ([frame_decode_safe]); the classification of a payload
      ends ([payload_classify_total]) and names exactly the first frame the
      packet type does not allow ([payload_classify_exact]).
    - Lengths: predicted frame lengths are the lengths written
      ([frame_wire_len_exact]); padding reaches the minimum datagram
      ([min_datagram_padding]); the searches return the largest data length
      that fits ([max_frame_data_optimal]).
    - Recovery: with NewReno every history is free of illegal behaviour and
      keeps the invariant [rec_ok] ([recovery_invariant]); a recovery period
      cuts the window once ([recovery_single_cutback]), ends, and the window
      grows again ([recovery_exit_growth]), by exactly the bytes acknowledged
      while the window is fully used ([new_reno_growth_exact]); the probe
      timeout has its closed form exactly where the integers of its jitter fit
      ([pto_closed_form]) and the RTT estimate stays within the samples
      ([rtt_estimator_bounds]).
    - Received packets: along any sequence of packets, ACK frames and discards
      no number is accepted twice and the ranges stay within their array
      ([received_numbers_exact]); an ACK frame is built exactly when one is
      owed, is valid, and the peer reads from it exactly the numbers received
      and not forgotten ([ack_frame_exact]).
    - Sent packets: loss detection removes exactly the packets behind the
      packet or time threshold, queues their frames again and sets the timer
      ([loss_detection_exact]); persistent congestion is reported exactly as
      defined ([persistent_congestion_exact]); an ACK frame is refused or
      leaves exactly the packets neither acknowledged nor lost, with what it
      leaves when memory runs out and when its delay overflows
      ([receive_ack_exact]); in every reachable state the bytes in flight are
      the bytes of the outstanding packets and of those whose ACK frame ran
      out of memory, and no frame data leaks ([outstanding_bytes_exact]);
      CRYPTO data is cut, queued and sent without loss ([crypto_send_exact]).
    - Transport parameters within the bounds of RFC 9000 and RFC 9368 and the
      library's own limits round trip ([transport_params_roundtrip]), and
      parsing any extension is safe and returns only valid values
      ([transport_params_parse_safe]).
    - Pacing and paths: the pacer's rate is bounded ([pacer_rate_bound]) and it
      admits again after a wait ([pacer_admits_after_wait]); path MTU discovery
      ends with the largest size the path carries ([pmtu_discovery_exact]); a
      server sends at most three times what an unvalidated client sent, and one
      Retry datagram ([anti_amplification_exact]).
    - Limits of the code: a delivery during a loan is lost
      ([adapter_receive_during_loan_blocks]), an overflow is final
      ([adapter_overflow_final]), a refused secret still switches the level
      ([adapter_yield_switches_level]), the ALPN list is malformed
      ([alpn_protos_malformed]), a NULL buffer reaches [memcpy]
      ([pair_copy_null_undefined]), the borrowing frame decoder frees a slice
      of the packet ([frame_decode_safe]), frame types above 255 can alias
      STREAM ([frame_type_mask_aliases]), the CUBIC window can stop growing
      ([cubic_window_frozen], [cubic_frozen_reached]) and can fall below the
      minimum window ([cubic_below_minimum_window]), received numbers outside
      the first range are denied ([contains_misses_lower_ranges]), an ACK delay
      overflows ([ack_delay_overflows]), an ACK frame that runs out of memory
      keeps acknowledged bytes in flight ([ack_out_of_memory_keeps_bytes]), all
      spaces share the largest number sent ([sent_number_of_application]),
      acknowledgements that find the window underused grow it in congestion
      avoidance ([underutilized_ack_grows]), the PTO jitter overflows
      ([pto_jitter_overflows]), a Retry exceeds the amplification limit
      ([retry_exceeds_limit]), the
      migration manager exceeds its budget ([migration_amplification_slack]),
      fails a validated path ([late_timeout_fails_path]) and misses a rebinding
      in a reused buffer ([reused_buffer_hides_rebinding]).

    ** Bounds

    [int] counters are kept at their width: each callback may increment one,
    so theorems about whole sessions bound the number of calls.  With an
    OpenSSL that makes at most [d] callbacks per handshake step ([bounded d]),
    an API call of the adapter adds at most d + 4 to a counter, a context call
    of the pair at most d + 1 and an iteration of its loop at most
    [budget d]; a session that keeps the product below 2^31 - 1 cannot
    overflow.  [bounded] is also what makes a handshake step return, as it does
    in OpenSSL.  The recursion over levels has fuel 4 and the loop of the pair
    fuel 80, the bounds the C loops have, so no result is cut short.
    The loop over the frames of a payload has the payload's length as fuel, the
    binary search 64 rounds, the padding loop one round and a test, the
    NewReno loop the quotient of credit and window; the theorems that name
    these loops show that the fuel is never exhausted.  Theorems about NewReno
    take acknowledgements of less than 2^24 bytes each, for which the f32
    increment of slow start is exact; those about ACK frames of a connection
    take less than 2^24 bytes outstanding and times and RTTs below 2^60 ns.
    The loop over received ranges has the 32 entries as fuel,
    the parser of transport parameters the bytes of the extension, path MTU
    discovery a round per allowed failure and size, the loop that
    cuts CRYPTO data a round per byte at most.  The pacer's theorems take
    windows of at most 2^62 bytes and times that do not run backwards.
    Array contents are lists read with a default of 0, with the capacity in
    each access; padding and addresses are not represented.

    ** Not modelled

    OpenSSL, the allocator and the C library beyond the calls above; the
    introspection of error strings; data races (the C code is single
    threaded).  Of the transport core in Zig the codecs, the received and sent
    packets, recovery, pacing, path MTU discovery, migration and the
    amplification limit are modelled; random numbers and clocks are arguments.
    Of the connection the streams with their flow control, the protected packet builders,
    the PTO timer, close and idle states and key updates are outside this
    library so far, as are endpoints, multipath, tokens, packet protection and
    HTTP/3.  Planned, in this order: flow control and stream reassembly; the PTO
    timer and its probes; the loop that drives a [CryptoBackend] from the
    connection; multipath and tokens. *)
From stdpp Require Export base tactics list option numbers.
From Stdlib Require Export ZArith Lia.
From Stdlib Require Export Strings.Byte.

#[export] Set Default Goal Selector "!".
#[global] Open Scope Z_scope.

#[export] Instance byte_eq_decision : EqDecision byte := Byte.byte_eq_dec.

(** ** Undefined behaviour and total correctness

    A C function body is a term of [option]: [None] is undefined behaviour (an
    access outside an array, a [NULL] dereference, a signed overflow), [Some r]
    a normal return.  [wp m Q] says that [m] has no undefined behaviour and
    that its result satisfies [Q]. *)
Definition wp {A : Type} (m : option A) (Q : A -> Prop) : Prop :=
  match m with Some a => Q a | None => False end.

Lemma wp_ret {A} (a : A) (Q : A -> Prop) : Q a -> wp (Some a) Q.
Proof. done. Qed.

Lemma wp_mret {A} (a : A) (Q : A -> Prop) : Q a -> wp (mret a) Q.
Proof. done. Qed.

Lemma wp_bind {A B} (m : option A) (f : A -> option B) (Q : B -> Prop) :
  wp m (fun a => wp (f a) Q) -> wp (m ≫= f) Q.
Proof. by destruct m. Qed.

Lemma wp_mono {A} (m : option A) (P Q : A -> Prop) :
  wp m P -> (forall a, P a -> Q a) -> wp m Q.
Proof. destruct m; naive_solver. Qed.

Lemma wp_elim {A} (m : option A) (Q : A -> Prop) :
  wp m Q -> exists a, m = Some a /\ Q a.
Proof. destruct m as [a|]; [|done]. intros HQ. by exists a. Qed.

Lemma wp_use {A} (m : option A) (Q : A -> Prop) a : wp m Q -> m = Some a -> Q a.
Proof. by intros H ->. Qed.

Lemma wp_intro {A} (m : option A) (Q : A -> Prop) a : m = Some a -> Q a -> wp m Q.
Proof. by intros ->. Qed.

Lemma wp_and {A} (m : option A) (P Q : A -> Prop) : wp m P -> wp m Q -> wp m (fun a => P a /\ Q a).
Proof. destruct m; naive_solver. Qed.

Lemma wp_if {A} (b : bool) (m1 m2 : option A) (Q : A -> Prop) :
  (b = true -> wp m1 Q) -> (b = false -> wp m2 Q) -> wp (if b then m1 else m2) Q.
Proof. destruct b; naive_solver. Qed.

(** ** Machine integers *)

(** [size_t] and [uint64_t]: arithmetic modulo 2^64. *)
Definition SIZE_MAX : Z := 18446744073709551615.
Definition uadd64 (a b : Z) : Z := (a + b) mod 18446744073709551616.
Definition usub64 (a b : Z) : Z := (a - b) mod 18446744073709551616.

Lemma uadd64_small a b : 0 <= a + b <= SIZE_MAX -> uadd64 a b = a + b.
Proof. unfold uadd64, SIZE_MAX. intros. apply Z.mod_small. lia. Qed.

Lemma usub64_small a b : 0 <= b <= a -> a <= SIZE_MAX -> usub64 a b = a - b.
Proof. unfold usub64, SIZE_MAX. intros. apply Z.mod_small. lia. Qed.

(** [int]: overflow of [+=] is undefined behaviour. *)
Definition INT_MAX : Z := 2147483647.
Definition int_inc (c : Z) : option Z := if c <? INT_MAX then Some (c + 1) else None.

Lemma wp_int_inc c (Q : Z -> Prop) : c < INT_MAX -> Q (c + 1) -> wp (int_inc c) Q.
Proof. intros Hc HQ. unfold int_inc. destruct (Z.ltb_spec c INT_MAX); [done|lia]. Qed.

(** C truth values: a comparison is an [int] that is 0 or 1. *)
Definition ctrue (z : Z) : bool := negb (z =? 0).
Definition cbool (b : bool) : Z := if b then 1 else 0.

(** ** Lists with [Z] lengths *)
Definition zlen {A : Type} (l : list A) : Z := Z.of_nat (length l).

Lemma zlen_nonneg {A} (l : list A) : 0 <= zlen l.
Proof. unfold zlen. lia. Qed.

Lemma zlen_app {A} (l k : list A) : zlen (l ++ k) = zlen l + zlen k.
Proof. unfold zlen. rewrite length_app. lia. Qed.

Lemma zlen_cons {A} (x : A) (l : list A) : zlen (x :: l) = zlen l + 1.
Proof. unfold zlen. cbn [length]. lia. Qed.

Lemma zlen_nil {A} : zlen (@nil A) = 0.
Proof. done. Qed.

Lemma zlen_nil_inv {A} (l : list A) : zlen l = 0 -> l = [].
Proof. destruct l; [done|]. unfold zlen. simpl. lia. Qed.

Definition ztake {A : Type} (n : Z) (l : list A) : list A := take (Z.to_nat n) l.
Definition zdrop {A : Type} (n : Z) (l : list A) : list A := drop (Z.to_nat n) l.

Lemma zlen_ztake {A} n (l : list A) : 0 <= n <= zlen l -> zlen (ztake n l) = n.
Proof. unfold zlen, ztake. rewrite length_take. lia. Qed.

Lemma zlen_zdrop {A} n (l : list A) : 0 <= n <= zlen l -> zlen (zdrop n l) = zlen l - n.
Proof. unfold zlen, zdrop. rewrite length_drop. lia. Qed.

Lemma ztake_zdrop {A} n (l : list A) : ztake n l ++ zdrop n l = l.
Proof. apply take_drop. Qed.

Lemma ztake_all {A} (l : list A) : ztake (zlen l) l = l.
Proof. unfold ztake, zlen. rewrite Nat2Z.id. by apply take_ge. Qed.

Lemma ztake_app_all {A} (l k : list A) : ztake (zlen l) (l ++ k) = l.
Proof. unfold ztake, zlen. rewrite Nat2Z.id. by rewrite take_app_length. Qed.

Lemma ztake_0 {A} (l : list A) : ztake 0 l = [].
Proof. done. Qed.

(** Indexing by a C integer: out of range is undefined behaviour. *)
Definition zget {A : Type} (l : list A) (i : Z) : option A :=
  if i <? 0 then None else l !! Z.to_nat i.
Definition zset {A : Type} (l : list A) (i : Z) (x : A) : list A := <[Z.to_nat i := x]> l.

Lemma zlen_zset {A} (l : list A) i x : zlen (zset l i x) = zlen l.
Proof. unfold zlen, zset. by rewrite length_insert. Qed.

Lemma zget_lt {A} (l : list A) i : 0 <= i < zlen l -> is_Some (zget l i).
Proof.
  unfold zget, zlen. intros. destruct (Z.ltb_spec i 0); [lia|].
  apply lookup_lt_is_Some. lia.
Qed.

Lemma zget_Some_lt {A} (l : list A) i x : zget l i = Some x -> 0 <= i < zlen l.
Proof.
  unfold zget, zlen. destruct (Z.ltb_spec i 0); [done|].
  intros Hx%lookup_lt_Some. lia.
Qed.

Lemma zget_zset_eq {A} (l : list A) i x : 0 <= i < zlen l -> zget (zset l i x) i = Some x.
Proof.
  unfold zget, zset, zlen. intros. destruct (Z.ltb_spec i 0); [lia|].
  apply list_lookup_insert_eq. lia.
Qed.

Lemma zget_zset_ne {A} (l : list A) i j x : i <> j -> 0 <= i -> zget (zset l i x) j = zget l j.
Proof.
  unfold zget, zset. intros. destruct (Z.ltb_spec j 0); [done|].
  apply list_lookup_insert_ne. lia.
Qed.

Lemma zget_zset {A} (l : list A) i j x :
  0 <= i < zlen l -> zget (zset l i x) j = if i =? j then Some x else zget l j.
Proof.
  intros Hi. destruct (Z.eqb_spec i j) as [<-|Hne].
  - by apply zget_zset_eq.
  - apply zget_zset_ne; lia.
Qed.

Lemma zset_get {A} (l : list A) i x : zget l i = Some x -> zset l i x = l.
Proof.
  unfold zget, zset. destruct (Z.ltb_spec i 0); [done|]. apply list_insert_id.
Qed.

Lemma list_eq_zget {A} (l k : list A) : (forall i, zget l i = zget k i) -> l = k.
Proof.
  intros H. apply list_eq. intros i. specialize (H (Z.of_nat i)). unfold zget in H.
  destruct (Z.ltb_spec (Z.of_nat i) 0); [lia|]. by rewrite Nat2Z.id in H.
Qed.

(** ** Byte arrays

    A C array of [cap] bytes in static or [calloc]ed storage is the list of
    its bytes up to the last one ever written; every byte past the end of the
    list is the zero the storage was created with. *)
Definition slice (a : list byte) (off n : Z) : list byte :=
  ztake n (zdrop off a ++ replicate (Z.to_nat n) x00).

(** Overwrite the bytes at [off]. *)
Definition splice (a : list byte) (off : Z) (bs : list byte) : list byte :=
  slice a 0 off ++ bs ++ zdrop (off + zlen bs) a.

(** The byte at index [i] of a zero-extended array. *)
Definition byte_at (a : list byte) (i : nat) : byte := default x00 (a !! i).

Lemma zlen_slice a off n : 0 <= n -> zlen (slice a off n) = n.
Proof.
  intros. unfold slice, ztake, zlen. rewrite length_take, length_app, length_replicate. lia.
Qed.

Lemma slice_lookup a off n (i : nat) : 0 <= off -> 0 <= n ->
  slice a off n !! i = if (Z.of_nat i <? n) then Some (byte_at a (Z.to_nat off + i)) else None.
Proof.
  intros Ho Hn. unfold slice, ztake, zdrop, byte_at.
  destruct (Z.ltb_spec (Z.of_nat i) n).
  - rewrite lookup_take_lt by lia. destruct (decide (i < length (drop (Z.to_nat off) a))%nat).
    + rewrite lookup_app_l by done. rewrite lookup_drop.
      destruct (lookup_lt_is_Some_2 a (Z.to_nat off + i)) as [x Hx].
      { rewrite length_drop in *. lia. }
      by rewrite Hx.
    + rewrite lookup_app_r by lia. rewrite length_drop in *.
      rewrite lookup_replicate_2 by lia. rewrite (lookup_ge_None_2 a) by lia. done.
  - apply lookup_take_ge. lia.
Qed.

Lemma slice_ext a b off off' n : 0 <= off -> 0 <= off' -> 0 <= n ->
  (forall i, (Z.of_nat i < n) -> byte_at a (Z.to_nat off + i) = byte_at b (Z.to_nat off' + i)) ->
  slice a off n = slice b off' n.
Proof.
  intros Ho Ho' Hn Heq. apply list_eq. intros i. rewrite !slice_lookup by done.
  destruct (Z.ltb_spec (Z.of_nat i) n); [|done]. by rewrite Heq.
Qed.

Lemma byte_at_app_l a b i : (i < length a)%nat -> byte_at (a ++ b) i = byte_at a i.
Proof. intros. unfold byte_at. by rewrite lookup_app_l. Qed.

Lemma byte_at_app_r a b i : (length a <= i)%nat -> byte_at (a ++ b) i = byte_at b (i - length a).
Proof. intros. unfold byte_at. by rewrite lookup_app_r. Qed.

Lemma length_slice a off n : length (slice a off n) = Z.to_nat n.
Proof. unfold slice, ztake. rewrite length_take, length_app, length_replicate. lia. Qed.

Lemma byte_at_slice a off n i : 0 <= off -> Z.of_nat i < n ->
  byte_at (slice a off n) i = byte_at a (Z.to_nat off + i).
Proof.
  intros. unfold byte_at at 1. rewrite slice_lookup by lia.
  by destruct (Z.ltb_spec (Z.of_nat i) n); [|lia].
Qed.

Lemma byte_at_drop a n i : byte_at (drop n a) i = byte_at a (n + i).
Proof. unfold byte_at. by rewrite lookup_drop. Qed.

Lemma byte_at_splice a off bs i : 0 <= off ->
  byte_at (splice a off bs) i =
    if Z.of_nat i <? off then byte_at a i
    else if Z.of_nat i <? off + zlen bs then byte_at bs (i - Z.to_nat off) else byte_at a i.
Proof.
  intros Ho. unfold splice, zlen. destruct (Z.ltb_spec (Z.of_nat i) off).
  - rewrite byte_at_app_l by (rewrite length_slice; lia). rewrite byte_at_slice by lia.
    f_equal.
  - rewrite byte_at_app_r by (rewrite length_slice; lia). rewrite length_slice.
    destruct (Z.ltb_spec (Z.of_nat i) (off + Z.of_nat (length bs))).
    + by rewrite byte_at_app_l by lia.
    + rewrite byte_at_app_r by lia. unfold zdrop. rewrite byte_at_drop. f_equal. lia.
Qed.

(** Bytes before the written range are kept. *)
Lemma slice_splice_before a off bs o n : 0 <= o -> 0 <= n -> o + n <= off ->
  slice (splice a off bs) o n = slice a o n.
Proof.
  intros. apply slice_ext; [lia..|]. intros i Hi. rewrite byte_at_splice by lia.
  by destruct (Z.ltb_spec (Z.of_nat (Z.to_nat o + i)) off); [|lia].
Qed.

(** Bytes after it too. *)
Lemma slice_splice_after a off bs o n : 0 <= off -> 0 <= n -> off + zlen bs <= o ->
  slice (splice a off bs) o n = slice a o n.
Proof.
  intros. pose proof (zlen_nonneg bs). apply slice_ext; [lia..|]. intros i Hi.
  rewrite byte_at_splice by lia.
  destruct (Z.ltb_spec (Z.of_nat (Z.to_nat o + i)) off); [lia|].
  by destruct (Z.ltb_spec (Z.of_nat (Z.to_nat o + i)) (off + zlen bs)); [lia|].
Qed.

(** The written range holds what was written. *)
Lemma slice_splice_exact a off bs : 0 <= off -> slice (splice a off bs) off (zlen bs) = bs.
Proof.
  intros. apply list_eq. intros i. rewrite slice_lookup by (done || apply zlen_nonneg).
  unfold zlen. destruct (Z.ltb_spec (Z.of_nat i) (Z.of_nat (length bs))).
  - rewrite byte_at_splice by done. unfold zlen.
    destruct (Z.ltb_spec (Z.of_nat (Z.to_nat off + i)) off); [lia|].
    destruct (Z.ltb_spec (Z.of_nat (Z.to_nat off + i)) (off + Z.of_nat (length bs))); [|lia].
    destruct (lookup_lt_is_Some_2 bs i) as [x Hx]; [lia|].
    unfold byte_at. replace (Z.to_nat off + i - Z.to_nat off)%nat with i by lia. by rewrite Hx.
  - symmetry. apply lookup_ge_None_2. lia.
Qed.

Lemma slice_splice_len a off bs n : 0 <= off -> zlen bs = n -> slice (splice a off bs) off n = bs.
Proof. intros Ho <-. by apply slice_splice_exact. Qed.

Lemma slice_app a off n m : 0 <= off -> 0 <= n -> 0 <= m ->
  slice a off (n + m) = slice a off n ++ slice a (off + n) m.
Proof.
  intros. apply list_eq. intros i. rewrite slice_lookup by lia.
  destruct (Z.ltb_spec (Z.of_nat i) n).
  - rewrite lookup_app_l by (rewrite length_slice; lia). rewrite slice_lookup by lia.
    destruct (Z.ltb_spec (Z.of_nat i) (n + m)), (Z.ltb_spec (Z.of_nat i) n); lia || done.
  - rewrite lookup_app_r by (rewrite length_slice; lia). rewrite length_slice, slice_lookup by lia.
    destruct (Z.ltb_spec (Z.of_nat i) (n + m)), (Z.ltb_spec (Z.of_nat (i - Z.to_nat n)) m);
      try lia; [|done]. do 2 f_equal. lia.
Qed.

(** Appending at the end of the used prefix extends that prefix. *)
Lemma slice_splice_append a n bs : 0 <= n ->
  slice (splice a n bs) 0 (n + zlen bs) = slice a 0 n ++ bs.
Proof.
  intros. rewrite slice_app by (lia || apply zlen_nonneg). f_equal.
  - apply slice_splice_before; lia.
  - by apply slice_splice_exact.
Qed.

Lemma slice_0 a off : slice a off 0 = [].
Proof. done. Qed.

Lemma ztake_slice a off n k : 0 <= off -> 0 <= k <= n -> ztake k (slice a off n) = slice a off k.
Proof.
  intros. replace n with (k + (n - k)) by lia. rewrite slice_app by lia.
  unfold ztake. rewrite take_app_le by (rewrite length_slice; lia).
  apply take_ge. rewrite length_slice. lia.
Qed.

Lemma zdrop_slice a off n k : 0 <= off -> 0 <= k <= n ->
  zdrop k (slice a off n) = slice a (off + k) (n - k).
Proof.
  intros. replace n with (k + (n - k)) at 1 by lia. rewrite slice_app by lia.
  unfold zdrop. rewrite drop_app_ge by (rewrite length_slice; lia).
  rewrite length_slice. by replace (Z.to_nat k - Z.to_nat k)%nat with 0%nat by lia.
Qed.

(** Writing at the start of a window replaces its first bytes. *)
Lemma slice_splice_prefix a bs n : zlen bs <= n ->
  slice (splice a 0 bs) 0 n = bs ++ zdrop (zlen bs) (slice a 0 n).
Proof.
  intros. pose proof (zlen_nonneg bs).
  replace n with (zlen bs + (n - zlen bs)) at 1 by lia. rewrite slice_app by lia.
  rewrite slice_splice_exact by lia. f_equal.
  rewrite zdrop_slice by lia. rewrite Z.add_0_l. by apply slice_splice_after; lia.
Qed.

(** ** [memcpy], [memmove] and [memset]

    A pointer a caller passes is [None] for [NULL] or [Some bs] for an object
    of [length bs] bytes; the library functions need valid pointers even for a
    length of zero (C11 7.24.1p2). *)
Definition ptr : Type := option (list byte).

Definition read_ptr (p : ptr) (n : Z) : option (list byte) :=
  bs ← p; if (0 <=? n) && (n <=? zlen bs) then Some (ztake n bs) else None.

Definition write_ptr (p : ptr) (bs : list byte) : option ptr :=
  old ← p; if zlen bs <=? zlen old then Some (Some (bs ++ zdrop (zlen bs) old)) else None.

Definition read_array (cap : Z) (a : list byte) (off n : Z) : option (list byte) :=
  if (0 <=? off) && (0 <=? n) && (off + n <=? cap) then Some (slice a off n) else None.

Definition write_array (cap : Z) (a : list byte) (off : Z) (bs : list byte) : option (list byte) :=
  if (0 <=? off) && (off + zlen bs <=? cap) then Some (splice a off bs) else None.

Lemma wp_read_ptr bs n (Q : list byte -> Prop) :
  0 <= n <= zlen bs -> Q (ztake n bs) -> wp (read_ptr (Some bs) n) Q.
Proof.
  intros. unfold read_ptr. simpl. destruct (Z.leb_spec 0 n), (Z.leb_spec n (zlen bs)); done || lia.
Qed.

Lemma wp_write_ptr old bs (Q : ptr -> Prop) :
  zlen bs <= zlen old -> Q (Some (bs ++ zdrop (zlen bs) old)) -> wp (write_ptr (Some old) bs) Q.
Proof. intros. unfold write_ptr. simpl. destruct (Z.leb_spec (zlen bs) (zlen old)); done || lia. Qed.

Lemma wp_read_array cap a off n (Q : list byte -> Prop) :
  0 <= off -> 0 <= n -> off + n <= cap -> Q (slice a off n) -> wp (read_array cap a off n) Q.
Proof.
  intros. unfold read_array.
  destruct (Z.leb_spec 0 off), (Z.leb_spec 0 n), (Z.leb_spec (off + n) cap); done || lia.
Qed.

Lemma wp_write_array cap a off bs (Q : list byte -> Prop) :
  0 <= off -> off + zlen bs <= cap -> Q (splice a off bs) -> wp (write_array cap a off bs) Q.
Proof.
  intros. unfold write_array. destruct (Z.leb_spec 0 off), (Z.leb_spec (off + zlen bs) cap); done || lia.
Qed.

Lemma wp_zget {A} (l : list A) i (Q : A -> Prop) :
  0 <= i < zlen l -> (forall x, zget l i = Some x -> Q x) -> wp (zget l i) Q.
Proof. intros [x Hx]%zget_lt HQ. rewrite Hx. by apply HQ. Qed.

(** A [size_t *] out parameter: [None] for [NULL], [Some v] for a cell holding [v]. *)
Definition cell : Type := option Z.
Definition store (c : cell) (v : Z) : option cell := _ ← c; Some (Some v).

(** ** Record update

    [r <| f := v |>] is the record [r] with field [f] replaced, the model of
    the assignment [r->f = v].  A record type declares its eta expansion as an
    instance of [Eta]; the setter of a field is that expansion with the field
    replaced. *)
Class Eta (R : Type) := eta : R -> R.

Class Setter {R E : Type} (proj : R -> E) := set_field : (E -> E) -> R -> R.

Ltac term_head t := lazymatch t with ?f _ => term_head f | _ => t end.

Ltac build_setter R proj :=
  let e := constr:(_ : Eta R) in
  let f := fresh "f" in
  let r := fresh "r" in
  refine (fun f (r : R) => _);
  let e := eval cbv beta delta [eta] in (@eta R e r) in
  let h := term_head e in
  let e := eval cbv beta delta [h] in e in
  match e with
  | context C [proj r] => let t := context C [f (proj r)] in exact t
  end.

#[export] Hint Extern 1 (@Setter ?R _ ?proj) => build_setter R proj : typeclass_instances.

Declare Scope record_scope.
#[global] Open Scope record_scope.
Notation "r <| f := v |>" := (set_field (proj := f) (fun _ => v) r)
  (at level 1, left associativity, f at level 1, v at level 99, format "r <| f  :=  v |>") : record_scope.


(** ** Proof automation for [wp] goals

    [wp_go] runs a body symbolically: it splits conditionals, discharges the
    bounds of every memory access with [lia] and leaves the postconditions. *)
Ltac zsimp :=
  repeat match goal with
  | H : context [zlen (ztake _ _)] |- _ => rewrite zlen_ztake in H by lia
  | |- context [zlen (ztake _ _)] => rewrite zlen_ztake by lia
  | H : context [zlen (slice _ _ _)] |- _ => rewrite zlen_slice in H by lia
  | |- context [zlen (slice _ _ _)] => rewrite zlen_slice by lia
  | |- context [usub64 ?a ?b] => rewrite (usub64_small a b) by (unfold SIZE_MAX; lia)
  | H : context [usub64 ?a ?b] |- _ => rewrite (usub64_small a b) in H by (unfold SIZE_MAX; lia)
  | |- context [uadd64 ?a ?b] => rewrite (uadd64_small a b) by (unfold SIZE_MAX; lia)
  | H : context [uadd64 ?a ?b] |- _ => rewrite (uadd64_small a b) in H by (unfold SIZE_MAX; lia)
  end.

Ltac zside := zsimp; lia.

(** Redefined by the components to reduce the projections of their structs. *)
Ltac wp_norm := idtac.

(** Facts known of every element of the list that was just indexed. *)
Ltac use_bounds Hx :=
  match type of Hx with
  | zget ?l ?i = Some ?x =>
      try match goal with
      | Hc : forall i n, zget l i = Some n -> _ |- _ =>
          let Hb := fresh "Hbound" in pose proof (Hc i x Hx) as Hb
      end
  end.

Ltac wp_step :=
  lazymatch goal with
  | |- wp (let x := _ in _) _ => cbv zeta; wp_norm
  | |- wp (_ ≫= _) _ => apply wp_bind; cbn beta
  | |- wp (Some _) _ => apply wp_ret; cbn beta
  | |- wp (mret _) _ => apply wp_mret; cbn beta
  | |- wp (if ?b then _ else _) _ => let E := fresh "E" in destruct b eqn:E; zsimp
  | |- wp (read_ptr (Some _) _) _ => apply wp_read_ptr; [zside|cbn beta]
  | |- wp (write_ptr (Some _) _) _ => apply wp_write_ptr; [zside|cbn beta]
  | |- wp (read_array _ _ _ _) _ => apply wp_read_array; [zside|zside|zside|cbn beta]
  | |- wp (write_array _ _ _ _) _ => apply wp_write_array; [zside|zside|cbn beta]
  | |- wp (int_inc _) _ => apply wp_int_inc; [unfold INT_MAX in *; lia|cbn beta]
  | |- wp (zget _ _) _ =>
      let x := fresh "x" in let Hx := fresh "Hx" in
      apply wp_zget; [zside|intros x Hx; cbn beta; use_bounds Hx]
  | |- wp (store (Some _) _) _ => apply wp_ret; cbn beta
  end.

Ltac wp_go := repeat (wp_norm; wp_step).
