(* ===== verification/CAbi.v ===== *)
(** * The C TLS backend ABI (examples/tls_backend_c_abi.h)

    Status codes, packet-number-space tags and the two traffic-secret structs
    that every C backend and the transport core exchange. *)
From S2P Require Import Prelude.
Local Open Scope Z_scope.

(** [enum quicz_tls_backend_status]. *)
Inductive quicz_tls_backend_status : Type :=
  | QUICZ_TLS_BACKEND_OK
  | QUICZ_TLS_BACKEND_PENDING
  | QUICZ_TLS_BACKEND_BUFFER_TOO_SMALL
  | QUICZ_TLS_BACKEND_CRYPTO_ERROR
  | QUICZ_TLS_BACKEND_INTERNAL.

#[export] Instance status_eq_dec : EqDecision quicz_tls_backend_status.
Proof. solve_decision. Defined.

(** The integer that crosses the ABI. *)
Definition status_code (s : quicz_tls_backend_status) : Z :=
  match s with
  | QUICZ_TLS_BACKEND_OK => 0
  | QUICZ_TLS_BACKEND_PENDING => 1
  | QUICZ_TLS_BACKEND_BUFFER_TOO_SMALL => 2
  | QUICZ_TLS_BACKEND_CRYPTO_ERROR => 3
  | QUICZ_TLS_BACKEND_INTERNAL => 4
  end.

(** [enum quicz_tls_backend_packet_space]: a C enum argument can hold any
    [int], so the operations take the code and these are its three names. *)
Definition QUICZ_TLS_BACKEND_INITIAL : Z := 0.
Definition QUICZ_TLS_BACKEND_HANDSHAKE : Z := 1.
Definition QUICZ_TLS_BACKEND_APPLICATION : Z := 2.

(** [struct quicz_handshake_traffic_secrets]. *)
Record quicz_handshake_traffic_secrets : Type := HandshakeSecrets {
  hs_local : list byte;   (** [uint8_t local[32]] *)
  hs_peer : list byte;    (** [uint8_t peer[32]] *)
}.

(** [struct quicz_one_rtt_traffic_secrets]. *)
Record quicz_one_rtt_traffic_secrets : Type := OneRttSecrets {
  ort_local : list byte;  (** [uint8_t local[32]] *)
  ort_peer : list byte;   (** [uint8_t peer[32]] *)
}.

#[export] Instance eta_hs : Eta quicz_handshake_traffic_secrets :=
  fun r => HandshakeSecrets (hs_local r) (hs_peer r).
#[export] Instance eta_ort : Eta quicz_one_rtt_traffic_secrets :=
  fun r => OneRttSecrets (ort_local r) (ort_peer r).

Definition SECRET_LEN : Z := 32.
