(* ===== verification/DemoBackend.v ===== *)
(** * The C demo backend (examples/tls_c_abi_demo_backend.c)

    The file's static variables are the record [globals]; each function is one
    definition in the undefined-behaviour monad. *)
From S2P Require Import Prelude CAbi.
Local Open Scope Z_scope.

Module Demo.

(** The static arrays and flags of the file. *)
Record globals : Type := Globals {
  local_transport_parameters : list byte;       (** [256] *)
  local_transport_parameters_len : Z;
  inbound_crypto : list byte;                   (** [128] *)
  inbound_crypto_len : Z;
  peer_transport_parameters : list byte;        (** [128] *)
  peer_transport_parameters_len : Z;
  peer_transport_parameters_sent : bool;
  outbound_crypto : list byte;                  (** [128] *)
  outbound_crypto_len : Z;
  outbound_crypto_sent : bool;
  handshake_secrets : quicz_handshake_traffic_secrets;
  handshake_secrets_sent : bool;
}.

#[export] Instance eta_globals : Eta globals := fun g => Globals
  (local_transport_parameters g) (local_transport_parameters_len g)
  (inbound_crypto g) (inbound_crypto_len g)
  (peer_transport_parameters g) (peer_transport_parameters_len g)
  (peer_transport_parameters_sent g)
  (outbound_crypto g) (outbound_crypto_len g) (outbound_crypto_sent g)
  (handshake_secrets g) (handshake_secrets_sent g).

(** Static storage before any call. *)
Definition static_init : globals :=
  Globals [] 0 [] 0 [] 0 false [] 0 false (HandshakeSecrets [] []) false.

Definition quicz_tls_c_demo_reset (g : globals) : globals :=
  g <| local_transport_parameters_len := 0 |>
    <| inbound_crypto_len := 0 |>
    <| peer_transport_parameters_len := 0 |>
    <| peer_transport_parameters_sent := false |>
    <| outbound_crypto_len := 0 |>
    <| outbound_crypto_sent := false |>
    <| handshake_secrets := HandshakeSecrets [] [] |>
    <| handshake_secrets_sent := false |>.

Definition quicz_tls_c_demo_set_peer_transport_parameters
    (g : globals) (data : ptr) (data_len : Z) : option (quicz_tls_backend_status * globals) :=
  if data_len >? 128 then Some (QUICZ_TLS_BACKEND_BUFFER_TOO_SMALL, g) else
  bs ← read_ptr data data_len;
  a ← write_array 128 (peer_transport_parameters g) 0 bs;
  Some (QUICZ_TLS_BACKEND_OK,
        g <| peer_transport_parameters := a |>
          <| peer_transport_parameters_len := data_len |>
          <| peer_transport_parameters_sent := false |>).

Definition quicz_tls_c_demo_set_outbound_crypto
    (g : globals) (data : ptr) (data_len : Z) : option (quicz_tls_backend_status * globals) :=
  if data_len >? 128 then Some (QUICZ_TLS_BACKEND_BUFFER_TOO_SMALL, g) else
  bs ← read_ptr data data_len;
  a ← write_array 128 (outbound_crypto g) 0 bs;
  Some (QUICZ_TLS_BACKEND_OK,
        g <| outbound_crypto := a |>
          <| outbound_crypto_len := data_len |>
          <| outbound_crypto_sent := false |>).

Definition quicz_tls_c_demo_set_handshake_secrets
    (g : globals) (local peer : ptr) (secret_len : Z) : option globals :=
  let secret_len := if secret_len >? SECRET_LEN then SECRET_LEN else secret_len in
  l ← read_ptr local secret_len;
  l' ← write_array SECRET_LEN (hs_local (handshake_secrets g)) 0 l;
  p ← read_ptr peer secret_len;
  p' ← write_array SECRET_LEN (hs_peer (handshake_secrets g)) 0 p;
  Some (g <| handshake_secrets := HandshakeSecrets l' p' |>
          <| handshake_secrets_sent := false |>).

Definition quicz_tls_c_demo_receive
    (g : globals) (space : Z) (data : ptr) (data_len : Z)
    : option (quicz_tls_backend_status * globals) :=
  if negb (space =? QUICZ_TLS_BACKEND_HANDSHAKE) then Some (QUICZ_TLS_BACKEND_CRYPTO_ERROR, g) else
  if data_len >? usub64 128 (inbound_crypto_len g)
  then Some (QUICZ_TLS_BACKEND_BUFFER_TOO_SMALL, g) else
  bs ← read_ptr data data_len;
  a ← write_array 128 (inbound_crypto g) (inbound_crypto_len g) bs;
  Some (QUICZ_TLS_BACKEND_OK,
        g <| inbound_crypto := a |>
          <| inbound_crypto_len := uadd64 (inbound_crypto_len g) data_len |>).

Definition quicz_tls_c_demo_pull
    (g : globals) (space : Z) (out : ptr) (out_len : Z) (written_len : cell)
    : option (quicz_tls_backend_status * ptr * cell * globals) :=
  if negb (space =? QUICZ_TLS_BACKEND_HANDSHAKE)
  then Some (QUICZ_TLS_BACKEND_CRYPTO_ERROR, out, written_len, g) else
  if outbound_crypto_sent g
  then Some (QUICZ_TLS_BACKEND_PENDING, out, written_len, g) else
  if out_len <? outbound_crypto_len g
  then Some (QUICZ_TLS_BACKEND_BUFFER_TOO_SMALL, out, written_len, g) else
  bs ← read_array 128 (outbound_crypto g) 0 (outbound_crypto_len g);
  out ← write_ptr out bs;
  written_len ← store written_len (outbound_crypto_len g);
  Some (QUICZ_TLS_BACKEND_OK, out, written_len, g <| outbound_crypto_sent := true |>).

Definition quicz_tls_c_demo_set_local_transport_parameters
    (g : globals) (data : ptr) (data_len : Z) : option (quicz_tls_backend_status * globals) :=
  if data_len >? 256 then Some (QUICZ_TLS_BACKEND_BUFFER_TOO_SMALL, g) else
  bs ← read_ptr data data_len;
  a ← write_array 256 (local_transport_parameters g) 0 bs;
  Some (QUICZ_TLS_BACKEND_OK,
        g <| local_transport_parameters := a |>
          <| local_transport_parameters_len := data_len |>).

Definition quicz_tls_c_demo_pull_peer_transport_parameters
    (g : globals) (out : ptr) (out_len : Z) (written_len : cell)
    : option (quicz_tls_backend_status * ptr * cell * globals) :=
  if peer_transport_parameters_sent g
  then Some (QUICZ_TLS_BACKEND_PENDING, out, written_len, g) else
  if out_len <? peer_transport_parameters_len g
  then Some (QUICZ_TLS_BACKEND_BUFFER_TOO_SMALL, out, written_len, g) else
  bs ← read_array 128 (peer_transport_parameters g) 0 (peer_transport_parameters_len g);
  out ← write_ptr out bs;
  written_len ← store written_len (peer_transport_parameters_len g);
  Some (QUICZ_TLS_BACKEND_OK, out, written_len, g <| peer_transport_parameters_sent := true |>).

Definition quicz_tls_c_demo_pull_handshake_traffic_secrets
    (g : globals) (out : option quicz_handshake_traffic_secrets)
    : option (quicz_tls_backend_status * option quicz_handshake_traffic_secrets * globals) :=
  if handshake_secrets_sent g then Some (QUICZ_TLS_BACKEND_PENDING, out, g) else
  _ ← out;
  Some (QUICZ_TLS_BACKEND_OK, Some (handshake_secrets g), g <| handshake_secrets_sent := true |>).

Definition quicz_tls_c_demo_handshake_confirmed (g : globals) : bool := true.

Definition quicz_tls_c_demo_local_transport_parameters_len (g : globals) : Z :=
  local_transport_parameters_len g.

Definition quicz_tls_c_demo_inbound_crypto_len (g : globals) : Z := inbound_crypto_len g.

(** [memcmp] runs only when the lengths agree. *)
Definition quicz_tls_c_demo_inbound_crypto_matches
    (g : globals) (data : ptr) (data_len : Z) : option bool :=
  if inbound_crypto_len g =? data_len then
    a ← read_array 128 (inbound_crypto g) 0 data_len;
    bs ← read_ptr data data_len;
    Some (bool_decide (a = bs))
  else Some false.

(** ** Abstract specification

    What the backend promises at the level of byte strings: one inbound log,
    and two byte strings and a pair of secrets that can each be pulled once
    after they are set. *)
Record spec : Type := Spec {
  sp_local : list byte;
  sp_inbound : list byte;
  sp_peer : list byte;
  sp_peer_sent : bool;
  sp_out : list byte;
  sp_out_sent : bool;
  sp_secrets : list byte * list byte;
  sp_secrets_sent : bool;
}.

(** A call with its arguments; input pointers are valid for their length and
    output buffers are given with their contents. *)
Inductive demo_op : Type :=
  | OpReset
  | OpSetPeer (data : list byte)
  | OpSetOutbound (data : list byte)
  | OpSetSecrets (local peer : list byte)
  | OpReceive (space : Z) (data : list byte)
  | OpPull (space : Z) (out : list byte)
  | OpSetLocal (data : list byte)
  | OpPullPeer (out : list byte)
  | OpPullSecrets
  | OpMatches (data : list byte)
  | OpLens.

(** What the caller observes. *)
Inductive demo_res : Type :=
  | RUnit
  | RStatus (s : quicz_tls_backend_status)
  | RPull (s : quicz_tls_backend_status) (out : list byte) (written : Z)
  | RSecrets (s : quicz_tls_backend_status) (local peer : list byte)
  | RBool (b : bool)
  | RLens (local inbound : Z).

(** Contents of a 32-byte secret as the caller reads it. *)
Definition secret_bytes (a : list byte) : list byte := slice a 0 SECRET_LEN.

(** One call of the C code; [written_len] starts at 0 and the secrets buffer
    is zeroed by the caller. *)
Definition demo_step (g : globals) (op : demo_op) : option (demo_res * globals) :=
  match op with
  | OpReset => Some (RUnit, quicz_tls_c_demo_reset g)
  | OpSetPeer d =>
      '(s, g) ← quicz_tls_c_demo_set_peer_transport_parameters g (Some d) (zlen d);
      Some (RStatus s, g)
  | OpSetOutbound d =>
      '(s, g) ← quicz_tls_c_demo_set_outbound_crypto g (Some d) (zlen d); Some (RStatus s, g)
  | OpSetSecrets l p =>
      g ← quicz_tls_c_demo_set_handshake_secrets g (Some l) (Some p) (zlen l `min` zlen p);
      Some (RUnit, g)
  | OpReceive sp d =>
      '(s, g) ← quicz_tls_c_demo_receive g sp (Some d) (zlen d); Some (RStatus s, g)
  | OpPull sp out =>
      '(s, out, w, g) ← quicz_tls_c_demo_pull g sp (Some out) (zlen out) (Some 0);
      Some (RPull s (default [] out) (default 0 w), g)
  | OpSetLocal d =>
      '(s, g) ← quicz_tls_c_demo_set_local_transport_parameters g (Some d) (zlen d);
      Some (RStatus s, g)
  | OpPullPeer out =>
      '(s, out, w, g) ← quicz_tls_c_demo_pull_peer_transport_parameters g (Some out) (zlen out) (Some 0);
      Some (RPull s (default [] out) (default 0 w), g)
  | OpPullSecrets =>
      '(s, out, g) ← quicz_tls_c_demo_pull_handshake_traffic_secrets g (Some (HandshakeSecrets [] []));
      secrets ← out;
      Some (RSecrets s (secret_bytes (hs_local secrets)) (secret_bytes (hs_peer secrets)), g)
  | OpMatches d =>
      b ← quicz_tls_c_demo_inbound_crypto_matches g (Some d) (zlen d); Some (RBool b, g)
  | OpLens =>
      Some (RLens (quicz_tls_c_demo_local_transport_parameters_len g)
                  (quicz_tls_c_demo_inbound_crypto_len g), g)
  end.

(** The first bytes of an output buffer replaced. *)
Definition overwrite (old new : list byte) : list byte := new ++ zdrop (zlen new) old.

Definition spec_pull (s : spec) (bytes : list byte) (sent : bool) (out : list byte) (s' : spec)
    : demo_res * spec :=
  if sent then (RPull QUICZ_TLS_BACKEND_PENDING out 0, s)
  else if zlen out <? zlen bytes then (RPull QUICZ_TLS_BACKEND_BUFFER_TOO_SMALL out 0, s)
  else (RPull QUICZ_TLS_BACKEND_OK (overwrite out bytes) (zlen bytes), s').

Definition zero_secret : list byte := replicate 32 x00.

Definition spec_step (s : spec) (op : demo_op) : demo_res * spec :=
  match op with
  | OpReset => (RUnit, Spec [] [] [] false [] false (zero_secret, zero_secret) false)
  | OpSetPeer d =>
      if 128 <? zlen d then (RStatus QUICZ_TLS_BACKEND_BUFFER_TOO_SMALL, s)
      else (RStatus QUICZ_TLS_BACKEND_OK,
            Spec (sp_local s) (sp_inbound s) d false (sp_out s) (sp_out_sent s)
                 (sp_secrets s) (sp_secrets_sent s))
  | OpSetOutbound d =>
      if 128 <? zlen d then (RStatus QUICZ_TLS_BACKEND_BUFFER_TOO_SMALL, s)
      else (RStatus QUICZ_TLS_BACKEND_OK,
            Spec (sp_local s) (sp_inbound s) (sp_peer s) (sp_peer_sent s) d false
                 (sp_secrets s) (sp_secrets_sent s))
  | OpSetSecrets l p =>
      let n := (zlen l `min` zlen p) `min` 32 in
      (RUnit, Spec (sp_local s) (sp_inbound s) (sp_peer s) (sp_peer_sent s)
                   (sp_out s) (sp_out_sent s)
                   (overwrite (fst (sp_secrets s)) (ztake n l),
                    overwrite (snd (sp_secrets s)) (ztake n p)) false)
  | OpReceive sp d =>
      if negb (sp =? QUICZ_TLS_BACKEND_HANDSHAKE) then (RStatus QUICZ_TLS_BACKEND_CRYPTO_ERROR, s)
      else if 128 <? zlen (sp_inbound s) + zlen d then (RStatus QUICZ_TLS_BACKEND_BUFFER_TOO_SMALL, s)
      else (RStatus QUICZ_TLS_BACKEND_OK,
            Spec (sp_local s) (sp_inbound s ++ d) (sp_peer s) (sp_peer_sent s)
                 (sp_out s) (sp_out_sent s) (sp_secrets s) (sp_secrets_sent s))
  | OpPull sp out =>
      if negb (sp =? QUICZ_TLS_BACKEND_HANDSHAKE) then (RPull QUICZ_TLS_BACKEND_CRYPTO_ERROR out 0, s)
      else spec_pull s (sp_out s) (sp_out_sent s) out
             (Spec (sp_local s) (sp_inbound s) (sp_peer s) (sp_peer_sent s)
                   (sp_out s) true (sp_secrets s) (sp_secrets_sent s))
  | OpSetLocal d =>
      if 256 <? zlen d then (RStatus QUICZ_TLS_BACKEND_BUFFER_TOO_SMALL, s)
      else (RStatus QUICZ_TLS_BACKEND_OK,
            Spec d (sp_inbound s) (sp_peer s) (sp_peer_sent s) (sp_out s) (sp_out_sent s)
                 (sp_secrets s) (sp_secrets_sent s))
  | OpPullPeer out =>
      spec_pull s (sp_peer s) (sp_peer_sent s) out
        (Spec (sp_local s) (sp_inbound s) (sp_peer s) true
              (sp_out s) (sp_out_sent s) (sp_secrets s) (sp_secrets_sent s))
  | OpPullSecrets =>
      if sp_secrets_sent s then (RSecrets QUICZ_TLS_BACKEND_PENDING zero_secret zero_secret, s)
      else (RSecrets QUICZ_TLS_BACKEND_OK (fst (sp_secrets s)) (snd (sp_secrets s)),
            Spec (sp_local s) (sp_inbound s) (sp_peer s) (sp_peer_sent s)
                 (sp_out s) (sp_out_sent s) (sp_secrets s) true)
  | OpMatches d => (RBool (bool_decide (sp_inbound s = d)), s)
  | OpLens => (RLens (zlen (sp_local s)) (zlen (sp_inbound s)), s)
  end.

(** ** Invariant and refinement *)

(** Every length variable stays within its array. *)
Record inv (g : globals) : Prop := {
  inv_local : 0 <= local_transport_parameters_len g <= 256;
  inv_inbound : 0 <= inbound_crypto_len g <= 128;
  inv_peer : 0 <= peer_transport_parameters_len g <= 128;
  inv_out : 0 <= outbound_crypto_len g <= 128;
}.

Definition abs (g : globals) : spec :=
  Spec (slice (local_transport_parameters g) 0 (local_transport_parameters_len g))
       (slice (inbound_crypto g) 0 (inbound_crypto_len g))
       (slice (peer_transport_parameters g) 0 (peer_transport_parameters_len g))
       (peer_transport_parameters_sent g)
       (slice (outbound_crypto g) 0 (outbound_crypto_len g))
       (outbound_crypto_sent g)
       (secret_bytes (hs_local (handshake_secrets g)), secret_bytes (hs_peer (handshake_secrets g)))
       (handshake_secrets_sent g).

Lemma demo_inv_init : inv static_init.
Proof. by constructor; cbn. Qed.

(** A window that was just written holds exactly the bytes copied into it. *)
Lemma slice_write_all a bs n : n = zlen bs -> slice (splice a 0 (ztake n bs)) 0 n = bs.
Proof. intros ->. rewrite ztake_all. by apply slice_splice_exact. Qed.

Lemma slice_append_all a n bs : 0 <= n ->
  slice (splice a n (ztake (zlen bs) bs)) 0 (n + zlen bs) = slice a 0 n ++ bs.
Proof. intros. rewrite ztake_all. by apply slice_splice_append. Qed.

Ltac ifs :=
  repeat match goal with
  | |- context [if ?b then _ else _] => let E := fresh "E" in destruct b eqn:E; try lia
  end.

Definition refines_step (g : globals) (op : demo_op) : Prop :=
  wp (demo_step g op) (fun '(r, g') => spec_step (abs g) op = (r, abs g') /\ inv g').

Ltac demo_op_tac :=
  intros [Hl Hi Hp Ho]; unfold refines_step, demo_step;
  apply wp_bind;
  match goal with |- wp (?f _ _ _) _ => unfold f | |- wp (?f _ _ _ _) _ => unfold f
    | |- wp (?f _ _ _ _ _) _ => unfold f | |- wp (?f _ _) _ => unfold f end;
  wp_go; cbn.

Lemma refines_set_peer g d : inv g -> refines_step g (OpSetPeer d).
Proof.
  pose proof (zlen_nonneg d). demo_op_tac; ifs; (split; [|by constructor; cbn; lia]);
    unfold abs; cbn; by rewrite ?slice_write_all.
Qed.

Lemma refines_set_outbound g d : inv g -> refines_step g (OpSetOutbound d).
Proof.
  pose proof (zlen_nonneg d). demo_op_tac; ifs; (split; [|by constructor; cbn; lia]);
    unfold abs; cbn; by rewrite ?slice_write_all.
Qed.

Lemma refines_set_local g d : inv g -> refines_step g (OpSetLocal d).
Proof.
  pose proof (zlen_nonneg d). demo_op_tac; ifs; (split; [|by constructor; cbn; lia]);
    unfold abs; cbn; by rewrite ?slice_write_all.
Qed.

Lemma refines_receive g sp d : inv g -> refines_step g (OpReceive sp d).
Proof.
  pose proof (zlen_nonneg d). demo_op_tac; rewrite ?zlen_slice by lia; ifs;
    (split; [|by constructor; cbn; zsimp; lia]); unfold abs; cbn; zsimp;
    by rewrite ?slice_append_all by lia.
Qed.

Lemma refines_pull g sp out : inv g -> refines_step g (OpPull sp out).
Proof.
  pose proof (zlen_nonneg out). demo_op_tac; unfold spec_pull, overwrite; cbn;
    rewrite ?zlen_slice by lia; ifs; (split; [done|by constructor; cbn; lia]).
Qed.

Lemma refines_pull_peer g out : inv g -> refines_step g (OpPullPeer out).
Proof.
  pose proof (zlen_nonneg out). demo_op_tac; unfold spec_pull, overwrite; cbn;
    rewrite ?zlen_slice by lia; ifs; (split; [done|by constructor; cbn; lia]).
Qed.

Lemma refines_set_secrets g l p : inv g -> refines_step g (OpSetSecrets l p).
Proof.
  pose proof (zlen_nonneg l). pose proof (zlen_nonneg p).
  intros [Hl Hi Hp Ho]. unfold refines_step, demo_step. apply wp_bind.
  unfold quicz_tls_c_demo_set_handshake_secrets, SECRET_LEN. cbv zeta.
  set (n := if _ >? _ then _ else _).
  assert (Hn : n = (zlen l `min` zlen p) `min` 32) by (subst n; destruct (Z.gtb_spec (zlen l `min` zlen p) 32); lia).
  clearbody n. wp_go. cbn. split; [|by constructor; cbn; lia].
  unfold abs, overwrite, secret_bytes, SECRET_LEN. cbn. rewrite <- Hn.
  by rewrite !slice_splice_prefix, !zlen_ztake by (rewrite ?zlen_ztake; lia).
Qed.

Lemma refines_rest g op : inv g ->
  match op with OpReset | OpPullSecrets | OpMatches _ | OpLens => refines_step g op | _ => True end.
Proof.
  intros [Hl Hi Hp Ho]. destruct op as [| | | | | | | | |d|]; try exact I; unfold refines_step; cbn.
  - split; [done|by constructor; cbn].
  - unfold quicz_tls_c_demo_pull_handshake_traffic_secrets.
    destruct (handshake_secrets_sent g) eqn:E; cbn; rewrite ?E; (split; [done|by constructor; cbn]).
  - unfold quicz_tls_c_demo_inbound_crypto_matches. apply wp_bind. pose proof (zlen_nonneg d).
    wp_go; cbn; (split; [|by constructor; cbn]).
    + do 2 f_equal. apply bool_decide_ext. assert (inbound_crypto_len g = zlen d) as -> by lia.
      by rewrite ztake_all.
    + do 2 f_equal. apply bool_decide_eq_false_2. intros Heq. rewrite <- Heq in E.
      rewrite zlen_slice in E by lia. lia.
  - rewrite !zlen_slice by lia. split; [done|by constructor; cbn].
Qed.

Lemma refines_all g op : inv g -> refines_step g op.
Proof.
  intros Hinv. pose proof (refines_rest g op Hinv) as Hrest.
  destruct op; auto using refines_set_peer, refines_set_outbound, refines_set_secrets,
    refines_receive, refines_pull, refines_set_local, refines_pull_peer.
Qed.

(** Sequences of calls. *)
Fixpoint demo_run (g : globals) (ops : list demo_op) : option (list demo_res * globals) :=
  match ops with
  | [] => Some ([], g)
  | op :: ops =>
      '(r, g) ← demo_step g op;
      '(rs, g) ← demo_run g ops;
      Some (r :: rs, g)
  end.

Fixpoint spec_run (s : spec) (ops : list demo_op) : list demo_res * spec :=
  match ops with
  | [] => ([], s)
  | op :: ops =>
      let '(r, s) := spec_step s op in
      let '(rs, s) := spec_run s ops in (r :: rs, s)
  end.

Definition spec_init : spec :=
  Spec [] [] [] false [] false (zero_secret, zero_secret) false.

Lemma demo_run_refines ops : forall g, inv g ->
  wp (demo_run g ops) (fun '(rs, g') => spec_run (abs g) ops = (rs, abs g') /\ inv g').
Proof.
  induction ops as [|op ops IH]; intros g Hinv; cbn; [done|].
  apply wp_bind. eapply wp_mono; [by apply (refines_all g op)|].
  intros [r g1] [Hs Hinv1]. apply wp_bind. eapply wp_mono; [by apply IH|].
  intros [rs g2] [Hr Hinv2]. apply wp_ret. by rewrite Hs, Hr.
Qed.

(** C10: whatever sequence of calls a client makes on the demo backend, starting
    from its static storage and with valid pointers, no call has undefined
    behaviour, and every status, output buffer, secret and length it observes
    is the one the byte-string specification gives. *)
Theorem demo_refines_spec (ops : list demo_op) :
  exists rs g, demo_run static_init ops = Some (rs, g) /\
    spec_run spec_init ops = (rs, abs g) /\ inv g.
Proof.
  destruct (wp_elim _ _ (demo_run_refines ops static_init demo_inv_init)) as ([rs g] & Hr & Hs & Hi).
  exists rs, g. by rewrite Hr.
Qed.

(** Every reachable state is described by the specification. *)
Lemma demo_run_from g ops : inv g ->
  exists g', demo_run g ops = Some (fst (spec_run (abs g) ops), g') /\ inv g'.
Proof.
  intros Hinv. destruct (wp_elim _ _ (demo_run_refines ops g Hinv)) as ([rs g'] & Hr & Hs & Hi).
  exists g'. by rewrite Hr, Hs.
Qed.

Lemma spec_receives chunks : forall s d,
  zlen (sp_inbound s) + zlen (concat chunks) <= 128 -> d = sp_inbound s ++ concat chunks ->
  fst (spec_run s ((OpReceive QUICZ_TLS_BACKEND_HANDSHAKE <$> chunks) ++ [OpMatches d])) =
    replicate (length chunks) (RStatus QUICZ_TLS_BACKEND_OK) ++ [RBool true].
Proof.
  induction chunks as [|c chunks IH]; intros s d Hlen ->.
  - cbn. rewrite app_nil_r. by rewrite bool_decide_eq_true_2.
  - cbn [concat] in *. rewrite zlen_app in Hlen. pose proof (zlen_nonneg (concat chunks)).
    cbn [fmap list_fmap app spec_run spec_step Z.eqb negb length replicate].
    change (negb (QUICZ_TLS_BACKEND_HANDSHAKE =? QUICZ_TLS_BACKEND_HANDSHAKE)) with false. cbn iota.
    destruct (Z.ltb_spec 128 (zlen (sp_inbound s) + zlen c)); [lia|].
    match goal with |- context [spec_run ?s' ?o] =>
      pose proof (IH s' (sp_inbound s ++ c ++ concat chunks)) as IH'; destruct (spec_run s' o) end.
    cbn in *. rewrite IH'; [done| |by rewrite app_assoc]. rewrite zlen_app. lia.
Qed.

(** CRYPTO bytes handed to the demo backend are stored without loss or
    reordering: after a reset, any sequence of chunks of at most 128 bytes in
    total is accepted chunk by chunk, and [inbound_crypto_matches] then holds
    for exactly their concatenation. *)
Theorem demo_inbound_integrity (ops : list demo_op) (chunks : list (list byte))
    (Hfit : zlen (concat chunks) <= 128) :
  exists rs g g', demo_run static_init ops = Some (rs, g) /\
    demo_run (quicz_tls_c_demo_reset g)
      ((OpReceive QUICZ_TLS_BACKEND_HANDSHAKE <$> chunks) ++ [OpMatches (concat chunks)]) =
    Some (replicate (length chunks) (RStatus QUICZ_TLS_BACKEND_OK) ++ [RBool true], g').
Proof.
  destruct (wp_elim _ _ (demo_run_refines ops static_init demo_inv_init)) as ([rs g] & Hr & _ & Hi).
  assert (inv (quicz_tls_c_demo_reset g)) as Hi' by (by constructor; cbn).
  destruct (demo_run_from _ ((OpReceive QUICZ_TLS_BACKEND_HANDSHAKE <$> chunks) ++
    [OpMatches (concat chunks)]) Hi') as (g' & Hrun & _).
  exists rs, g, g'. split; [done|]. rewrite Hrun. by rewrite spec_receives.
Qed.

Lemma demo_inbound_integrity_witness :
  exists rs g g', demo_run static_init [OpReceive 1 [x07]] = Some (rs, g) /\
    demo_run (quicz_tls_c_demo_reset g)
      ((OpReceive QUICZ_TLS_BACKEND_HANDSHAKE <$> [[x01; x02]; []; [x03]]) ++
       [OpMatches (concat [[x01; x02]; []; [x03]])]) =
    Some (replicate 3 (RStatus QUICZ_TLS_BACKEND_OK) ++ [RBool true], g').
Proof.
  apply (demo_inbound_integrity [OpReceive 1 [x07]] [[x01; x02]; []; [x03]]).
  vm_compute. discriminate.
Defined.

(** an outbound flight is delivered exactly once and survives a failed
    pull: in every reachable state, after [set_outbound_crypto d] a pull into
    a buffer shorter than [d] reports [BUFFER_TOO_SMALL] and writes nothing, a
    pull into a large enough buffer delivers [d] with its length, and a
    further pull reports [PENDING]. *)
Theorem demo_outbound_once (ops : list demo_op) (d small large again : list byte)
    (Hd : zlen d <= 128) (Hsmall : zlen small < zlen d) (Hlarge : zlen d <= zlen large) :
  exists rs g g', demo_run static_init ops = Some (rs, g) /\
    demo_run g [OpSetOutbound d; OpPull QUICZ_TLS_BACKEND_HANDSHAKE small;
                OpPull QUICZ_TLS_BACKEND_HANDSHAKE large; OpPull QUICZ_TLS_BACKEND_HANDSHAKE again] =
    Some ([RStatus QUICZ_TLS_BACKEND_OK;
           RPull QUICZ_TLS_BACKEND_BUFFER_TOO_SMALL small 0;
           RPull QUICZ_TLS_BACKEND_OK (overwrite large d) (zlen d);
           RPull QUICZ_TLS_BACKEND_PENDING again 0], g').
Proof.
  destruct (wp_elim _ _ (demo_run_refines ops static_init demo_inv_init)) as ([rs g] & Hr & _ & Hi).
  destruct (demo_run_from _ [OpSetOutbound d; OpPull QUICZ_TLS_BACKEND_HANDSHAKE small;
    OpPull QUICZ_TLS_BACKEND_HANDSHAKE large; OpPull QUICZ_TLS_BACKEND_HANDSHAKE again] Hi)
    as (g' & Hrun & _).
  exists rs, g, g'. split; [done|]. rewrite Hrun. do 2 f_equal. cbn [spec_run spec_step].
  destruct (Z.ltb_spec 128 (zlen d)); [lia|].
  change (negb (QUICZ_TLS_BACKEND_HANDSHAKE =? QUICZ_TLS_BACKEND_HANDSHAKE)) with false.
  cbn -[Z.ltb]. unfold spec_pull. destruct (Z.ltb_spec (zlen small) (zlen d)); [|lia].
  cbn -[Z.ltb]. by destruct (Z.ltb_spec (zlen large) (zlen d)); [lia|].
Qed.

Lemma demo_outbound_once_witness :
  exists rs g g', demo_run static_init [OpReset] = Some (rs, g) /\
    demo_run g [OpSetOutbound [x01; x02]; OpPull QUICZ_TLS_BACKEND_HANDSHAKE [x00];
                OpPull QUICZ_TLS_BACKEND_HANDSHAKE [x00; x00; x09];
                OpPull QUICZ_TLS_BACKEND_HANDSHAKE []] =
    Some ([RStatus QUICZ_TLS_BACKEND_OK;
           RPull QUICZ_TLS_BACKEND_BUFFER_TOO_SMALL [x00] 0;
           RPull QUICZ_TLS_BACKEND_OK (overwrite [x00; x00; x09] [x01; x02]) 2;
           RPull QUICZ_TLS_BACKEND_PENDING [] 0], g').
Proof.
  apply (demo_outbound_once [OpReset] [x01; x02] [x00] [x00; x00; x09] []);
    vm_compute; solve [reflexivity | discriminate].
Defined.

End Demo.
