(* ===== verification/OpenSSL.v ===== *)
(** * What the C code uses of OpenSSL and of the allocator

    OpenSSL is not part of the repository: its constants, its call results and
    its handshake driver are parameters.  The handshake driver is a finite
    strategy [ssl_prog] that may call the installed QUIC-TLS callbacks any
    number of times and choose each next call from the answers it got. *)
From stdpp Require Export gmap.
From S2P Require Import Prelude.
Local Open Scope Z_scope.

(** ** Header constants *)
Class OpenSSLHeaders : Type := {
  OSSL_RECORD_PROTECTION_LEVEL_NONE : Z;
  OSSL_RECORD_PROTECTION_LEVEL_HANDSHAKE : Z;
  OSSL_RECORD_PROTECTION_LEVEL_APPLICATION : Z;
  SSL_ERROR_NONE : Z;
  SSL_ERROR_WANT_READ : Z;
  SSL_ERROR_WANT_WRITE : Z;
  OPENSSL_NPN_NEGOTIATED : Z;
  SSL_TLSEXT_ERR_OK : Z;
  SSL_TLSEXT_ERR_NOACK : Z;
  OSSL_FUNC_SSL_QUIC_TLS_CRYPTO_SEND : Z;
  OSSL_FUNC_SSL_QUIC_TLS_CRYPTO_RECV_RCD : Z;
  OSSL_FUNC_SSL_QUIC_TLS_CRYPTO_RELEASE_RCD : Z;
  OSSL_FUNC_SSL_QUIC_TLS_YIELD_SECRET : Z;
  OSSL_FUNC_SSL_QUIC_TLS_GOT_TRANSPORT_PARAMS : Z;
  OSSL_FUNC_SSL_QUIC_TLS_ALERT : Z;
  TLS1_3_VERSION : Z;
  OPENSSL_VERSION_NUMBER : Z;
}.

(** What the code relies on: the three protection levels it names are
    different and are levels of the four-level record layer, and the six
    dispatch identifiers are different and not the terminator 0. *)
Class OpenSSLHeadersOk (H : OpenSSLHeaders) : Prop := {
  level_none_range : 0 <= OSSL_RECORD_PROTECTION_LEVEL_NONE < 4;
  level_handshake_range : 0 <= OSSL_RECORD_PROTECTION_LEVEL_HANDSHAKE < 4;
  level_application_range : 0 <= OSSL_RECORD_PROTECTION_LEVEL_APPLICATION < 4;
  level_none_handshake : OSSL_RECORD_PROTECTION_LEVEL_NONE <> OSSL_RECORD_PROTECTION_LEVEL_HANDSHAKE;
  level_none_application : OSSL_RECORD_PROTECTION_LEVEL_NONE <> OSSL_RECORD_PROTECTION_LEVEL_APPLICATION;
  level_handshake_application :
    OSSL_RECORD_PROTECTION_LEVEL_HANDSHAKE <> OSSL_RECORD_PROTECTION_LEVEL_APPLICATION;
  dispatch_ids_distinct :
    NoDup [0; OSSL_FUNC_SSL_QUIC_TLS_CRYPTO_SEND; OSSL_FUNC_SSL_QUIC_TLS_CRYPTO_RECV_RCD;
           OSSL_FUNC_SSL_QUIC_TLS_CRYPTO_RELEASE_RCD; OSSL_FUNC_SSL_QUIC_TLS_YIELD_SECRET;
           OSSL_FUNC_SSL_QUIC_TLS_GOT_TRANSPORT_PARAMS; OSSL_FUNC_SSL_QUIC_TLS_ALERT];
}.

(** ** Callbacks OpenSSL makes during a handshake step *)
Inductive tls_call : Type :=
  | TCryptoSend (buf : list byte)
  | TCryptoRecv
  | TCryptoRelease (bytes_read : Z)
  | TYieldSecret (prot_level direction : Z) (secret : list byte)
  | TGotTransportParams (params : list byte)
  | TAlert (alert_code : Z)
  | TKeylog (line : ptr).

(** What OpenSSL sees of a callback: its [int] result, the [size_t] it wrote
    ([*consumed] or [*bytes_read]) and the bytes readable through [*buf]. *)
Record tls_answer : Type := Answer {
  ans_ret : Z;
  ans_len : Z;
  ans_buf : list byte;
}.

Inductive ssl_prog (S : Type) : Type :=
  | PDone (rc : Z) (s : S)
  | PCall (c : tls_call) (k : tls_answer -> ssl_prog S).
Arguments PDone {S} _ _.
Arguments PCall {S} _ _.

(** Arguments within their C types: [size_t] lengths, a [uint32_t] level. *)
Definition tls_call_ok (c : tls_call) : Prop :=
  match c with
  | TCryptoSend buf => zlen buf <= SIZE_MAX
  | TCryptoRecv => True
  | TCryptoRelease n => 0 <= n <= SIZE_MAX
  | TYieldSecret level _ secret => 0 <= level < 4294967296 /\ zlen secret <= SIZE_MAX
  | TGotTransportParams params => zlen params <= SIZE_MAX
  | TAlert code => 0 <= code < 256
  | TKeylog _ => True
  end.

(** Well-typed calls, and at most [d] of them on every path. *)
Inductive bounded {S : Type} : nat -> ssl_prog S -> Prop :=
  | bounded_done d rc s : bounded d (PDone rc s)
  | bounded_call d c k : tls_call_ok c -> (forall a, bounded d (k a)) ->
      bounded (Datatypes.S d) (PCall c k).

(** ** Calls into OpenSSL and the allocator *)
Inductive ext_call : Type :=
  | CallCalloc
  | CallCtxNew (is_client : bool)
  | CallQuicCtxNew
  | CallQuicMethod
  | CallSetMinProto (ctx : nat) (version : Z)
  | CallSetMaxProto (ctx : nat) (version : Z)
  | CallSetCipherList (ctx : nat) (ciphers : list byte)
  | CallSetCiphersuites (ctx : nat) (suites : list byte)
  | CallSetPskClient (ctx : nat)
  | CallSetPskServer (ctx : nat)
  | CallSetAlpnSelect (ctx : nat)
  | CallSetKeylog (ctx : nat)
  | CallSslNew (ctx : nat)
  | CallSetAppData (ssl : nat)
  | CallSetAlpnProtos (ssl : nat) (protos : list byte)
  | CallSetQuicCbs (ssl : nat)
  | CallIsQuic (ssl : nat)
  | CallSetTransportParams (ssl : nat) (params : list byte)
  | CallSetConnectState (ssl : nat)
  | CallSetAcceptState (ssl : nat)
  | CallGetError (ssl : nat) (rc : Z)
  | CallErrPeek.

(** OpenSSL and the allocator: an opaque state, the result of every call, the
    strategy of [SSL_do_handshake], the protocol [SSL_get0_alpn_selected]
    reports and the outcome of [SSL_select_next_proto]. *)
Class OpenSSL : Type := {
  ossl : Type;
  respond : ext_call -> ossl -> Z * ossl;
  SSL_do_handshake : nat -> ossl -> ssl_prog ossl;
  SSL_get0_alpn_selected : nat -> ossl -> ptr;
  SSL_select_next_proto : list byte -> list byte -> Z * list byte;
}.

(** ** Ledger of live objects *)
Inductive kind : Type := KMem | KCtx | KSsl.

#[export] Instance kind_eq_dec : EqDecision kind.
Proof. solve_decision. Defined.

Definition kind_code (k : kind) : nat := match k with KMem => 0 | KCtx => 1 | KSsl => 2 end.
Definition kind_decode (n : nat) : option kind :=
  match n with 0%nat => Some KMem | 1%nat => Some KCtx | 2%nat => Some KSsl | _ => None end.

#[export] Program Instance kind_countable : Countable kind :=
  inj_countable kind_code kind_decode _.
Next Obligation. by intros []. Qed.

Definition resource : Type := kind * nat.

Record world {O : OpenSSL} : Type := World {
  w_ossl : ossl;
  w_next : nat;
  w_live : gset resource;
}.
Arguments world _ : clear implicits.
Arguments World {_} _ _ _.

#[export] Instance eta_world {O : OpenSSL} : Eta (world O) :=
  fun w => World (w_ossl w) (w_next w) (w_live w).

Section WithOpenSSL.
Context {O : OpenSSL}.

(** Handles are never reused, so a fresh one is not live. *)
Definition world_wf (w : world O) : Prop := forall k n, (k, n) ∈ w_live w -> (n < w_next w)%nat.

(** A call that returns an [int]. *)
Definition ext (c : ext_call) (w : world O) : Z * world O :=
  let '(r, o) := respond c (w_ossl w) in (r, w <| w_ossl := o |>).

(** A call that returns a pointer to a new object, or [NULL] (result 0). *)
Definition ext_new (k : kind) (c : ext_call) (w : world O) : option nat * world O :=
  let '(r, o) := respond c (w_ossl w) in
  if r =? 0 then (None, w <| w_ossl := o |>)
  else (Some (w_next w), World o (S (w_next w)) (w_live w ∪ {[(k, w_next w)]})).

(** [free], [SSL_CTX_free] and [SSL_free]: [NULL] is ignored, releasing an
    object that is not live is undefined behaviour. *)
Definition ext_free (k : kind) (h : option nat) (w : world O) : option (world O) :=
  match h with
  | None => Some w
  | Some n => if bool_decide ((k, n) ∈ w_live w)
              then Some (w <| w_live := w_live w ∖ {[(k, n)]} |>) else None
  end.

Lemma ext_live c w : w_live (snd (ext c w)) = w_live w.
Proof. unfold ext. by destruct (respond c (w_ossl w)). Qed.

Lemma ext_next c w : w_next (snd (ext c w)) = w_next w.
Proof. unfold ext. by destruct (respond c (w_ossl w)). Qed.

Lemma ext_new_spec k c w :
  (exists o, ext_new k c w = (None, w <| w_ossl := o |>)) \/
  (exists o, ext_new k c w =
     (Some (w_next w), World o (S (w_next w)) (w_live w ∪ {[(k, w_next w)]}))).
Proof.
  unfold ext_new. destruct (respond c (w_ossl w)) as [r o].
  destruct (r =? 0); [left|right]; by exists o.
Qed.

Lemma wp_ext_free_Some k n w (Q : world O -> Prop) :
  (k, n) ∈ w_live w -> Q (w <| w_live := w_live w ∖ {[(k, n)]} |>) ->
  wp (ext_free k (Some n) w) Q.
Proof. intros Hl HQ. unfold ext_free. by rewrite bool_decide_eq_true_2. Qed.

Lemma wp_ext_free_None k w (Q : world O -> Prop) : Q w -> wp (ext_free k None w) Q.
Proof. done. Qed.

End WithOpenSSL.

(** The values of OpenSSL's headers; only used to show that the laws above
    can be met. *)
Definition openssl_headers_3 : OpenSSLHeaders := {|
  OSSL_RECORD_PROTECTION_LEVEL_NONE := 0;
  OSSL_RECORD_PROTECTION_LEVEL_HANDSHAKE := 2;
  OSSL_RECORD_PROTECTION_LEVEL_APPLICATION := 3;
  SSL_ERROR_NONE := 0;
  SSL_ERROR_WANT_READ := 2;
  SSL_ERROR_WANT_WRITE := 3;
  OPENSSL_NPN_NEGOTIATED := 1;
  SSL_TLSEXT_ERR_OK := 0;
  SSL_TLSEXT_ERR_NOACK := 3;
  OSSL_FUNC_SSL_QUIC_TLS_CRYPTO_SEND := 2001;
  OSSL_FUNC_SSL_QUIC_TLS_CRYPTO_RECV_RCD := 2002;
  OSSL_FUNC_SSL_QUIC_TLS_CRYPTO_RELEASE_RCD := 2003;
  OSSL_FUNC_SSL_QUIC_TLS_YIELD_SECRET := 2004;
  OSSL_FUNC_SSL_QUIC_TLS_GOT_TRANSPORT_PARAMS := 2005;
  OSSL_FUNC_SSL_QUIC_TLS_ALERT := 2006;
  TLS1_3_VERSION := 772;
  OPENSSL_VERSION_NUMBER := 810549248;
|}.

Lemma openssl_headers_3_ok : OpenSSLHeadersOk openssl_headers_3.
Proof.
  constructor; cbn; try lia.
  refine (bool_decide_unpack _ _). by vm_compute.
Qed.
