(* ===== verification/CryptoLevels.v ===== *)
(** * Per-level CRYPTO buffers

    Both OpenSSL clients keep, for each protection level, a byte array and the
    length of its used prefix.  This file holds the view the proofs use of
    such a pair of C arrays: the pending bytes of a level. *)
From S2P Require Import Prelude.
Local Open Scope Z_scope.

(** The used prefix of level [i]. *)
Definition pend (bufs : list (list byte)) (lens : list Z) (i : Z) : list byte :=
  match zget bufs i, zget lens i with
  | Some a, Some n => slice a 0 n
  | _, _ => []
  end.

Definition sumZ (l : list Z) : Z := foldr Z.add 0 l.

(** Arrays of four levels whose lengths stay within [cap]. *)
Record levels_ok (cap : Z) (bufs : list (list byte)) (lens : list Z) : Prop := {
  lv_bufs : zlen bufs = 4;
  lv_lens : zlen lens = 4;
  lv_cap : forall i n, zget lens i = Some n -> 0 <= n <= cap;
}.

Lemma sumZ_zset l i x y : zget l i = Some x -> sumZ (zset l i y) = sumZ l - x + y.
Proof.
  unfold zget, zset. destruct (Z.ltb_spec i 0); [done|]. generalize (Z.to_nat i) as k.
  induction l as [|z l IH]; intros [|k] Hk; try done; cbn -[Z.add Z.sub] in *.
  - injection Hk as ->. lia.
  - fold (sumZ l). fold (sumZ (<[k:=y]> l)). rewrite IH by done. lia.
Qed.

Lemma sumZ_nonneg l : (forall i n, zget l i = Some n -> 0 <= n) -> 0 <= sumZ l.
Proof.
  induction l as [|z l IH]; intros Hl; cbn -[Z.add]; [lia|]. fold (sumZ l).
  assert (0 <= z) by (by apply (Hl 0)).
  assert (0 <= sumZ l); [|lia]. apply IH. intros i n Hi. apply (Hl (i + 1)).
  unfold zget in *. destruct (Z.ltb_spec i 0); [done|]. destruct (Z.ltb_spec (i + 1) 0); [lia|].
  by replace (Z.to_nat (i + 1)) with (S (Z.to_nat i)) by lia.
Qed.

Lemma zget_le_sumZ l i n : (forall i n, zget l i = Some n -> 0 <= n) -> zget l i = Some n -> n <= sumZ l.
Proof.
  intros Hl Hi. pose proof (sumZ_zset l i n 0 Hi) as Hs.
  assert (0 <= sumZ (zset l i 0)); [|lia]. apply sumZ_nonneg. intros j m Hj.
  pose proof (zget_Some_lt _ _ _ Hi). rewrite zget_zset in Hj by done.
  destruct (i =? j); [|by eapply Hl]. injection Hj as <-. lia.
Qed.

Lemma pend_length bufs lens i n : zlen bufs = 4 -> zget lens i = Some n -> zlen lens = 4 -> 0 <= n ->
  zlen (pend bufs lens i) = n.
Proof.
  intros Hb Hi Hl Hn. pose proof (zget_Some_lt _ _ _ Hi). unfold pend.
  destruct (zget_lt bufs i) as [a Ha]; [lia|]. rewrite Ha, Hi. by apply zlen_slice.
Qed.

(** Appending to a level. *)
Lemma pend_append bufs lens i j a n bs :
  zget bufs i = Some a -> zget lens i = Some n -> 0 <= n ->
  pend (zset bufs i (splice a n bs)) (zset lens i (n + zlen bs)) j =
    if i =? j then pend bufs lens j ++ bs else pend bufs lens j.
Proof.
  intros Ha Hn Hpos. unfold pend. pose proof (zget_Some_lt _ _ _ Ha). pose proof (zget_Some_lt _ _ _ Hn).
  rewrite !zget_zset by done. destruct (Z.eqb_spec i j) as [<-|]; [|done].
  rewrite Ha, Hn. by apply slice_splice_append.
Qed.

(** Emptying a level. *)
Lemma pend_clear bufs lens i j : 0 <= i < zlen lens ->
  pend bufs (zset lens i 0) j = if i =? j then [] else pend bufs lens j.
Proof.
  intros Hi. unfold pend. rewrite zget_zset by done. destruct (Z.eqb_spec i j) as [<-|]; [|done].
  by destruct (zget bufs i).
Qed.

(** Moving a window of a level to its front. *)
Lemma pend_shift bufs lens i j a k n : zget bufs i = Some a -> 0 <= i < zlen lens -> 0 <= k -> 0 <= n ->
  pend (zset bufs i (splice a 0 (slice a k n))) (zset lens i n) j =
    if i =? j then slice a k n else pend bufs lens j.
Proof.
  intros Ha Hi Hk Hn. unfold pend. pose proof (zget_Some_lt _ _ _ Ha).
  rewrite !zget_zset by done. destruct (Z.eqb_spec i j) as [<-|]; [|done].
  rewrite <- (zlen_slice a k n) at 2 by done. by apply slice_splice_exact.
Qed.

Lemma levels_ok_set cap bufs lens i a n : levels_ok cap bufs lens -> 0 <= i < 4 -> 0 <= n <= cap ->
  levels_ok cap (zset bufs i a) (zset lens i n).
Proof.
  intros [Hb Hl Hc] Hi Hn. constructor; rewrite ?zlen_zset; try done.
  intros j m. rewrite zget_zset by lia. destruct (i =? j); [|by apply Hc]. intros [= <-]. lia.
Qed.

Lemma levels_ok_set_len cap bufs lens i n : levels_ok cap bufs lens -> 0 <= i < 4 -> 0 <= n <= cap ->
  levels_ok cap bufs (zset lens i n).
Proof.
  intros [Hb Hl Hc] Hi Hn. constructor; rewrite ?zlen_zset; try done.
  intros j m. rewrite zget_zset by lia. destruct (i =? j); [|by apply Hc]. intros [= <-]. lia.
Qed.

(** Fresh levels are empty. *)
Lemma zget_zeros i n : zget [0; 0; 0; 0] i = Some n -> n = 0.
Proof.
  unfold zget. destruct (i <? 0); [done|]. intros Hin%list_elem_of_lookup_2.
  rewrite !elem_of_cons, elem_of_nil in Hin. by destruct Hin as [?|[?|[?|[?|?]]]].
Qed.

Lemma pend_zeros bufs i : pend bufs [0; 0; 0; 0] i = [].
Proof.
  unfold pend. destruct (zget bufs i); [|done]. destruct (zget _ i) as [n|] eqn:Hn; [|done].
  by rewrite (zget_zeros _ _ Hn).
Qed.

Lemma levels_ok_fresh cap : 0 <= cap -> levels_ok cap [[]; []; []; []] [0; 0; 0; 0].
Proof. intros. constructor; [done..|]. intros i n ->%zget_zeros. lia. Qed.

Create HintDb levels.
#[export] Hint Resolve levels_ok_set levels_ok_set_len : levels.
