(* ===== verification/Adapter.v ===== *)
(** * The OpenSSL backend adapter (examples/tls_openssl_backend_adapter.c)

    The adapter's struct, the six QUIC-TLS callbacks it installs, the PSK,
    ALPN and key-log callbacks, its constructor and destructor and the whole
    backend API, one definition per C function. *)
From Stdlib Require Strings.String.
Import String.StringSyntax.
From S2P Require Import Prelude CAbi OpenSSL.
Local Open Scope Z_scope.

Module Adapter.

(** [struct quicz_openssl_tls_backend]. *)
Record backend : Type := Backend {
  ctx : option nat;
  ssl : option nat;
  callbacks_set : Z;
  local_transport_parameters_set : Z;
  ssl_is_quic_after_callbacks : Z;
  local_transport_parameters_len : Z;
  peer_transport_parameters : list byte;            (** [512] *)
  peer_transport_parameters_len : Z;
  peer_transport_parameters_available : Z;
  peer_transport_parameters_sent : Z;
  got_transport_params_callbacks : Z;
  keylog_callbacks : Z;
  keylog_bytes : Z;
  handshake_secrets : quicz_handshake_traffic_secrets;
  handshake_local_secret_available : Z;
  handshake_peer_secret_available : Z;
  handshake_secrets_sent : Z;
  one_rtt_secrets : quicz_one_rtt_traffic_secrets;
  one_rtt_local_secret_available : Z;
  one_rtt_peer_secret_available : Z;
  one_rtt_secrets_sent : Z;
  yield_secret_callbacks : Z;
  received_crypto_len : Z;
  inbound_crypto : list (list byte);                (** [4][8192] *)
  inbound_crypto_len : list Z;                      (** [4] *)
  inbound_crypto_read_len : list Z;                 (** [4] *)
  inbound_crypto_released_len : Z;
  read_level : Z;
  write_level : Z;
  inbound_crypto_recv_callbacks : Z;
  inbound_crypto_release_callbacks : Z;
  outbound_crypto : list (list byte);               (** [4][8192] *)
  outbound_crypto_len : list Z;                     (** [4] *)
  total_outbound_crypto_len : Z;
  outbound_crypto_overflow : Z;
  handshake_drive_calls : Z;
  last_ssl_error : Z;
}.

#[export] Instance eta_backend : Eta backend := fun b => Backend
  (ctx b) (ssl b) (callbacks_set b) (local_transport_parameters_set b)
  (ssl_is_quic_after_callbacks b) (local_transport_parameters_len b)
  (peer_transport_parameters b) (peer_transport_parameters_len b)
  (peer_transport_parameters_available b) (peer_transport_parameters_sent b)
  (got_transport_params_callbacks b) (keylog_callbacks b) (keylog_bytes b)
  (handshake_secrets b) (handshake_local_secret_available b)
  (handshake_peer_secret_available b) (handshake_secrets_sent b)
  (one_rtt_secrets b) (one_rtt_local_secret_available b)
  (one_rtt_peer_secret_available b) (one_rtt_secrets_sent b)
  (yield_secret_callbacks b) (received_crypto_len b)
  (inbound_crypto b) (inbound_crypto_len b) (inbound_crypto_read_len b)
  (inbound_crypto_released_len b) (read_level b) (write_level b)
  (inbound_crypto_recv_callbacks b) (inbound_crypto_release_callbacks b)
  (outbound_crypto b) (outbound_crypto_len b) (total_outbound_crypto_len b)
  (outbound_crypto_overflow b) (handshake_drive_calls b) (last_ssl_error b).

(** The zeroed struct [calloc] returns. *)
Definition calloc_backend : backend := Backend
  None None 0 0 0 0 [] 0 0 0 0 0 0 (HandshakeSecrets [] []) 0 0 0 (OneRttSecrets [] []) 0 0 0
  0 0 [[]; []; []; []] [0; 0; 0; 0] [0; 0; 0; 0] 0 0 0 0 0 [[]; []; []; []] [0; 0; 0; 0] 0 0 0 0.

Definition CRYPTO_BUF : Z := 8192.

Definition quicz_openssl_backend_demo_psk : list byte :=
  [x00; x01; x02; x03; x04; x05; x06; x07; x08; x09; x0a; x0b; x0c; x0d; x0e; x0f;
   x10; x11; x12; x13; x14; x15; x16; x17; x18; x19; x1a; x1b; x1c; x1d; x1e; x1f].

(** [{ 11, 'h', 'q', '-', 'i', 'n', 't', 'e', 'r', 'o', 'p' }]. *)
Definition quicz_alpn_protos : list byte :=
  x0b :: String.list_byte_of_string "hq-interop".

(** ** QUIC-TLS callbacks

    [arg] is the backend pointer registered with the callbacks. *)

Definition crypto_send_cb (buf : ptr) (buf_len : Z) (consumed : cell) (arg : option backend)
    : option (Z * cell * option backend) :=
  match arg with
  | None => Some (0, consumed, arg)
  | Some b =>
      if write_level b >=? 4 then Some (0, consumed, arg) else
      len ← zget (outbound_crypto_len b) (write_level b);
      if buf_len >? usub64 CRYPTO_BUF len
      then Some (0, consumed, Some (b <| outbound_crypto_overflow := 1 |>)) else
      arr ← zget (outbound_crypto b) (write_level b);
      bs ← read_ptr buf buf_len;
      arr ← write_array CRYPTO_BUF arr len bs;
      consumed ← store consumed buf_len;
      Some (1, consumed, Some
        (b <| outbound_crypto := zset (outbound_crypto b) (write_level b) arr |>
           <| outbound_crypto_len := zset (outbound_crypto_len b) (write_level b) (uadd64 len buf_len) |>
           <| total_outbound_crypto_len := uadd64 (total_outbound_crypto_len b) buf_len |>))
  end.

(** [*buf] is [Some level] when it points at [inbound_crypto[level]]. *)
Definition crypto_recv_rcd_cb (arg : option backend)
    : option (Z * option Z * Z * option backend) :=
  match arg with
  | None => Some (1, None, 0, arg)
  | Some b =>
      if read_level b >=? 4 then Some (1, None, 0, arg) else
      rd ← zget (inbound_crypto_read_len b) (read_level b);
      if negb (rd =? 0) then Some (1, None, 0, arg) else
      cnt ← int_inc (inbound_crypto_recv_callbacks b);
      len ← zget (inbound_crypto_len b) (read_level b);
      let b := b <| inbound_crypto_recv_callbacks := cnt |> in
      if negb (len =? 0) then
        Some (1, Some (read_level b), len, Some
          (b <| inbound_crypto_read_len := zset (inbound_crypto_read_len b) (read_level b) len |>))
      else Some (1, None, 0, Some b)
  end.

Definition crypto_release_rcd_cb (bytes_read : Z) (arg : option backend)
    : option (Z * option backend) :=
  match arg with
  | None => Some (0, arg)
  | Some b =>
      if read_level b >=? 4 then Some (0, arg) else
      rd ← zget (inbound_crypto_read_len b) (read_level b);
      if bytes_read >? rd then Some (0, arg) else
      cnt ← int_inc (inbound_crypto_release_callbacks b);
      let b := b <| inbound_crypto_release_callbacks := cnt |>
                 <| inbound_crypto_released_len := uadd64 (inbound_crypto_released_len b) bytes_read |> in
      b ← (if bytes_read <? rd then
             let remaining := usub64 rd bytes_read in
             arr ← zget (inbound_crypto b) (read_level b);
             moved ← read_array CRYPTO_BUF arr bytes_read remaining;
             arr ← write_array CRYPTO_BUF arr 0 moved;
             Some (b <| inbound_crypto := zset (inbound_crypto b) (read_level b) arr |>
                     <| inbound_crypto_len := zset (inbound_crypto_len b) (read_level b) remaining |>)
           else Some (b <| inbound_crypto_len := zset (inbound_crypto_len b) (read_level b) 0 |>));
      Some (1, Some (b <| inbound_crypto_read_len := zset (inbound_crypto_read_len b) (read_level b) 0 |>))
  end.

Section WithHeaders.
Context {H : OpenSSLHeaders}.

Definition yield_secret_cb (prot_level direction : Z) (secret : ptr) (secret_len : Z)
    (arg : option backend) : option (Z * option backend) :=
  match arg with
  | None => Some (0, arg)
  | Some b =>
      cnt ← int_inc (yield_secret_callbacks b);
      let b := b <| yield_secret_callbacks := cnt |> in
      let b := if prot_level <? 4 then
                 if direction =? 0 then b <| read_level := prot_level |>
                 else if direction =? 1 then b <| write_level := prot_level |>
                 else b
               else b in
      if negb (prot_level =? OSSL_RECORD_PROTECTION_LEVEL_HANDSHAKE) &&
         negb (prot_level =? OSSL_RECORD_PROTECTION_LEVEL_APPLICATION) then Some (1, Some b) else
      if negb (secret_len =? SECRET_LEN) then Some (0, Some b) else
      if prot_level =? OSSL_RECORD_PROTECTION_LEVEL_HANDSHAKE then
        if direction =? 1 then
          bs ← read_ptr secret secret_len;
          arr ← write_array SECRET_LEN (hs_local (handshake_secrets b)) 0 bs;
          Some (1, Some (b <| handshake_secrets := (handshake_secrets b) <| hs_local := arr |> |>
                           <| handshake_local_secret_available := 1 |>
                           <| handshake_secrets_sent := 0 |>))
        else if direction =? 0 then
          bs ← read_ptr secret secret_len;
          arr ← write_array SECRET_LEN (hs_peer (handshake_secrets b)) 0 bs;
          Some (1, Some (b <| handshake_secrets := (handshake_secrets b) <| hs_peer := arr |> |>
                           <| handshake_peer_secret_available := 1 |>
                           <| handshake_secrets_sent := 0 |>))
        else Some (1, Some b)
      else if direction =? 1 then
        bs ← read_ptr secret secret_len;
        arr ← write_array SECRET_LEN (ort_local (one_rtt_secrets b)) 0 bs;
        Some (1, Some (b <| one_rtt_secrets := (one_rtt_secrets b) <| ort_local := arr |> |>
                         <| one_rtt_local_secret_available := 1 |>
                         <| one_rtt_secrets_sent := 0 |>))
      else if direction =? 0 then
        bs ← read_ptr secret secret_len;
        arr ← write_array SECRET_LEN (ort_peer (one_rtt_secrets b)) 0 bs;
        Some (1, Some (b <| one_rtt_secrets := (one_rtt_secrets b) <| ort_peer := arr |> |>
                         <| one_rtt_peer_secret_available := 1 |>
                         <| one_rtt_secrets_sent := 0 |>))
      else Some (1, Some b)
  end.

Definition got_transport_params_cb (params : ptr) (params_len : Z) (arg : option backend)
    : option (Z * option backend) :=
  match arg with
  | None => Some (0, arg)
  | Some b =>
      if params_len >? 512 then Some (0, arg) else
      bs ← read_ptr params params_len;
      arr ← write_array 512 (peer_transport_parameters b) 0 bs;
      cnt ← int_inc (got_transport_params_callbacks b);
      Some (1, Some (b <| peer_transport_parameters := arr |>
                       <| peer_transport_parameters_len := params_len |>
                       <| peer_transport_parameters_available := 1 |>
                       <| peer_transport_parameters_sent := 0 |>
                       <| got_transport_params_callbacks := cnt |>))
  end.

(** [app_data] is what [SSL_get_app_data] returns; a C string is its bytes
    before the terminator. *)
Definition keylog_cb (app_data : option backend) (line : ptr) : option (option backend) :=
  match app_data, line with
  | Some b, Some l =>
      cnt ← int_inc (keylog_callbacks b);
      Some (Some (b <| keylog_callbacks := cnt |>
                    <| keylog_bytes := uadd64 (keylog_bytes b) (zlen l) |>))
  | _, _ => Some app_data
  end.

Definition alert_cb (alert_code : Z) (arg : option backend) : Z := 1.

(** The function pointers of the dispatch table. *)
Inductive callback : Type :=
  | CbCryptoSend | CbCryptoRecv | CbCryptoRelease | CbYieldSecret | CbGotParams | CbAlert | CbNull.

Definition quicz_openssl_tls_dispatch : list (Z * callback) :=
  [(OSSL_FUNC_SSL_QUIC_TLS_CRYPTO_SEND, CbCryptoSend);
   (OSSL_FUNC_SSL_QUIC_TLS_CRYPTO_RECV_RCD, CbCryptoRecv);
   (OSSL_FUNC_SSL_QUIC_TLS_CRYPTO_RELEASE_RCD, CbCryptoRelease);
   (OSSL_FUNC_SSL_QUIC_TLS_YIELD_SECRET, CbYieldSecret);
   (OSSL_FUNC_SSL_QUIC_TLS_GOT_TRANSPORT_PARAMS, CbGotParams);
   (OSSL_FUNC_SSL_QUIC_TLS_ALERT, CbAlert);
   (0, CbNull)].

(** A dispatch table is searched up to its terminator. *)
Fixpoint find_dispatch (t : list (Z * callback)) (id : Z) : option callback :=
  match t with
  | [] => None
  | (i, cb) :: t => if i =? 0 then None else if i =? id then Some cb else find_dispatch t id
  end.

(** OpenSSL calls the function its dispatch table holds for the call's
    identifier; calling a pointer of another function type is undefined. *)
Definition invoke (c : tls_call) (b : backend) : option (tls_answer * backend) :=
  match c with
  | TCryptoSend buf =>
      match find_dispatch quicz_openssl_tls_dispatch OSSL_FUNC_SSL_QUIC_TLS_CRYPTO_SEND with
      | Some CbCryptoSend =>
          '(r, consumed, arg) ← crypto_send_cb (Some buf) (zlen buf) (Some 0) (Some b);
          b ← arg; Some (Answer r (default 0 consumed) [], b)
      | _ => None
      end
  | TCryptoRecv =>
      match find_dispatch quicz_openssl_tls_dispatch OSSL_FUNC_SSL_QUIC_TLS_CRYPTO_RECV_RCD with
      | Some CbCryptoRecv =>
          '(r, p, n, arg) ← crypto_recv_rcd_cb (Some b);
          b ← arg;
          bs ← (match p with
                | None => Some []
                | Some level => arr ← zget (inbound_crypto b) level; read_array CRYPTO_BUF arr 0 n
                end);
          Some (Answer r n bs, b)
      | _ => None
      end
  | TCryptoRelease n =>
      match find_dispatch quicz_openssl_tls_dispatch OSSL_FUNC_SSL_QUIC_TLS_CRYPTO_RELEASE_RCD with
      | Some CbCryptoRelease =>
          '(r, arg) ← crypto_release_rcd_cb n (Some b); b ← arg; Some (Answer r 0 [], b)
      | _ => None
      end
  | TYieldSecret level dir secret =>
      match find_dispatch quicz_openssl_tls_dispatch OSSL_FUNC_SSL_QUIC_TLS_YIELD_SECRET with
      | Some CbYieldSecret =>
          '(r, arg) ← yield_secret_cb level dir (Some secret) (zlen secret) (Some b);
          b ← arg; Some (Answer r 0 [], b)
      | _ => None
      end
  | TGotTransportParams params =>
      match find_dispatch quicz_openssl_tls_dispatch OSSL_FUNC_SSL_QUIC_TLS_GOT_TRANSPORT_PARAMS with
      | Some CbGotParams =>
          '(r, arg) ← got_transport_params_cb (Some params) (zlen params) (Some b);
          b ← arg; Some (Answer r 0 [], b)
      | _ => None
      end
  | TAlert code =>
      match find_dispatch quicz_openssl_tls_dispatch OSSL_FUNC_SSL_QUIC_TLS_ALERT with
      | Some CbAlert => Some (Answer (alert_cb code (Some b)) 0 [], b)
      | _ => None
      end
  | TKeylog line => arg ← keylog_cb (Some b) line; b ← arg; Some (Answer 0 0 [], b)
  end.

(** One [SSL_do_handshake] with the adapter's callbacks installed. *)
Fixpoint drive {S : Type} (p : ssl_prog S) (b : backend) : option (Z * S * backend) :=
  match p with
  | PDone rc s => Some (rc, s, b)
  | PCall c k => '(a, b) ← invoke c b; drive (k a) b
  end.

(** ** PSK and ALPN callbacks *)

Definition psk_identity : list byte := String.list_byte_of_string "quicz-psk".

(** [identity] and [psk] are OpenSSL's output buffers. *)
Definition psk_client_cb (identity : ptr) (max_identity_len : Z) (psk : ptr) (max_psk_len : Z)
    : option (Z * ptr * ptr) :=
  if (zlen psk_identity + 1 >? max_identity_len) ||
     (zlen quicz_openssl_backend_demo_psk >? max_psk_len) then Some (0, identity, psk) else
  identity ← write_ptr identity (psk_identity ++ [x00]);
  psk ← write_ptr psk quicz_openssl_backend_demo_psk;
  Some (zlen quicz_openssl_backend_demo_psk, identity, psk).

Definition psk_server_cb (identity : ptr) (psk : ptr) (max_psk_len : Z) : option (Z * ptr) :=
  match identity with
  | None => Some (0, psk)
  | Some name =>
      if negb (bool_decide (name = psk_identity)) ||
         (zlen quicz_openssl_backend_demo_psk >? max_psk_len) then Some (0, psk) else
      psk ← write_ptr psk quicz_openssl_backend_demo_psk;
      Some (zlen quicz_openssl_backend_demo_psk, psk)
  end.

Context {O : OpenSSL}.

Definition alpn_select_cb (client_protos : list byte) : Z * list byte :=
  let '(status, out) := SSL_select_next_proto quicz_alpn_protos client_protos in
  if status =? OPENSSL_NPN_NEGOTIATED then (SSL_TLSEXT_ERR_OK, out) else (SSL_TLSEXT_ERR_NOACK, out).

(** ** Construction and destruction *)

(** A [void *] context: [NULL], or the address of the struct and the struct. *)
Definition context : Type := option (nat * backend).

(** The four calls the constructor's condition makes, in order, up to the
    first that fails. *)
Definition configure_ctx (c : nat) (w : world O) : bool * world O :=
  let '(r, w) := ext (CallSetMinProto c TLS1_3_VERSION) w in
  if negb (ctrue r) then (false, w) else
  let '(r, w) := ext (CallSetMaxProto c TLS1_3_VERSION) w in
  if negb (ctrue r) then (false, w) else
  let '(r, w) := ext (CallSetCipherList c (String.list_byte_of_string "PSK")) w in
  if negb (ctrue r) then (false, w) else
  let '(r, w) := ext (CallSetCiphersuites c (String.list_byte_of_string "TLS_AES_128_GCM_SHA256")) w in
  (ctrue r, w).

Definition quicz_openssl_tls_backend_new_for_role (is_client : bool) (w : world O)
    : option (context * world O) :=
  let '(mem, w) := ext_new KMem CallCalloc w in
  match mem with
  | None => Some (None, w)
  | Some addr =>
      let '(c, w) := ext_new KCtx (CallCtxNew is_client) w in
      let b := calloc_backend <| ctx := c |> in
      match c with
      | None => w ← ext_free KMem mem w; Some (None, w)
      | Some c =>
          let '(ok, w) := configure_ctx c w in
          if negb ok then
            w ← ext_free KCtx (ctx b) w; w ← ext_free KMem mem w; Some (None, w)
          else
          let '(_, w) := ext (CallSetPskClient c) w in
          let '(_, w) := ext (CallSetPskServer c) w in
          let w := if is_client then w else snd (ext (CallSetAlpnSelect c) w) in
          let '(s, w) := ext_new KSsl (CallSslNew c) w in
          let b := b <| ssl := s |> in
          match s with
          | None => w ← ext_free KCtx (ctx b) w; w ← ext_free KMem mem w; Some (None, w)
          | Some s =>
              let '(_, w) := ext (CallSetAppData s) w in
              let w := if is_client then snd (ext (CallSetAlpnProtos s quicz_alpn_protos) w) else w in
              let '(_, w) := ext (CallSetKeylog c) w in
              let '(r, w) := ext (CallSetQuicCbs s) w in
              let b := b <| callbacks_set := r |> in
              let '(r, w) := ext (CallIsQuic s) w in
              let b := b <| ssl_is_quic_after_callbacks := r |> in
              let '(_, w) := if is_client then ext (CallSetConnectState s) w
                             else ext (CallSetAcceptState s) w in
              Some (Some (addr, b), w)
          end
      end
  end.

Definition quicz_openssl_tls_backend_new (w : world O) : option (context * world O) :=
  quicz_openssl_tls_backend_new_for_role true w.

Definition quicz_openssl_tls_backend_new_server (w : world O) : option (context * world O) :=
  quicz_openssl_tls_backend_new_for_role false w.

Definition quicz_openssl_tls_backend_free (context : context) (w : world O) : option (world O) :=
  match context with
  | None => Some w
  | Some (addr, b) =>
      w ← ext_free KSsl (ssl b) w;
      w ← ext_free KCtx (ctx b) w;
      ext_free KMem (Some addr) w
  end.

(** ** Backend API

    [context] is [None] for [NULL]. *)

(** [None] when the space is not one of the three tags. *)
Definition packet_space_level (space : Z) : option Z :=
  if space =? QUICZ_TLS_BACKEND_INITIAL then Some OSSL_RECORD_PROTECTION_LEVEL_NONE else
  if space =? QUICZ_TLS_BACKEND_HANDSHAKE then Some OSSL_RECORD_PROTECTION_LEVEL_HANDSHAKE else
  if space =? QUICZ_TLS_BACKEND_APPLICATION then Some OSSL_RECORD_PROTECTION_LEVEL_APPLICATION else
  None.

Definition quicz_openssl_tls_backend_receive (context : option backend) (space : Z)
    (data : ptr) (data_len : Z) : option (quicz_tls_backend_status * option backend) :=
  match context with
  | None => Some (QUICZ_TLS_BACKEND_INTERNAL, context)
  | Some b =>
      match ssl b, packet_space_level space with
      | None, _ | _, None => Some (QUICZ_TLS_BACKEND_INTERNAL, context)
      | Some _, Some level =>
          len ← zget (inbound_crypto_len b) level;
          if data_len >? usub64 CRYPTO_BUF len
          then Some (QUICZ_TLS_BACKEND_BUFFER_TOO_SMALL, context) else
          arr ← zget (inbound_crypto b) level;
          bs ← read_ptr data data_len;
          arr ← write_array CRYPTO_BUF arr len bs;
          Some (QUICZ_TLS_BACKEND_OK, Some
            (b <| inbound_crypto := zset (inbound_crypto b) level arr |>
               <| inbound_crypto_len := zset (inbound_crypto_len b) level (uadd64 len data_len) |>
               <| received_crypto_len := uadd64 (received_crypto_len b) data_len |>))
      end
  end.

Definition copy_pending_outbound (b : backend) (level : Z) (out : ptr) (out_len : Z)
    (written_len : cell) : option (quicz_tls_backend_status * ptr * cell * backend) :=
  if level >=? 4 then Some (QUICZ_TLS_BACKEND_INTERNAL, out, written_len, b) else
  len ← zget (outbound_crypto_len b) level;
  if len =? 0 then Some (QUICZ_TLS_BACKEND_PENDING, out, written_len, b) else
  if out_len <? len then Some (QUICZ_TLS_BACKEND_BUFFER_TOO_SMALL, out, written_len, b) else
  arr ← zget (outbound_crypto b) level;
  bs ← read_array CRYPTO_BUF arr 0 len;
  out ← write_ptr out bs;
  written_len ← store written_len len;
  Some (QUICZ_TLS_BACKEND_OK, out, written_len,
        b <| outbound_crypto_len := zset (outbound_crypto_len b) level 0 |>).

(** The drive part of [pull]: one [SSL_do_handshake], its error code, the
    overflow check and the second copy. *)
Definition pull_drive (b : backend) (s : nat) (level : Z) (out : ptr) (out_len : Z)
    (written_len : cell) (w : world O)
    : option (quicz_tls_backend_status * ptr * cell * option backend * world O) :=
  cnt ← int_inc (handshake_drive_calls b);
  let b := b <| handshake_drive_calls := cnt |> in
  '(rc, o, b) ← drive (SSL_do_handshake s (w_ossl w)) b;
  let w := w <| w_ossl := o |> in
  let '(b, w) := if negb (rc =? 1) then
                   let '(e, w) := ext (CallGetError s rc) w in (b <| last_ssl_error := e |>, w)
                 else (b <| last_ssl_error := SSL_ERROR_NONE |>, w) in
  if ctrue (outbound_crypto_overflow b)
  then Some (QUICZ_TLS_BACKEND_BUFFER_TOO_SMALL, out, written_len, Some b, w) else
  '(st, out, written_len, b) ← copy_pending_outbound b level out out_len written_len;
  if negb (bool_decide (st = QUICZ_TLS_BACKEND_PENDING))
  then Some (st, out, written_len, Some b, w) else
  if (rc =? 1) || (last_ssl_error b =? SSL_ERROR_WANT_READ) ||
     (last_ssl_error b =? SSL_ERROR_WANT_WRITE)
  then Some (QUICZ_TLS_BACKEND_PENDING, out, written_len, Some b, w)
  else Some (QUICZ_TLS_BACKEND_CRYPTO_ERROR, out, written_len, Some b, w).

Definition quicz_openssl_tls_backend_pull (context : option backend) (space : Z)
    (out : ptr) (out_len : Z) (written_len : cell) (w : world O)
    : option (quicz_tls_backend_status * ptr * cell * option backend * world O) :=
  written_len ← store written_len 0;
  match context with
  | None => Some (QUICZ_TLS_BACKEND_INTERNAL, out, written_len, context, w)
  | Some b =>
      match ssl b, packet_space_level space with
      | None, _ | _, None => Some (QUICZ_TLS_BACKEND_INTERNAL, out, written_len, context, w)
      | Some s, Some level =>
          '(st, out, written_len, b) ← copy_pending_outbound b level out out_len written_len;
          if negb (bool_decide (st = QUICZ_TLS_BACKEND_PENDING))
          then Some (st, out, written_len, Some b, w) else
          if negb (level =? OSSL_RECORD_PROTECTION_LEVEL_NONE)
          then Some (QUICZ_TLS_BACKEND_PENDING, out, written_len, Some b, w) else
          pull_drive b s level out out_len written_len w
      end
  end.

Definition quicz_openssl_tls_backend_set_local_transport_parameters (context : option backend)
    (data : ptr) (data_len : Z) (w : world O)
    : option (quicz_tls_backend_status * option backend * world O) :=
  match context with
  | None => Some (QUICZ_TLS_BACKEND_INTERNAL, context, w)
  | Some b =>
      match ssl b with
      | None => Some (QUICZ_TLS_BACKEND_INTERNAL, context, w)
      | Some s =>
          if ctrue (local_transport_parameters_set b) then Some (QUICZ_TLS_BACKEND_OK, context, w) else
          bs ← read_ptr data data_len;
          let '(r, w) := ext (CallSetTransportParams s bs) w in
          if negb (ctrue r) then Some (QUICZ_TLS_BACKEND_CRYPTO_ERROR, context, w) else
          Some (QUICZ_TLS_BACKEND_OK,
                Some (b <| local_transport_parameters_set := 1 |>
                        <| local_transport_parameters_len := data_len |>), w)
      end
  end.

Definition quicz_openssl_tls_backend_pull_peer_transport_parameters (context : option backend)
    (out : ptr) (out_len : Z) (written_len : cell)
    : option (quicz_tls_backend_status * ptr * cell * option backend) :=
  written_len ← store written_len 0;
  match context with
  | None => Some (QUICZ_TLS_BACKEND_INTERNAL, out, written_len, context)
  | Some b =>
      if negb (ctrue (peer_transport_parameters_available b)) || ctrue (peer_transport_parameters_sent b)
      then Some (QUICZ_TLS_BACKEND_PENDING, out, written_len, context) else
      if out_len <? peer_transport_parameters_len b
      then Some (QUICZ_TLS_BACKEND_BUFFER_TOO_SMALL, out, written_len, context) else
      bs ← read_array 512 (peer_transport_parameters b) 0 (peer_transport_parameters_len b);
      out ← write_ptr out bs;
      written_len ← store written_len (peer_transport_parameters_len b);
      Some (QUICZ_TLS_BACKEND_OK, out, written_len,
            Some (b <| peer_transport_parameters_sent := 1 |>))
  end.

(** [out] is [None] for [NULL]; assigning through [NULL] is undefined. *)
Definition quicz_openssl_tls_backend_pull_handshake_traffic_secrets (context : option backend)
    (out : option quicz_handshake_traffic_secrets)
    : option (quicz_tls_backend_status * option quicz_handshake_traffic_secrets * option backend) :=
  match context with
  | None => Some (QUICZ_TLS_BACKEND_INTERNAL, out, context)
  | Some b =>
      if negb (ctrue (handshake_local_secret_available b)) ||
         negb (ctrue (handshake_peer_secret_available b)) ||
         ctrue (handshake_secrets_sent b)
      then Some (QUICZ_TLS_BACKEND_PENDING, out, context) else
      _ ← out;
      Some (QUICZ_TLS_BACKEND_OK, Some (handshake_secrets b),
            Some (b <| handshake_secrets_sent := 1 |>))
  end.

Definition quicz_openssl_tls_backend_pull_1rtt_traffic_secrets (context : option backend)
    (out : option quicz_one_rtt_traffic_secrets)
    : option (quicz_tls_backend_status * option quicz_one_rtt_traffic_secrets * option backend) :=
  match context with
  | None => Some (QUICZ_TLS_BACKEND_INTERNAL, out, context)
  | Some b =>
      if negb (ctrue (one_rtt_local_secret_available b)) ||
         negb (ctrue (one_rtt_peer_secret_available b)) ||
         ctrue (one_rtt_secrets_sent b)
      then Some (QUICZ_TLS_BACKEND_PENDING, out, context) else
      _ ← out;
      Some (QUICZ_TLS_BACKEND_OK, Some (one_rtt_secrets b),
            Some (b <| one_rtt_secrets_sent := 1 |>))
  end.

Definition quicz_openssl_tls_backend_handshake_confirmed (context : option backend) : bool :=
  match context with
  | None => false
  | Some b =>
      ctrue (peer_transport_parameters_available b) &&
      ctrue (handshake_local_secret_available b) &&
      ctrue (handshake_peer_secret_available b) &&
      ctrue (one_rtt_local_secret_available b) &&
      ctrue (one_rtt_peer_secret_available b) &&
      negb (received_crypto_len b =? 0) &&
      (inbound_crypto_released_len b =? received_crypto_len b)
  end.

Definition quicz_openssl_tls_backend_pull_negotiated_alpn (context : option backend)
    (out : ptr) (out_len : Z) (written_len : cell) (w : world O)
    : option (quicz_tls_backend_status * ptr * cell) :=
  match context with
  | None => Some (QUICZ_TLS_BACKEND_INTERNAL, out, written_len)
  | Some b =>
      match ssl b with
      | None => Some (QUICZ_TLS_BACKEND_INTERNAL, out, written_len)
      | Some s =>
          match SSL_get0_alpn_selected s (w_ossl w) with
          | None => Some (QUICZ_TLS_BACKEND_PENDING, out, written_len)
          | Some alpn =>
              if zlen alpn =? 0 then Some (QUICZ_TLS_BACKEND_PENDING, out, written_len) else
              if out_len <? zlen alpn then Some (QUICZ_TLS_BACKEND_BUFFER_TOO_SMALL, out, written_len) else
              out ← write_ptr out alpn;
              written_len ← store written_len (zlen alpn);
              Some (QUICZ_TLS_BACKEND_OK, out, written_len)
          end
      end
  end.

(** ** Introspection

    Each getter returns 0 for a [NULL] context. *)
Definition getter (f : backend -> Z) (context : option backend) : Z :=
  match context with Some b => f b | None => 0 end.

Definition quicz_openssl_tls_backend_callbacks_set := getter callbacks_set.
Definition quicz_openssl_tls_backend_local_transport_parameters_set := getter local_transport_parameters_set.
Definition quicz_openssl_tls_backend_ssl_is_quic_after_callbacks := getter ssl_is_quic_after_callbacks.
Definition quicz_openssl_tls_backend_local_transport_parameters_len := getter local_transport_parameters_len.
Definition quicz_openssl_tls_backend_received_crypto_len := getter received_crypto_len.
Definition quicz_openssl_tls_backend_peer_transport_parameters_len := getter peer_transport_parameters_len.
Definition quicz_openssl_tls_backend_got_transport_params_callbacks := getter got_transport_params_callbacks.
Definition quicz_openssl_tls_backend_keylog_callbacks := getter keylog_callbacks.
Definition quicz_openssl_tls_backend_keylog_bytes := getter keylog_bytes.
Definition quicz_openssl_tls_backend_yield_secret_callbacks := getter yield_secret_callbacks.
Definition quicz_openssl_tls_backend_released_inbound_crypto_len := getter inbound_crypto_released_len.
Definition quicz_openssl_tls_backend_inbound_crypto_recv_callbacks := getter inbound_crypto_recv_callbacks.
Definition quicz_openssl_tls_backend_inbound_crypto_release_callbacks := getter inbound_crypto_release_callbacks.
Definition quicz_openssl_tls_backend_generated_crypto_len := getter total_outbound_crypto_len.
Definition quicz_openssl_tls_backend_handshake_drive_calls := getter handshake_drive_calls.
Definition quicz_openssl_tls_backend_last_ssl_error := getter last_ssl_error.

(** [for (level = 0; level < 4; level += 1) pending_len += inbound_crypto_len[level]]. *)
Fixpoint sum_levels (n : nat) (level : Z) (lens : list Z) (acc : Z) : option Z :=
  match n with
  | 0%nat => Some acc
  | S n => len ← zget lens level; sum_levels n (level + 1) lens (uadd64 acc len)
  end.

Definition quicz_openssl_tls_backend_pending_inbound_crypto_len (context : option backend) : option Z :=
  match context with
  | None => Some 0
  | Some b => sum_levels 4 0 (inbound_crypto_len b) 0
  end.

(** ** Debug entry points *)

Definition quicz_openssl_tls_backend_debug_consume_inbound_once (context : option backend)
    : option (quicz_tls_backend_status * option backend) :=
  match context with
  | None => Some (QUICZ_TLS_BACKEND_INTERNAL, context)
  | Some _ =>
      '(r, buf, bytes_read, context) ← crypto_recv_rcd_cb context;
      if negb (ctrue r) then Some (QUICZ_TLS_BACKEND_CRYPTO_ERROR, context) else
      if bytes_read =? 0 then Some (QUICZ_TLS_BACKEND_PENDING, context) else
      if bool_decide (buf = None) then Some (QUICZ_TLS_BACKEND_INTERNAL, context) else
      '(r, context) ← crypto_release_rcd_cb bytes_read context;
      if negb (ctrue r) then Some (QUICZ_TLS_BACKEND_CRYPTO_ERROR, context) else
      Some (QUICZ_TLS_BACKEND_OK, context)
  end.

Definition quicz_openssl_tls_backend_debug_copy_handshake_traffic_secrets (context : option backend)
    (out : option quicz_handshake_traffic_secrets)
    : quicz_tls_backend_status * option quicz_handshake_traffic_secrets :=
  match context, out with
  | Some b, Some _ =>
      if negb (ctrue (handshake_local_secret_available b)) ||
         negb (ctrue (handshake_peer_secret_available b))
      then (QUICZ_TLS_BACKEND_PENDING, out)
      else (QUICZ_TLS_BACKEND_OK, Some (handshake_secrets b))
  | _, _ => (QUICZ_TLS_BACKEND_INTERNAL, out)
  end.

Definition quicz_openssl_tls_backend_debug_got_transport_parameters (context : option backend)
    (params : ptr) (params_len : Z) : option (quicz_tls_backend_status * option backend) :=
  match context with
  | None => Some (QUICZ_TLS_BACKEND_INTERNAL, context)
  | Some _ =>
      '(r, context) ← got_transport_params_cb params params_len context;
      Some (if ctrue r then QUICZ_TLS_BACKEND_OK else QUICZ_TLS_BACKEND_BUFFER_TOO_SMALL, context)
  end.

Definition quicz_openssl_tls_backend_debug_yield_handshake_secret (context : option backend)
    (direction : Z) (secret : ptr) (secret_len : Z)
    : option (quicz_tls_backend_status * option backend) :=
  match context with
  | None => Some (QUICZ_TLS_BACKEND_INTERNAL, context)
  | Some _ =>
      '(r, context) ← yield_secret_cb OSSL_RECORD_PROTECTION_LEVEL_HANDSHAKE direction secret secret_len context;
      Some (if ctrue r then QUICZ_TLS_BACKEND_OK else QUICZ_TLS_BACKEND_CRYPTO_ERROR, context)
  end.

Definition quicz_openssl_tls_backend_debug_yield_application_secret (context : option backend)
    (direction : Z) (secret : ptr) (secret_len : Z)
    : option (quicz_tls_backend_status * option backend) :=
  match context with
  | None => Some (QUICZ_TLS_BACKEND_INTERNAL, context)
  | Some _ =>
      '(r, context) ← yield_secret_cb OSSL_RECORD_PROTECTION_LEVEL_APPLICATION direction secret secret_len context;
      Some (if ctrue r then QUICZ_TLS_BACKEND_OK else QUICZ_TLS_BACKEND_CRYPTO_ERROR, context)
  end.

End WithHeaders.

End Adapter.
