(* ===== verification/AdapterInv.v ===== *)
(** * Invariant and step effects of the OpenSSL adapter

    The well-formedness invariant of the adapter struct, and for every
    callback and API function one lemma: it has no undefined behaviour, keeps
    the invariant, and changes the CRYPTO queues exactly as its label says. *)
From S2P Require Import Prelude CAbi OpenSSL CryptoLevels Adapter.
Import Adapter.
Local Open Scope Z_scope.

Module AdapterInv.

(** [n] bounds the number of calls made so far. *)
Record inv (n : Z) (b : backend) : Prop := {
  i_out : levels_ok CRYPTO_BUF (outbound_crypto b) (outbound_crypto_len b);
  i_in : levels_ok CRYPTO_BUF (inbound_crypto b) (inbound_crypto_len b);
  i_rd_len : zlen (inbound_crypto_read_len b) = 4;
  i_rd : forall i r l, zget (inbound_crypto_read_len b) i = Some r ->
           zget (inbound_crypto_len b) i = Some l -> 0 <= r <= l;
  i_rl : 0 <= read_level b < 4;
  i_wl : 0 <= write_level b < 4;
  i_peer : 0 <= peer_transport_parameters_len b <= 512;
  i_got : 0 <= got_transport_params_callbacks b <= n;
  i_keylog : 0 <= keylog_callbacks b <= n;
  i_yield : 0 <= yield_secret_callbacks b <= n;
  i_recv : 0 <= inbound_crypto_recv_callbacks b <= n;
  i_release : 0 <= inbound_crypto_release_callbacks b <= n;
  i_drive : 0 <= handshake_drive_calls b <= n;
  i_received : 0 <= received_crypto_len b <= CRYPTO_BUF * n;
  i_total : 0 <= total_outbound_crypto_len b <= CRYPTO_BUF * n;
  i_released : 0 <= inbound_crypto_released_len b;
  i_balance : inbound_crypto_released_len b + sumZ (inbound_crypto_len b) <= received_crypto_len b;
}.

Lemma inv_mono n m b : n <= m -> inv n b -> inv m b.
Proof. intros Hnm []. unfold CRYPTO_BUF in *. constructor; done || (unfold CRYPTO_BUF; lia). Qed.

(** ** The CRYPTO queues *)

Definition outp (b : backend) (i : Z) : list byte := pend (outbound_crypto b) (outbound_crypto_len b) i.
Definition inp (b : backend) (i : Z) : list byte := pend (inbound_crypto b) (inbound_crypto_len b) i.

(** Length of the prefix of level [i] that OpenSSL holds a pointer to. *)
Definition loan (b : backend) (i : Z) : Z := default 0 (zget (inbound_crypto_read_len b) i).

(** Received bytes that were neither released by OpenSSL nor are pending. *)
Definition lost (b : backend) : Z :=
  received_crypto_len b - inbound_crypto_released_len b - sumZ (inbound_crypto_len b).

(** What a call did to the queues. *)
Inductive label : Type :=
  | LReceived (level : Z) (data : list byte)   (** the transport delivered [data] *)
  | LPulled (level : Z) (data : list byte)     (** the transport took [data] *)
  | LSent (level : Z) (data : list byte)       (** OpenSSL produced [data] *)
  | LRead (level : Z) (data : list byte)       (** OpenSSL was lent [data] *)
  | LReleased (level : Z) (data : list byte)   (** OpenSSL consumed [data] of the lent bytes *)
  | LOther.

Definition same_out (b b' : backend) : Prop := forall j, outp b' j = outp b j.
Definition same_in (b b' : backend) : Prop :=
  (forall j, inp b' j = inp b j) /\ received_crypto_len b' = received_crypto_len b /\
  inbound_crypto_released_len b' = inbound_crypto_released_len b /\ lost b' = lost b.
Definition same_loans (b b' : backend) : Prop := forall j, loan b' j = loan b j.

Definition effect (b : backend) (l : label) (b' : backend) : Prop :=
  match l with
  | LReceived L d =>
      (forall j, inp b' j = if L =? j then inp b j ++ d else inp b j) /\
      received_crypto_len b' = received_crypto_len b + zlen d /\
      inbound_crypto_released_len b' = inbound_crypto_released_len b /\
      lost b' = lost b /\ same_out b b' /\ same_loans b b'
  | LPulled L d =>
      d = outp b L /\ d <> [] /\ (forall j, outp b' j = if L =? j then [] else outp b j) /\
      same_in b b' /\ same_loans b b'
  | LSent L d =>
      (forall j, outp b' j = if L =? j then outp b j ++ d else outp b j) /\
      same_in b b' /\ same_loans b b'
  | LRead L d =>
      d = inp b L /\ d <> [] /\ loan b L = 0 /\
      (forall j, loan b' j = if L =? j then zlen d else loan b j) /\ same_in b b' /\ same_out b b'
  | LReleased L d =>
      zlen d <= loan b L <= zlen (inp b L) /\ d = ztake (zlen d) (inp b L) /\
      (forall j, inp b' j = if L =? j then zdrop (zlen d) (ztake (loan b L) (inp b L)) else inp b j) /\
      (forall j, loan b' j = if L =? j then 0 else loan b j) /\
      received_crypto_len b' = received_crypto_len b /\
      inbound_crypto_released_len b' = inbound_crypto_released_len b + zlen d /\
      lost b' = lost b + (zlen (inp b L) - loan b L) /\ same_out b b'
  | LOther => same_out b b' /\ same_in b b' /\ same_loans b b'
  end.

Arguments effect : simpl never.

Lemma same_in_refl b : same_in b b.
Proof. by repeat split. Qed.

(** Fields outside the queues are free to change. *)
Lemma effect_other_fields b b' :
  outbound_crypto b' = outbound_crypto b -> outbound_crypto_len b' = outbound_crypto_len b ->
  inbound_crypto b' = inbound_crypto b -> inbound_crypto_len b' = inbound_crypto_len b ->
  inbound_crypto_read_len b' = inbound_crypto_read_len b ->
  received_crypto_len b' = received_crypto_len b ->
  inbound_crypto_released_len b' = inbound_crypto_released_len b ->
  effect b LOther b'.
Proof.
  intros H1 H2 H3 H4 H5 H6 H7. unfold effect, same_out, same_in, same_loans, lost, outp, inp, loan.
  by rewrite H1, H2, H3, H4, H5, H6, H7.
Qed.

Ltac other := apply effect_other_fields; reflexivity.

(** The struct the constructor returns: zeroed apart from the OpenSSL handles
    and the results of two OpenSSL calls. *)
Definition fresh_backend (c s : option nat) (cbs quic : Z) : backend :=
  calloc_backend <| ctx := c |> <| ssl := s |> <| callbacks_set := cbs |>
                 <| ssl_is_quic_after_callbacks := quic |>.

Lemma inv_init c s cbs quic : inv 0 (fresh_backend c s cbs quic).
Proof.
  constructor; cbn; try done.
  - by apply levels_ok_fresh.
  - by apply levels_ok_fresh.
  - by intros i r l ->%zget_zeros ->%zget_zeros.
Qed.

Lemma fresh_queues c s cbs quic L :
  outp (fresh_backend c s cbs quic) L = [] /\ inp (fresh_backend c s cbs quic) L = [] /\
  loan (fresh_backend c s cbs quic) L = 0 /\ lost (fresh_backend c s cbs quic) = 0.
Proof.
  unfold outp, inp, loan, lost. cbn. rewrite !pend_zeros. repeat split.
  by destruct (zget _ L) eqn:E; [rewrite (zget_zeros _ _ E)|].
Qed.

(** Reduce projections of an updated struct. *)
Ltac bsimp :=
  cbn [set_field
    ctx ssl callbacks_set local_transport_parameters_set ssl_is_quic_after_callbacks
    local_transport_parameters_len peer_transport_parameters peer_transport_parameters_len
    peer_transport_parameters_available peer_transport_parameters_sent
    got_transport_params_callbacks keylog_callbacks keylog_bytes handshake_secrets
    handshake_local_secret_available handshake_peer_secret_available handshake_secrets_sent
    one_rtt_secrets one_rtt_local_secret_available one_rtt_peer_secret_available
    one_rtt_secrets_sent yield_secret_callbacks received_crypto_len inbound_crypto
    inbound_crypto_len inbound_crypto_read_len inbound_crypto_released_len read_level
    write_level inbound_crypto_recv_callbacks inbound_crypto_release_callbacks outbound_crypto
    outbound_crypto_len total_outbound_crypto_len outbound_crypto_overflow
    handshake_drive_calls last_ssl_error].
Ltac wp_norm ::= bsimp.

(** Rebuild the invariant after a field update. *)
Ltac inv_solve :=
  constructor; cbn;
  solve [ assumption | lia | eauto with levels | unfold CRYPTO_BUF in *; lia
        | apply levels_ok_set; unfold CRYPTO_BUF in *; lia || assumption ].

Ltac inv_triv :=
  try solve [assumption | lia | unfold CRYPTO_BUF in *; lia | rewrite ?zlen_zset; assumption].

Ltac inv_cases :=
  match goal with H : inv _ _ |- _ => let H' := fresh in pose proof H as H'; destruct H' as
    [Hout Hin Hrdl Hrd Hrl Hwl Hpeer Hgot Hkl Hy Hrcv Hrls Hdr Hrec Htot Hrld Hbal] end;
  match goal with
  | Ha : levels_ok _ (outbound_crypto _) _, Hb : levels_ok _ (inbound_crypto _) _ |- _ =>
      pose proof (lv_bufs _ _ _ Ha) as Ho1; pose proof (lv_lens _ _ _ Ha) as Ho2;
      pose proof (lv_cap _ _ _ Ha) as Ho3; pose proof (lv_bufs _ _ _ Hb) as Hi1;
      pose proof (lv_lens _ _ _ Hb) as Hi2; pose proof (lv_cap _ _ _ Hb) as Hi3
  end.

(** ** Callbacks *)

Lemma send_wp n b buf : inv n b -> n < INT_MAX ->
  wp (crypto_send_cb (Some buf) (zlen buf) (Some 0) (Some b)) (fun '(r, c, arg) =>
    exists b', arg = Some b' /\ inv (n + 1) b' /\
      (r = 1 /\ c = Some (zlen buf) /\ effect b (LSent (write_level b) buf) b' \/
       r = 0 /\ c = Some 0 /\ outbound_crypto_overflow b' = 1 /\ effect b LOther b')).
Proof.
  intros Hinv Hn. pose proof (zlen_nonneg buf) as Hbuf. inv_cases.
  unfold crypto_send_cb, INT_MAX, CRYPTO_BUF in *. wp_go; try lia.
  - eexists. split; [done|]. split; [inv_solve|]. right. repeat split; try done; other.
  - eexists. split; [done|]. rewrite ztake_all. zsimp. split; [inv_solve|]. left.
    split; [done|]. split; [done|]. split; [|by repeat split].
    intros j. unfold outp. cbn. apply pend_append; done || lia.
Qed.

Lemma inp_at n b L len : inv n b -> zget (inbound_crypto_len b) L = Some len ->
  exists arr, zget (inbound_crypto b) L = Some arr /\ inp b L = slice arr 0 len /\ zlen (inp b L) = len.
Proof.
  intros Hinv Hlen. pose proof (i_in _ _ Hinv) as [Hb Hl Hc]. pose proof (zget_Some_lt _ _ _ Hlen).
  destruct (zget_lt (inbound_crypto b) L) as [arr Harr]; [lia|]. exists arr.
  unfold inp, pend. rewrite Harr, Hlen. repeat split. apply zlen_slice. by apply (Hc _ _ Hlen).
Qed.

Lemma recv_wp n b : inv n b -> n < INT_MAX ->
  wp (crypto_recv_rcd_cb (Some b)) (fun '(r, p, m, arg) =>
    exists b', arg = Some b' /\ inv (n + 1) b' /\ r = 1 /\
      match p with
      | None => m = 0 /\ effect b LOther b'
      | Some L => L = read_level b /\ m = zlen (inp b L) /\ effect b (LRead L (inp b L)) b' /\
                  inbound_crypto b' = inbound_crypto b
      end).
Proof.
  intros Hinv Hn. inv_cases.
  unfold crypto_recv_rcd_cb, INT_MAX, CRYPTO_BUF in *. wp_go; try lia; eexists; (split; [done|]).
  - split; [by apply (inv_mono n); [lia|]|]. repeat split.
  - destruct (inp_at n b _ _ Hinv Hx0) as (arr & _ & _ & Hzl).
    split; [|split; [done|]; split; [done|]; split; [done|]; split; [|done]].
    + constructor; cbn; inv_triv.
      intros i r l. rewrite zget_zset by lia. destruct (Z.eqb_spec (read_level b) i) as [<-|]; [|apply Hrd].
      intros [= <-] Hl. rewrite Hx0 in Hl. injection Hl as <-. lia.
    + assert (zlen (inp b (read_level b)) <> 0) as Hne by lia.
      split; [done|]. split; [intros Hnil; cbn in Hnil; by rewrite Hnil in Hne|]. unfold loan; cbn. split; [rewrite Hx; cbn; lia|].
      split; [|by repeat split]. intros j. rewrite zget_zset by lia.
      destruct (Z.eqb_spec (read_level b) j); [by rewrite Hzl|done].
  - split; [inv_solve|]. repeat split.
Qed.

(** Both branches of [crypto_release_rcd_cb] leave the lent prefix without its
    first [k] bytes as the whole content of the level. *)
Lemma released_effect n b b' L len rd k : inv n b ->
  zget (inbound_crypto_len b) L = Some len -> zget (inbound_crypto_read_len b) L = Some rd ->
  0 <= k <= rd ->
  inbound_crypto_len b' = zset (inbound_crypto_len b) L (rd - k) ->
  inbound_crypto_read_len b' = zset (inbound_crypto_read_len b) L 0 ->
  (forall j, inp b' j = if L =? j then zdrop k (ztake rd (inp b L)) else inp b j) ->
  inbound_crypto_released_len b' = inbound_crypto_released_len b + k ->
  received_crypto_len b' = received_crypto_len b -> same_out b b' ->
  effect b (LReleased L (ztake k (inp b L))) b' /\
  inbound_crypto_released_len b' + sumZ (inbound_crypto_len b') <= received_crypto_len b' /\
  (forall i r l, zget (inbound_crypto_read_len b') i = Some r ->
     zget (inbound_crypto_len b') i = Some l -> 0 <= r <= l).
Proof.
  intros Hinv Hlen Hrdx Hk Elen Erd Einp Erel Erec Hout'. inv_cases.
  destruct (inp_at n b _ _ Hinv Hlen) as (arr & _ & _ & Hzl).
  pose proof (zget_Some_lt _ _ _ Hlen). pose proof (Hrd _ _ _ Hrdx Hlen).
  assert (loan b L = rd) as Hloan by (unfold loan; by rewrite Hrdx).
  split; [|split].
  - unfold effect, lost. rewrite zlen_ztake, Hloan, Hzl, Elen, (sumZ_zset _ _ _ _ Hlen), Erel, Erec by lia.
    split_and!; try done || lia. intros j. unfold loan. rewrite Erd, zget_zset by lia.
    by destruct (L =? j).
  - rewrite Elen, (sumZ_zset _ _ _ _ Hlen), Erel, Erec. lia.
  - intros i r l. rewrite Elen, Erd, !zget_zset by lia.
    destruct (Z.eqb_spec L i); [|apply Hrd]. intros [= <-] [= <-]. lia.
Qed.

Lemma release_wp n b k : inv n b -> n < INT_MAX -> 0 <= k ->
  wp (crypto_release_rcd_cb k (Some b)) (fun '(r, arg) =>
    exists b', arg = Some b' /\ inv (n + 1) b' /\
      (r = 1 /\ effect b (LReleased (read_level b) (ztake k (inp b (read_level b)))) b' \/ r = 0 /\ b' = b)).
Proof.
  intros Hinv Hn Hk. inv_cases.
  assert (0 <= sumZ (inbound_crypto_len b)) as Hsum by (apply sumZ_nonneg; intros i m Hm; by apply (Hi3 _ _ Hm)).
  destruct (zget_lt (inbound_crypto_len b) (read_level b)) as [len Hlen]; [lia|].
  destruct (inp_at n b _ _ Hinv Hlen) as (arr & Harr & Hinp & Hzl).
  pose proof (Hi3 _ _ Hlen) as Hcap. pose proof (zget_le_sumZ _ _ _ (fun i m Hm => proj1 (Hi3 i m Hm)) Hlen).
  unfold crypto_release_rcd_cb, INT_MAX, CRYPTO_BUF in *.
  apply wp_if; [lia|intros _]. apply wp_bind, wp_zget; [lia|intros rd Hrdx].
  pose proof (Hrd _ _ _ Hrdx Hlen) as Hrdle. cbn beta. apply wp_if; intros E.
  { apply wp_ret. exists b. split; [done|]. split; [by apply (inv_mono n); [lia|]|]. by right. }
  wp_go; cbn in *; rewrite ?Harr in *; simplify_eq; eexists; (split; [done|]); zsimp.
  - edestruct (released_effect n b) as (He & HB & HR); [done..| | | | | | | | |split; [|left; split; [done|exact He]]];
      cbn; try done; try lia.
    + intros j. unfold inp at 1. cbn. rewrite pend_shift by (done || lia).
      destruct (Z.eqb_spec (read_level b) j); [|done].
      rewrite Hinp, ztake_slice, zdrop_slice by lia. f_equal; lia.
    + constructor; cbn; inv_triv; try done. apply levels_ok_set; inv_triv; done.
  - assert (k = rd) as -> by lia.
    edestruct (released_effect n b) as (He & HB & HR); [done..| | | | | | | | |split; [|left; split; [done|exact He]]];
      cbn; try done; try lia.
    + by rewrite Z.sub_diag.
    + intros j. unfold inp at 1. cbn. rewrite pend_clear by lia.
      destruct (Z.eqb_spec (read_level b) j); [|done].
      by rewrite Hinp, ztake_slice, zdrop_slice, Z.sub_diag by lia.
    + constructor; cbn; inv_triv; try done. apply levels_ok_set_len; inv_triv; done.
Qed.

Section WithHeaders.
Context {H : OpenSSLHeaders}.

(** The result of a call that leaves the queues alone. *)
Definition other_post (n : Z) (b : backend) : Z * option backend -> Prop :=
  fun '(r, arg) => (r = 0 \/ r = 1) /\ exists b', arg = Some b' /\ inv (n + 1) b' /\ effect b LOther b'.

Ltac other_done :=
  split; [auto|]; eexists; split; [done|];
  split; [first [inv_solve | by eapply inv_mono; [|eassumption]; lia] | first [other | done]].

Lemma yield_wp n b level dir secret : inv n b -> n < INT_MAX -> 0 <= level ->
  wp (yield_secret_cb level dir (Some secret) (zlen secret) (Some b)) (other_post n b).
Proof.
  intros Hinv Hn Hlevel. inv_cases. pose proof (zlen_nonneg secret).
  unfold yield_secret_cb, INT_MAX, SECRET_LEN in *.
  apply wp_bind, wp_int_inc; [unfold INT_MAX; lia|]. cbv zeta beta.
  set (b1 := if level <? 4 then _ else _).
  assert (inv (n + 1) b1 /\ effect b LOther b1) as [Hinv1 He1].
  { subst b1. destruct (level <? 4) eqn:?, (dir =? 0), (dir =? 1); (split; [inv_solve|other]). }
  clearbody b1. clear - Hinv1 He1. inv_cases.
  assert (forall b', effect b1 LOther b' -> effect b LOther b') as Htrans.
  { destruct He1 as (A1 & (A2 & A3 & A4 & A5) & A6). intros b' (B1 & (B2 & B3 & B4 & B5) & B6).
    repeat split; intros; congruence. }
  wp_go; unfold other_post; (split; [auto|]); eexists; (split; [done|]);
    (split; [first [assumption|inv_solve]|first [done|apply Htrans; other]]).
Qed.

Lemma got_wp n b params : inv n b -> n < INT_MAX ->
  wp (got_transport_params_cb (Some params) (zlen params) (Some b)) (other_post n b).
Proof.
  intros Hinv Hn. inv_cases. pose proof (zlen_nonneg params).
  unfold got_transport_params_cb, INT_MAX in *. wp_go; other_done.
Qed.

Lemma keylog_wp n b line : inv n b -> n < INT_MAX ->
  wp (keylog_cb (Some b) line) (fun arg => exists b', arg = Some b' /\ inv (n + 1) b' /\ effect b LOther b').
Proof.
  intros Hinv Hn. inv_cases. unfold keylog_cb, INT_MAX in *. destruct line as [l|].
  - wp_go. eexists. split; [done|]. split; [inv_solve|other].
  - apply wp_ret. exists b. split; [done|]. split; [by apply (inv_mono n); [lia|]|]. by repeat split.
Qed.

(** The dispatch table routes every call to its own callback. *)
Lemma find_dispatch_all {Hok : OpenSSLHeadersOk H} :
  find_dispatch quicz_openssl_tls_dispatch OSSL_FUNC_SSL_QUIC_TLS_CRYPTO_SEND = Some CbCryptoSend /\
  find_dispatch quicz_openssl_tls_dispatch OSSL_FUNC_SSL_QUIC_TLS_CRYPTO_RECV_RCD = Some CbCryptoRecv /\
  find_dispatch quicz_openssl_tls_dispatch OSSL_FUNC_SSL_QUIC_TLS_CRYPTO_RELEASE_RCD = Some CbCryptoRelease /\
  find_dispatch quicz_openssl_tls_dispatch OSSL_FUNC_SSL_QUIC_TLS_YIELD_SECRET = Some CbYieldSecret /\
  find_dispatch quicz_openssl_tls_dispatch OSSL_FUNC_SSL_QUIC_TLS_GOT_TRANSPORT_PARAMS = Some CbGotParams /\
  find_dispatch quicz_openssl_tls_dispatch OSSL_FUNC_SSL_QUIC_TLS_ALERT = Some CbAlert.
Proof.
  pose proof dispatch_ids_distinct as Hd. rewrite !NoDup_cons, !not_elem_of_cons in Hd.
  destruct_and!. unfold quicz_openssl_tls_dispatch, find_dispatch.
  repeat match goal with |- context [?a =? ?b] => destruct (Z.eqb_spec a b); try congruence end.
  by repeat split.
Qed.

(** The label of a callback, from what OpenSSL passed and got back. *)
Definition label_of (b : backend) (c : tls_call) (a : tls_answer) : label :=
  match c with
  | TCryptoSend buf => if ans_ret a =? 1 then LSent (write_level b) buf else LOther
  | TCryptoRecv => if ans_len a =? 0 then LOther else LRead (read_level b) (ans_buf a)
  | TCryptoRelease k =>
      if ans_ret a =? 1 then LReleased (read_level b) (ztake k (inp b (read_level b))) else LOther
  | _ => LOther
  end.

Lemma effect_refl b : effect b LOther b.
Proof. by repeat split. Qed.

Lemma invoke_wp {Hok : OpenSSLHeadersOk H} n b c : inv n b -> n < INT_MAX -> tls_call_ok c ->
  wp (invoke c b) (fun '(a, b') => inv (n + 1) b' /\ effect b (label_of b c a) b').
Proof.
  intros Hinv Hn Hc.
  destruct find_dispatch_all as (D1 & D2 & D3 & D4 & D5 & D6).
  destruct c; cbn [invoke tls_call_ok label_of] in *; rewrite ?D1, ?D2, ?D3, ?D4, ?D5, ?D6.
  - apply wp_bind. eapply wp_mono; [by apply (send_wp n)|].
    by intros [[r co] arg] (b' & -> & Hi & [(-> & -> & He)|(-> & -> & _ & He)]).
  - apply wp_bind. eapply wp_mono; [by apply (recv_wp n)|].
    intros [[[r p] m] arg] (b' & -> & Hi & -> & Hp). cbn. destruct p as [L|].
    + destruct Hp as (-> & -> & He & Heq). inv_cases. rewrite Heq.
      destruct (zget_lt (inbound_crypto_len b) (read_level b)) as [len Hlen].
      { pose proof (i_in _ _ Hinv) as []. pose proof (i_rl _ _ Hinv). lia. }
      destruct (inp_at n b _ _ Hinv Hlen) as (arr & Harr & Hinp & Hzl). rewrite Harr. cbn.
      pose proof (lv_cap _ _ _ (i_in _ _ Hinv) _ _ Hlen).
      apply wp_bind, wp_read_array; [lia..|]. cbn. split; [done|].
      pose proof He as (_ & Hne & _). destruct (Z.eqb_spec (zlen (inp b (read_level b))) 0) as [Hz|].
      { by apply zlen_nil_inv in Hz. }
      by rewrite Hzl, <- Hinp.
    + destruct Hp as [-> He]. by cbn.
  - apply wp_bind. eapply wp_mono; [by apply (release_wp n); [..|lia]|].
    intros [r arg] (b' & -> & Hi & [[-> He]|[-> ->]]); cbn; [done|]. split; [done|apply effect_refl].
  - apply wp_bind. eapply wp_mono; [by apply (yield_wp n); [..|lia]|].
    by intros [r arg] (_ & b' & -> & Hi & He).
  - apply wp_bind. eapply wp_mono; [by apply (got_wp n)|].
    by intros [r arg] (_ & b' & -> & Hi & He).
  - split; [by apply (inv_mono n); [lia|]|apply effect_refl].
  - apply wp_bind. eapply wp_mono; [by apply (keylog_wp n)|].
    by intros arg (b' & -> & Hi & He).
Qed.

(** ** API functions *)

Lemma packet_space_level_range {Hok : OpenSSLHeadersOk H} space level :
  packet_space_level space = Some level -> 0 <= level < 4.
Proof.
  pose proof level_none_range. pose proof level_handshake_range. pose proof level_application_range.
  unfold packet_space_level. repeat case_match; intros; simplify_eq; lia.
Qed.

Definition receive_label (space : Z) (data : list byte) (st : quicz_tls_backend_status) : label :=
  match st, packet_space_level space with
  | QUICZ_TLS_BACKEND_OK, Some level => LReceived level data
  | _, _ => LOther
  end.

Lemma receive_wp {Hok : OpenSSLHeadersOk H} n b space data : inv n b -> n < INT_MAX ->
  wp (quicz_openssl_tls_backend_receive (Some b) space (Some data) (zlen data)) (fun '(st, arg) =>
    exists b', arg = Some b' /\ inv (n + 1) b' /\ effect b (receive_label space data st) b').
Proof.
  intros Hinv Hn. inv_cases. pose proof (zlen_nonneg data).
  unfold quicz_openssl_tls_backend_receive, receive_label, INT_MAX, CRYPTO_BUF in *.
  assert (inv (n + 1) b) by (by apply (inv_mono n); [lia|]). pose proof (effect_refl b).
  destruct (ssl b); [|by exists b]. destruct (packet_space_level space) as [level|] eqn:El; [|by exists b].
  apply packet_space_level_range in El. wp_go.
  - by exists b.
  - eexists. split; [done|]. rewrite ztake_all. zsimp. split.
    + constructor; cbn; inv_triv; try done.
      * apply levels_ok_set; inv_triv; done.
      * intros i r l Hr. rewrite zget_zset by lia. destruct (Z.eqb_spec level i) as [<-|]; [|by apply Hrd].
        intros [= <-]. pose proof (Hrd _ _ _ Hr Hx). lia.
      * rewrite (sumZ_zset _ _ _ _ Hx). lia.
    + split; [|cbn; repeat split; try lia].
      * intros j. unfold inp. cbn. apply pend_append; done || lia.
      * unfold lost. cbn. rewrite (sumZ_zset _ _ _ _ Hx). lia.
Qed.

Definition copy_label (level : Z) (st : quicz_tls_backend_status) (out : ptr) (written : cell) : label :=
  match st with
  | QUICZ_TLS_BACKEND_OK => LPulled level (ztake (default 0 written) (default [] out))
  | _ => LOther
  end.

Lemma copy_wp n b level out : inv n b -> 0 <= level < 4 ->
  wp (copy_pending_outbound b level (Some out) (zlen out) (Some 0)) (fun '(st, out', w, b') =>
    inv n b' /\ effect b (copy_label level st out' w) b' /\
    match st with
    | QUICZ_TLS_BACKEND_OK => 0 < zlen (outp b level) <= zlen out /\
        out' = Some (outp b level ++ zdrop (zlen (outp b level)) out) /\ w = Some (zlen (outp b level))
    | QUICZ_TLS_BACKEND_PENDING => outp b level = [] /\ out' = Some out /\ w = Some 0 /\ b' = b
    | QUICZ_TLS_BACKEND_BUFFER_TOO_SMALL => zlen out < zlen (outp b level) /\ out' = Some out /\ w = Some 0 /\ b' = b
    | _ => False
    end).
Proof.
  intros Hinv Hlevel. inv_cases. destruct (zget_lt (outbound_crypto_len b) level) as [len Hlen]; [lia|].
  destruct (zget_lt (outbound_crypto b) level) as [arr Harr]; [lia|].
  pose proof (Ho3 _ _ Hlen) as Hcap. pose proof (effect_refl b).
  assert (outp b level = slice arr 0 len) as Hout'. { unfold outp, pend. by rewrite Harr, Hlen. }
  assert (zlen (outp b level) = len) as Hzl by (rewrite Hout'; apply zlen_slice; lia).
  unfold copy_pending_outbound, CRYPTO_BUF in *. wp_go; try lia; simplify_eq.
  - split_and!; try done. apply zlen_nil_inv. lia.
  - split_and!; try done. lia.
  - rewrite <- Hout' in *. split; [|split; [|by split; [lia|]]].
    + constructor; cbn; inv_triv. apply levels_ok_set_len; inv_triv; done.
    + cbn -[effect zlen ztake zdrop]. rewrite ztake_app_all. split; [done|].
      split; [|split; [|by repeat split]].
      * intros Hnil. rewrite Hnil in *. by cbn in *.
      * intros j. unfold outp. cbn. apply pend_clear. lia.
Qed.

End WithHeaders.

End AdapterInv.
