(* ===== verification/AdapterSession.v ===== *)
(** * Sessions of the OpenSSL adapter

    The adapter as a labelled transition system whose steps are the C
    functions, API sessions over an arbitrary OpenSSL, and the theorems about
    whole sessions: memory safety, CRYPTO byte integrity in both directions,
    stability of lent buffers and the meaning of [handshake_confirmed]. *)
From S2P Require Import Prelude CAbi OpenSSL CryptoLevels Adapter AdapterInv.
Import Adapter AdapterInv.
Local Open Scope Z_scope.

Module AdapterSession.

Section WithOpenSSL.
Context {H : OpenSSLHeaders} {O : OpenSSL}.

(** ** The transition system *)

(** Calls that do not touch the CRYPTO queues, and the two bookkeeping
    assignments of [pull]. *)
Inductive quiet (b : backend) : backend -> Prop :=
  | quiet_drive cnt : int_inc (handshake_drive_calls b) = Some cnt ->
      quiet b (b <| handshake_drive_calls := cnt |>)
  | quiet_error e : quiet b (b <| last_ssl_error := e |>)
  | quiet_set_local data (w w' : world O) st b' :
      quicz_openssl_tls_backend_set_local_transport_parameters (Some b) (Some data) (zlen data) w =
        Some (st, Some b', w') -> quiet b b'
  | quiet_pull_peer out st out' n b' :
      quicz_openssl_tls_backend_pull_peer_transport_parameters (Some b) (Some out) (zlen out) (Some 0) =
        Some (st, out', n, Some b') -> quiet b b'
  | quiet_pull_handshake o st o' b' :
      quicz_openssl_tls_backend_pull_handshake_traffic_secrets (Some b) (Some o) = Some (st, o', Some b') ->
      quiet b b'
  | quiet_pull_1rtt o st o' b' :
      quicz_openssl_tls_backend_pull_1rtt_traffic_secrets (Some b) (Some o) = Some (st, o', Some b') ->
      quiet b b'.

Inductive step (b : backend) : label -> backend -> Prop :=
  | step_callback c a b' : tls_call_ok c -> invoke c b = Some (a, b') -> step b (label_of b c a) b'
  | step_receive space data st b' :
      quicz_openssl_tls_backend_receive (Some b) space (Some data) (zlen data) = Some (st, Some b') ->
      step b (receive_label space data st) b'
  | step_copy level out st out' w b' : 0 <= level < 4 ->
      copy_pending_outbound b level (Some out) (zlen out) (Some 0) = Some (st, out', w, b') ->
      step b (copy_label level st out' w) b'
  | step_quiet b' : quiet b b' -> step b LOther b'.

Inductive steps (b : backend) : list label -> backend -> Prop :=
  | steps_nil : steps b [] b
  | steps_cons l b1 ls b2 : step b l b1 -> steps b1 ls b2 -> steps b (l :: ls) b2.

Lemma steps_app b ls b1 ls' b2 : steps b ls b1 -> steps b1 ls' b2 -> steps b (ls ++ ls') b2.
Proof. induction 1; [done|]. intros. eapply steps_cons; [done|auto]. Qed.

Lemma steps_one b l b' : step b l b' -> steps b [l] b'.
Proof. intros. eapply steps_cons; [done|constructor]. Qed.

Lemma quiet_keeps n b b' : inv n b -> n < INT_MAX -> quiet b b' -> inv (n + 1) b' /\ effect b LOther b'.
Proof.
  intros Hinv Hn Hq. inv_cases. pose proof (effect_refl b).
  assert (inv (n + 1) b) by (by apply (inv_mono n); [lia|]).
  destruct Hq as [cnt Hc|e|data w w' st b' Hs|out st out' m b' Hs|o st o' b' Hs|o st o' b' Hs].
  - unfold int_inc in Hc. case_match; [|done]. simplify_eq. split; [inv_solve|other].
  - split; [inv_solve|other].
  - unfold quicz_openssl_tls_backend_set_local_transport_parameters, ext in Hs.
    repeat (case_match || simplify_option_eq); try done; split; first [inv_solve|other].
  - unfold quicz_openssl_tls_backend_pull_peer_transport_parameters in Hs.
    repeat (case_match || simplify_option_eq); try done; split; first [inv_solve|other].
  - unfold quicz_openssl_tls_backend_pull_handshake_traffic_secrets in Hs.
    repeat (case_match || simplify_option_eq); try done; split; first [inv_solve|other].
  - unfold quicz_openssl_tls_backend_pull_1rtt_traffic_secrets in Hs.
    repeat (case_match || simplify_option_eq); try done; split; first [inv_solve|other].
Qed.

Context {Hok : OpenSSLHeadersOk H}.

Lemma step_effect n b l b' : inv n b -> n < INT_MAX -> step b l b' -> inv (n + 1) b' /\ effect b l b'.
Proof.
  intros Hinv Hn Hs. destruct Hs as [c a b' Hc Hs|space data st b' Hs|level out st out' w b' Hl Hs|b' Hq].
  - exact (wp_use _ _ _ (invoke_wp n b c Hinv Hn Hc) Hs).
  - destruct (wp_use _ _ _ (receive_wp n b space data Hinv Hn) Hs) as (b1 & Hb & Hi & He). by simplify_eq.
  - destruct (wp_use _ _ _ (copy_wp n b level out Hinv Hl) Hs) as (Hi & He & _).
    split; [by apply (inv_mono n); [lia|]|done].
  - by apply quiet_keeps.
Qed.

(** Rule induction with the invariant. *)
Lemma steps_ind_inv (P : backend -> list label -> backend -> Prop) :
  (forall b, P b [] b) ->
  (forall n b l b1 ls b2, inv n b -> n < INT_MAX -> step b l b1 -> inv (n + 1) b1 -> effect b l b1 ->
     steps b1 ls b2 -> P b1 ls b2 -> P b (l :: ls) b2) ->
  forall n b ls b', inv n b -> n + zlen ls <= INT_MAX -> steps b ls b' -> P b ls b'.
Proof.
  intros Hnil Hcons n b ls b' Hinv Hn Hs. revert n Hinv Hn.
  induction Hs as [|b l b1 ls b2 Hstep Hs IH]; intros n Hinv Hn; [done|].
  rewrite ?zlen_cons in *. pose proof (zlen_nonneg ls).
  destruct (step_effect n b l b1 Hinv ltac:(lia) Hstep) as [Hi He].
  eapply (Hcons n); eauto; [lia|]. apply (IH (n + 1)); [done|lia].
Qed.

Lemma steps_inv n b ls b' : inv n b -> n + zlen ls <= INT_MAX -> steps b ls b' -> inv (n + zlen ls) b'.
Proof.
  intros Hinv Hn Hs. revert n Hinv Hn.
  induction Hs as [|b l b1 ls b2 Hstep Hs IH]; intros n Hinv Hn.
  - by rewrite zlen_nil, Z.add_0_r.
  - rewrite ?zlen_cons in *. pose proof (zlen_nonneg ls).
    destruct (step_effect n b l b1 Hinv ltac:(lia) Hstep) as [Hi He].
    replace (n + (zlen ls + 1)) with ((n + 1) + zlen ls) by lia. apply IH; [done|lia].
Qed.

(** ** Byte histories of a level *)

Definition at_level (L L' : Z) (d : list byte) : list byte := if L' =? L then d else [].

Definition sent1 (L : Z) (l : label) : list byte := match l with LSent L' d => at_level L L' d | _ => [] end.
Definition pulled1 (L : Z) (l : label) : list byte := match l with LPulled L' d => at_level L L' d | _ => [] end.
Definition received1 (L : Z) (l : label) : list byte := match l with LReceived L' d => at_level L L' d | _ => [] end.
Definition consumed1 (L : Z) (l : label) : list byte := match l with LReleased L' d => at_level L L' d | _ => [] end.

(** Bytes OpenSSL produced, the transport took, the transport delivered and
    OpenSSL consumed at level [L], in order. *)
Definition sent (L : Z) (ls : list label) : list byte := concat (sent1 L <$> ls).
Definition pulled (L : Z) (ls : list label) : list byte := concat (pulled1 L <$> ls).
Definition received (L : Z) (ls : list label) : list byte := concat (received1 L <$> ls).
Definition consumed (L : Z) (ls : list label) : list byte := concat (consumed1 L <$> ls).

Lemma outbound_step b l b' L : effect b l b' -> outp b L ++ sent1 L l = pulled1 L l ++ outp b' L.
Proof.
  unfold at_level, effect. destruct l as [K d|K d|K d|K d|K d|]; cbn; rewrite ?app_nil_r.
  - by intros (_ & _ & _ & _ & -> & _).
  - intros (-> & _ & Hout & _). rewrite Hout. unfold at_level.
    destruct (Z.eqb_spec K L) as [->|]; [by rewrite app_nil_r|done].
  - intros (Hout & _). rewrite Hout. unfold at_level. destruct (K =? L); [done|by rewrite app_nil_r].
  - by intros (_ & _ & _ & _ & _ & ->).
  - by intros (_ & _ & _ & _ & _ & _ & _ & ->).
  - by intros (-> & _).
Qed.

Lemma outbound_steps n b ls b' L : inv n b -> n + zlen ls <= INT_MAX -> steps b ls b' ->
  outp b L ++ sent L ls = pulled L ls ++ outp b' L.
Proof.
  intros. eapply (steps_ind_inv (fun b ls b' => outp b L ++ sent L ls = pulled L ls ++ outp b' L)); eauto.
  - intros. by rewrite app_nil_r.
  - intros m c l c1 ls' c2 _ _ _ _ He _ IH. cbn.
    rewrite app_assoc, (outbound_step _ _ _ _ He), <- !app_assoc. by f_equal.
Qed.

(** C7: CRYPTO output integrity. Along every sequence of adapter calls and
    OpenSSL callbacks starting from a fresh backend, at each protection level
    the bytes OpenSSL produced are exactly the bytes the transport pulled
    followed by the bytes still pending: nothing is lost, duplicated,
    reordered or moved to another level. *)
Theorem adapter_outbound_integrity c s cbs quic (ls : list label) (b : backend) (L : Z)
    (Hlen : zlen ls <= INT_MAX) (Hrun : steps (fresh_backend c s cbs quic) ls b) :
  sent L ls = pulled L ls ++ outp b L.
Proof.
  rewrite <- (outbound_steps 0 _ ls b L (inv_init _ _ _ _) Hlen Hrun).
  by destruct (fresh_queues c s cbs quic L) as [-> _].
Qed.

(** ** Inbound bytes *)

(** One call never takes back bytes counted as lost. *)
Lemma lost_step n b l b' : inv n b -> effect b l b' -> 0 <= lost b <= lost b'.
Proof.
  intros Hinv He. assert (0 <= lost b) by (unfold lost; pose proof (i_balance _ _ Hinv); lia).
  split; [done|]. destruct l; unfold effect, same_in in He; destruct_and?; lia.
Qed.

Lemma inbound_step n b l b' L : inv n b -> effect b l b' -> lost b' = lost b ->
  inp b L ++ received1 L l = consumed1 L l ++ inp b' L.
Proof.
  intros Hinv He Hlost. unfold effect, same_in in He.
  destruct l as [K d|K d|K d|K d|K d|]; cbn; rewrite ?app_nil_r; destruct_and?; auto.
  - match goal with Hin : forall j, inp b' j = _ |- _ => rewrite Hin end. unfold at_level.
    destruct (K =? L); [done|by rewrite app_nil_r].
  - match goal with Hin : forall j, inp b' j = _ |- _ => rewrite Hin end. unfold at_level.
    destruct (Z.eqb_spec K L) as [->|]; [|done].
    assert (loan b L = zlen (inp b L)) as -> by lia. rewrite ztake_all.
    match goal with Hd : d = ztake _ _ |- _ => rewrite Hd at 1 end. by rewrite ztake_zdrop.
Qed.

Lemma lost_steps n b ls b' : inv n b -> n + zlen ls <= INT_MAX -> steps b ls b' -> 0 <= lost b <= lost b'.
Proof.
  intros Hinv Hn Hs. assert (0 <= lost b) by (unfold lost; pose proof (i_balance _ _ Hinv); lia).
  split; [done|]. revert Hinv Hn Hs. apply (steps_ind_inv (fun b _ b' => lost b <= lost b')); [lia|].
  intros m c l c1 ls' c2 Hi _ _ _ He _ IH. pose proof (lost_step _ _ _ _ Hi He). lia.
Qed.

Lemma inbound_steps n b ls b' L : inv n b -> n + zlen ls <= INT_MAX -> steps b ls b' -> lost b' = lost b ->
  inp b L ++ received L ls = consumed L ls ++ inp b' L.
Proof.
  intros Hinv Hn Hs. revert n Hinv Hn. induction Hs as [b|b l b1 ls b2 Hstep Hs IH]; intros n Hinv Hn Hlost.
  - by rewrite app_nil_r.
  - rewrite ?zlen_cons in *. pose proof (zlen_nonneg ls).
    destruct (step_effect n b l b1 Hinv ltac:(lia) Hstep) as [Hi He].
    pose proof (lost_step _ _ _ _ Hinv He). pose proof (lost_steps (n + 1) b1 ls b2 Hi ltac:(lia) Hs).
    cbn. rewrite app_assoc, (inbound_step n _ _ _ _ Hinv He) by lia. rewrite <- !app_assoc. f_equal.
    apply (IH (n + 1)); [done|lia..].
Qed.

(** The use OpenSSL and the transport are meant to make of the inbound
    buffers: no delivery to a level while OpenSSL holds its bytes, no release
    of a level that was not read unless it is empty. *)
Definition disciplined (b : backend) (l : label) : Prop :=
  match l with
  | LReceived L _ => loan b L = 0
  | LReleased L _ => loan b L <> 0 \/ inp b L = []
  | _ => True
  end.

Inductive disciplined_steps (b : backend) : list label -> backend -> Prop :=
  | dsteps_nil : disciplined_steps b [] b
  | dsteps_cons l b1 ls b2 : step b l b1 -> disciplined b l -> disciplined_steps b1 ls b2 ->
      disciplined_steps b (l :: ls) b2.

Lemma disciplined_forget b ls b' : disciplined_steps b ls b' -> steps b ls b'.
Proof. induction 1; [constructor|by eapply steps_cons]. Qed.

(** A lent prefix is the whole level. *)
Definition whole_loans (b : backend) : Prop := forall L, loan b L <> 0 -> loan b L = zlen (inp b L).

Lemma disciplined_step n b l b' : inv n b -> effect b l b' -> disciplined b l -> whole_loans b ->
  lost b' = lost b /\ whole_loans b'.
Proof.
  intros Hinv He Hd Hw. unfold effect, same_in, same_loans, same_out, whole_loans, disciplined in *.
  destruct l as [K d|K d|K d|K d|K d|]; destruct_and?; split; try done.
  all: try (intros L; repeat match goal with Hf : forall j, _ = _ |- _ => rewrite Hf; clear Hf end;
            try (destruct (Z.eqb_spec K L) as [->|]); subst; auto; congruence).
  pose proof (zlen_nonneg d). destruct Hd as [Hne|Hnil]; [pose proof (Hw K Hne)|rewrite Hnil, zlen_nil in *]; lia.
Qed.

Lemma disciplined_lost n c ls b : inv n c -> n + zlen ls <= INT_MAX -> whole_loans c ->
  disciplined_steps c ls b -> lost b = lost c.
Proof.
  intros Hinv Hn Hw Hs. revert n Hinv Hn Hw.
  induction Hs as [c|c l c1 ls c2 Hstep Hd Hs IH]; intros n Hinv Hn Hw; [done|].
  rewrite ?zlen_cons in *. pose proof (zlen_nonneg ls).
  destruct (step_effect n c l c1 Hinv ltac:(lia) Hstep) as [Hi He].
  destruct (disciplined_step _ _ _ _ Hinv He Hd Hw) as [<- Hw']. apply (IH (n + 1)); [done|lia|done].
Qed.

(** C8: inbound byte integrity. When OpenSSL releases what it reads and the
    transport does not deliver to a level OpenSSL is still reading, no byte is
    lost: at each level the bytes the transport delivered are exactly the
    bytes OpenSSL consumed followed by the bytes still pending. *)
Theorem adapter_inbound_integrity c s cbs quic (ls : list label) (b : backend) (L : Z)
    (Hlen : zlen ls <= INT_MAX) (Hrun : disciplined_steps (fresh_backend c s cbs quic) ls b) :
  lost b = 0 /\ received L ls = consumed L ls ++ inp b L.
Proof.
  destruct (fresh_queues c s cbs quic L) as (_ & Hin & _ & Hl0).
  assert (whole_loans (fresh_backend c s cbs quic)) as Hw.
  { intros K. by destruct (fresh_queues c s cbs quic K) as (_ & _ & -> & _). }
  pose proof (disciplined_lost 0 _ ls b (inv_init _ _ _ _) Hlen Hw Hrun) as Hlost.
  split; [by rewrite Hlost|].
  rewrite <- (inbound_steps 0 _ ls b L (inv_init _ _ _ _) Hlen (disciplined_forget _ _ _ Hrun) Hlost).
  by rewrite Hin.
Qed.

Lemma loan_le n b L : inv n b -> loan b L <= zlen (inp b L).
Proof.
  intros Hinv. inv_cases. unfold loan. destruct (zget (inbound_crypto_read_len b) L) as [r|] eqn:Er; [|apply zlen_nonneg].
  pose proof (zget_Some_lt _ _ _ Er). destruct (zget_lt (inbound_crypto_len b) L) as [len Hlen]; [lia|].
  destruct (inp_at n b L len Hinv Hlen) as (_ & _ & _ & ->). by apply (Hrd _ _ _ Er).
Qed.

(** No step of the list releases level [L]. *)
Definition unreleased (L : Z) (ls : list label) : Prop := Forall (fun l => forall d, l <> LReleased L d) ls.

(** While a level stays lent it only grows at its end. *)
Definition loan_kept (L : Z) (b b' : backend) : Prop :=
  loan b' L = loan b L /\ ztake (loan b L) (inp b' L) = ztake (loan b L) (inp b L) /\ zlen (inp b L) <= zlen (inp b' L).

Lemma loan_kept_step n b l b' L : inv n b -> effect b l b' -> loan b L <> 0 -> (forall d, l <> LReleased L d) ->
  loan_kept L b b'.
Proof.
  intros Hinv He Hl Hk. pose proof (loan_le _ _ L Hinv) as Hle.
  unfold loan_kept, effect, same_in, same_out, same_loans in *.
  destruct l as [K d|K d|K d|K d|K d|]; destruct_and?;
    repeat match goal with Hf : forall j, _ = _ |- _ => rewrite !Hf; clear Hf end; try done.
  - destruct (K =? L); [|done]. pose proof (zlen_nonneg d). split; [done|]. split; [|rewrite zlen_app; lia].
    unfold ztake. rewrite take_app_le; [done|]. unfold zlen in Hle. lia.
  - destruct (Z.eqb_spec K L) as [->|]; [done|done].
  - destruct (Z.eqb_spec K L) as [->|]; [by destruct (Hk d)|done].
Qed.

Lemma loan_kept_steps n b ls b' L : inv n b -> n + zlen ls <= INT_MAX -> steps b ls b' -> loan b L <> 0 ->
  unreleased L ls -> loan_kept L b b'.
Proof.
  intros Hinv Hlen Hs. revert Hinv Hlen Hs. apply (steps_ind_inv (fun b ls b' => loan b L <> 0 ->
    unreleased L ls -> loan_kept L b b')); [done|].
  intros m c l c1 ls' c2 Hi _ _ Hi1 He _ IH Hl [Hk Hks]%Forall_cons.
  destruct (loan_kept_step _ _ _ _ L Hi He Hl Hk) as (E1 & E2 & E3). unfold loan_kept in *. rewrite E1 in IH.
  destruct (IH Hl Hks) as (-> & -> & E4). split_and!; [done|done|lia].
Qed.

(** C9: buffers lent to OpenSSL are stable. From any reachable state, as long
    as OpenSSL does not release level [L], the bytes it was lent there stay
    unchanged at the front of the buffer and stay lent, whatever the
    transport delivers or pulls and whatever other callbacks run. *)
Theorem adapter_loan_stable c s cbs quic (pre ls : list label) (b b' : backend) (L : Z)
    (Hlen : zlen pre + zlen ls <= INT_MAX) (Hpre : steps (fresh_backend c s cbs quic) pre b)
    (Hrun : steps b ls b') (Hlent : loan b L <> 0)
    (Hkeep : Forall (fun l => forall d, l <> LReleased L d) ls) :
  loan b' L = loan b L /\ ztake (loan b L) (inp b' L) = ztake (loan b L) (inp b L).
Proof.
  pose proof (zlen_nonneg ls). pose proof (steps_inv 0 _ pre b (inv_init c s cbs quic) ltac:(lia) Hpre) as Hinv.
  by destruct (loan_kept_steps _ _ ls _ L Hinv ltac:(lia) Hrun Hlent Hkeep) as (? & ? & _).
Qed.

(** ** What [handshake_confirmed] means *)

Lemma confirmed_true b : quicz_openssl_tls_backend_handshake_confirmed (Some b) = true ->
  peer_transport_parameters_available b <> 0 /\
  handshake_local_secret_available b <> 0 /\ handshake_peer_secret_available b <> 0 /\
  one_rtt_local_secret_available b <> 0 /\ one_rtt_peer_secret_available b <> 0 /\
  received_crypto_len b <> 0 /\ inbound_crypto_released_len b = received_crypto_len b.
Proof. cbn. unfold ctrue. rewrite !andb_true_iff, !negb_true_iff. intros. destruct_and?. repeat split; lia. Qed.

Lemma confirmed_nothing_left n b : inv n b ->
  quicz_openssl_tls_backend_handshake_confirmed (Some b) = true -> lost b = 0 /\ forall L, inp b L = [].
Proof.
  intros Hinv (_ & _ & _ & _ & _ & _ & Hrel)%confirmed_true. inv_cases.
  assert (0 <= sumZ (inbound_crypto_len b)) by (apply sumZ_nonneg; intros i m Hm; by apply (Hi3 _ _ Hm)).
  split; [unfold lost; lia|]. intros L. apply zlen_nil_inv.
  destruct (zget (inbound_crypto_len b) L) as [len|] eqn:Hlen.
  - destruct (inp_at n b L len Hinv Hlen) as (_ & _ & _ & ->). pose proof (Hi3 _ _ Hlen).
    pose proof (zget_le_sumZ _ _ _ (fun i m Hm => proj1 (Hi3 i m Hm)) Hlen). lia.
  - unfold inp, pend. rewrite Hlen. by destruct (zget (inbound_crypto b) L).
Qed.

(** C38: a delivery to a level OpenSSL is reading is lost for good. If the
    transport delivers non-empty data to a level while OpenSSL holds its bytes,
    then, whatever calls and callbacks run before OpenSSL's next release of
    that level, the release drops the delivered bytes, and
    [handshake_confirmed] returns false in every later state. *)
Theorem adapter_receive_during_loan_blocks c s cbs quic (pre mid post : list label)
    (b b1 b2 b3 b4 : backend) (L : Z) (d e : list byte)
    (Hlen : zlen pre + zlen mid + zlen post + 2 <= INT_MAX)
    (Hpre : steps (fresh_backend c s cbs quic) pre b) (Hlent : loan b L <> 0)
    (Hdeliver : step b (LReceived L d) b1) (Hd : d <> [])
    (Hmid : steps b1 mid b2) (Hkeep : Forall (fun l => forall e, l <> LReleased L e) mid)
    (Hrelease : step b2 (LReleased L e) b3) (Hpost : steps b3 post b4) :
  zlen d <= lost b3 /\ quicz_openssl_tls_backend_handshake_confirmed (Some b4) = false.
Proof.
  pose proof (zlen_nonneg pre). pose proof (zlen_nonneg mid). pose proof (zlen_nonneg post).
  pose proof (steps_inv 0 _ pre b (inv_init c s cbs quic) ltac:(lia) Hpre) as Hinv. cbn in Hinv.
  destruct (step_effect _ _ _ _ Hinv ltac:(lia) Hdeliver) as [Hinv1 He1].
  pose proof (steps_inv _ _ mid b2 Hinv1 ltac:(lia) Hmid) as Hinv2.
  destruct (step_effect _ _ _ _ Hinv2 ltac:(lia) Hrelease) as [Hinv3 He3].
  pose proof (lost_step _ _ _ _ Hinv2 He3). pose proof (loan_le _ _ L Hinv).
  destruct He1 as (Hin1 & _ & _ & _ & _ & Hloan1). destruct He3 as (_ & _ & _ & _ & _ & _ & Hlost3 & _).
  destruct (loan_kept_steps _ _ mid _ L Hinv1 ltac:(lia) Hmid ltac:(by rewrite Hloan1) Hkeep) as (E1 & _ & E2).
  specialize (Hin1 L). rewrite Z.eqb_refl in Hin1. rewrite Hin1, zlen_app in E2. rewrite E1, (Hloan1 L) in Hlost3.
  assert (0 < zlen d) by (destruct d; [done|]; rewrite zlen_cons; pose proof (zlen_nonneg d); lia).
  split; [lia|]. destruct (quicz_openssl_tls_backend_handshake_confirmed (Some b4)) eqn:Hconf; [|done].
  pose proof (lost_steps _ _ post b4 Hinv3 ltac:(lia) Hpost).
  pose proof (steps_inv _ _ post b4 Hinv3 ltac:(lia) Hpost) as Hinv4.
  destruct (confirmed_nothing_left _ _ Hinv4 Hconf). lia.
Qed.

(** ** API sessions *)

Lemma hist_app (f : label -> list byte) (ls ls' : list label) :
  concat (f <$> ls ++ ls') = concat (f <$> ls) ++ concat (f <$> ls').
Proof. by rewrite fmap_app, concat_app. Qed.

(** [b] goes to [b'] in at most [k] steps that hand the bytes [out L] of every
    level [L] to the transport and accept the bytes [inn L] from it. *)
Definition trans (m k : Z) (b : backend) (out inn : Z -> list byte) (b' : backend) : Prop :=
  exists ls, steps b ls b' /\ zlen ls <= k /\ inv (m + k) b' /\
    forall L, pulled L ls = out L /\ received L ls = inn L.

Definition none : Z -> list byte := fun _ => [].

Lemma trans_refl m b : inv m b -> trans m 0 b none none b.
Proof. exists []. rewrite Z.add_0_r. split; [constructor|by rewrite zlen_nil]. Qed.

Lemma trans_trans m k k' b b1 b2 o i o' i' : trans m k b o i b1 -> trans (m + k) k' b1 o' i' b2 ->
  trans m (k + k') b (fun L => o L ++ o' L) (fun L => i L ++ i' L) b2.
Proof.
  intros (ls & Hs & Hk & _ & Hh) (ls' & Hs' & Hk' & Hi' & Hh'). exists (ls ++ ls').
  split; [by eapply steps_app|]. rewrite zlen_app. split; [lia|]. rewrite Z.add_assoc. split; [done|].
  intros L. destruct (Hh L) as [E1 E2]. destruct (Hh' L) as [E3 E4].
  unfold pulled, received in *. by rewrite !hist_app, E1, E2, E3, E4.
Qed.

Lemma trans_weaken m k k' b o i b' o' i' : trans m k b o i b' -> k <= k' ->
  (forall L, o L = o' L) -> (forall L, i L = i' L) -> trans m k' b o' i' b'.
Proof.
  intros (ls & Hs & Hk & Hinv & Hh) Hle Ho Hi. exists ls. split; [done|]. split; [lia|].
  split; [by apply (inv_mono (m + k)); [lia|]|]. intros L. rewrite <- Ho, <- Hi. auto.
Qed.

Lemma trans_step m b l b' : step b l b' -> inv (m + 1) b' ->
  trans m 1 b (fun L => pulled1 L l) (fun L => received1 L l) b'.
Proof.
  intros Hs Hi. exists [l]. split; [by apply steps_one|]. split; [done|]. split; [done|].
  intros L. unfold pulled, received. cbn. by rewrite !app_nil_r.
Qed.

Lemma trans_quiet m b b' : inv m b -> m < INT_MAX -> quiet b b' -> trans m 1 b none none b'.
Proof.
  intros Hinv Hm Hq. destruct (quiet_keeps _ _ _ Hinv Hm Hq) as [Hi _].
  by apply (trans_step m b LOther b'); [constructor|].
Qed.

Lemma trans_inv m k b o i b' : trans m k b o i b' -> inv (m + k) b'.
Proof. by intros (ls & _ & _ & Hi & _). Qed.

(** A handshake drive is a sequence of callback steps. *)
Lemma drive_wp {S : Type} d (p : ssl_prog S) : bounded d p -> forall m b, inv m b -> m + Z.of_nat d <= INT_MAX ->
  wp (drive p b) (fun '(rc, s, b') => trans m (Z.of_nat d) b none none b').
Proof.
  induction 1 as [d rc s|d c k Hc Hk IH]; intros m b Hinv Hm; cbn.
  - by apply (trans_weaken m 0 _ b none none); [apply trans_refl|lia|..].
  - apply wp_bind. destruct (wp_elim _ _ (invoke_wp m b c Hinv ltac:(lia) Hc)) as ([a b1] & Hi & Hinv1 & _).
    rewrite Hi. cbn. eapply wp_mono; [apply (IH a (m + 1) b1); [done|lia]|].
    intros [[rc s] b'] Ht. eapply trans_weaken; [eapply trans_trans; [|exact Ht]|lia| |].
    { eapply trans_step; [by eapply step_callback|done]. }
    all: intros L; cbn; destruct c; cbn; by repeat case_match.
Qed.

(** Bytes a successful pull hands to the transport. *)
Definition pull_bytes (level : Z) (st : quicz_tls_backend_status) (out : ptr) (n : cell) (L : Z) : list byte :=
  match st with
  | QUICZ_TLS_BACKEND_OK => at_level L level (ztake (default 0 n) (default [] out))
  | _ => []
  end.

(** Every status but [OK] leaves the output buffer and the length untouched. *)
Definition quiet_failure (st : quicz_tls_backend_status) (out : list byte) (out' : ptr) (n : cell) : Prop :=
  st <> QUICZ_TLS_BACKEND_OK -> out' = Some out /\ n = Some 0.

Lemma copy_post m b level out : inv m b -> 0 <= level < 4 ->
  wp (copy_pending_outbound b level (Some out) (zlen out) (Some 0)) (fun '(st, out', n, b') =>
    trans m 1 b (pull_bytes level st out' n) none b' /\ quiet_failure st out out' n).
Proof.
  intros Hinv Hlevel.
  destruct (wp_elim _ _ (copy_wp m b level out Hinv Hlevel)) as ([[[st out'] n] b'] & Hc & Hi & _ & Hst).
  rewrite Hc. cbn. split.
  - eapply trans_weaken; [apply trans_step; [by eapply step_copy|by apply (inv_mono m); [lia|]]|lia|..];
      intros L; by destruct st.
  - intros Hne. destruct st; try done; destruct_and?; by subst.
Qed.

(** What [pull] promises. *)
Definition pull_post (m k : Z) (b : backend) (level : Z) (out : list byte) (w : world O) :
    quicz_tls_backend_status * ptr * cell * option backend * world O -> Prop :=
  fun '(st, out', n, arg, w') => exists b', arg = Some b' /\ w_live w' = w_live w /\
    trans m k b (pull_bytes level st out' n) none b' /\ quiet_failure st out out' n.

Lemma pull_drive_wp m d b s level out (w : world O) :
  (forall s o, bounded d (SSL_do_handshake s o)) -> inv m b -> m + Z.of_nat d + 3 <= INT_MAX -> 0 <= level < 4 ->
  wp (pull_drive b s level (Some out) (zlen out) (Some 0) w) (pull_post m (Z.of_nat d + 3) b level out w).
Proof.
  intros Hd Hinv Hm Hlevel. unfold pull_drive. pose proof (i_drive _ _ Hinv). apply wp_bind, wp_int_inc; [lia|].
  cbv zeta. set (b1 := b <| handshake_drive_calls := _ |>).
  assert (trans m 1 b none none b1) as T1.
  { apply trans_quiet; [done|lia|]. constructor. unfold int_inc.
    by destruct (Z.ltb_spec (handshake_drive_calls b) INT_MAX); [|lia]. }
  clearbody b1. apply wp_bind. eapply wp_mono; [apply (drive_wp d _ (Hd s (w_ossl w)) (m + 1) b1); [by eapply trans_inv|lia]|].
  intros [[rc o] b2] T2. cbn beta iota. match goal with |- wp (let '(_, _) := ?t in _) _ => set (bw := t) end.
  assert (quiet b2 (fst bw) /\ w_live (snd bw) = w_live w) as [Hq3 Hlive].
  { subst bw. unfold ext. destruct (negb (rc =? 1)); [destruct (respond _ _)|]; (split; [constructor|done]). }
  clearbody bw. destruct bw as [b3 w3]. cbn in Hq3, Hlive.
  pose proof (trans_quiet _ _ _ (trans_inv _ _ _ _ _ _ T2) ltac:(lia) Hq3) as T3.
  pose proof (trans_trans _ _ _ _ _ _ _ _ _ _ T1 (trans_trans _ _ _ _ _ _ _ _ _ _ T2 T3)) as T.
  apply wp_if; intros Eov.
  { apply wp_ret. exists b3. split_and!; try done. by eapply trans_weaken; [exact T|lia|..]. }
  apply wp_bind. eapply wp_mono; [apply (copy_post (m + (1 + (Z.of_nat d + 1))) b3 level out); [by eapply trans_inv|done]|].
  intros [[[st out'] n] b4] [T4 Hf]. cbn beta iota. pose proof (trans_trans _ _ _ _ _ _ _ _ _ _ T T4) as TT.
  assert (forall st', (st' = QUICZ_TLS_BACKEND_OK <-> st = QUICZ_TLS_BACKEND_OK) ->
    pull_post m (Z.of_nat d + 3) b level out w (st', out', n, Some b4, w3)) as Hfin.
  { intros st' Hst. exists b4. split_and!; try done; [|unfold quiet_failure in *; naive_solver].
    eapply trans_weaken; [exact TT|lia| |done]. intros L. cbn. destruct Hst as [H1 H2].
    by destruct st, st'; first [done | discriminate (H1 eq_refl) | discriminate (H2 eq_refl)]. }
  apply wp_if; intros Est; [by apply wp_ret, Hfin|]. destruct st; try done.
  by apply wp_if; intros; apply wp_ret, Hfin.
Qed.

Lemma pull_wp m d b space out (w : world O) :
  (forall s o, bounded d (SSL_do_handshake s o)) -> inv m b -> m + Z.of_nat d + 4 <= INT_MAX ->
  wp (quicz_openssl_tls_backend_pull (Some b) space (Some out) (zlen out) (Some 0) w)
    (fun '(st, out', n, arg, w') => exists b', arg = Some b' /\ w_live w' = w_live w /\
       trans m (Z.of_nat d + 4) b
         (fun L => match packet_space_level space with Some level => pull_bytes level st out' n L | None => [] end)
         none b' /\ quiet_failure st out out' n).
Proof.
  intros Hd Hinv Hm. unfold quicz_openssl_tls_backend_pull. apply wp_bind. cbn.
  assert (trans m (Z.of_nat d + 4) b none none b) as T0.
  { by eapply trans_weaken; [apply trans_refl|lia|..]. }
  destruct (ssl b) as [s|]; [|exists b; split_and!; try done; by case_match].
  destruct (packet_space_level space) as [level|] eqn:El; [|by exists b].
  apply packet_space_level_range in El. apply wp_bind.
  eapply wp_mono; [by apply (copy_post m b level out)|]. intros [[[st out'] n] b1] [T1 Hf].
  cbn beta iota. apply wp_if; intros Est.
  { apply wp_ret. exists b1. split_and!; try done. by eapply trans_weaken; [exact T1|lia|..]. }
  destruct st; try done. destruct (Hf ltac:(done)) as [-> ->]. apply wp_if; intros El'.
  { apply wp_ret. exists b1. split_and!; try done. by eapply trans_weaken; [exact T1|lia|..]. }
  pose proof (trans_inv _ _ _ _ _ _ T1) as Hinv1.
  eapply wp_mono; [apply (pull_drive_wp (m + 1) d b1 s level out w Hd Hinv1); [lia|done]|].
  intros [[[[st out'] n] arg] w'] (b2 & -> & Hl & T2 & Hq). exists b2. split_and!; try done.
  by eapply trans_weaken; [exact (trans_trans _ _ _ _ _ _ _ _ _ _ T1 T2)|lia|..].
Qed.

(** No call changes the OpenSSL handles. *)
Definition same_handles (b b' : backend) : Prop := ctx b' = ctx b /\ ssl b' = ssl b.

Lemma quiet_handles b b' : quiet b b' -> same_handles b b'.
Proof.
  destruct 1 as [| |data w w' st b' Hs|out st out' m b' Hs|o st o' b' Hs|o st o' b' Hs]; try done.
  - unfold quicz_openssl_tls_backend_set_local_transport_parameters, ext in Hs.
    by repeat (case_match || simplify_option_eq).
  - unfold quicz_openssl_tls_backend_pull_peer_transport_parameters in Hs.
    by repeat (case_match || simplify_option_eq).
  - unfold quicz_openssl_tls_backend_pull_handshake_traffic_secrets in Hs.
    by repeat (case_match || simplify_option_eq).
  - unfold quicz_openssl_tls_backend_pull_1rtt_traffic_secrets in Hs.
    by repeat (case_match || simplify_option_eq).
Qed.

Lemma invoke_handles c b a b' : invoke c b = Some (a, b') -> same_handles b b'.
Proof.
  destruct c; cbn [invoke]; intros Hi.
  - unfold crypto_send_cb in Hi. by repeat (case_match || simplify_option_eq).
  - unfold crypto_recv_rcd_cb in Hi. by repeat (case_match || simplify_option_eq).
  - unfold crypto_release_rcd_cb in Hi. by repeat (case_match || simplify_option_eq).
  - unfold yield_secret_cb in Hi. repeat (case_match || simplify_option_eq); done.
  - unfold got_transport_params_cb in Hi. by repeat (case_match || simplify_option_eq).
  - by repeat (case_match || simplify_option_eq).
  - unfold keylog_cb in Hi. by repeat (case_match || simplify_option_eq).
Qed.

Lemma step_handles b l b' : step b l b' -> same_handles b b'.
Proof.
  destruct 1 as [c a b' _ Hs|space data st b' Hs|level out st out' w b' _ Hs|b' Hq].
  - by eapply invoke_handles.
  - unfold quicz_openssl_tls_backend_receive in Hs. by repeat (case_match || simplify_option_eq).
  - unfold copy_pending_outbound in Hs. by repeat (case_match || simplify_option_eq).
  - by apply quiet_handles.
Qed.

Lemma steps_handles b ls b' : steps b ls b' -> same_handles b b'.
Proof.
  induction 1 as [b|b l b1 ls b2 Hstep _ [IH1 IH2]]; [done|].
  destruct (step_handles _ _ _ Hstep) as [E1 E2]. split; congruence.
Qed.

End WithOpenSSL.

End AdapterSession.
