(* ===== verification/AdapterConfirm.v ===== *)
(** * When the adapter reports the handshake confirmed

    Runs of the adapter that also record the callbacks OpenSSL made and what
    they answered, the reports of peer transport parameters and traffic
    secrets in such a run, and the theorem that [handshake_confirmed] is true
    exactly when all of them were reported and everything delivered was
    consumed. *)
From S2P Require Import Prelude CAbi OpenSSL CryptoLevels Adapter AdapterInv AdapterSession.
Import Adapter AdapterInv AdapterSession.
Local Open Scope Z_scope.

Module AdapterConfirm.

Section WithOpenSSL.
Context {H : OpenSSLHeaders} {O : OpenSSL}.

(** ** Runs with their callbacks *)

(** A call of the transport: every step that is not a callback of OpenSSL. *)
Inductive api_step (b : backend) : label -> backend -> Prop :=
  | api_receive space data st b' :
      quicz_openssl_tls_backend_receive (Some b) space (Some data) (zlen data) = Some (st, Some b') ->
      api_step b (receive_label space data st) b'
  | api_copy level out st out' w b' : 0 <= level < 4 ->
      copy_pending_outbound b level (Some out) (zlen out) (Some 0) = Some (st, out', w, b') ->
      api_step b (copy_label level st out' w) b'
  | api_quiet b' : quiet b b' -> api_step b LOther b'.

(** A run: its labels, and the callbacks OpenSSL made with their answers. *)
Inductive traced (b : backend) : list label -> list (tls_call * tls_answer) -> backend -> Prop :=
  | traced_nil : traced b [] [] b
  | traced_callback c a b1 ls cs b2 : tls_call_ok c -> invoke c b = Some (a, b1) -> traced b1 ls cs b2 ->
      traced b (label_of b c a :: ls) ((c, a) :: cs) b2
  | traced_api l b1 ls cs b2 : api_step b l b1 -> traced b1 ls cs b2 -> traced b (l :: ls) cs b2.

Lemma traced_steps b ls cs b' : traced b ls cs b' -> steps b ls b'.
Proof.
  induction 1; [constructor|eapply steps_cons; [by eapply step_callback|done]|].
  eapply steps_cons; [|done]. destruct H0; [by eapply step_receive|by eapply step_copy|by apply step_quiet].
Qed.

(** Every run of the transition system has its callbacks. *)
Lemma steps_traced b ls b' : steps b ls b' -> exists cs, traced b ls cs b'.
Proof.
  induction 1 as [b|b l b1 ls b2 Hs _ [cs IH]]; [by exists []; constructor|].
  destruct Hs.
  - eexists. by eapply traced_callback.
  - exists cs. eapply traced_api; [by eapply api_receive|done].
  - exists cs. eapply traced_api; [by eapply api_copy|done].
  - exists cs. eapply traced_api; [by eapply api_quiet|done].
Qed.

(** ** Reports *)

(** What a callback the adapter accepted reported. *)
Definition params_of (x : tls_call * tls_answer) : option (list byte) :=
  match x with
  | (TGotTransportParams params, a) => if ans_ret a =? 1 then Some params else None
  | _ => None
  end.

Definition secret_of (level dir : Z) (x : tls_call * tls_answer) : option (list byte) :=
  match x with
  | (TYieldSecret l d secret, a) =>
      if (l =? level) && (d =? dir) && (ans_ret a =? 1) then Some secret else None
  | _ => None
  end.

(** The last report of a run. *)
Definition reported_params (cs : list (tls_call * tls_answer)) : option (list byte) := list.last (omap params_of cs).
Definition reported_secret (level dir : Z) (cs : list (tls_call * tls_answer)) : option (list byte) :=
  list.last (omap (secret_of level dir) cs).

(** What the struct holds: [None] while the flag is clear. *)
Definition held (flag : Z) (bytes : list byte) : option (list byte) := if ctrue flag then Some bytes else None.
Definition held_params (b : backend) : option (list byte) :=
  held (peer_transport_parameters_available b)
    (slice (peer_transport_parameters b) 0 (peer_transport_parameters_len b)).
Definition held_secret (b : backend) (hs out : bool) : option (list byte) :=
  match hs, out with
  | true, true => held (handshake_local_secret_available b) (slice (hs_local (handshake_secrets b)) 0 SECRET_LEN)
  | true, false => held (handshake_peer_secret_available b) (slice (hs_peer (handshake_secrets b)) 0 SECRET_LEN)
  | false, true => held (one_rtt_local_secret_available b) (slice (ort_local (one_rtt_secrets b)) 0 SECRET_LEN)
  | false, false => held (one_rtt_peer_secret_available b) (slice (ort_peer (one_rtt_secrets b)) 0 SECRET_LEN)
  end.

(** The protection level and direction OpenSSL names a secret by. *)
Definition secret_level (hs : bool) : Z :=
  if hs then OSSL_RECORD_PROTECTION_LEVEL_HANDSHAKE else OSSL_RECORD_PROTECTION_LEVEL_APPLICATION.
Definition secret_dir (out : bool) : Z := if out then 1 else 0.

(** A report replaces what is held. *)
Definition reports_step (b : backend) (x : tls_call * tls_answer) (b' : backend) : Prop :=
  held_params b' = match params_of x with Some p => Some p | None => held_params b end /\
  forall hs out, held_secret b' hs out =
    match secret_of (secret_level hs) (secret_dir out) x with Some s => Some s | None => held_secret b hs out end.

Context {Hok : OpenSSLHeadersOk H}.

Lemma held_same b b' : peer_transport_parameters_available b' = peer_transport_parameters_available b ->
  peer_transport_parameters b' = peer_transport_parameters b ->
  peer_transport_parameters_len b' = peer_transport_parameters_len b ->
  handshake_local_secret_available b' = handshake_local_secret_available b ->
  handshake_peer_secret_available b' = handshake_peer_secret_available b ->
  one_rtt_local_secret_available b' = one_rtt_local_secret_available b ->
  one_rtt_peer_secret_available b' = one_rtt_peer_secret_available b ->
  handshake_secrets b' = handshake_secrets b -> one_rtt_secrets b' = one_rtt_secrets b ->
  held_params b' = held_params b /\ forall hs out, held_secret b' hs out = held_secret b hs out.
Proof.
  intros E1 E2 E3 E4 E5 E6 E7 E8 E9. unfold held_params, held_secret. by rewrite E1, E2, E3, E4, E5, E6, E7, E8, E9.
Qed.

Ltac same_reports := by apply held_same.

Lemma api_reports b l b' : api_step b l b' ->
  held_params b' = held_params b /\ forall hs out, held_secret b' hs out = held_secret b hs out.
Proof.
  destruct 1 as [space data st b' Hs|level out st out' w b' _ Hs|b' Hq].
  - unfold quicz_openssl_tls_backend_receive in Hs. repeat (case_match || simplify_option_eq); same_reports.
  - unfold copy_pending_outbound in Hs. repeat (case_match || simplify_option_eq); same_reports.
  - destruct Hq as [| |data w w' st b' Hs|out st out' m b' Hs|o st o' b' Hs|o st o' b' Hs]; try same_reports.
    + unfold quicz_openssl_tls_backend_set_local_transport_parameters, ext in Hs.
      repeat (case_match || simplify_option_eq); same_reports.
    + unfold quicz_openssl_tls_backend_pull_peer_transport_parameters in Hs.
      repeat (case_match || simplify_option_eq); same_reports.
    + unfold quicz_openssl_tls_backend_pull_handshake_traffic_secrets in Hs.
      repeat (case_match || simplify_option_eq); same_reports.
    + unfold quicz_openssl_tls_backend_pull_1rtt_traffic_secrets in Hs.
      repeat (case_match || simplify_option_eq); same_reports.
Qed.

Lemma read_ptr_all bs : read_ptr (Some bs) (zlen bs) = Some bs.
Proof.
  unfold read_ptr. cbn. pose proof (zlen_nonneg bs).
  destruct (Z.leb_spec 0 (zlen bs)), (Z.leb_spec (zlen bs) (zlen bs)); try lia. cbn. by rewrite ztake_all.
Qed.

Lemma write_array_slice cap arr off bs arr' : 0 <= off -> write_array cap arr off bs = Some arr' ->
  slice arr' off (zlen bs) = bs.
Proof. intros Ho E. unfold write_array in E. repeat case_match; simplify_eq. by apply slice_splice_len. Qed.

Lemma reports_step_from b0 b x b' : held_params b0 = held_params b ->
  (forall hs out, held_secret b0 hs out = held_secret b hs out) -> reports_step b0 x b' -> reports_step b x b'.
Proof. intros E1 E2 [A B]. split; [by rewrite A, E1|]. intros hs out. by rewrite B, E2. Qed.

(** A secret callback: answer 1 with a 32-byte secret exactly when it is one
    of the four traffic secrets, which it then stores. *)
Lemma yield_reports b level dir secret a b' :
  invoke (TYieldSecret level dir secret) b = Some (a, b') -> reports_step b (TYieldSecret level dir secret, a) b'.
Proof.
  destruct find_dispatch_all as (_ & _ & _ & D4 & _). pose proof level_handshake_application as Hne.
  cbn [invoke]. rewrite D4. intros Hi.
  destruct (yield_secret_cb _ _ _ _ _) as [[r [b1|]]|] eqn:E; try done. cbn in Hi. injection Hi as <- <-.
  unfold yield_secret_cb in E. destruct (int_inc _) as [cnt|]; [|done]. cbn [mbind option_bind] in E. cbv zeta in E.
  set (b0 := if level <? 4 then _ else _) in E.
  assert (held_params b0 = held_params b /\ (forall hs out, held_secret b0 hs out = held_secret b hs out)) as [E1 E2].
  { subst b0. destruct (level <? 4), (dir =? 0), (dir =? 1); same_reports. }
  clearbody b0. apply (reports_step_from b0); [done..|]. clear E1 E2 b.
  unfold reports_step, params_of, secret_of. cbn [ans_ret].
  destruct (Z.eqb_spec level OSSL_RECORD_PROTECTION_LEVEL_HANDSHAKE) as [->|N1];
    [|destruct (Z.eqb_spec level OSSL_RECORD_PROTECTION_LEVEL_APPLICATION) as [->|N2]]; cbn [negb andb] in E.
  3: { simplify_eq. split; [done|]. intros hs out. unfold secret_level. by destruct hs, (Z.eqb_spec level
         OSSL_RECORD_PROTECTION_LEVEL_HANDSHAKE), (Z.eqb_spec level OSSL_RECORD_PROTECTION_LEVEL_APPLICATION). }
  all: destruct (Z.eqb_spec (zlen secret) SECRET_LEN) as [Hlen|]; cbn [negb] in E; [|simplify_eq; split; [done|]; intros; by rewrite andb_false_r].
  all: rewrite read_ptr_all in E; cbn [mbind option_bind] in E.
  all: destruct (Z.eqb_spec dir 1) as [->|M1]; [|destruct (Z.eqb_spec dir 0) as [->|M0]].
  all: try (destruct (write_array _ _ _ _) eqn:W; [|done]; cbn [mbind option_bind] in E; apply write_array_slice in W; [|done]).
  all: simplify_eq; try rewrite Hlen in W; split; [done|]; intros hs out; destruct hs, out; unfold secret_level, secret_dir.
  all: repeat match goal with |- context [?a =? ?b] => destruct (Z.eqb_spec a b); try congruence end; cbn; unfold held; cbn;
    try rewrite W; try done.
Qed.

Lemma params_reports b params a b' :
  invoke (TGotTransportParams params) b = Some (a, b') -> reports_step b (TGotTransportParams params, a) b'.
Proof.
  destruct find_dispatch_all as (_ & _ & _ & _ & D5 & _). cbn [invoke]. rewrite D5. intros Hi.
  destruct (got_transport_params_cb _ _ _) as [[r [b1|]]|] eqn:E; try done. cbn in Hi. injection Hi as <- <-.
  unfold got_transport_params_cb in E. destruct (zlen params >? 512); [by simplify_eq|].
  rewrite read_ptr_all in E. cbn [mbind option_bind] in E.
  destruct (write_array _ _ _ _) eqn:W; [|done]. cbn [mbind option_bind] in E. apply write_array_slice in W; [|done].
  destruct (int_inc _); [|done]. cbn in E. simplify_eq. split; [|done]. unfold held_params, held. cbn. by rewrite W.
Qed.

Lemma invoke_reports b c a b' : invoke c b = Some (a, b') -> reports_step b (c, a) b'.
Proof.
  destruct find_dispatch_all as (D1 & D2 & D3 & _ & _ & D6).
  destruct c as [buf| |k|level dir secret|params|code|line]; intros Hi;
    try (by apply yield_reports); try (by apply params_reports).
  all: assert (held_params b' = held_params b /\ forall hs out, held_secret b' hs out = held_secret b hs out) as [E1 E2];
    [|by split]; cbn [invoke] in Hi.
  - rewrite D1 in Hi. destruct (crypto_send_cb _ _ _ _) as [[[r co] [b1|]]|] eqn:E; try done.
    injection Hi as <- <-. unfold crypto_send_cb in E. clear - E. repeat (case_match || simplify_option_eq); same_reports.
  - rewrite D2 in Hi. destruct (crypto_recv_rcd_cb _) as [[[[r p] m] [b1|]]|] eqn:E; try done. cbn [mbind option_bind] in Hi.
    destruct (match p with Some _ => _ | None => _ end); [|done]. injection Hi as <- <-.
    unfold crypto_recv_rcd_cb in E. clear - E. repeat (case_match || simplify_option_eq); same_reports.
  - rewrite D3 in Hi. destruct (crypto_release_rcd_cb _ _) as [[r [b1|]]|] eqn:E; try done.
    injection Hi as <- <-. unfold crypto_release_rcd_cb in E. clear - E. repeat (case_match || simplify_option_eq); same_reports.
  - rewrite D6 in Hi. by simplify_eq.
  - clear - Hi. unfold keylog_cb in Hi. repeat (case_match || simplify_option_eq); same_reports.
Qed.

(** What the struct holds after a run is the last report, if there was one. *)
Lemma traced_reports b ls cs b' : traced b ls cs b' ->
  held_params b' = match reported_params cs with Some p => Some p | None => held_params b end /\
  forall hs out, held_secret b' hs out = match reported_secret (secret_level hs) (secret_dir out) cs with
    Some s => Some s | None => held_secret b hs out end.
Proof.
  induction 1 as [b|b c a b1 ls cs b2 _ Hi _ [IH1 IH2]|b l b1 ls cs b2 Hs _ [IH1 IH2]]; [done| |].
  - destruct (invoke_reports _ _ _ _ Hi) as [E1 E2]. rewrite IH1, E1. unfold reported_params, reported_secret in *.
    split; [|intros hs out; rewrite IH2, E2]; cbn [omap list_omap]; repeat case_match; try done;
      rewrite ?last_cons in *; by repeat case_match; simplify_eq.
  - destruct (api_reports _ _ _ Hs) as [E1 E2]. rewrite IH1, E1. split; [done|]. intros hs out. by rewrite IH2, E2.
Qed.

Lemma fresh_reports c s cbs quic ls cs b : traced (fresh_backend c s cbs quic) ls cs b ->
  held_params b = reported_params cs /\
  forall hs out, held_secret b hs out = reported_secret (secret_level hs) (secret_dir out) cs.
Proof.
  intros [E1 E2]%traced_reports. rewrite E1. split; [by destruct (reported_params cs)|].
  intros hs out. rewrite E2. by destruct (reported_secret _ _ cs), hs, out.
Qed.

(** ** Bytes counted over all levels *)

Definition levels : list Z := [0; 1; 2; 3].

Definition bytes_in (l : label) : Z := match l with LReceived _ d => zlen d | _ => 0 end.
Definition bytes_out (l : label) : Z := match l with LReleased _ d => zlen d | _ => 0 end.

Lemma sumZ_cons x l : sumZ (x :: l) = x + sumZ l.
Proof. done. Qed.

Lemma counted n b ls b' : inv n b -> n + zlen ls <= INT_MAX -> steps b ls b' ->
  received_crypto_len b' = received_crypto_len b + sumZ (bytes_in <$> ls) /\
  inbound_crypto_released_len b' = inbound_crypto_released_len b + sumZ (bytes_out <$> ls).
Proof.
  apply (steps_ind_inv (fun b ls b' => received_crypto_len b' = received_crypto_len b + sumZ (bytes_in <$> ls) /\
    inbound_crypto_released_len b' = inbound_crypto_released_len b + sumZ (bytes_out <$> ls))).
  - intros. cbn. lia.
  - intros m c l c1 ls' c2 _ _ _ _ He _ [IH1 IH2]. rewrite !fmap_cons, !sumZ_cons.
    unfold effect, same_in in He. destruct l; cbn [bytes_in bytes_out]; destruct_and?; lia.
Qed.

(** Every label names one of the four levels. *)
Definition leveled (l : label) : Prop :=
  match l with LReceived L _ | LReleased L _ => L ∈ levels | _ => True end.

Lemma level_elem L : 0 <= L < 4 -> L ∈ levels.
Proof. intros. assert (L = 0 \/ L = 1 \/ L = 2 \/ L = 3) as Hc by lia. unfold levels. rewrite !elem_of_cons. tauto. Qed.

Lemma step_leveled n b l b' : inv n b -> step b l b' -> leveled l.
Proof.
  intros Hinv. pose proof (i_rl _ _ Hinv) as Hrl. destruct 1 as [c a b' _ _|space data st b' _|level out st out' w b' _ _|b' _].
  - destruct c; cbn; try done; case_match; try done. by apply level_elem.
  - unfold receive_label. destruct st; try done. destruct (packet_space_level space) eqn:E; [|done].
    by eapply level_elem, packet_space_level_range.
  - by destruct st.
  - done.
Qed.

Lemma steps_leveled n b ls b' : inv n b -> n + zlen ls <= INT_MAX -> steps b ls b' -> Forall leveled ls.
Proof.
  apply (steps_ind_inv (fun _ ls _ => Forall leveled ls)); [done|].
  intros m c l c1 ls' c2 Hi _ Hs _ _ _ IH. constructor; [by eapply step_leveled|done].
Qed.

Lemma levels_once L d : L ∈ levels -> sumZ ((fun K => zlen (at_level K L d)) <$> levels) = zlen d.
Proof.
  unfold levels. rewrite !elem_of_cons, elem_of_nil. intros [->|[->|[->|[->|[]]]]]; unfold at_level, sumZ; cbn -[zlen];
    change (zlen (@nil byte)) with 0; lia.
Qed.

Lemma levels_none : sumZ ((fun _ => zlen (@nil byte)) <$> levels) = 0.
Proof. done. Qed.

Lemma sumZ_add {A : Type} (f g : A -> Z) l : sumZ ((fun x => f x + g x) <$> l) = sumZ (f <$> l) + sumZ (g <$> l).
Proof. induction l as [|x l IH]; [done|]. rewrite !fmap_cons, !sumZ_cons, IH. lia. Qed.

Lemma hist_total (f : Z -> label -> list byte) (size : label -> Z) ls :
  (forall l, leveled l -> sumZ ((fun L => zlen (f L l)) <$> levels) = size l) -> Forall leveled ls ->
  sumZ (size <$> ls) = sumZ ((fun L => zlen (concat (f L <$> ls))) <$> levels).
Proof.
  intros Hf. induction 1 as [|l ls Hl _ IH]; [done|]. rewrite fmap_cons, sumZ_cons, IH, <- (Hf l Hl), <- sumZ_add.
  f_equal. apply list_fmap_ext. intros i L _. rewrite fmap_cons. cbn. by rewrite zlen_app.
Qed.

Lemma received_total ls : Forall leveled ls -> sumZ (bytes_in <$> ls) = sumZ ((fun L => zlen (received L ls)) <$> levels).
Proof. apply hist_total. intros [] Hl; [by apply levels_once|done..]. Qed.

Lemma consumed_total ls : Forall leveled ls -> sumZ (bytes_out <$> ls) = sumZ ((fun L => zlen (consumed L ls)) <$> levels).
Proof. apply hist_total. intros [] Hl; try done. by apply levels_once. Qed.

Lemma held_some flag bytes x : held flag bytes = Some x -> ctrue flag = true.
Proof. unfold held. by destruct (ctrue flag). Qed.

(** The five flags are set exactly when something is held. *)
Lemma confirmed_held b : quicz_openssl_tls_backend_handshake_confirmed (Some b) = true <->
  is_Some (held_params b) /\ (forall hs out, is_Some (held_secret b hs out)) /\
  received_crypto_len b <> 0 /\ inbound_crypto_released_len b = received_crypto_len b.
Proof.
  cbn. rewrite !andb_true_iff, negb_true_iff, Z.eqb_neq, Z.eqb_eq. unfold held_params, held_secret. split.
  - intros ((((((F1 & F2) & F3) & F4) & F5) & ?) & ?). unfold held. rewrite F1.
    split; [by eexists|]. split; [|done]. intros [] []; rewrite ?F2, ?F3, ?F4, ?F5; by eexists.
  - intros ([? F1%held_some] & Hs & ? & ?). destruct (Hs true true) as [? F2%held_some], (Hs true false) as [? F3%held_some],
      (Hs false true) as [? F4%held_some], (Hs false false) as [? F5%held_some]. done.
Qed.

Lemma received_outside L ls : Forall leveled ls -> L ∉ levels -> received L ls = [].
Proof.
  intros Hlv HL. unfold received. induction Hlv as [|l ls Hl _ IH]; [done|]. rewrite fmap_cons. cbn. rewrite IH, app_nil_r.
  destruct l as [K d|K d|K d|K d|K d|]; cbn; try done. unfold at_level. by destruct (Z.eqb_spec K L) as [->|].
Qed.

(** The total is zero exactly when nothing was received. *)
Lemma received_nothing ls : Forall leveled ls ->
  sumZ ((fun L => zlen (received L ls)) <$> levels) <> 0 <-> exists L, received L ls <> [].
Proof.
  intros Hlv. unfold levels, sumZ. cbn -[received zlen]. pose proof (fun L => zlen_nonneg (received L ls)) as Hn.
  pose proof (Hn 0). pose proof (Hn 1). pose proof (Hn 2). pose proof (Hn 3). split.
  - intros Hne. assert (exists L, zlen (received L ls) <> 0) as [L HL].
    { destruct (decide (zlen (received 0 ls) = 0)); [|by exists 0]. destruct (decide (zlen (received 1 ls) = 0)); [|by exists 1].
      destruct (decide (zlen (received 2 ls) = 0)); [|by exists 2]. exists 3. lia. }
    exists L. intros E. by rewrite E in HL.
  - intros [L HL]. assert (0 < zlen (received L ls)) as Hpos.
    { destruct (decide (zlen (received L ls) = 0)) as [E|]; [by apply zlen_nil_inv in E|]. specialize (Hn L). lia. }
    destruct (decide (L ∈ levels)) as [Hin|Hout]; [|by rewrite received_outside in HL].
    unfold levels in Hin. rewrite !elem_of_cons, elem_of_nil in Hin. destruct Hin as [->|[->|[->|[->|[]]]]]; lia.
Qed.

(** C6: what [handshake_confirmed] means. In every run from a fresh backend it
    returns true exactly when OpenSSL has reported the peer's transport
    parameters and each of the four traffic secrets (by a callback the adapter
    answered 1), the transport has delivered some CRYPTO data, and at every
    level OpenSSL has consumed exactly the bytes delivered, in order. What the
    adapter then holds is the last report of each, and nothing is pending. *)
Theorem adapter_confirmed_exact c s cbs quic (ls : list label) (cs : list (tls_call * tls_answer)) (b : backend)
    (Hlen : zlen ls <= INT_MAX) (Hrun : traced (fresh_backend c s cbs quic) ls cs b) :
  (quicz_openssl_tls_backend_handshake_confirmed (Some b) = true <->
     is_Some (reported_params cs) /\ (forall hs out, is_Some (reported_secret (secret_level hs) (secret_dir out) cs)) /\
     (exists L, received L ls <> []) /\ forall L, received L ls = consumed L ls) /\
  (quicz_openssl_tls_backend_handshake_confirmed (Some b) = true ->
     held_params b = reported_params cs /\
     (forall hs out, held_secret b hs out = reported_secret (secret_level hs) (secret_dir out) cs) /\
     forall L, inp b L = []).
Proof.
  pose proof (traced_steps _ _ _ _ Hrun) as Hs. pose proof (inv_init c s cbs quic) as Hinv0.
  pose proof (steps_inv 0 _ ls b Hinv0 Hlen Hs) as Hinv.
  destruct (fresh_reports _ _ _ _ _ _ _ Hrun) as [E1 E2].
  destruct (counted 0 _ ls b Hinv0 Hlen Hs) as [C1 C2]. change (received_crypto_len (fresh_backend c s cbs quic)) with 0 in C1.
  change (inbound_crypto_released_len (fresh_backend c s cbs quic)) with 0 in C2.
  pose proof (steps_leveled 0 _ ls b Hinv0 Hlen Hs) as Hlv. rewrite received_total in C1 by done. rewrite consumed_total in C2 by done.
  split; [|intros Hc; split_and!; [done|done|by eapply confirmed_nothing_left]].
  rewrite <- E1. setoid_rewrite <- E2. rewrite confirmed_held, C1, C2, !Z.add_0_l, received_nothing by done.
  split; intros (P & S & R & E); split_and!; try done.
  - intros L. assert (quicz_openssl_tls_backend_handshake_confirmed (Some b) = true) as Hc.
    { apply confirmed_held. rewrite C1, C2, !Z.add_0_l, received_nothing by done. done. }
    destruct (confirmed_nothing_left _ _ Hinv Hc) as [Hlost Hempty].
    destruct (fresh_queues c s cbs quic L) as (_ & Hin & _ & Hl0).
    pose proof (inbound_steps 0 _ ls b L Hinv0 Hlen Hs ltac:(congruence)) as Heq.
    by rewrite Hin, Hempty, app_nil_r in Heq.
  - f_equal. symmetry. apply list_fmap_ext. intros i L _. by rewrite E.
Qed.

End WithOpenSSL.

End AdapterConfirm.
