(* ===== verification/AdapterLife.v ===== *)
(** * Life cycle of the OpenSSL adapter

    Construction, an arbitrary sequence of API calls, destruction: the whole
    life of a backend as its client drives it, over an arbitrary OpenSSL. *)
From S2P Require Import Prelude CAbi OpenSSL CryptoLevels Adapter AdapterInv AdapterSession.
Import Adapter AdapterInv AdapterSession.
Local Open Scope Z_scope.

Module AdapterLife.

(** ** Clients *)

(** One API call, with the buffers the client passes. *)
Inductive api_op : Type :=
  | OpReceive (space : Z) (data : list byte)
  | OpPull (space : Z) (out : list byte)
  | OpSetLocal (data : list byte)
  | OpPullPeer (out : list byte)
  | OpPullHandshakeSecrets (out : quicz_handshake_traffic_secrets)
  | OpPull1RttSecrets (out : quicz_one_rtt_traffic_secrets)
  | OpConfirmed
  | OpPullAlpn (out : list byte)
  | OpPendingInbound.

(** What the client sees of the call. *)
Inductive api_res : Type :=
  | RStatus (st : quicz_tls_backend_status)
  | RBytes (st : quicz_tls_backend_status) (out : ptr) (written : cell)
  | RHandshake (st : quicz_tls_backend_status) (out : option quicz_handshake_traffic_secrets)
  | R1Rtt (st : quicz_tls_backend_status) (out : option quicz_one_rtt_traffic_secrets)
  | RBool (v : bool)
  | RLen (n : Z).

Section WithOpenSSL.
Context {H : OpenSSLHeaders} {O : OpenSSL}.

(** Every API function takes the context pointer and leaves the struct behind it. *)
Definition api_call (op : api_op) (b : backend) (w : world O) : option (api_res * backend * world O) :=
  match op with
  | OpReceive space data =>
      '(st, arg) ← quicz_openssl_tls_backend_receive (Some b) space (Some data) (zlen data);
      b ← arg; Some (RStatus st, b, w)
  | OpPull space out =>
      '(st, out, n, arg, w) ← quicz_openssl_tls_backend_pull (Some b) space (Some out) (zlen out) (Some 0) w;
      b ← arg; Some (RBytes st out n, b, w)
  | OpSetLocal data =>
      '(st, arg, w) ← quicz_openssl_tls_backend_set_local_transport_parameters (Some b) (Some data) (zlen data) w;
      b ← arg; Some (RStatus st, b, w)
  | OpPullPeer out =>
      '(st, out, n, arg) ←
        quicz_openssl_tls_backend_pull_peer_transport_parameters (Some b) (Some out) (zlen out) (Some 0);
      b ← arg; Some (RBytes st out n, b, w)
  | OpPullHandshakeSecrets out =>
      '(st, out, arg) ← quicz_openssl_tls_backend_pull_handshake_traffic_secrets (Some b) (Some out);
      b ← arg; Some (RHandshake st out, b, w)
  | OpPull1RttSecrets out =>
      '(st, out, arg) ← quicz_openssl_tls_backend_pull_1rtt_traffic_secrets (Some b) (Some out);
      b ← arg; Some (R1Rtt st out, b, w)
  | OpConfirmed => Some (RBool (quicz_openssl_tls_backend_handshake_confirmed (Some b)), b, w)
  | OpPullAlpn out =>
      '(st, out, n) ← quicz_openssl_tls_backend_pull_negotiated_alpn (Some b) (Some out) (zlen out) (Some 0) w;
      Some (RBytes st out n, b, w)
  | OpPendingInbound =>
      n ← quicz_openssl_tls_backend_pending_inbound_crypto_len (Some b); Some (RLen n, b, w)
  end.

Fixpoint session (ops : list api_op) (b : backend) (w : world O)
    : option (list (api_op * api_res) * backend * world O) :=
  match ops with
  | [] => Some ([], b, w)
  | op :: ops =>
      '(r, b, w) ← api_call op b w;
      '(rs, b, w) ← session ops b w;
      Some ((op, r) :: rs, b, w)
  end.

(** New, the session, free. *)
Definition lifecycle (is_client : bool) (ops : list api_op) (w : world O)
    : option (option (list (api_op * api_res)) * world O) :=
  '(c, w) ← quicz_openssl_tls_backend_new_for_role is_client w;
  match c with
  | None => Some (None, w)
  | Some (addr, b) =>
      '(rs, b, w) ← session ops b w;
      w ← quicz_openssl_tls_backend_free (Some (addr, b)) w;
      Some (Some rs, w)
  end.

(** The CRYPTO bytes the client took from and delivered to level [L]. *)
Definition client_pulled1 (L : Z) (e : api_op * api_res) : list byte :=
  match e with
  | (OpPull space _, RBytes st out n) =>
      match packet_space_level space with Some level => pull_bytes level st out n L | None => [] end
  | _ => []
  end.

Definition client_delivered1 (L : Z) (e : api_op * api_res) : list byte :=
  match e with
  | (OpReceive space data, RStatus QUICZ_TLS_BACKEND_OK) =>
      match packet_space_level space with Some level => at_level L level data | None => [] end
  | _ => []
  end.

Definition client_pulled (L : Z) (t : list (api_op * api_res)) : list byte := concat (client_pulled1 L <$> t).
Definition client_delivered (L : Z) (t : list (api_op * api_res)) : list byte := concat (client_delivered1 L <$> t).

Context {Hok : OpenSSLHeadersOk H}.

Lemma trans_weaken1 m k b b' : trans m 1 b none none b' -> 1 <= k -> trans m k b none none b'.
Proof. intros. by eapply trans_weaken. Qed.

Lemma sum_levels_wp cap bufs lens : levels_ok cap bufs lens -> 4 * cap <= SIZE_MAX -> 0 <= cap ->
  sum_levels 4 0 lens 0 = Some (sumZ lens).
Proof.
  intros [_ Hl Hc] Hcap Hcap0.
  destruct lens as [|a [|b [|c [|d [|e l]]]]]; try (unfold zlen in Hl; cbn in Hl; lia).
  pose proof (Hc 0 a eq_refl). pose proof (Hc 1 b eq_refl). pose proof (Hc 2 c eq_refl). pose proof (Hc 3 d eq_refl).
  change (Some (uadd64 (uadd64 (uadd64 (uadd64 0 a) b) c) d) = Some (sumZ [a; b; c; d])).
  rewrite (uadd64_small 0 a), (uadd64_small _ b), (uadd64_small _ c), (uadd64_small _ d) by lia.
  unfold sumZ. cbn [foldr].
  f_equal. lia.
Qed.

(** The calls outside the CRYPTO path return. *)
Lemma set_local_runs b data (w : world O) : exists st b' w', w_live w' = w_live w /\
  quicz_openssl_tls_backend_set_local_transport_parameters (Some b) (Some data) (zlen data) w =
    Some (st, Some b', w').
Proof.
  unfold quicz_openssl_tls_backend_set_local_transport_parameters. pose proof (zlen_nonneg data).
  destruct (ssl b); [|by eexists _, _, w]. destruct (ctrue _); [by eexists _, _, w|].
  destruct (wp_elim _ _ (wp_read_ptr data (zlen data) (fun _ => True) ltac:(lia) I)) as (bs & -> & _). cbn.
  unfold ext. destruct (respond _ _) as [r o]. by destruct (negb (ctrue r)); eexists _, _, _; (split; [|reflexivity]).
Qed.

Lemma pull_peer_runs m b out : inv m b -> exists st out' n b',
  quicz_openssl_tls_backend_pull_peer_transport_parameters (Some b) (Some out) (zlen out) (Some 0) =
    Some (st, out', n, Some b').
Proof.
  intros [_ _ _ _ _ _ Hp _ _ _ _ _ _ _ _ _ _].
  unfold quicz_openssl_tls_backend_pull_peer_transport_parameters. cbn.
  destruct (_ || _); [by eauto|]. destruct (Z.ltb_spec (zlen out) (peer_transport_parameters_len b)); [by eauto|].
  unfold read_array, write_ptr. destruct (Z.leb_spec (0 + peer_transport_parameters_len b) 512); [|lia].
  destruct (Z.leb_spec 0 (peer_transport_parameters_len b)); [|lia]. cbn. rewrite zlen_slice by lia.
  destruct (Z.leb_spec (peer_transport_parameters_len b) (zlen out)); [by eauto|lia].
Qed.

Lemma pull_handshake_runs b o : exists st o' b',
  quicz_openssl_tls_backend_pull_handshake_traffic_secrets (Some b) (Some o) = Some (st, o', Some b').
Proof. cbn. destruct (_ || _); eauto. Qed.

Lemma pull_1rtt_runs b o : exists st o' b',
  quicz_openssl_tls_backend_pull_1rtt_traffic_secrets (Some b) (Some o) = Some (st, o', Some b').
Proof. cbn. destruct (_ || _); eauto. Qed.

Lemma pull_alpn_runs b out (w : world O) : exists st out' n,
  quicz_openssl_tls_backend_pull_negotiated_alpn (Some b) (Some out) (zlen out) (Some 0) w = Some (st, out', n).
Proof.
  cbn. destruct (ssl b) as [s|]; [|by eauto]. destruct (SSL_get0_alpn_selected s _) as [alpn|]; [|by eauto].
  destruct (_ =? 0); [by eauto|]. destruct (Z.ltb_spec (zlen out) (zlen alpn)); [by eauto|].
  unfold write_ptr. cbn. destruct (Z.leb_spec (zlen alpn) (zlen out)); [by eauto|lia].
Qed.

(** One API call: no undefined behaviour, the invariant is kept, and the CRYPTO
    bytes it moves are the ones the client sees. *)
Lemma api_call_wp m d b op (w : world O) :
  (forall s o, bounded d (SSL_do_handshake s o)) -> inv m b -> m + Z.of_nat d + 4 <= INT_MAX ->
  wp (api_call op b w) (fun '(r, b', w') => w_live w' = w_live w /\
    trans m (Z.of_nat d + 4) b (fun L => client_pulled1 L (op, r)) (fun L => client_delivered1 L (op, r)) b').
Proof.
  intros Hd Hinv Hm.
  assert (trans m 1 b none none b) as T0. { by eapply trans_weaken; [apply trans_refl|lia|..]. }
  assert (forall b', quiet b b' -> trans m 1 b none none b') as Hq by (intros; apply trans_quiet; [done|lia|done]).
  destruct op; cbn [api_call].
  - apply wp_bind.
    destruct (wp_elim _ _ (receive_wp m b space data Hinv ltac:(lia))) as ([st arg] & Er & b' & -> & Hi & _).
    rewrite Er. cbn. split; [done|]. eapply trans_weaken; [apply trans_step; [by eapply step_receive|done]|lia|..].
    + intros L. unfold receive_label. by destruct st; repeat case_match.
    + intros L. unfold receive_label. by destruct st; repeat case_match.
  - apply wp_bind. eapply wp_mono; [by apply (pull_wp m d)|].
    by intros [[[[st out'] n] arg] w'] (b' & -> & Hl & T & _).
  - destruct (set_local_runs b data w) as (st & b' & w' & Hl & E). rewrite E. cbn.
    split; [done|]. apply trans_weaken1; [|lia]. by eapply Hq, quiet_set_local.
  - destruct (pull_peer_runs m b out Hinv) as (st & out' & n & b' & E). rewrite E. cbn.
    split; [done|]. apply trans_weaken1; [|lia]. by eapply Hq, quiet_pull_peer.
  - destruct (pull_handshake_runs b out) as (st & o' & b' & E). rewrite E. cbn -[none].
    split; [done|]. apply trans_weaken1; [|lia]. by eapply Hq, quiet_pull_handshake.
  - destruct (pull_1rtt_runs b out) as (st & o' & b' & E). rewrite E. cbn.
    split; [done|]. apply trans_weaken1; [|lia]. by eapply Hq, quiet_pull_1rtt.
  - by split; [|apply trans_weaken1; [|lia]].
  - destruct (pull_alpn_runs b out w) as (st & o' & n & E). rewrite E. cbn.
    by split; [|apply trans_weaken1; [|lia]].
  - apply wp_bind. cbn [quicz_openssl_tls_backend_pending_inbound_crypto_len].
    rewrite (sum_levels_wp _ _ _ (i_in _ _ Hinv)) by (unfold CRYPTO_BUF, SIZE_MAX; lia).
    by split; [|apply trans_weaken1; [|lia]].
Qed.

Lemma session_wp d (Hd : forall s o, bounded d (SSL_do_handshake s o)) ops : forall m b (w : world O),
  inv m b -> m + zlen ops * (Z.of_nat d + 4) <= INT_MAX ->
  wp (session ops b w) (fun '(t, b', w') => t.*1 = ops /\ w_live w' = w_live w /\
    trans m (zlen ops * (Z.of_nat d + 4)) b (fun L => client_pulled L t) (fun L => client_delivered L t) b').
Proof.
  induction ops as [|op ops IH]; intros m b w Hinv Hm; cbn [session].
  - apply wp_ret. split_and!; try done. by apply trans_refl.
  - rewrite zlen_cons in *. pose proof (zlen_nonneg ops).
    apply wp_bind. eapply wp_mono; [apply (api_call_wp m d b op w Hd Hinv); lia|].
    intros [[r b1] w1] [Hl1 T1]. cbn beta iota. apply wp_bind.
    eapply wp_mono; [apply (IH (m + (Z.of_nat d + 4)) b1 w1); [by eapply trans_inv|lia]|].
    intros [[t b2] w2] (Ht & Hl2 & T2). cbn. split_and!; [by rewrite Ht|congruence|].
    eapply trans_weaken; [exact (trans_trans _ _ _ _ _ _ _ _ _ _ T1 T2)|lia|done|done].
Qed.

(** The byte accounting of a run, per level, in the form clients use. *)
Lemma streams_of_steps c s cbs quic ls b' k L :
  steps (fresh_backend c s cbs quic) ls b' -> inv k b' -> zlen ls <= INT_MAX ->
  pulled L ls ++ outp b' L = sent L ls /\ received L ls = received L ls /\
  (quicz_openssl_tls_backend_handshake_confirmed (Some b') = true -> consumed L ls = received L ls).
Proof.
  intros Hs Hi Hk. pose proof (inv_init c s cbs quic) as Hinv0.
  destruct (fresh_queues c s cbs quic L) as (Hout & Hin & _ & Hl0). split_and!; [|done|].
  - rewrite <- (outbound_steps 0 _ ls b' L Hinv0 ltac:(lia) Hs). by rewrite Hout.
  - intros Hconf. destruct (confirmed_nothing_left _ _ Hi Hconf) as [Hlost Hempty].
    pose proof (inbound_steps 0 _ ls b' L Hinv0 ltac:(lia) Hs) as E.
    rewrite Hlost, Hl0, Hempty, Hin, app_nil_r in E. symmetry. by apply E.
Qed.

(** C1: what the client sees. A session of at most 2^31/(d+4) API calls from a
    fresh backend, with an OpenSSL that makes at most [d] callbacks per
    handshake step, runs without undefined behaviour and answers every call;
    at each level, the bytes of the successful pulls followed by the bytes
    still pending are the bytes OpenSSL produced, the bytes of the successful
    deliveries are what OpenSSL was given, and if [handshake_confirmed] holds
    at the end OpenSSL consumed all of them. *)
Theorem adapter_session_integrity c s cbs quic d (ops : list api_op) (w : world O)
    (Hd : forall s o, bounded d (SSL_do_handshake s o))
    (Hlen : zlen ops * (Z.of_nat d + 4) <= INT_MAX) :
  wp (session ops (fresh_backend c s cbs quic) w) (fun '(t, b', w') => t.*1 = ops /\
    exists ls, steps (fresh_backend c s cbs quic) ls b' /\ forall L,
      client_pulled L t ++ outp b' L = sent L ls /\ client_delivered L t = received L ls /\
      (quicz_openssl_tls_backend_handshake_confirmed (Some b') = true -> consumed L ls = client_delivered L t)).
Proof.
  pose proof (inv_init c s cbs quic) as Hinv0.
  eapply wp_mono; [by apply (session_wp d Hd ops 0)|]. intros [[t b'] w'] (Ht & _ & ls & Hs & Hk & Hi & Hh).
  split; [done|]. exists ls. split; [done|]. intros L. destruct (Hh L) as [<- <-].
  apply (streams_of_steps c s cbs quic ls b' (0 + zlen ops * (Z.of_nat d + 4)) L); [done|done|lia].
Qed.

(** ** Construction and destruction *)

Lemma ext_cases c (w : world O) : exists r o, ext c w = (r, w <| w_ossl := o |>).
Proof. unfold ext. destruct (respond c (w_ossl w)) as [r o]. eauto. Qed.

(** The objects a constructed backend owns. *)
Definition owned (addr c s : nat) : gset resource := {[ (KMem, addr); (KCtx, c); (KSsl, s) ]}.

Definition new_post (w : world O) : context * world O -> Prop := fun '(ctxt, w') =>
  world_wf w' /\
  match ctxt with
  | None => w_live w' = w_live w
  | Some (addr, b) => exists c s cbs quic, b = fresh_backend (Some c) (Some s) cbs quic /\
      owned addr c s ## w_live w /\ w_live w' = w_live w ∪ owned addr c s
  end.

Ltac ext_go :=
  repeat match goal with
  | |- context [ext ?c ?w] =>
      let r := fresh "r" in let o := fresh "o" in let E := fresh in
      destruct (ext_cases c w) as (r & o & E); rewrite E; clear E; cbn [snd]
  | |- context [ctrue ?r] => destruct (ctrue r); cbn [negb]
  | |- context [ext_new ?k ?c ?w] =>
      let o := fresh "o" in let E := fresh in
      destruct (ext_new_spec k c w) as [(o & E)|(o & E)]; rewrite E; clear E
  end.

(** A handle that was never issued is not live. *)
Lemma fresh_not_live (w : world O) k n : world_wf w -> (w_next w <= n)%nat -> (k, n) ∉ w_live w.
Proof. intros Hwf Hn Hin%Hwf. lia. Qed.

Lemma world_wf_grow (w w' : world O) (X : gset resource) : world_wf w -> (w_next w <= w_next w')%nat ->
  (forall k n, (k, n) ∈ X -> (n < w_next w')%nat) -> w_live w' ⊆ w_live w ∪ X -> world_wf w'.
Proof. intros Hwf Hle HX Hsub k n [Hin|Hin]%Hsub%elem_of_union; [apply Hwf in Hin; lia|by eapply HX]. Qed.

Ltac free_go :=
  repeat match goal with
  | |- wp (_ ≫= _) _ => apply wp_bind
  | |- wp (ext_free _ (Some _) _) _ => apply wp_ext_free_Some; [cbn; set_solver|]
  | |- wp (Some _) _ => apply wp_ret
  end.

Lemma configure_ctx_cases c (w : world O) : exists ok o, configure_ctx c w = (ok, w <| w_ossl := o |>).
Proof. unfold configure_ctx. ext_go; eexists _, _; reflexivity. Qed.

Lemma new_wp ic (w : world O) : world_wf w ->
  wp (quicz_openssl_tls_backend_new_for_role ic w) (new_post w).
Proof.
  intros Hwf. unfold quicz_openssl_tls_backend_new_for_role.
  pose proof (fresh_not_live w KMem (w_next w) Hwf ltac:(lia)) as F0.
  pose proof (fresh_not_live w KCtx (S (w_next w)) Hwf ltac:(lia)) as F1.
  pose proof (fresh_not_live w KSsl (S (S (w_next w))) Hwf ltac:(lia)) as F2.
  assert (forall w' : world O, (w_next w <= w_next w')%nat -> w_live w' = w_live w -> new_post w (None, w')) as Hfail.
  { intros w' Hn Hl. split; [|done]. by apply (world_wf_grow w w' ∅); [..|rewrite Hl; set_solver]. }
  ext_go; [by apply wp_ret, Hfail| |].
  { free_go. apply Hfail; cbn; [lia|set_solver]. }
  destruct (configure_ctx_cases (S (w_next w)) (World o0 (S (S (w_next w)))
    (w_live w ∪ {[(KMem, w_next w)]} ∪ {[(KCtx, S (w_next w))]}))) as ([] & o1 & E); cbn -[ext_free] in E |- *; rewrite E; cbn [negb].
  2:{ free_go. apply Hfail; cbn; [lia|set_solver]. }
  destruct ic; ext_go; free_go.
  1,3: apply Hfail; cbn; [lia|set_solver].
  all: split; [|eexists _, _, _, _; (split; [reflexivity|]); unfold owned; cbn; set_solver].
  all: apply (world_wf_grow w _ (owned (w_next w) (S (w_next w)) (S (S (w_next w)))) Hwf);
    cbn -[owned union]; [lia| |unfold owned; set_solver]; unfold owned; intros k n;
    rewrite !elem_of_union, !elem_of_singleton; intuition simplify_eq; lia.
Qed.

Lemma free_wp addr c s cbs quic (w0 w : world O) b : same_handles (fresh_backend (Some c) (Some s) cbs quic) b ->
  owned addr c s ## w_live w0 -> w_live w = w_live w0 ∪ owned addr c s ->
  wp (quicz_openssl_tls_backend_free (Some (addr, b)) w) (fun w' => w_live w' = w_live w0).
Proof.
  intros [Hc Hs] Hdis Hlive. cbn -[ext_free]. rewrite Hc, Hs. cbn -[ext_free]. unfold owned in *.
  free_go; cbn -[union difference]; set_solver.
Qed.

(** C2: life cycle safety. Creating a backend in either role (whatever OpenSSL
    and the allocator answer), running any API session that stays within the
    counters' range, and freeing the backend has no undefined behaviour, and
    leaves exactly the OpenSSL and heap objects that were live before: nothing
    leaks, also on every failure path of the constructor, and nothing is freed
    twice. *)
Theorem adapter_lifecycle_safe d ic (ops : list api_op) (w : world O)
    (Hd : forall s o, bounded d (SSL_do_handshake s o)) (Hwf : world_wf w)
    (Hlen : zlen ops * (Z.of_nat d + 4) <= INT_MAX) :
  wp (lifecycle ic ops w) (fun '(t, w') => w_live w' = w_live w /\
    match t with Some t => t.*1 = ops | None => True end).
Proof.
  unfold lifecycle. apply wp_bind. eapply wp_mono; [by apply new_wp|].
  intros [[[addr b]|] w1] [Hwf1 Hnew]; [|by apply wp_ret].
  destruct Hnew as (c & s & cbs & quic & -> & Hdis & Hlive). apply wp_bind.
  eapply wp_mono; [by apply (session_wp d Hd ops 0); [apply inv_init|lia]|].
  intros [[t b'] w2] (Ht & Hl2 & ls & Hs & _). cbn beta iota. apply wp_bind.
  eapply wp_mono; [apply (free_wp addr c s cbs quic w w2 b'); [by eapply steps_handles|done|congruence]|].
  intros w3 Hl3. by apply wp_ret.
Qed.

End WithOpenSSL.

End AdapterLife.
