(* ===== verification/AdapterProps.v ===== *)
(** * Handoffs and configuration of the OpenSSL adapter

    Traffic secrets and transport parameters cross the adapter once per
    report: an abstract handoff and the proof that the callbacks and the pull
    functions implement it.  Then the behaviour of single operations: secrets
    and levels, overflow, PSK, ALPN, local transport parameters, pulls. *)
From S2P Require Import Prelude CAbi OpenSSL CryptoLevels Adapter AdapterInv AdapterSession.
Import Adapter AdapterInv AdapterSession.
Local Open Scope Z_scope.

Module AdapterProps.

(** ** The abstract handoff *)

(** A pair of secrets under collection: the last reported value of each
    direction and whether the completed pair was taken since. *)
Record pair_handoff : Type := PairHandoff {
  p_local : option (list byte);
  p_peer : option (list byte);
  p_taken : bool;
}.

Record handoff : Type := Handoff {
  h_handshake : pair_handoff;
  h_one_rtt : pair_handoff;
  h_params : option (list byte);
  h_params_taken : bool;
}.

(** Reporting one direction's secret; direction 1 is local, 0 is the peer's. *)
Definition report (dir : Z) (secret : list byte) (p : pair_handoff) : pair_handoff :=
  if negb (zlen secret =? SECRET_LEN) then p else
  if dir =? 1 then PairHandoff (Some secret) (p_peer p) false else
  if dir =? 0 then PairHandoff (p_local p) (Some secret) false else p.

(** The pair, once. *)
Definition take_pair (p : pair_handoff) : option (list byte * list byte) * pair_handoff :=
  match p_local p, p_peer p, p_taken p with
  | Some l, Some r, false => (Some (l, r), PairHandoff (Some l) (Some r) true)
  | _, _, _ => (None, p)
  end.

(** The parameters, once, if they fit. *)
Definition take_params (cap : Z) (h : handoff) : quicz_tls_backend_status * option (list byte) * handoff :=
  match h_params h, h_params_taken h with
  | Some ps, false =>
      if cap <? zlen ps then (QUICZ_TLS_BACKEND_BUFFER_TOO_SMALL, None, h)
      else (QUICZ_TLS_BACKEND_OK, Some ps, Handoff (h_handshake h) (h_one_rtt h) (Some ps) true)
  | _, _ => (QUICZ_TLS_BACKEND_PENDING, None, h)
  end.

Section WithOpenSSL.
Context {H : OpenSSLHeaders} {O : OpenSSL}.

(** What each OpenSSL callback does to the handoff. *)
Definition handoff_call (c : tls_call) (h : handoff) : handoff :=
  match c with
  | TYieldSecret level dir secret =>
      if level =? OSSL_RECORD_PROTECTION_LEVEL_HANDSHAKE
      then Handoff (report dir secret (h_handshake h)) (h_one_rtt h) (h_params h) (h_params_taken h)
      else if level =? OSSL_RECORD_PROTECTION_LEVEL_APPLICATION
      then Handoff (h_handshake h) (report dir secret (h_one_rtt h)) (h_params h) (h_params_taken h)
      else h
  | TGotTransportParams ps =>
      if zlen ps >? 512 then h else Handoff (h_handshake h) (h_one_rtt h) (Some ps) false
  | _ => h
  end.

(** ** The handoff of a backend *)
Definition flagged (flag : Z) (bs : list byte) : option (list byte) := if ctrue flag then Some bs else None.

Definition handoff_of (b : backend) : handoff := Handoff
  (PairHandoff (flagged (handshake_local_secret_available b) (slice (hs_local (handshake_secrets b)) 0 SECRET_LEN))
               (flagged (handshake_peer_secret_available b) (slice (hs_peer (handshake_secrets b)) 0 SECRET_LEN))
               (ctrue (handshake_secrets_sent b)))
  (PairHandoff (flagged (one_rtt_local_secret_available b) (slice (ort_local (one_rtt_secrets b)) 0 SECRET_LEN))
               (flagged (one_rtt_peer_secret_available b) (slice (ort_peer (one_rtt_secrets b)) 0 SECRET_LEN))
               (ctrue (one_rtt_secrets_sent b)))
  (flagged (peer_transport_parameters_available b)
     (slice (peer_transport_parameters b) 0 (peer_transport_parameters_len b)))
  (ctrue (peer_transport_parameters_sent b)).

Context {Hok : OpenSSLHeadersOk H}.

(** Writing a whole secret. *)
Lemma write_secret arr secret arr' : zlen secret = SECRET_LEN ->
  write_array SECRET_LEN arr 0 (ztake (zlen secret) secret) = Some arr' -> slice arr' 0 SECRET_LEN = secret.
Proof.
  rewrite ztake_all. unfold write_array. intros Hl. repeat case_match; intros; simplify_eq.
  rewrite <- Hl. by apply slice_splice_exact.
Qed.

Lemma read_whole bs : read_ptr (Some bs) (zlen bs) = Some (ztake (zlen bs) bs).
Proof.
  unfold read_ptr. cbn. pose proof (zlen_nonneg bs).
  by rewrite (proj2 (Z.leb_le 0 (zlen bs))), Z.leb_refl by lia.
Qed.

Lemma write_params_slice arr ps arr' : write_array 512 arr 0 (ztake (zlen ps) ps) = Some arr' ->
  slice arr' 0 (zlen ps) = ps.
Proof.
  rewrite ztake_all. unfold write_array. repeat case_match; intros; simplify_eq.
  by apply slice_splice_exact.
Qed.

(** The result of a report: a protected level wants secrets of 32 bytes. *)
Definition yield_result (level : Z) (secret : list byte) : Z :=
  cbool (negb ((level =? OSSL_RECORD_PROTECTION_LEVEL_HANDSHAKE) ||
               (level =? OSSL_RECORD_PROTECTION_LEVEL_APPLICATION)) || (zlen secret =? SECRET_LEN)).

Definition switch (dir dir' level old : Z) : Z := if (level <? 4) && (dir =? dir') then level else old.

(** Everything [yield_secret_cb] does. *)
Lemma yield_full level dir secret b : yield_secret_callbacks b < INT_MAX ->
  wp (yield_secret_cb level dir (Some secret) (zlen secret) (Some b)) (fun '(r, arg) =>
    r = yield_result level secret /\ exists b', arg = Some b' /\
       read_level b' = switch dir 0 level (read_level b) /\ write_level b' = switch dir 1 level (write_level b) /\
       handoff_of b' = handoff_call (TYieldSecret level dir secret) (handoff_of b)).
Proof.
  intros Hc. unfold yield_secret_cb. apply wp_bind, wp_int_inc; [done|]. cbv zeta beta.
  set (b1 := if level <? 4 then _ else _).
  assert (read_level b1 = switch dir 0 level (read_level b) /\ write_level b1 = switch dir 1 level (write_level b) /\
     handoff_of b1 = handoff_of b) as (<- & <- & <-).
  { subst b1. unfold switch. destruct (level <? 4), (Z.eqb_spec dir 0), (Z.eqb_spec dir 1); try done; by subst. }
  clearbody b1. clear - Hok. pose proof level_handshake_application as Hne.
  unfold yield_result, handoff_call, report.
  destruct (Z.eqb_spec level OSSL_RECORD_PROTECTION_LEVEL_HANDSHAKE) as [E1|E1],
    (Z.eqb_spec level OSSL_RECORD_PROTECTION_LEVEL_APPLICATION) as [E2|E2]; try congruence; cbn [negb andb orb cbool].
  all: try (split; [done|]; by exists b1).
  all: destruct (Z.eqb_spec (zlen secret) SECRET_LEN) as [Hl|]; cbn [negb andb orb cbool]; [|split; [done|]; by exists b1].
  all: destruct (Z.eqb_spec dir 1), (Z.eqb_spec dir 0); subst; try done; try (split; [done|]; by exists b1).
  all: rewrite read_whole; apply wp_bind, wp_ret, wp_bind, wp_write_array; [lia|rewrite ztake_all; lia|].
  all: split; [done|]; eexists; do 3 (split; [done|]); unfold handoff_of; cbn; rewrite ztake_all;
    do 3 f_equal; rewrite <- Hl; by rewrite slice_splice_exact.
Qed.

Lemma invoke_handoff c b a b' : invoke c b = Some (a, b') -> handoff_of b' = handoff_call c (handoff_of b).
Proof.
  destruct c as [buf| |k|level dir secret|ps|code|line]; cbn [invoke handoff_call]; intros Hi.
  - unfold crypto_send_cb in Hi. by repeat (case_match || simplify_option_eq).
  - unfold crypto_recv_rcd_cb in Hi. by repeat (case_match || simplify_option_eq).
  - unfold crypto_release_rcd_cb in Hi. by repeat (case_match || simplify_option_eq).
  - case_match; [|done]. case_match; try done.
    destruct (decide (yield_secret_callbacks b < INT_MAX)) as [Hlt|Hge].
    + destruct (wp_elim _ _ (yield_full level dir secret b Hlt)) as ([r arg] & E & _ & b1 & -> & _ & _ & Hh).
      rewrite E in Hi. cbn in Hi. by simplify_eq.
    + unfold yield_secret_cb, int_inc in Hi. by destruct (Z.ltb_spec (yield_secret_callbacks b) INT_MAX).
  - case_match; [|done]. case_match; try done. unfold got_transport_params_cb in Hi.
    rewrite read_whole in Hi. destruct (zlen ps >? 512); simplify_option_eq; [done|].
    unfold handoff_of. cbn. by erewrite write_params_slice.
  - by repeat (case_match || simplify_option_eq).
  - unfold keylog_cb in Hi. by repeat (case_match || simplify_option_eq).
Qed.

(** The three pull functions against the abstract handoff. *)
Definition pull_pair_ok {S : Type} (loc rem : S -> list byte) (p : pair_handoff) (put : pair_handoff -> handoff)
    (b : backend) (out : S) : quicz_tls_backend_status * option S * option backend -> Prop :=
  fun '(st, out', arg) => exists b', arg = Some b' /\
    match take_pair p with
    | (Some (l, r), p') => st = QUICZ_TLS_BACKEND_OK /\ handoff_of b' = put p' /\
        exists o, out' = Some o /\ slice (loc o) 0 SECRET_LEN = l /\ slice (rem o) 0 SECRET_LEN = r
    | (None, _) => st = QUICZ_TLS_BACKEND_PENDING /\ out' = Some out /\ b' = b
    end.

Definition pull_params_ok (b : backend) (out : list byte)
    : quicz_tls_backend_status * ptr * cell * option backend -> Prop :=
  fun '(st, out', n, arg) => exists b', arg = Some b' /\
    match take_params (zlen out) (handoff_of b) with
    | (st', got, h') => st = st' /\ handoff_of b' = h' /\
        match got with
        | Some ps => n = Some (zlen ps) /\ out' = Some (ps ++ zdrop (zlen ps) out)
        | None => n = Some 0 /\ out' = Some out
        end
    end.

Lemma pull_params_refines m b out : inv m b ->
  wp (quicz_openssl_tls_backend_pull_peer_transport_parameters (Some b) (Some out) (zlen out) (Some 0))
     (pull_params_ok b out).
Proof.
  intros Hinv. pose proof (i_peer _ _ Hinv).
  unfold quicz_openssl_tls_backend_pull_peer_transport_parameters, pull_params_ok, take_params, handoff_of, flagged.
  apply wp_bind, wp_ret. cbn [h_params h_params_taken].
  destruct (ctrue (peer_transport_parameters_available b)) eqn:Ea; cbn [negb orb].
  2:{ apply wp_ret. exists b. split; [done|]. by rewrite Ea. }
  destruct (ctrue (peer_transport_parameters_sent b)) eqn:Es.
  { apply wp_ret. exists b. split; [done|]. by rewrite Ea, Es. }
  rewrite zlen_slice by lia. apply wp_if; intros Hlt; rewrite Hlt.
  { apply wp_ret. exists b. split; [done|]. by rewrite Ea, Es. }
  apply wp_bind, wp_read_array; [lia..|]. apply wp_bind, wp_write_ptr; [rewrite zlen_slice; lia|].
  apply wp_bind, wp_ret, wp_ret. eexists. split; [done|]. cbn. by rewrite Ea, zlen_slice by lia.
Qed.

(** C5: traffic secrets and peer transport parameters are handed over exactly.
    In every well-formed state the callbacks and the pull functions implement
    the abstract handoff: a pull returns the last reported secret of each
    direction, byte for byte, only when both directions were reported, and
    once per report; the peer parameters are returned once per report, whole
    or not at all, and a too small buffer leaves them available. *)
Theorem adapter_handoff_refines m (b : backend) (Hinv : inv m b) :
  (forall c a b', invoke c b = Some (a, b') -> handoff_of b' = handoff_call c (handoff_of b)) /\
  (forall out, wp (quicz_openssl_tls_backend_pull_handshake_traffic_secrets (Some b) (Some out))
     (pull_pair_ok hs_local hs_peer (h_handshake (handoff_of b))
        (fun p => Handoff p (h_one_rtt (handoff_of b)) (h_params (handoff_of b)) (h_params_taken (handoff_of b))) b out)) /\
  (forall out, wp (quicz_openssl_tls_backend_pull_1rtt_traffic_secrets (Some b) (Some out))
     (pull_pair_ok ort_local ort_peer (h_one_rtt (handoff_of b))
        (fun p => Handoff (h_handshake (handoff_of b)) p (h_params (handoff_of b)) (h_params_taken (handoff_of b))) b out)) /\
  (forall out, wp (quicz_openssl_tls_backend_pull_peer_transport_parameters (Some b) (Some out) (zlen out) (Some 0))
     (pull_params_ok b out)).
Proof.
  split_and!.
  - intros c a b'. apply invoke_handoff.
  - intros out. cbn. unfold take_pair. cbn. unfold flagged. cbn.
    destruct (ctrue (handshake_local_secret_available b)) eqn:E1,
      (ctrue (handshake_peer_secret_available b)) eqn:E2, (ctrue (handshake_secrets_sent b)) eqn:E3; cbn.
    all: eexists; (split; [done|]); try done.
    split; [done|]. unfold handoff_of, flagged. cbn. rewrite E1, E2. split; [done|]. by eexists.
  - intros out. cbn. unfold take_pair. cbn. unfold flagged. cbn.
    destruct (ctrue (one_rtt_local_secret_available b)) eqn:E1,
      (ctrue (one_rtt_peer_secret_available b)) eqn:E2, (ctrue (one_rtt_secrets_sent b)) eqn:E3; cbn.
    all: eexists; (split; [done|]); try done.
    split; [done|]. unfold handoff_of, flagged. cbn. rewrite E1, E2. split; [done|]. by eexists.
  - intros out. by apply (pull_params_refines m).
Qed.

(** A read with nothing lent returns the whole level. *)
Lemma recv_all m b : inv m b -> m < INT_MAX -> loan b (read_level b) = 0 ->
  wp (crypto_recv_rcd_cb (Some b)) (fun '(r, p, n, _) =>
    r = 1 /\ n = zlen (inp b (read_level b)) /\ p = if n =? 0 then None else Some (read_level b)).
Proof.
  intros Hinv Hm Hloan. inv_cases. unfold crypto_recv_rcd_cb, INT_MAX in *.
  destruct (zget_lt (inbound_crypto_read_len b) (read_level b)) as [rd Hrdx]; [lia|].
  destruct (zget_lt (inbound_crypto_len b) (read_level b)) as [len Hlen]; [lia|].
  destruct (inp_at m b _ _ Hinv Hlen) as (arr & _ & _ & Hzl).
  unfold loan in Hloan. rewrite Hrdx in Hloan. cbn in Hloan. subst rd.
  wp_go; try lia; simplify_eq; split_and!; try done.
  - by destruct (zlen (inp b (read_level b)) =? 0).
  - lia.
Qed.

(** the protection level follows the secrets. Reporting the local (peer)
    secret of a level below 4 makes that level the target of the bytes OpenSSL
    produces (reads) next, also when the report itself is refused because the
    secret is not 32 bytes long. *)
Theorem adapter_yield_switches_level m (b : backend) level (secret buf : list byte)
    (Hinv : inv m b) (Hm : m + 2 <= INT_MAX) (Hlevel : 0 <= level < 4) :
  wp (yield_secret_cb level 1 (Some secret) (zlen secret) (Some b)) (fun '(r, arg) =>
    r = yield_result level secret /\
    wp (crypto_send_cb (Some buf) (zlen buf) (Some 0) arg) (fun '(rs, _, arg) => exists b', arg = Some b' /\
      forall L, outp b' L = outp b L ++ (if rs =? 1 then at_level L level buf else []))) /\
  wp (yield_secret_cb level 0 (Some secret) (zlen secret) (Some b)) (fun '(r, arg) =>
    r = yield_result level secret /\
    (loan b level = 0 -> wp (crypto_recv_rcd_cb arg) (fun '(rs, p, n, _) =>
       rs = 1 /\ n = zlen (inp b level) /\ p = if n =? 0 then None else Some level))).
Proof.
  pose proof (i_yield _ _ Hinv). assert ((level <? 4) = true) as Hlt by (apply Z.ltb_lt; lia).
  assert (forall dir, wp (yield_secret_cb level dir (Some secret) (zlen secret) (Some b)) (fun '(r, arg) =>
    r = yield_result level secret /\ exists b1, arg = Some b1 /\ inv (m + 1) b1 /\ effect b LOther b1 /\
      read_level b1 = switch dir 0 level (read_level b) /\ write_level b1 = switch dir 1 level (write_level b))) as Hy.
  { intros dir. pose proof (yield_wp m b level dir secret Hinv ltac:(lia) ltac:(lia)) as Hw.
    eapply wp_mono; [exact (wp_and _ _ _ Hw (yield_full level dir secret b ltac:(lia)))|].
    intros [r arg] [(_ & b1 & -> & Hi & He) (-> & b2 & E & Hr & Hwl & _)]. injection E as <-. eauto 10. }
  split; (eapply wp_mono; [apply Hy|]); intros [r arg] (-> & b1 & -> & Hi & He & Hr & Hwl); (split; [done|]).
  all: unfold switch in *; rewrite Hlt in *; cbn [andb Z.eqb Pos.eqb] in *; destruct He as (Ho & Hin & Hl).
  - eapply wp_mono; [apply (send_wp (m + 1) b1 buf Hi); lia|].
    intros [[rs n] arg] (b2 & -> & _ & [(-> & _ & He2 & _)|(-> & _ & _ & He2 & _)]); exists b2; (split; [done|]);
      intros L; rewrite He2, Ho; unfold at_level; cbn [Z.eqb]; rewrite ?app_nil_r; [|done].
    rewrite Hwl. by destruct (level =? L); rewrite ?app_nil_r.
  - intros Hloan. rewrite <- Hr, <- (proj1 Hin). apply (recv_all (m + 1)); [done|lia|]. by rewrite Hr, Hl.
Qed.

(** ** Outbound overflow *)

Lemma step_overflow b l b' : step b l b' -> outbound_crypto_overflow b = 1 -> outbound_crypto_overflow b' = 1.
Proof.
  intros Hs Ho. destruct Hs as [c a b' _ Hs|space data st b' Hs|level out st out' w b' _ Hs|b' Hq].
  - destruct c; cbn [invoke] in Hs.
    + unfold crypto_send_cb in Hs. by repeat (case_match || simplify_option_eq).
    + unfold crypto_recv_rcd_cb in Hs. by repeat (case_match || simplify_option_eq).
    + unfold crypto_release_rcd_cb in Hs. by repeat (case_match || simplify_option_eq).
    + unfold yield_secret_cb in Hs. by repeat (case_match || simplify_option_eq).
    + unfold got_transport_params_cb in Hs. by repeat (case_match || simplify_option_eq).
    + by repeat (case_match || simplify_option_eq).
    + unfold keylog_cb in Hs. by repeat (case_match || simplify_option_eq).
  - unfold quicz_openssl_tls_backend_receive in Hs. by repeat (case_match || simplify_option_eq).
  - unfold copy_pending_outbound in Hs. by repeat (case_match || simplify_option_eq).
  - destruct Hq as [| |data w w' st b' Hq|out st out' m b' Hq|o st o' b' Hq|o st o' b' Hq]; try done.
    + unfold quicz_openssl_tls_backend_set_local_transport_parameters, ext in Hq.
      by repeat (case_match || simplify_option_eq).
    + unfold quicz_openssl_tls_backend_pull_peer_transport_parameters in Hq.
      by repeat (case_match || simplify_option_eq).
    + unfold quicz_openssl_tls_backend_pull_handshake_traffic_secrets in Hq.
      by repeat (case_match || simplify_option_eq).
    + unfold quicz_openssl_tls_backend_pull_1rtt_traffic_secrets in Hq.
      by repeat (case_match || simplify_option_eq).
Qed.

Lemma steps_overflow b ls b' : steps b ls b' -> outbound_crypto_overflow b = 1 -> outbound_crypto_overflow b' = 1.
Proof. induction 1; eauto using step_overflow. Qed.

Lemma drive_overflow {S : Type} d (p : ssl_prog S) : bounded d p -> forall m b, inv m b -> m + Z.of_nat d <= INT_MAX ->
  outbound_crypto_overflow b = 1 -> wp (drive p b) (fun '(rc, s, b') => outbound_crypto_overflow b' = 1).
Proof.
  intros Hp m b Hinv Hm Ho. eapply wp_mono; [exact (drive_wp d p Hp m b Hinv Hm)|].
  intros [[rc s] b'] (ls & Hs & _). by eapply steps_overflow.
Qed.

(** an outbound overflow is final. Once OpenSSL tried to send more than a
    level can hold, every later Initial pull that finds nothing pending
    reports BUFFER_TOO_SMALL and writes nothing, however large the caller's
    buffer is and however much was drained in between: nothing clears the
    flag. *)
Theorem adapter_overflow_final c s cbs quic (pre post : list label) (b b' : backend) d (out : list byte) (w : world O)
    (Hd : forall s o, bounded d (SSL_do_handshake s o))
    (Hlen : zlen pre + zlen post + Z.of_nat d + 1 <= INT_MAX)
    (Hpre : steps (fresh_backend c (Some s) cbs quic) pre b) (Hover : outbound_crypto_overflow b = 1)
    (Hpost : steps b post b') (Hempty : outp b' OSSL_RECORD_PROTECTION_LEVEL_NONE = []) :
  wp (quicz_openssl_tls_backend_pull (Some b') QUICZ_TLS_BACKEND_INITIAL (Some out) (zlen out) (Some 0) w)
    (fun '(st, out', n, arg, _) => st = QUICZ_TLS_BACKEND_BUFFER_TOO_SMALL /\ out' = Some out /\ n = Some 0 /\
       exists b'', arg = Some b'' /\ outbound_crypto_overflow b'' = 1).
Proof.
  pose proof (zlen_nonneg pre). pose proof (zlen_nonneg post).
  pose proof (steps_app _ _ _ _ _ Hpre Hpost) as Hall.
  pose proof (steps_inv 0 _ (pre ++ post) b' (inv_init c (Some s) cbs quic)) as Hinv. rewrite zlen_app in Hinv.
  specialize (Hinv ltac:(lia) Hall). pose proof (steps_overflow _ _ _ Hpost Hover) as Ho.
  destruct (steps_handles _ _ _ Hall) as [_ Hssl]. cbn in Hssl.
  unfold quicz_openssl_tls_backend_pull. apply wp_bind, wp_ret. rewrite Hssl. cbn [packet_space_level].
  replace (packet_space_level QUICZ_TLS_BACKEND_INITIAL) with (Some OSSL_RECORD_PROTECTION_LEVEL_NONE) by done.
  apply wp_bind. eapply wp_mono; [by apply (copy_wp _ b' _ out Hinv level_none_range)|].
  intros [[[st out'] n] b1] (_ & _ & Hst). cbn beta iota.
  pose proof (zlen_nonneg out). destruct st; try done; rewrite Hempty in Hst.
  { by destruct Hst as [[Hpos _] _]. }
  2:{ destruct Hst as [Hpos _]. change (zlen out < 0) in Hpos. lia. }
  destruct Hst as (_ & -> & -> & ->).
  cbn [bool_decide decide_rel negb]. apply wp_if; [done|intros _]. apply wp_if; [lia|intros _].
  unfold pull_drive. pose proof (i_drive _ _ Hinv). apply wp_bind, wp_int_inc; [lia|].
  cbv zeta. set (b1 := b' <| handshake_drive_calls := _ |>).
  assert (inv (zlen pre + zlen post + 1) b1) as Hi. { subst b1. inv_cases. inv_solve. }
  apply wp_bind. eapply wp_mono; [by apply (drive_overflow d _ (Hd s (w_ossl w)) _ b1 Hi); [lia|]|].
  intros [[rc o] b2] Ho2. cbn beta iota. unfold ext.
  destruct (negb (rc =? 1)); [destruct (respond _ _)|]; cbn; rewrite Ho2; cbn; by eauto 10.
Qed.

(** ** Pulls that do not drive the handshake *)

(** pulls take the pending bytes whole and only an empty Initial queue
    drives OpenSSL. For every space, if bytes are pending at its level they
    are returned whole when they fit, and left in place with nothing written
    when they do not; if none are pending at the Handshake or Application
    level the answer is PENDING. In all these cases OpenSSL is not called. *)
Theorem adapter_pull_no_drive m (b : backend) space level s (out : list byte) (w : world O)
    (Hinv : inv m b) (Hssl : ssl b = Some s) (Hspace : packet_space_level space = Some level)
    (Hcase : outp b level <> [] \/ level <> OSSL_RECORD_PROTECTION_LEVEL_NONE) :
  exists st out' n b',
    quicz_openssl_tls_backend_pull (Some b) space (Some out) (zlen out) (Some 0) w = Some (st, out', n, Some b', w) /\
    if decide (outp b level = []) then st = QUICZ_TLS_BACKEND_PENDING /\ out' = Some out /\ n = Some 0 /\ b' = b
    else if zlen out <? zlen (outp b level)
    then st = QUICZ_TLS_BACKEND_BUFFER_TOO_SMALL /\ out' = Some out /\ n = Some 0 /\ b' = b
    else st = QUICZ_TLS_BACKEND_OK /\ n = Some (zlen (outp b level)) /\
      out' = Some (outp b level ++ zdrop (zlen (outp b level)) out) /\
      forall L, outp b' L = if level =? L then [] else outp b L.
Proof.
  unfold quicz_openssl_tls_backend_pull. cbn [store mbind option_bind]. rewrite Hssl, Hspace.
  pose proof (packet_space_level_range _ _ Hspace) as Hl.
  destruct (wp_elim _ _ (copy_wp m b level out Hinv Hl)) as ([[[st out'] n] b1] & E & _ & He & Hst).
  rewrite E. cbn beta iota. destruct st; try done; cbn; destruct_and!; subst.
  - eexists _, _, _, _. split; [done|]. rewrite decide_False by (intros E0; rewrite E0, zlen_nil in *; lia).
    destruct (Z.ltb_spec (zlen out) (zlen (outp b level))); [lia|]. split_and!; try done.
    cbn in He. rewrite ztake_app_all in He. by destruct He as (_ & _ & ? & _).
  - destruct (Z.eqb_spec level OSSL_RECORD_PROTECTION_LEVEL_NONE) as [->|Hne]; [by destruct Hcase|]. cbn.
    eexists _, _, _, _. split; [done|]. by rewrite decide_True.
  - eexists _, _, _, _. split; [done|]. rewrite decide_False by (intros E0; rewrite E0, zlen_nil in *; pose proof (zlen_nonneg out); lia).
    by destruct (Z.ltb_spec (zlen out) (zlen (outp b level))); [|lia].
Qed.

(** ** Local transport parameters *)

(** local transport parameters are installed once. As long as OpenSSL
    refuses them the call reports CRYPTO_ERROR and leaves the struct as it
    was, so it can be retried; the first accepted buffer is the one OpenSSL
    holds, and every later call answers OK without passing its bytes on,
    whatever they are. *)
Theorem adapter_set_local_once (b : backend) s (data data2 : list byte) (w : world O)
    (Hssl : ssl b = Some s) (Hfirst : local_transport_parameters_set b = 0) :
  let r := respond (CallSetTransportParams s data) (w_ossl w) in
  quicz_openssl_tls_backend_set_local_transport_parameters (Some b) (Some data) (zlen data) w =
    (if r.1 =? 0
     then Some (QUICZ_TLS_BACKEND_CRYPTO_ERROR, Some b, w <| w_ossl := r.2 |>)
     else Some (QUICZ_TLS_BACKEND_OK, Some (b <| local_transport_parameters_set := 1 |>
                  <| local_transport_parameters_len := zlen data |>), w <| w_ossl := r.2 |>)) /\
  forall w', quicz_openssl_tls_backend_set_local_transport_parameters
    (Some (b <| local_transport_parameters_set := 1 |> <| local_transport_parameters_len := zlen data |>))
    (Some data2) (zlen data2) w' =
    Some (QUICZ_TLS_BACKEND_OK, Some (b <| local_transport_parameters_set := 1 |>
            <| local_transport_parameters_len := zlen data |>), w').
Proof.
  cbv zeta. unfold quicz_openssl_tls_backend_set_local_transport_parameters. cbn [set_field].
  split; [|intros w'; cbn; by rewrite Hssl]. rewrite Hssl, Hfirst. cbn [ctrue negb Z.eqb].
  rewrite read_whole. cbn [mbind option_bind]. rewrite ztake_all. unfold ext, ctrue.
  by destruct (respond _ _) as [r o]; cbn; destruct (r =? 0).
Qed.

(** ** Pre-shared key *)

(** the PSK callbacks agree and stay in bounds. The client callback either
    refuses because one of OpenSSL's buffers is too small, and then writes
    nothing, or writes the NUL-terminated identity and the 32 key bytes within
    the buffers; the server callback answers exactly that identity, with the
    same key, and nothing else. *)
Theorem adapter_psk_agreement (identity psk psk2 name : list byte) :
  wp (psk_client_cb (Some identity) (zlen identity) (Some psk) (zlen psk)) (fun '(n, identity', psk') =>
    if (10 <=? zlen identity) && (32 <=? zlen psk)
    then n = 32 /\ identity' = Some (psk_identity ++ x00 :: zdrop 10 identity) /\
         psk' = Some (quicz_openssl_backend_demo_psk ++ zdrop 32 psk)
    else n = 0 /\ identity' = Some identity /\ psk' = Some psk) /\
  wp (psk_server_cb (Some name) (Some psk2) (zlen psk2)) (fun '(n, psk') =>
    if bool_decide (name = psk_identity) && (32 <=? zlen psk2)
    then n = 32 /\ psk' = Some (quicz_openssl_backend_demo_psk ++ zdrop 32 psk2)
    else n = 0 /\ psk' = Some psk2).
Proof.
  assert (zlen psk_identity = 9) as E1 by done. assert (zlen quicz_openssl_backend_demo_psk = 32) as E2 by done.
  split.
  - unfold psk_client_cb. rewrite E1, E2.
    destruct (Z.leb_spec 10 (zlen identity)), (Z.leb_spec 32 (zlen psk)); cbn [andb].
    2-4: apply wp_if; [by intros _; apply wp_ret|lia].
    apply wp_if; [lia|intros _]. apply wp_bind, wp_write_ptr; [rewrite zlen_app, E1; unfold zlen at 1; cbn; lia|].
    apply wp_bind, wp_write_ptr; [lia|]. by apply wp_ret.
  - unfold psk_server_cb. rewrite E2. destruct (bool_decide (name = psk_identity)); cbn [negb orb andb].
    2: by apply wp_ret.
    destruct (Z.leb_spec 32 (zlen psk2)).
    + apply wp_if; [lia|intros _]. apply wp_bind, wp_write_ptr; [lia|]. by apply wp_ret.
    + apply wp_if; [by intros _; apply wp_ret|lia].
Qed.

(** ** ALPN *)

(** The ProtocolNameList encoding of RFC 7301: each name is preceded by its
    length and not empty. *)
Inductive protocol_names : list byte -> list (list byte) -> Prop :=
  | names_nil : protocol_names [] []
  | names_cons len name bs names : Z.of_N (Byte.to_N len) = zlen name -> name <> [] ->
      protocol_names bs names -> protocol_names (len :: name ++ bs) (name :: names).

(** The adapter's list is not such an encoding: its prefix announces eleven
    bytes and ten follow. *)
Lemma alpn_protos_malformed names : ~ protocol_names quicz_alpn_protos names.
Proof.
  remember quicz_alpn_protos as l eqn:E. intros Hn. destruct Hn as [|len name bs names Hlen _ _]; [done|].
  injection E as -> E. apply (f_equal zlen) in E. rewrite zlen_app in E.
  change (zlen name + zlen bs = 10) in E. change (11 = zlen name) in Hlen. pose proof (zlen_nonneg bs). lia.
Qed.

End WithOpenSSL.

End AdapterProps.
