(* ===== verification/PairTranscript.v ===== *)
(** * The in-process OpenSSL pair (examples/tls_openssl_pair_transcript.c)

    A client and a server endpoint driven against each other, with the CRYPTO
    bytes of every level recorded: the endpoint struct, its callbacks, the
    handshake loop, the static buffers of the last run, the copy functions and
    the context API, one definition per C function. *)
From Stdlib Require Strings.String.
Import String.StringSyntax.
From S2P Require Import Prelude CAbi OpenSSL Adapter.
Local Open Scope Z_scope.

Module Pair.

Definition QUICZ_OPENSSL_LEVEL_COUNT : Z := 4.
Definition QUICZ_OPENSSL_CRYPTO_BUF_LEN : Z := 65536.
Definition QUICZ_OPENSSL_SECRET_LEN : Z := 32.
Definition QUICZ_OPENSSL_TRANSPORT_PARAMS_BUF_LEN : Z := 512.
Definition QUICZ_OPENSSL_SECRET_DIRECTION_COUNT : Z := 2.

(** [struct quicz_openssl_endpoint]; [in_] and [out_] are the C fields [in] and [out]. *)
Record endpoint : Type := Endpoint {
  ctx : option nat;
  ssl : option nat;
  in_ : list (list byte);
  in_len : list Z;
  in_read_len : list Z;
  out_ : list (list byte);
  out_len : list Z;
  out_total_len : list Z;
  out_history : list (list byte);
  out_history_len : list Z;
  secrets : list (list (list byte));
  secret_available : list (list Z);
  read_level : Z;
  write_level : Z;
  send_callbacks : Z;
  recv_callbacks : Z;
  release_callbacks : Z;
  yield_secret_callbacks : Z;
  got_transport_params_callbacks : Z;
  peer_transport_parameters : list byte;
  peer_transport_parameters_len : Z;
  keylog_callbacks : Z;
  keylog_bytes : Z;
  alert_callbacks : Z;
  last_alert : Z;
  handshake_done : Z;
  last_ssl_error : Z;
  local_transport_parameters : list byte;
  local_transport_parameters_len : Z;
}.

#[export] Instance eta_endpoint : Eta endpoint := fun e => Endpoint
  (ctx e) (ssl e) (in_ e) (in_len e) (in_read_len e) (out_ e) (out_len e) (out_total_len e)
  (out_history e) (out_history_len e) (secrets e) (secret_available e) (read_level e) (write_level e)
  (send_callbacks e) (recv_callbacks e) (release_callbacks e) (yield_secret_callbacks e)
  (got_transport_params_callbacks e) (peer_transport_parameters e) (peer_transport_parameters_len e)
  (keylog_callbacks e) (keylog_bytes e) (alert_callbacks e) (last_alert e) (handshake_done e)
  (last_ssl_error e) (local_transport_parameters e) (local_transport_parameters_len e).

Definition no_bufs : list (list byte) := [[]; []; []; []].
Definition no_lens : list Z := [0; 0; 0; 0].
Definition no_secrets : list (list (list byte)) := [[[]; []]; [[]; []]; [[]; []]; [[]; []]].
Definition none_available : list (list Z) := [[0; 0]; [0; 0]; [0; 0]; [0; 0]].

(** The struct after [memset] to zero or [calloc]. *)
Definition zero_endpoint : endpoint := Endpoint
  None None no_bufs no_lens no_lens no_bufs no_lens no_lens no_bufs no_lens no_secrets none_available
  0 0 0 0 0 0 0 [] 0 0 0 0 0 0 0 [] 0.

(** The file's static variables. *)
Record globals : Type := Globals {
  last_client_crypto : list (list byte);
  last_client_crypto_len : list Z;
  last_server_crypto : list (list byte);
  last_server_crypto_len : list Z;
  last_client_peer_transport_parameters : list byte;
  last_client_peer_transport_parameters_len : Z;
  last_server_peer_transport_parameters : list byte;
  last_server_peer_transport_parameters_len : Z;
  last_client_secrets : list (list (list byte));
  last_client_secret_available : list (list Z);
  last_server_secrets : list (list (list byte));
  last_server_secret_available : list (list Z);
  configured_client_transport_parameters : list byte;
  configured_client_transport_parameters_len : Z;
  configured_server_transport_parameters : list byte;
  configured_server_transport_parameters_len : Z;
  transport_parameters_configured : Z;
}.

#[export] Instance eta_globals : Eta globals := fun g => Globals
  (last_client_crypto g) (last_client_crypto_len g) (last_server_crypto g) (last_server_crypto_len g)
  (last_client_peer_transport_parameters g) (last_client_peer_transport_parameters_len g)
  (last_server_peer_transport_parameters g) (last_server_peer_transport_parameters_len g)
  (last_client_secrets g) (last_client_secret_available g)
  (last_server_secrets g) (last_server_secret_available g)
  (configured_client_transport_parameters g) (configured_client_transport_parameters_len g)
  (configured_server_transport_parameters g) (configured_server_transport_parameters_len g)
  (transport_parameters_configured g).

Definition init_globals : globals := Globals
  no_bufs no_lens no_bufs no_lens [] 0 [] 0 no_secrets none_available no_secrets none_available [] 0 [] 0 0.

Definition quicz_openssl_demo_psk : list byte :=
  [x00; x01; x02; x03; x04; x05; x06; x07; x08; x09; x0a; x0b; x0c; x0d; x0e; x0f;
   x10; x11; x12; x13; x14; x15; x16; x17; x18; x19; x1a; x1b; x1c; x1d; x1e; x1f].

(** Two-dimensional arrays. *)
Definition zget2 {A : Type} (l : list (list A)) (i j : Z) : option A := r ← zget l i; zget r j.
Definition zset2 {A : Type} (l : list (list A)) (i j : Z) (x : A) : list (list A) :=
  match zget l i with Some r => zset l i (zset r j x) | None => l end.

(** [for (i = start; n more times; i += 1) body], where the body has no [break]. *)
Fixpoint for_range {S : Type} (n : nat) (i : Z) (body : Z -> S -> option S) (s : S) : option S :=
  match n with
  | 0%nat => Some s
  | Datatypes.S n => s ← body i s; for_range n (i + 1) body s
  end.

(** ** QUIC-TLS callbacks *)

Definition crypto_send_cb (buf : ptr) (buf_len : Z) (consumed : cell) (arg : option endpoint)
    : option (Z * cell * option endpoint) :=
  match arg with
  | None => Some (0, consumed, arg)
  | Some e =>
      if write_level e >=? QUICZ_OPENSSL_LEVEL_COUNT then Some (0, consumed, arg) else
      olen ← zget (out_len e) (write_level e);
      hlen ← zget (out_history_len e) (write_level e);
      if (buf_len >? usub64 QUICZ_OPENSSL_CRYPTO_BUF_LEN olen) ||
         (buf_len >? usub64 QUICZ_OPENSSL_CRYPTO_BUF_LEN hlen) then Some (0, consumed, arg) else
      arr ← zget (out_ e) (write_level e);
      bs ← read_ptr buf buf_len;
      arr ← write_array QUICZ_OPENSSL_CRYPTO_BUF_LEN arr olen bs;
      tlen ← zget (out_total_len e) (write_level e);
      hist ← zget (out_history e) (write_level e);
      hist ← write_array QUICZ_OPENSSL_CRYPTO_BUF_LEN hist hlen bs;
      cnt ← int_inc (send_callbacks e);
      consumed ← store consumed buf_len;
      Some (1, consumed, Some
        (e <| out_ := zset (out_ e) (write_level e) arr |>
           <| out_len := zset (out_len e) (write_level e) (uadd64 olen buf_len) |>
           <| out_total_len := zset (out_total_len e) (write_level e) (uadd64 tlen buf_len) |>
           <| out_history := zset (out_history e) (write_level e) hist |>
           <| out_history_len := zset (out_history_len e) (write_level e) (uadd64 hlen buf_len) |>
           <| send_callbacks := cnt |>))
  end.

(** [*buf] is [Some level] when it points at [in[level]]. *)
Definition crypto_recv_rcd_cb (arg : option endpoint) : option (Z * option Z * Z * option endpoint) :=
  match arg with
  | None => Some (1, None, 0, arg)
  | Some e =>
      if read_level e >=? QUICZ_OPENSSL_LEVEL_COUNT then Some (1, None, 0, arg) else
      rd ← zget (in_read_len e) (read_level e);
      if negb (rd =? 0) then Some (1, None, 0, arg) else
      cnt ← int_inc (recv_callbacks e);
      let e := e <| recv_callbacks := cnt |> in
      len ← zget (in_len e) (read_level e);
      if len =? 0 then Some (1, None, 0, Some e) else
      Some (1, Some (read_level e), len,
            Some (e <| in_read_len := zset (in_read_len e) (read_level e) len |>))
  end.

Definition crypto_release_rcd_cb (bytes_read : Z) (arg : option endpoint) : option (Z * option endpoint) :=
  match arg with
  | None => Some (0, arg)
  | Some e =>
      if read_level e >=? QUICZ_OPENSSL_LEVEL_COUNT then Some (0, arg) else
      rd ← zget (in_read_len e) (read_level e);
      if bytes_read >? rd then Some (0, arg) else
      e ← (if bytes_read <? rd then
             let remaining := usub64 rd bytes_read in
             arr ← zget (in_ e) (read_level e);
             moved ← read_array QUICZ_OPENSSL_CRYPTO_BUF_LEN arr bytes_read remaining;
             arr ← write_array QUICZ_OPENSSL_CRYPTO_BUF_LEN arr 0 moved;
             Some (e <| in_ := zset (in_ e) (read_level e) arr |>
                     <| in_len := zset (in_len e) (read_level e) remaining |>)
           else Some (e <| in_len := zset (in_len e) (read_level e) 0 |>));
      cnt ← int_inc (release_callbacks e);
      Some (1, Some (e <| in_read_len := zset (in_read_len e) (read_level e) 0 |>
                       <| release_callbacks := cnt |>))
  end.

Definition yield_secret_cb (prot_level direction : Z) (secret : ptr) (secret_len : Z) (arg : option endpoint)
    : option (Z * option endpoint) :=
  match arg with
  | None => Some (0, arg)
  | Some e =>
      if prot_level >=? QUICZ_OPENSSL_LEVEL_COUNT then Some (0, arg) else
      let e := if direction =? 0 then e <| read_level := prot_level |>
               else if direction =? 1 then e <| write_level := prot_level |>
               else e in
      e ← (if ((direction =? 0) || (direction =? 1)) && (secret_len =? QUICZ_OPENSSL_SECRET_LEN) then
             arr ← zget2 (secrets e) prot_level direction;
             bs ← read_ptr secret secret_len;
             arr ← write_array QUICZ_OPENSSL_SECRET_LEN arr 0 bs;
             _ ← zget2 (secret_available e) prot_level direction;
             Some (e <| secrets := zset2 (secrets e) prot_level direction arr |>
                     <| secret_available := zset2 (secret_available e) prot_level direction 1 |>)
           else Some e);
      cnt ← int_inc (yield_secret_callbacks e);
      Some (1, Some (e <| yield_secret_callbacks := cnt |>))
  end.

Definition got_transport_params_cb (params : ptr) (params_len : Z) (arg : option endpoint)
    : option (Z * option endpoint) :=
  match arg with
  | None => Some (0, arg)
  | Some e =>
      if (params_len >? 0) && bool_decide (params = None) ||
         (params_len >? QUICZ_OPENSSL_TRANSPORT_PARAMS_BUF_LEN) then Some (0, arg) else
      e ← (if params_len >? 0 then
             bs ← read_ptr params params_len;
             arr ← write_array QUICZ_OPENSSL_TRANSPORT_PARAMS_BUF_LEN (peer_transport_parameters e) 0 bs;
             Some (e <| peer_transport_parameters := arr |>)
           else Some e);
      cnt ← int_inc (got_transport_params_callbacks e);
      Some (1, Some (e <| peer_transport_parameters_len := params_len |>
                       <| got_transport_params_callbacks := cnt |>))
  end.

Definition keylog_cb (app_data : option endpoint) (line : ptr) : option (option endpoint) :=
  match app_data, line with
  | Some e, Some l =>
      cnt ← int_inc (keylog_callbacks e);
      Some (Some (e <| keylog_callbacks := cnt |>
                    <| keylog_bytes := uadd64 (keylog_bytes e) (zlen l) |>))
  | _, _ => Some app_data
  end.

Definition alert_cb (alert_code : Z) (arg : option endpoint) : option (Z * option endpoint) :=
  match arg with
  | None => Some (0, arg)
  | Some e =>
      cnt ← int_inc (alert_callbacks e);
      Some (1, Some (e <| alert_callbacks := cnt |> <| last_alert := alert_code |>))
  end.

Section WithHeaders.
Context {H : OpenSSLHeaders}.

Definition quicz_openssl_tls_dispatch : list (Z * Adapter.callback) :=
  [(OSSL_FUNC_SSL_QUIC_TLS_CRYPTO_SEND, Adapter.CbCryptoSend);
   (OSSL_FUNC_SSL_QUIC_TLS_CRYPTO_RECV_RCD, Adapter.CbCryptoRecv);
   (OSSL_FUNC_SSL_QUIC_TLS_CRYPTO_RELEASE_RCD, Adapter.CbCryptoRelease);
   (OSSL_FUNC_SSL_QUIC_TLS_YIELD_SECRET, Adapter.CbYieldSecret);
   (OSSL_FUNC_SSL_QUIC_TLS_GOT_TRANSPORT_PARAMS, Adapter.CbGotParams);
   (OSSL_FUNC_SSL_QUIC_TLS_ALERT, Adapter.CbAlert);
   (0, Adapter.CbNull)].

(** The identifier of the callback OpenSSL looks up for a call. *)
Definition call_id (c : tls_call) : option Z :=
  match c with
  | TCryptoSend _ => Some OSSL_FUNC_SSL_QUIC_TLS_CRYPTO_SEND
  | TCryptoRecv => Some OSSL_FUNC_SSL_QUIC_TLS_CRYPTO_RECV_RCD
  | TCryptoRelease _ => Some OSSL_FUNC_SSL_QUIC_TLS_CRYPTO_RELEASE_RCD
  | TYieldSecret _ _ _ => Some OSSL_FUNC_SSL_QUIC_TLS_YIELD_SECRET
  | TGotTransportParams _ => Some OSSL_FUNC_SSL_QUIC_TLS_GOT_TRANSPORT_PARAMS
  | TAlert _ => Some OSSL_FUNC_SSL_QUIC_TLS_ALERT
  | TKeylog _ => None
  end.

(** OpenSSL calls the function its dispatch table holds; the key log callback
    is registered on its own. *)
Definition invoke (c : tls_call) (e : endpoint) : option (tls_answer * endpoint) :=
  match c, id ← call_id c; Adapter.find_dispatch quicz_openssl_tls_dispatch id with
  | TCryptoSend buf, Some Adapter.CbCryptoSend =>
      '(r, consumed, arg) ← crypto_send_cb (Some buf) (zlen buf) (Some 0) (Some e);
      e ← arg; Some (Answer r (default 0 consumed) [], e)
  | TCryptoRecv, Some Adapter.CbCryptoRecv =>
      '(r, p, n, arg) ← crypto_recv_rcd_cb (Some e);
      e ← arg;
      bs ← (match p with
            | None => Some []
            | Some level => arr ← zget (in_ e) level; read_array QUICZ_OPENSSL_CRYPTO_BUF_LEN arr 0 n
            end);
      Some (Answer r n bs, e)
  | TCryptoRelease n, Some Adapter.CbCryptoRelease =>
      '(r, arg) ← crypto_release_rcd_cb n (Some e); e ← arg; Some (Answer r 0 [], e)
  | TYieldSecret level dir secret, Some Adapter.CbYieldSecret =>
      '(r, arg) ← yield_secret_cb level dir (Some secret) (zlen secret) (Some e);
      e ← arg; Some (Answer r 0 [], e)
  | TGotTransportParams params, Some Adapter.CbGotParams =>
      '(r, arg) ← got_transport_params_cb (Some params) (zlen params) (Some e);
      e ← arg; Some (Answer r 0 [], e)
  | TAlert code, Some Adapter.CbAlert =>
      '(r, arg) ← alert_cb code (Some e); e ← arg; Some (Answer r 0 [], e)
  | TKeylog line, _ => arg ← keylog_cb (Some e) line; e ← arg; Some (Answer 0 0 [], e)
  | _, _ => None
  end.

(** One [SSL_do_handshake] with the endpoint's callbacks installed. *)
Fixpoint drive {S : Type} (p : ssl_prog S) (e : endpoint) : option (Z * S * endpoint) :=
  match p with
  | PDone rc s => Some (rc, s, e)
  | PCall c k => '(a, e) ← invoke c e; drive (k a) e
  end.

(** ** PSK callbacks *)

Definition psk_identity : list byte := String.list_byte_of_string "quicz-psk".

Definition psk_client_cb (identity : ptr) (max_identity_len : Z) (psk : ptr) (max_psk_len : Z)
    : option (Z * ptr * ptr) :=
  if (zlen psk_identity + 1 >? max_identity_len) || (zlen quicz_openssl_demo_psk >? max_psk_len)
  then Some (0, identity, psk) else
  identity ← write_ptr identity (psk_identity ++ [x00]);
  psk ← write_ptr psk quicz_openssl_demo_psk;
  Some (zlen quicz_openssl_demo_psk, identity, psk).

Definition psk_server_cb (identity : ptr) (psk : ptr) (max_psk_len : Z) : option (Z * ptr) :=
  match identity with
  | None => Some (0, psk)
  | Some name =>
      if negb (bool_decide (name = psk_identity)) || (zlen quicz_openssl_demo_psk >? max_psk_len)
      then Some (0, psk) else
      psk ← write_ptr psk quicz_openssl_demo_psk;
      Some (zlen quicz_openssl_demo_psk, psk)
  end.

(** ** Configuration *)

Definition quicz_openssl_pair_transcript_configure_transport_parameters
    (client_params : ptr) (client_params_len : Z) (server_params : ptr) (server_params_len : Z)
    (g : globals) : option (Z * globals) :=
  if (client_params_len >? 0) && bool_decide (client_params = None) ||
     (server_params_len >? 0) && bool_decide (server_params = None) ||
     (client_params_len >? QUICZ_OPENSSL_TRANSPORT_PARAMS_BUF_LEN) ||
     (server_params_len >? QUICZ_OPENSSL_TRANSPORT_PARAMS_BUF_LEN) then Some (0, g) else
  let g := g <| configured_client_transport_parameters := [] |>
             <| configured_server_transport_parameters := [] |> in
  g ← (if client_params_len >? 0 then
         bs ← read_ptr client_params client_params_len;
         arr ← write_array QUICZ_OPENSSL_TRANSPORT_PARAMS_BUF_LEN (configured_client_transport_parameters g) 0 bs;
         Some (g <| configured_client_transport_parameters := arr |>)
       else Some g);
  g ← (if server_params_len >? 0 then
         bs ← read_ptr server_params server_params_len;
         arr ← write_array QUICZ_OPENSSL_TRANSPORT_PARAMS_BUF_LEN (configured_server_transport_parameters g) 0 bs;
         Some (g <| configured_server_transport_parameters := arr |>)
       else Some g);
  Some (1, g <| configured_client_transport_parameters_len := client_params_len |>
             <| configured_server_transport_parameters_len := server_params_len |>
             <| transport_parameters_configured := 1 |>).

Definition client_transport_parameters : list byte :=
  [x0f; x04; x21; x22; x23; x24; x04; x02; x60; x00; x05; x02; x48; x00; x06; x02; x48; x00; x08; x01; x08].

Definition server_transport_parameters : list byte :=
  [x00; x08; x83; x94; xc8; xf0; x3e; x51; x57; x08; x0f; x04; x31; x32; x33; x34;
   x04; x02; x60; x00; x05; x02; x48; x00; x06; x02; x48; x00; x08; x01; x08].

(** The parameters [init_endpoint] picks, with their length. *)
Definition pick_transport_parameters (g : globals) (is_client : bool) : list byte * Z :=
  if ctrue (transport_parameters_configured g) then
    if is_client then (configured_client_transport_parameters g, configured_client_transport_parameters_len g)
    else (configured_server_transport_parameters g, configured_server_transport_parameters_len g)
  else if is_client then (client_transport_parameters, zlen client_transport_parameters)
  else (server_transport_parameters, zlen server_transport_parameters).

Context {O : OpenSSL}.

(** A pointer to an endpoint: [NULL], or its address and the struct. *)
Definition endpoint_ptr : Type := option (nat * endpoint).

Definition free_endpoint (e : endpoint_ptr) (w : world O) : option (world O) :=
  match e with
  | None => Some w
  | Some (addr, e) =>
      w ← ext_free KSsl (ssl e) w;
      w ← ext_free KCtx (ctx e) w;
      ext_free KMem (Some addr) w
  end.

(** The four configuration calls of [init_endpoint], up to the first that fails. *)
Definition init_ctx (c : nat) (w : world O) : bool * world O :=
  let '(r, w) := ext (CallSetMinProto c TLS1_3_VERSION) w in
  if negb (ctrue r) then (false, w) else
  let '(r, w) := ext (CallSetMaxProto c TLS1_3_VERSION) w in
  if negb (ctrue r) then (false, w) else
  let '(r, w) := ext (CallSetCipherList c (String.list_byte_of_string "PSK")) w in
  if negb (ctrue r) then (false, w) else
  let '(r, w) := ext (CallSetCiphersuites c (String.list_byte_of_string "TLS_AES_128_GCM_SHA256")) w in
  (ctrue r, w).

Definition init_endpoint (g : globals) (is_client : bool) (w : world O) : option (Z * endpoint * world O) :=
  let '(params, params_len) := pick_transport_parameters g is_client in
  let e := zero_endpoint in
  if params_len >? QUICZ_OPENSSL_TRANSPORT_PARAMS_BUF_LEN then Some (0, e, w) else
  bs ← read_array QUICZ_OPENSSL_TRANSPORT_PARAMS_BUF_LEN params 0 params_len;
  arr ← write_array QUICZ_OPENSSL_TRANSPORT_PARAMS_BUF_LEN (local_transport_parameters e) 0 bs;
  let e := e <| local_transport_parameters := arr |> <| local_transport_parameters_len := params_len |> in
  let '(c, w) := ext_new KCtx (CallCtxNew is_client) w in
  let e := e <| ctx := c |> in
  match c with
  | None => Some (0, e, w)
  | Some c =>
      let '(ok, w) := init_ctx c w in
      if negb ok then Some (0, e, w) else
      let '(_, w) := ext (CallSetPskClient c) w in
      let '(_, w) := ext (CallSetPskServer c) w in
      let '(s, w) := ext_new KSsl (CallSslNew c) w in
      let e := e <| ssl := s |> in
      match s with
      | None => Some (0, e, w)
      | Some s =>
          let '(_, w) := ext (CallSetAppData s) w in
          let '(_, w) := ext (CallSetKeylog c) w in
          let '(r, w) := ext (CallSetQuicCbs s) w in
          if negb (ctrue r) then Some (0, e, w) else
          local ← read_array QUICZ_OPENSSL_TRANSPORT_PARAMS_BUF_LEN (local_transport_parameters e) 0
                    (local_transport_parameters_len e);
          let '(r, w) := ext (CallSetTransportParams s local) w in
          if negb (ctrue r) then Some (0, e, w) else
          let '(_, w) := if is_client then ext (CallSetConnectState s) w
                         else ext (CallSetAcceptState s) w in
          Some (1, e, w)
      end
  end.

(** ** Moving bytes and driving *)

(** The loop of [pump_crypto] from [level] on, [n] levels to go. *)
Fixpoint pump_levels (n : nat) (level : Z) (from to : endpoint) : option (Z * endpoint * endpoint) :=
  match n with
  | 0%nat => Some (1, from, to)
  | S n =>
      olen ← zget (out_len from) level;
      if olen =? 0 then pump_levels n (level + 1) from to else
      ilen ← zget (in_len to) level;
      if olen >? usub64 QUICZ_OPENSSL_CRYPTO_BUF_LEN ilen then Some (0, from, to) else
      src ← zget (out_ from) level;
      bs ← read_array QUICZ_OPENSSL_CRYPTO_BUF_LEN src 0 olen;
      dst ← zget (in_ to) level;
      dst ← write_array QUICZ_OPENSSL_CRYPTO_BUF_LEN dst ilen bs;
      pump_levels n (level + 1)
        (from <| out_len := zset (out_len from) level 0 |>)
        (to <| in_ := zset (in_ to) level dst |> <| in_len := zset (in_len to) level (uadd64 ilen olen) |>)
  end.

Definition pump_crypto (from to : endpoint) : option (Z * endpoint * endpoint) :=
  pump_levels (Z.to_nat QUICZ_OPENSSL_LEVEL_COUNT) 0 from to.

Definition drive_handshake (e : endpoint) (w : world O) : option (endpoint * world O) :=
  s ← ssl e;
  '(rc, o, e) ← drive (SSL_do_handshake s (w_ossl w)) e;
  let w := w <| w_ossl := o |> in
  if rc =? 1 then Some (e <| handshake_done := 1 |> <| last_ssl_error := SSL_ERROR_NONE |>, w) else
  let '(err, w) := ext (CallGetError s rc) w in
  Some (e <| last_ssl_error := err |>, w).

(** ** Results *)

Record quicz_openssl_pair_transcript_result : Type := Result {
  initialized : Z;
  client_done : Z;
  server_done : Z;
  client_send_callbacks : Z;
  server_send_callbacks : Z;
  client_recv_callbacks : Z;
  server_recv_callbacks : Z;
  client_release_callbacks : Z;
  server_release_callbacks : Z;
  client_yield_secret_callbacks : Z;
  server_yield_secret_callbacks : Z;
  client_got_transport_params_callbacks : Z;
  server_got_transport_params_callbacks : Z;
  client_peer_transport_parameters_len : Z;
  server_peer_transport_parameters_len : Z;
  client_keylog_callbacks : Z;
  server_keylog_callbacks : Z;
  client_keylog_bytes : Z;
  server_keylog_bytes : Z;
  client_alert_callbacks : Z;
  server_alert_callbacks : Z;
  client_last_alert : Z;
  server_last_alert : Z;
  client_last_ssl_error : Z;
  server_last_ssl_error : Z;
  client_read_level : Z;
  server_read_level : Z;
  client_write_level : Z;
  server_write_level : Z;
  drive_iterations : Z;
  error_queue_code : Z;
  client_out_level_bytes : list Z;
  server_out_level_bytes : list Z;
}.

#[export] Instance eta_result : Eta quicz_openssl_pair_transcript_result := fun r => Result
  (initialized r) (client_done r) (server_done r) (client_send_callbacks r) (server_send_callbacks r)
  (client_recv_callbacks r) (server_recv_callbacks r) (client_release_callbacks r) (server_release_callbacks r)
  (client_yield_secret_callbacks r) (server_yield_secret_callbacks r)
  (client_got_transport_params_callbacks r) (server_got_transport_params_callbacks r)
  (client_peer_transport_parameters_len r) (server_peer_transport_parameters_len r)
  (client_keylog_callbacks r) (server_keylog_callbacks r) (client_keylog_bytes r) (server_keylog_bytes r)
  (client_alert_callbacks r) (server_alert_callbacks r) (client_last_alert r) (server_last_alert r)
  (client_last_ssl_error r) (server_last_ssl_error r) (client_read_level r) (server_read_level r)
  (client_write_level r) (server_write_level r) (drive_iterations r) (error_queue_code r)
  (client_out_level_bytes r) (server_out_level_bytes r).

Definition zero_result : quicz_openssl_pair_transcript_result := Result
  0 0 0 0 0 0 0 0 0 0 0 0 0 0 0 0 0 0 0 0 0 0 0 0 0 0 0 0 0 0 0 no_lens no_lens.

(** [result->*_out_level_bytes[level] = *->out_total_len[level]] for every level. *)
Definition copy_level_bytes (src dst : list Z) : option (list Z) :=
  for_range (Z.to_nat QUICZ_OPENSSL_LEVEL_COUNT) 0
    (fun level dst => n ← zget src level; Some (zset dst level n)) dst.

Definition copy_result_endpoint (r : quicz_openssl_pair_transcript_result) (client server : endpoint)
    : option quicz_openssl_pair_transcript_result :=
  let r := r
    <| client_done := handshake_done client |> <| server_done := handshake_done server |>
    <| client_send_callbacks := send_callbacks client |> <| server_send_callbacks := send_callbacks server |>
    <| client_recv_callbacks := recv_callbacks client |> <| server_recv_callbacks := recv_callbacks server |>
    <| client_release_callbacks := release_callbacks client |>
    <| server_release_callbacks := release_callbacks server |>
    <| client_yield_secret_callbacks := yield_secret_callbacks client |>
    <| server_yield_secret_callbacks := yield_secret_callbacks server |>
    <| client_got_transport_params_callbacks := got_transport_params_callbacks client |>
    <| server_got_transport_params_callbacks := got_transport_params_callbacks server |>
    <| client_peer_transport_parameters_len := peer_transport_parameters_len client |>
    <| server_peer_transport_parameters_len := peer_transport_parameters_len server |>
    <| client_keylog_callbacks := keylog_callbacks client |> <| server_keylog_callbacks := keylog_callbacks server |>
    <| client_keylog_bytes := keylog_bytes client |> <| server_keylog_bytes := keylog_bytes server |>
    <| client_alert_callbacks := alert_callbacks client |> <| server_alert_callbacks := alert_callbacks server |>
    <| client_last_alert := last_alert client |> <| server_last_alert := last_alert server |>
    <| client_last_ssl_error := last_ssl_error client |> <| server_last_ssl_error := last_ssl_error server |>
    <| client_read_level := read_level client |> <| server_read_level := read_level server |>
    <| client_write_level := write_level client |> <| server_write_level := write_level server |> in
  c ← copy_level_bytes (out_total_len client) (client_out_level_bytes r);
  s ← copy_level_bytes (out_total_len server) (server_out_level_bytes r);
  Some (r <| client_out_level_bytes := c |> <| server_out_level_bytes := s |>).

(** [memcpy(bufs[level], history[level], len[level])] and its length, for one level. *)
Definition copy_history_level (e : endpoint) (level : Z) (bufs : list (list byte)) (lens : list Z)
    : option (list (list byte) * list Z) :=
  n ← zget (out_history_len e) level;
  src ← zget (out_history e) level;
  bs ← read_array QUICZ_OPENSSL_CRYPTO_BUF_LEN src 0 n;
  dst ← zget bufs level;
  dst ← write_array QUICZ_OPENSSL_CRYPTO_BUF_LEN dst 0 bs;
  Some (zset bufs level dst, zset lens level n).

Definition copy_last_crypto (client server : endpoint) (g : globals) : option globals :=
  let g := g <| last_client_crypto_len := no_lens |> <| last_server_crypto_len := no_lens |> in
  for_range (Z.to_nat QUICZ_OPENSSL_LEVEL_COUNT) 0 (fun level g =>
    '(bufs, lens) ← copy_history_level client level (last_client_crypto g) (last_client_crypto_len g);
    let g := g <| last_client_crypto := bufs |> <| last_client_crypto_len := lens |> in
    '(bufs, lens) ← copy_history_level server level (last_server_crypto g) (last_server_crypto_len g);
    Some (g <| last_server_crypto := bufs |> <| last_server_crypto_len := lens |>)) g.

Definition copy_last_transport_parameters (client server : endpoint) (g : globals) : option globals :=
  let g := g <| last_client_peer_transport_parameters := [] |>
             <| last_server_peer_transport_parameters := [] |>
             <| last_client_peer_transport_parameters_len := peer_transport_parameters_len client |>
             <| last_server_peer_transport_parameters_len := peer_transport_parameters_len server |> in
  bs ← read_array QUICZ_OPENSSL_TRANSPORT_PARAMS_BUF_LEN (peer_transport_parameters client) 0
         (peer_transport_parameters_len client);
  arr ← write_array QUICZ_OPENSSL_TRANSPORT_PARAMS_BUF_LEN (last_client_peer_transport_parameters g) 0 bs;
  let g := g <| last_client_peer_transport_parameters := arr |> in
  bs ← read_array QUICZ_OPENSSL_TRANSPORT_PARAMS_BUF_LEN (peer_transport_parameters server) 0
         (peer_transport_parameters_len server);
  arr ← write_array QUICZ_OPENSSL_TRANSPORT_PARAMS_BUF_LEN (last_server_peer_transport_parameters g) 0 bs;
  Some (g <| last_server_peer_transport_parameters := arr |>).

(** One endpoint's part of the loop body of [copy_last_secrets]. *)
Definition copy_available_secret (e : endpoint) (level direction : Z)
    (sv : list (list (list byte)) * list (list Z)) : option (list (list (list byte)) * list (list Z)) :=
  let '(secs, avail) := sv in
  a ← zget2 (secret_available e) level direction;
  if ctrue a then
    src ← zget2 (secrets e) level direction;
    bs ← read_array QUICZ_OPENSSL_SECRET_LEN src 0 QUICZ_OPENSSL_SECRET_LEN;
    dst ← zget2 secs level direction;
    dst ← write_array QUICZ_OPENSSL_SECRET_LEN dst 0 bs;
    _ ← zget2 avail level direction;
    Some (zset2 secs level direction dst, zset2 avail level direction 1)
  else Some (secs, avail).

Definition copy_last_secrets (client server : endpoint) (g : globals) : option globals :=
  let g := g <| last_client_secret_available := none_available |>
             <| last_server_secret_available := none_available |> in
  for_range (Z.to_nat QUICZ_OPENSSL_LEVEL_COUNT) 0 (fun level =>
    for_range (Z.to_nat QUICZ_OPENSSL_SECRET_DIRECTION_COUNT) 0 (fun direction g =>
      '(secs, avail) ← copy_available_secret client level direction
                         (last_client_secrets g, last_client_secret_available g);
      let g := g <| last_client_secrets := secs |> <| last_client_secret_available := avail |> in
      '(secs, avail) ← copy_available_secret server level direction
                         (last_server_secrets g, last_server_secret_available g);
      Some (g <| last_server_secrets := secs |> <| last_server_secret_available := avail |>))) g.

(** ** The handshake run *)

(** The [for] loop of [run], [n] iterations to go; the last component is
    [result.drive_iterations]. *)
Fixpoint run_loop (n : nat) (iteration : Z) (client server : endpoint) (w : world O) (iterations : Z)
    : option (endpoint * endpoint * world O * Z) :=
  match n with
  | 0%nat => Some (client, server, w, iterations)
  | S n =>
      if ctrue (handshake_done client) && ctrue (handshake_done server)
      then Some (client, server, w, iterations) else
      '(client, w) ← drive_handshake client w;
      '(r, client, server) ← pump_crypto client server;
      if negb (ctrue r) then Some (client, server, w, iterations) else
      '(server, w) ← drive_handshake server w;
      '(r, server, client) ← pump_crypto server client;
      if negb (ctrue r) then Some (client, server, w, iterations) else
      run_loop n (iteration + 1) client server w (iteration + 1)
  end.

Definition reset_last (g : globals) : globals :=
  g <| last_client_crypto_len := no_lens |> <| last_server_crypto_len := no_lens |>
    <| last_client_peer_transport_parameters := [] |> <| last_server_peer_transport_parameters := [] |>
    <| last_client_peer_transport_parameters_len := 0 |> <| last_server_peer_transport_parameters_len := 0 |>
    <| last_client_secret_available := none_available |> <| last_server_secret_available := none_available |>.

(** [!init_endpoint(client, 1) || !init_endpoint(server, 0)]: the server is
    only initialised after the client. *)
Definition init_pair (g : globals) (client server : endpoint) (w : world O)
    : option (bool * endpoint * endpoint * world O) :=
  '(r, client, w) ← init_endpoint g true w;
  if negb (ctrue r) then Some (false, client, server, w) else
  '(r, server, w) ← init_endpoint g false w;
  Some (ctrue r, client, server, w).

Definition quicz_openssl_pair_transcript_run (g : globals) (w : world O)
    : option (quicz_openssl_pair_transcript_result * globals * world O) :=
  let result := zero_result in
  let g := reset_last g in
  let '(client, w) := ext_new KMem CallCalloc w in
  let '(server, w) := ext_new KMem CallCalloc w in
  match client, server with
  | Some ca, Some sa =>
      '(ok, client, server, w) ← init_pair g zero_endpoint zero_endpoint w;
      if negb ok then
        let '(code, w) := ext CallErrPeek w in
        w ← free_endpoint (Some (ca, client)) w;
        w ← free_endpoint (Some (sa, server)) w;
        Some (result <| error_queue_code := code |>, g, w)
      else
      let result := result <| initialized := 1 |> in
      '(client, server, w, iterations) ← run_loop 80 0 client server w (drive_iterations result);
      result ← copy_result_endpoint (result <| drive_iterations := iterations |>) client server;
      g ← copy_last_crypto client server g;
      g ← copy_last_transport_parameters client server g;
      g ← copy_last_secrets client server g;
      let '(code, w) := ext CallErrPeek w in
      w ← free_endpoint (Some (ca, client)) w;
      w ← free_endpoint (Some (sa, server)) w;
      Some (result <| error_queue_code := code |>, g, w)
  | _, _ =>
      w ← free_endpoint ((fun a => (a, zero_endpoint)) <$> client) w;
      w ← free_endpoint ((fun a => (a, zero_endpoint)) <$> server) w;
      Some (result, g, w)
  end.

(** ** Copying the last run *)

Definition copy_crypto_level (history : list (list byte)) (history_len : list Z) (level : Z)
    (out : ptr) (out_len : Z) (written_len : cell) : option (Z * ptr * cell) :=
  if bool_decide (written_len = None) || (level <? 0) || (level >=? QUICZ_OPENSSL_LEVEL_COUNT)
  then Some (0, out, written_len) else
  written_len ← store written_len 0;
  level_len ← zget history_len level;
  if level_len >? out_len then Some (0, out, written_len) else
  if negb (level_len =? 0) && bool_decide (out = None) then Some (0, out, written_len) else
  src ← zget history level;
  bs ← read_array QUICZ_OPENSSL_CRYPTO_BUF_LEN src 0 level_len;
  out ← write_ptr out bs;
  written_len ← store written_len level_len;
  Some (1, out, written_len).

Definition quicz_openssl_pair_transcript_copy_client_crypto (g : globals) :=
  copy_crypto_level (last_client_crypto g) (last_client_crypto_len g).

Definition quicz_openssl_pair_transcript_copy_server_crypto (g : globals) :=
  copy_crypto_level (last_server_crypto g) (last_server_crypto_len g).

(** The common body of the two transport parameter functions. *)
Definition copy_params (params : list byte) (params_len : Z) (out : ptr) (out_len : Z) (written_len : cell)
    : option (Z * ptr * cell) :=
  match written_len with
  | None => Some (0, out, written_len)
  | Some _ =>
      if params_len >? out_len then written_len ← store written_len 0; Some (0, out, written_len) else
      written_len ← store written_len params_len;
      bs ← read_array QUICZ_OPENSSL_TRANSPORT_PARAMS_BUF_LEN params 0 params_len;
      out ← write_ptr out bs;
      Some (1, out, written_len)
  end.

Definition quicz_openssl_pair_transcript_copy_client_peer_transport_parameters (g : globals) :=
  copy_params (last_client_peer_transport_parameters g) (last_client_peer_transport_parameters_len g).

Definition quicz_openssl_pair_transcript_copy_server_peer_transport_parameters (g : globals) :=
  copy_params (last_server_peer_transport_parameters g) (last_server_peer_transport_parameters_len g).

(** The condition of [copy_secret] before [available] is read; reading it is
    then within bounds. *)
Definition copy_secret (secs : list (list (list byte))) (available : list (list Z)) (level direction : Z)
    (out : ptr) (out_len : Z) (written_len : cell) : option (Z * ptr * cell) :=
  refuse ← (if bool_decide (written_len = None) || (level <? 0) || (level >=? QUICZ_OPENSSL_LEVEL_COUNT) ||
               (direction <? 0) || (direction >=? QUICZ_OPENSSL_SECRET_DIRECTION_COUNT) then Some true
            else a ← zget2 available level direction;
                 Some (negb (ctrue a) || (out_len <? QUICZ_OPENSSL_SECRET_LEN) || bool_decide (out = None)));
  if (refuse : bool) then
    written_len ← (match written_len with None => Some None | Some _ => store written_len 0 end);
    Some (0, out, written_len)
  else
  src ← zget2 secs level direction;
  bs ← read_array QUICZ_OPENSSL_SECRET_LEN src 0 QUICZ_OPENSSL_SECRET_LEN;
  out ← write_ptr out bs;
  written_len ← store written_len QUICZ_OPENSSL_SECRET_LEN;
  Some (1, out, written_len).

Definition quicz_openssl_pair_transcript_copy_client_secret (g : globals) :=
  copy_secret (last_client_secrets g) (last_client_secret_available g).

Definition quicz_openssl_pair_transcript_copy_server_secret (g : globals) :=
  copy_secret (last_server_secrets g) (last_server_secret_available g).

(** ** Contexts *)

(** [struct quicz_openssl_pair_transcript_context] and the pointer to it. *)
Record pair_context : Type := PairContext { client : endpoint_ptr; server : endpoint_ptr }.
Definition context : Type := option (nat * pair_context).

#[export] Instance eta_pair_context : Eta pair_context := fun c => PairContext (client c) (server c).

Definition quicz_openssl_pair_transcript_context_new (g : globals) (w : world O) : option (context * world O) :=
  let '(mem, w) := ext_new KMem CallCalloc w in
  match mem with
  | None => Some (None, w)
  | Some addr =>
      let '(ca, w) := ext_new KMem CallCalloc w in
      let '(sa, w) := ext_new KMem CallCalloc w in
      '(ok, ce, se, w) ←
        (match ca, sa with
         | Some _, Some _ => init_pair g zero_endpoint zero_endpoint w
         | _, _ => Some (false, zero_endpoint, zero_endpoint, w)
         end);
      let cp := (fun a => (a, ce)) <$> ca in
      let sp := (fun a => (a, se)) <$> sa in
      if negb ok then
        w ← free_endpoint cp w;
        w ← free_endpoint sp w;
        w ← ext_free KMem mem w;
        Some (None, w)
      else Some (Some (addr, PairContext cp sp), w)
  end.

Definition quicz_openssl_pair_transcript_context_free (c : context) (w : world O) : option (world O) :=
  match c with
  | None => Some w
  | Some (addr, c) =>
      w ← free_endpoint (client c) w;
      w ← free_endpoint (server c) w;
      ext_free KMem (Some addr) w
  end.

Definition context_endpoint (c : option pair_context) (is_client : bool) : endpoint_ptr :=
  match c with None => None | Some c => if is_client then client c else server c end.

(** The struct the endpoint pointer leads to is updated in place. *)
Definition put_endpoint (c : option pair_context) (is_client : bool) (e : endpoint_ptr) : option pair_context :=
  match c with
  | None => None
  | Some c => Some (if is_client then c <| client := e |> else c <| server := e |>)
  end.

Definition quicz_openssl_pair_transcript_context_drive (c : option pair_context) (is_client : bool) (w : world O)
    : option (Z * option pair_context * world O) :=
  match context_endpoint c is_client with
  | None => Some (0, c, w)
  | Some (a, e) => '(e, w) ← drive_handshake e w; Some (1, put_endpoint c is_client (Some (a, e)), w)
  end.

Definition quicz_openssl_pair_transcript_context_result (c : option pair_context) (w : world O)
    : option (quicz_openssl_pair_transcript_result * world O) :=
  match c with
  | Some (PairContext (Some (_, ce)) (Some (_, se))) =>
      r ← copy_result_endpoint (zero_result <| initialized := 1 |>) ce se;
      let '(code, w) := ext CallErrPeek w in
      Some (r <| error_queue_code := code |>, w)
  | _ => Some (zero_result, w)
  end.

Definition quicz_openssl_pair_transcript_context_provide_crypto (c : option pair_context) (is_client : bool)
    (level : Z) (data : ptr) (data_len : Z) : option (Z * option pair_context) :=
  match context_endpoint c is_client with
  | None => Some (0, c)
  | Some (a, e) =>
      if (level <? 0) || (level >=? QUICZ_OPENSSL_LEVEL_COUNT) ||
         (data_len >? 0) && bool_decide (data = None) then Some (0, c) else
      len ← zget (in_len e) level;
      if data_len >? usub64 QUICZ_OPENSSL_CRYPTO_BUF_LEN len then Some (0, c) else
      e ← (if data_len >? 0 then
             arr ← zget (in_ e) level;
             bs ← read_ptr data data_len;
             arr ← write_array QUICZ_OPENSSL_CRYPTO_BUF_LEN arr len bs;
             Some (e <| in_ := zset (in_ e) level arr |>)
           else Some e);
      Some (1, put_endpoint c is_client
                 (Some (a, e <| in_len := zset (in_len e) level (uadd64 len data_len) |>)))
  end.

Definition quicz_openssl_pair_transcript_context_copy_pending_crypto (c : option pair_context) (is_client : bool)
    (level : Z) (out : ptr) (out_size : Z) (written_len : cell)
    : option (Z * ptr * cell * option pair_context) :=
  let refused := Some (0, out, (fun _ => 0) <$> written_len, c) in
  match written_len, context_endpoint c is_client with
  | Some _, Some (a, e) =>
      if (level <? 0) || (level >=? QUICZ_OPENSSL_LEVEL_COUNT) then refused else
      len ← zget (out_len e) level;
      if (len >? out_size) || (len >? 0) && bool_decide (out = None) then refused else
      src ← zget (out_ e) level;
      bs ← read_array QUICZ_OPENSSL_CRYPTO_BUF_LEN src 0 len;
      out ← write_ptr out bs;
      written_len ← store written_len len;
      Some (1, out, written_len,
            put_endpoint c is_client (Some (a, e <| out_len := zset (out_len e) level 0 |>)))
  | _, _ => refused
  end.

Definition quicz_openssl_pair_transcript_context_copy_secret (c : option pair_context) (is_client : bool)
    (level direction : Z) (out : ptr) (out_size : Z) (written_len : cell) : option (Z * ptr * cell) :=
  match context_endpoint c is_client with
  | None => Some (0, out, (fun _ => 0) <$> written_len)
  | Some (_, e) => copy_secret (secrets e) (secret_available e) level direction out out_size written_len
  end.

End WithHeaders.

End Pair.
