(* ===== verification/PairInv.v ===== *)
(** * Invariant and steps of a pair endpoint

    The well-formedness invariant of the endpoint struct, the steps an
    endpoint takes (callbacks, the two halves of a pump, drive bookkeeping)
    and their effect on the CRYPTO queues and on the recorded history. *)
From S2P Require Import Prelude CAbi OpenSSL CryptoLevels Adapter AdapterInv AdapterSession PairTranscript.
Import AdapterInv(label(..)).
Import AdapterSession(sent1, pulled1, received1, sent, pulled, received, at_level).
Import Pair.
Local Open Scope Z_scope.

Module PairInv.

(** A 4 by 2 array. *)
Definition shape2 {A : Type} (l : list (list A)) : Prop :=
  zlen l = 4 /\ forall i r, zget l i = Some r -> zlen r = 2.

Lemma shape2_get {A} (l : list (list A)) i j : shape2 l -> 0 <= i < 4 -> 0 <= j < 2 -> is_Some (zget2 l i j).
Proof.
  intros [Hl Hr] Hi Hj. destruct (zget_lt l i) as [r E]; [lia|]. unfold zget2. rewrite E. cbn.
  apply zget_lt. rewrite (Hr _ _ E). lia.
Qed.

Lemma shape2_set {A} (l : list (list A)) i j x : shape2 l -> 0 <= i < 4 -> shape2 (zset2 l i j x).
Proof.
  intros [Hl Hr] Hi. unfold zset2. destruct (zget l i) as [r|] eqn:E; [|done]. split; [by rewrite zlen_zset|].
  intros k r'. rewrite zget_zset by lia. destruct (i =? k); [|apply Hr]. intros [= <-].
  rewrite zlen_zset. by eapply Hr.
Qed.

Lemma zget2_zset2 {A} (l : list (list A)) i j x i' j' : shape2 l -> 0 <= i < 4 -> 0 <= j < 2 ->
  zget2 (zset2 l i j x) i' j' = if (i =? i') && (j =? j') then Some x else zget2 l i' j'.
Proof.
  intros [Hl Hr] Hi Hj. destruct (zget_lt l i) as [r E]; [lia|]. unfold zset2. rewrite E. unfold zget2.
  rewrite zget_zset by lia. destruct (Z.eqb_spec i i') as [<-|]; [|done]. rewrite E. cbn.
  pose proof (Hr _ _ E). by rewrite zget_zset by lia.
Qed.

Lemma shape2_fresh {A} (x : A) : shape2 [[x; x]; [x; x]; [x; x]; [x; x]].
Proof.
  split; [done|]. intros i r. unfold zget. destruct (i <? 0); [done|]. intros Hr%list_elem_of_lookup_2.
  rewrite !elem_of_cons, elem_of_nil in Hr. by destruct Hr as [->|[->|[->|[->|?]]]].
Qed.

(** [n] bounds the number of calls made so far. *)
Record inv (n : Z) (e : endpoint) : Prop := {
  i_in : levels_ok QUICZ_OPENSSL_CRYPTO_BUF_LEN (in_ e) (in_len e);
  i_rd_len : zlen (in_read_len e) = 4;
  i_rd : forall i r l, zget (in_read_len e) i = Some r -> zget (in_len e) i = Some l -> 0 <= r <= l;
  i_out : levels_ok QUICZ_OPENSSL_CRYPTO_BUF_LEN (out_ e) (out_len e);
  i_hist : levels_ok QUICZ_OPENSSL_CRYPTO_BUF_LEN (out_history e) (out_history_len e);
  i_total : out_total_len e = out_history_len e;
  i_secrets : shape2 (secrets e);
  i_available : shape2 (secret_available e);
  i_rl : 0 <= read_level e < 4;
  i_wl : 0 <= write_level e < 4;
  i_peer : 0 <= peer_transport_parameters_len e <= 512;
  i_local : 0 <= local_transport_parameters_len e <= 512;
  i_send : 0 <= send_callbacks e <= n;
  i_recv : 0 <= recv_callbacks e <= n;
  i_release : 0 <= release_callbacks e <= n;
  i_yield : 0 <= yield_secret_callbacks e <= n;
  i_got : 0 <= got_transport_params_callbacks e <= n;
  i_keylog : 0 <= keylog_callbacks e <= n;
  i_alert : 0 <= alert_callbacks e <= n;
}.

Lemma ep_inv_mono n m e : n <= m -> inv n e -> inv m e.
Proof. intros Hnm []. constructor; done || lia. Qed.

Definition inp (e : endpoint) (L : Z) : list byte := pend (in_ e) (in_len e) L.
Definition outp (e : endpoint) (L : Z) : list byte := pend (out_ e) (out_len e) L.
Definition hist (e : endpoint) (L : Z) : list byte := pend (out_history e) (out_history_len e) L.

(** What a step does to the outbound side, and what it delivers. *)
Definition effect (e : endpoint) (l : label) (e' : endpoint) : Prop :=
  ctx e' = ctx e /\ ssl e' = ssl e /\
  (forall L, hist e' L = hist e L ++ sent1 L l) /\
  (forall L, outp e L ++ sent1 L l = pulled1 L l ++ outp e' L) /\
  match l with LReceived K d => forall L, inp e' L = inp e L ++ at_level L K d | _ => True end.

Ltac esimp :=
  cbn [set_field ctx ssl in_ in_len in_read_len out_ out_len out_total_len out_history out_history_len
    secrets secret_available read_level write_level send_callbacks recv_callbacks release_callbacks
    yield_secret_callbacks got_transport_params_callbacks peer_transport_parameters
    peer_transport_parameters_len keylog_callbacks keylog_bytes alert_callbacks last_alert
    handshake_done last_ssl_error local_transport_parameters local_transport_parameters_len].
Ltac wp_norm ::= esimp.

Ltac inv_triv :=
  try unfold QUICZ_OPENSSL_CRYPTO_BUF_LEN in *;
  try solve [assumption | lia | rewrite ?zlen_zset; assumption | eauto with levels
            | apply levels_ok_set; assumption || lia | apply levels_ok_set_len; assumption || lia ].
Ltac inv_solve := constructor; esimp; inv_triv.

Ltac inv_cases :=
  match goal with H : inv _ _ |- _ => let H' := fresh in pose proof H as H'; destruct H' as
    [Hin Hrdl Hrd Hout Hhist Htot Hsec Hav Hrl Hwl Hpeer Hloc Hsnd Hrcv Hrls Hy Hgot Hkl Hal] end;
  match goal with
  | Ha : levels_ok _ (in_ _) _, Hb : levels_ok _ (out_ _) _, Hc : levels_ok _ (out_history _) _ |- _ =>
      pose proof (lv_bufs _ _ _ Ha) as Hi1; pose proof (lv_lens _ _ _ Ha) as Hi2;
      pose proof (lv_cap _ _ _ Ha) as Hi3; pose proof (lv_bufs _ _ _ Hb) as Ho1;
      pose proof (lv_lens _ _ _ Hb) as Ho2; pose proof (lv_cap _ _ _ Hb) as Ho3;
      pose proof (lv_bufs _ _ _ Hc) as Hh1; pose proof (lv_lens _ _ _ Hc) as Hh2;
      pose proof (lv_cap _ _ _ Hc) as Hh3
  end.

(** Steps that leave the outbound side alone. *)
Lemma effect_other e e' : ctx e' = ctx e -> ssl e' = ssl e ->
  out_ e' = out_ e -> out_len e' = out_len e -> out_history e' = out_history e ->
  out_history_len e' = out_history_len e -> effect e LOther e'.
Proof.
  intros H1 H2 H3 H4 H5 H6. unfold effect, hist, outp. rewrite H1, H2, H3, H4, H5, H6. cbn.
  split_and!; try done; intros; by rewrite ?app_nil_r.
Qed.

Ltac other := apply effect_other; reflexivity.

Lemma ep_effect_refl e : effect e LOther e.
Proof. other. Qed.

Lemma zero_endpoint_inv e : e = zero_endpoint -> inv 0 e.
Proof.
  intros ->. constructor; cbn; try done; try (by apply levels_ok_fresh).
  - by intros i r l ->%zget_zeros ->%zget_zeros.
  - apply shape2_fresh.
  - apply shape2_fresh.
Qed.

(** ** Callbacks *)

Definition post (n : Z) (e : endpoint) (l : label) (arg : option endpoint) : Prop :=
  exists e', arg = Some e' /\ inv (n + 1) e' /\ effect e l e'.

Lemma post_same n e : inv n e -> post n e LOther (Some e).
Proof. intros. exists e. split; [done|]. split; [by apply (ep_inv_mono n); [lia|]|apply ep_effect_refl]. Qed.

Lemma ep_send_wp n e buf : inv n e -> n < INT_MAX ->
  wp (crypto_send_cb (Some buf) (zlen buf) (Some 0) (Some e)) (fun '(r, c, arg) =>
    r = 1 /\ c = Some (zlen buf) /\ post n e (LSent (write_level e) buf) arg \/
    r = 0 /\ c = Some 0 /\ arg = Some e).
Proof.
  intros Hinv Hn. pose proof (zlen_nonneg buf). inv_cases.
  unfold crypto_send_cb, QUICZ_OPENSSL_LEVEL_COUNT, QUICZ_OPENSSL_CRYPTO_BUF_LEN, INT_MAX in *. rewrite Htot.
  wp_go; try lia; [by right|]. left. split; [done|]. split; [done|]. eexists. split; [done|].
  rewrite ztake_all. zsimp. simplify_eq. split.
  - constructor; esimp; inv_triv; try done; apply levels_ok_set; inv_triv; done.
  - split_and!; try done; intros L; unfold hist, outp; esimp; cbn; unfold at_level; rewrite pend_append by (done || lia);
      by destruct (_ =? L); rewrite ?app_nil_r.
Qed.

Lemma ep_recv_wp n e : inv n e -> n < INT_MAX ->
  wp (crypto_recv_rcd_cb (Some e)) (fun '(r, p, m, arg) => r = 1 /\ post n e LOther arg /\
    match p with
    | None => m = 0
    | Some L => L = read_level e /\ m = zlen (inp e L) /\ forall e', arg = Some e' -> in_ e' = in_ e
    end).
Proof.
  intros Hinv Hn. inv_cases. unfold crypto_recv_rcd_cb, QUICZ_OPENSSL_LEVEL_COUNT, INT_MAX in *.
  wp_go; try lia; (split; [done|]).
  - by split; [apply post_same|].
  - split; [|done]. eexists. split; [done|]. split; [inv_solve|other].
  - split; [eexists; split; [done|]; split; [|other]|].
    + inv_solve. intros i r l. rewrite zget_zset by lia. destruct (Z.eqb_spec (read_level e) i) as [<-|]; [|apply Hrd].
      intros [= <-] Hl. pose proof (Hi3 _ _ Hl). simplify_eq. lia.
    + split; [done|]. split; [|by intros e' [= <-]]. unfold inp. by rewrite (pend_length _ _ _ _ Hi1 Hx0) by (done || lia).
Qed.

Lemma ep_release_wp n e k : inv n e -> n < INT_MAX -> 0 <= k ->
  wp (crypto_release_rcd_cb k (Some e)) (fun '(r, arg) => (r = 0 \/ r = 1) /\ post n e LOther arg).
Proof.
  intros Hinv Hn Hk. inv_cases.
  unfold crypto_release_rcd_cb, QUICZ_OPENSSL_LEVEL_COUNT, QUICZ_OPENSSL_CRYPTO_BUF_LEN, INT_MAX in *.
  apply wp_if; [lia|intros _]. apply wp_bind, wp_zget; [lia|intros rd Hrdx].
  destruct (zget_lt (in_len e) (read_level e)) as [len Hlen]; [lia|].
  pose proof (Hrd _ _ _ Hrdx Hlen). pose proof (Hi3 _ _ Hlen). cbn beta.
  assert (forall rem, 0 <= rem <= len ->
    forall i r l, zget (zset (in_read_len e) (read_level e) 0) i = Some r ->
      zget (zset (in_len e) (read_level e) rem) i = Some l -> 0 <= r <= l) as Hrd'.
  { intros rem Hrem i r l. rewrite !zget_zset by lia. destruct (_ =? i); [|apply Hrd].
    intros [= <-] [= <-]. lia. }
  wp_go; (split; [by auto|]).
  - by apply post_same.
  - eexists. split; [done|]. split; [|other]. zsimp. inv_solve. by apply Hrd'; lia.
  - eexists. split; [done|]. split; [|other]. inv_solve. by apply Hrd'; lia.
Qed.

Lemma ep_yield_wp n e level dir secret : inv n e -> n < INT_MAX -> 0 <= level ->
  wp (yield_secret_cb level dir (Some secret) (zlen secret) (Some e)) (fun '(r, arg) =>
    (r = 0 \/ r = 1) /\ post n e LOther arg).
Proof.
  intros Hinv Hn Hlevel. pose proof (zlen_nonneg secret).
  unfold yield_secret_cb, QUICZ_OPENSSL_LEVEL_COUNT, QUICZ_OPENSSL_SECRET_LEN in *.
  apply wp_if; intros El; [by split; [auto|apply post_same]|]. cbv zeta.
  set (e1 := if dir =? 0 then _ else _).
  assert (inv n e1 /\ effect e LOther e1 /\ yield_secret_callbacks e1 = yield_secret_callbacks e) as (Hinv1 & He1 & _).
  { subst e1. inv_cases. destruct (dir =? 0), (dir =? 1); (split; [inv_solve|split; [other|done]]). }
  clearbody e1. clear Hinv. inv_cases.
  assert (forall e', effect e1 LOther e' -> effect e LOther e') as Htrans.
  { destruct He1 as (A1 & A2 & A3 & A4 & _). intros e' (B1 & B2 & B3 & B4 & _). cbn in *.
    split_and!; try congruence; try done; intros L.
    - by rewrite B3, A3, !app_nil_r.
    - by rewrite A4, <- B4, app_nil_r. }
  apply wp_bind. apply wp_if; intros Ec.
  - apply wp_bind. destruct (shape2_get (secrets e1) level dir Hsec) as [arr ->]; [lia..|]. apply wp_ret.
    apply wp_bind, wp_read_ptr; [lia|]. apply wp_bind, wp_write_array; [lia|rewrite ztake_all; lia|].
    apply wp_bind. destruct (shape2_get (secret_available e1) level dir Hav) as [av ->]; [lia..|].
    apply wp_ret, wp_ret. apply wp_bind, wp_int_inc; [esimp; lia|]. apply wp_ret. split; [auto|].
    eexists. split; [done|]. split; [|apply Htrans; other]. inv_solve; apply shape2_set; done || lia.
  - apply wp_ret. apply wp_bind, wp_int_inc; [lia|]. apply wp_ret. split; [auto|].
    eexists. split; [done|]. split; [inv_solve|apply Htrans; other].
Qed.

Lemma ep_got_wp n e params : inv n e -> n < INT_MAX ->
  wp (got_transport_params_cb (Some params) (zlen params) (Some e)) (fun '(r, arg) =>
    (r = 0 \/ r = 1) /\ post n e LOther arg).
Proof.
  intros Hinv Hn. inv_cases. pose proof (zlen_nonneg params).
  unfold got_transport_params_cb, QUICZ_OPENSSL_TRANSPORT_PARAMS_BUF_LEN, INT_MAX in *.
  rewrite bool_decide_eq_false_2 by done. rewrite andb_false_r. cbn [orb].
  wp_go; (split; [by auto|]); [by apply post_same|..]; eexists; (split; [done|]); (split; [inv_solve|other]).
Qed.

Lemma ep_keylog_wp n e line : inv n e -> n < INT_MAX -> wp (keylog_cb (Some e) line) (post n e LOther).
Proof.
  intros Hinv Hn. unfold keylog_cb. destruct line as [l|]; [|by apply wp_ret, post_same].
  inv_cases. unfold INT_MAX in *. wp_go. eexists. split; [done|]. split; [inv_solve|other].
Qed.

Lemma alert_wp n e code : inv n e -> n < INT_MAX ->
  wp (alert_cb code (Some e)) (fun '(r, arg) => r = 1 /\ post n e LOther arg).
Proof.
  intros Hinv Hn. inv_cases. unfold alert_cb, INT_MAX in *. wp_go. split; [done|].
  eexists. split; [done|]. split; [inv_solve|other].
Qed.

Section WithHeaders.
Context {H : OpenSSLHeaders}.

(** The label of a callback. *)
Definition label_of (e : endpoint) (c : tls_call) (a : tls_answer) : label :=
  match c with
  | TCryptoSend buf => if ans_ret a =? 1 then LSent (write_level e) buf else LOther
  | _ => LOther
  end.

Lemma ep_invoke_wp {Hok : OpenSSLHeadersOk H} n e c : inv n e -> n < INT_MAX -> tls_call_ok c ->
  wp (invoke c e) (fun '(a, e') => inv (n + 1) e' /\ effect e (label_of e c a) e').
Proof.
  intros Hinv Hn Hc. destruct (AdapterInv.find_dispatch_all) as (D1 & D2 & D3 & D4 & D5 & D6).
  change Adapter.quicz_openssl_tls_dispatch with quicz_openssl_tls_dispatch in *.
  destruct c; cbn [invoke call_id mbind option_bind tls_call_ok label_of] in *; rewrite ?D1, ?D2, ?D3, ?D4, ?D5, ?D6.
  - apply wp_bind. eapply wp_mono; [by apply (ep_send_wp n)|].
    intros [[r co] arg] [(-> & -> & e' & -> & Hi & He)|(-> & -> & ->)]; cbn; [done|].
    by split; [apply (ep_inv_mono n); [lia|]|apply ep_effect_refl].
  - apply wp_bind. eapply wp_mono; [by apply (ep_recv_wp n)|].
    intros [[[r p] m] arg] (-> & (e' & -> & Hi & He) & Hp). cbn. destruct p as [L|]; [|done].
    destruct Hp as (-> & -> & Heq). rewrite (Heq e' eq_refl). inv_cases.
    pose proof (i_in _ _ Hinv) as [Hb Hl Hcap]. pose proof (PairInv.i_rl _ _ Hinv).
    destruct (zget_lt (in_ e) (read_level e)) as [arr Harr]; [lia|].
    destruct (zget_lt (in_len e) (read_level e)) as [len Hlen]; [lia|].
    pose proof (Hcap _ _ Hlen). unfold inp. rewrite (pend_length _ _ _ _ Hb Hlen) by (done || lia).
    rewrite Harr. cbn. apply wp_bind, wp_read_array; [lia..|]. by apply wp_ret.
  - apply wp_bind. eapply wp_mono; [by apply (ep_release_wp n); [..|lia]|].
    by intros [r arg] (_ & e' & -> & Hi & He).
  - apply wp_bind. eapply wp_mono; [by apply (ep_yield_wp n); [..|lia]|].
    by intros [r arg] (_ & e' & -> & Hi & He).
  - apply wp_bind. eapply wp_mono; [by apply (ep_got_wp n)|]. by intros [r arg] (_ & e' & -> & Hi & He).
  - apply wp_bind. eapply wp_mono; [by apply (alert_wp n)|]. by intros [r arg] (_ & e' & -> & Hi & He).
  - apply wp_bind. eapply wp_mono; [by apply (ep_keylog_wp n)|]. by intros arg (e' & -> & Hi & He).
Qed.

(** ** Steps of an endpoint *)

Inductive step (e : endpoint) : label -> endpoint -> Prop :=
  | step_callback c a e' : tls_call_ok c -> invoke c e = Some (a, e') -> step e (label_of e c a) e'
  | step_done err : step e LOther (e <| handshake_done := 1 |> <| last_ssl_error := err |>)
  | step_error err : step e LOther (e <| last_ssl_error := err |>)
  | step_take level : 0 <= level < 4 ->
      step e (LPulled level (outp e level)) (e <| out_len := zset (out_len e) level 0 |>)
  | step_put level len arr d : zget (in_len e) level = Some len -> zget (in_ e) level = Some arr ->
      len + zlen d <= QUICZ_OPENSSL_CRYPTO_BUF_LEN ->
      step e (LReceived level d) (e <| in_ := zset (in_ e) level (splice arr len d) |>
                                    <| in_len := zset (in_len e) level (len + zlen d) |>).

Inductive steps (e : endpoint) : list label -> endpoint -> Prop :=
  | steps_nil : steps e [] e
  | steps_cons l e1 ls e2 : step e l e1 -> steps e1 ls e2 -> steps e (l :: ls) e2.

Lemma ep_steps_app e ls e1 ls' e2 : steps e ls e1 -> steps e1 ls' e2 -> steps e (ls ++ ls') e2.
Proof. induction 1; [done|]. intros. eapply steps_cons; [done|auto]. Qed.

Context {Hok : OpenSSLHeadersOk H}.

Lemma ep_step_effect n e l e' : inv n e -> n < INT_MAX -> step e l e' -> inv (n + 1) e' /\ effect e l e'.
Proof.
  intros Hinv Hn Hs. inv_cases. destruct Hs as [c a e' Hc Hi|err|err|level Hl|level len arr d Hlen Harr Hd].
  - exact (wp_use _ _ _ (ep_invoke_wp n e c Hinv Hn Hc) Hi).
  - split; [inv_solve|other].
  - split; [inv_solve|other].
  - split; [inv_solve|]. split_and!; try done; intros L; unfold hist, outp; esimp; cbn; unfold at_level;
      rewrite ?app_nil_r; [done|].
    rewrite pend_clear by lia. destruct (Z.eqb_spec level L) as [->|]; by rewrite ?app_nil_r.
  - pose proof (zlen_nonneg d). pose proof (zget_Some_lt _ _ _ Hlen). pose proof (Hi3 _ _ Hlen).
    split.
    + inv_solve. intros i r l Hr. rewrite zget_zset by lia. destruct (Z.eqb_spec level i) as [<-|]; [|by apply Hrd].
      intros [= <-]. pose proof (Hrd _ _ _ Hr Hlen). lia.
    + split_and!; try done; intros L; unfold hist, outp, inp; esimp; cbn; rewrite ?app_nil_r; try done.
      rewrite pend_append by (done || lia). unfold at_level. by destruct (level =? L); rewrite ?app_nil_r.
Qed.

(** What a whole trace does to the outbound side. *)
Definition trace_effect (e : endpoint) (ls : list label) (e' : endpoint) : Prop :=
  ctx e' = ctx e /\ ssl e' = ssl e /\
  forall L, hist e' L = hist e L ++ sent L ls /\ outp e L ++ sent L ls = pulled L ls ++ outp e' L.

Lemma steps_effect n e ls e' : inv n e -> n + zlen ls <= INT_MAX -> steps e ls e' ->
  inv (n + zlen ls) e' /\ trace_effect e ls e'.
Proof.
  intros Hinv Hn Hs. revert n Hinv Hn.
  induction Hs as [e|e l e1 ls e2 Hstep Hs IH]; intros n Hinv Hn.
  - rewrite zlen_nil, Z.add_0_r. split; [done|]. split_and!; try done. intros L. by rewrite !app_nil_r.
  - rewrite ?zlen_cons in *. pose proof (zlen_nonneg ls).
    destruct (ep_step_effect n e l e1 Hinv ltac:(lia) Hstep) as [Hi (Hc & Hsl & Hh & Ho & _)].
    destruct (IH (n + 1) Hi ltac:(lia)) as [Hi2 (Hc2 & Hs2 & HL)].
    split; [by replace (n + (zlen ls + 1)) with (n + 1 + zlen ls) by lia|].
    split_and!; try congruence. intros L. destruct (HL L) as [E1 E2]. unfold sent, pulled in *. cbn.
    split; [by rewrite E1, Hh, <- app_assoc|]. by rewrite app_assoc, Ho, <- app_assoc, E2, app_assoc.
Qed.

(** [e] goes to [e'] in at most [k] steps that give up the bytes [out L] and
    take in the bytes [inn L] of every level. *)
Definition trans (m k : Z) (e : endpoint) (out inn : Z -> list byte) (e' : endpoint) : Prop :=
  exists ls, steps e ls e' /\ zlen ls <= k /\ inv (m + k) e' /\
    forall L, pulled L ls = out L /\ received L ls = inn L.

Definition none : Z -> list byte := fun _ => [].

Lemma ep_trans_refl m e : inv m e -> trans m 0 e none none e.
Proof. exists []. rewrite Z.add_0_r. split; [constructor|by rewrite zlen_nil]. Qed.

Lemma ep_trans_inv m k e o i e' : trans m k e o i e' -> inv (m + k) e'.
Proof. by intros (ls & _ & _ & Hi & _). Qed.

Lemma ep_trans_trans m k k' e e1 e2 o i o' i' : trans m k e o i e1 -> trans (m + k) k' e1 o' i' e2 ->
  trans m (k + k') e (fun L => o L ++ o' L) (fun L => i L ++ i' L) e2.
Proof.
  intros (ls & Hs & Hk & _ & Hh) (ls' & Hs' & Hk' & Hi' & Hh'). exists (ls ++ ls').
  split; [by eapply ep_steps_app|]. rewrite zlen_app. split; [lia|]. rewrite Z.add_assoc. split; [done|].
  intros L. destruct (Hh L) as [E1 E2]. destruct (Hh' L) as [E3 E4].
  unfold pulled, received in *. by rewrite !AdapterSession.hist_app, E1, E2, E3, E4.
Qed.

Lemma ep_trans_weaken m k k' e o i e' o' i' : trans m k e o i e' -> k <= k' ->
  (forall L, o L = o' L) -> (forall L, i L = i' L) -> trans m k' e o' i' e'.
Proof.
  intros (ls & Hs & Hk & Hinv & Hh) Hle Ho Hi. exists ls. split; [done|]. split; [lia|].
  split; [by apply (ep_inv_mono (m + k)); [lia|]|]. intros L. rewrite <- Ho, <- Hi. auto.
Qed.

Lemma ep_trans_step m e l e' : inv m e -> m < INT_MAX -> step e l e' ->
  trans m 1 e (fun L => pulled1 L l) (fun L => received1 L l) e' /\ effect e l e'.
Proof.
  intros Hinv Hm Hs. destruct (ep_step_effect _ _ _ _ Hinv Hm Hs) as [Hi He]. split; [|done]. exists [l].
  split; [by eapply steps_cons; [|constructor]|]. split; [done|]. split; [done|].
  intros L. unfold pulled, received. cbn. by rewrite !app_nil_r.
Qed.

(** ** Driving and pumping *)

Lemma ep_drive_wp {S : Type} d (p : ssl_prog S) : bounded d p -> forall m e, inv m e -> m + Z.of_nat d <= INT_MAX ->
  wp (drive p e) (fun '(rc, s, e') => trans m (Z.of_nat d) e none none e').
Proof.
  induction 1 as [d rc s|d c k Hc Hk IH]; intros m e Hinv Hm; cbn.
  - by apply (ep_trans_weaken m 0 _ e none none); [apply ep_trans_refl|lia|..].
  - apply wp_bind. destruct (wp_elim _ _ (ep_invoke_wp m e c Hinv ltac:(lia) Hc)) as ([a e1] & Hi & Hinv1 & _).
    rewrite Hi. cbn. eapply wp_mono; [apply (IH a (m + 1) e1); [done|lia]|].
    intros [[rc s] e'] Ht. eapply ep_trans_weaken; [eapply ep_trans_trans; [|exact Ht]|lia| |].
    { apply ep_trans_step; [done|lia|by eapply step_callback]. }
    all: intros L; cbn; destruct c; cbn; by repeat case_match.
Qed.

Lemma pend_at bufs lens i len : levels_ok QUICZ_OPENSSL_CRYPTO_BUF_LEN bufs lens -> zget lens i = Some len ->
  exists arr, zget bufs i = Some arr /\ pend bufs lens i = slice arr 0 len /\ zlen (slice arr 0 len) = len /\
    0 <= len <= QUICZ_OPENSSL_CRYPTO_BUF_LEN.
Proof.
  intros [Hb Hl Hc] Hlen. pose proof (zget_Some_lt _ _ _ Hlen). pose proof (Hc _ _ Hlen).
  destruct (zget_lt bufs i) as [arr Harr]; [lia|]. exists arr. unfold pend. rewrite Harr, Hlen.
  split_and!; try done; try lia. apply zlen_slice. lia.
Qed.

(** What [pump_crypto] moved, from level [level] on. *)
Definition pump_post (m k level : Z) (from to : endpoint) : Z * endpoint * endpoint -> Prop :=
  fun '(r, from', to') => exists moved,
    trans m k from moved none from' /\ trans m k to none moved to' /\
    (forall L, inp to' L = inp to L ++ moved L /\ outp from L = moved L ++ outp from' L) /\
    (forall L, L < level -> moved L = []) /\
    (r = 1 /\ (forall L, level <= L < 4 -> outp from' L = []) \/
     r = 0 /\ exists K, level <= K < 4 /\ (forall L, level <= L < K -> outp from' L = []) /\
       (forall L, K <= L -> moved L = []) /\ zlen (inp to K) + zlen (outp from K) > QUICZ_OPENSSL_CRYPTO_BUF_LEN).

(** Moving [d] at [level] and then pumping the levels above it. *)
Lemma pump_post_cons m k level d from to from1 to1 x : 0 <= level < 4 ->
  trans m 1 from (fun L => at_level L level d) none from1 -> trans m 1 to none (fun L => at_level L level d) to1 ->
  (forall L, inp to1 L = inp to L ++ at_level L level d) ->
  (forall L, outp from L = at_level L level d ++ outp from1 L) -> outp from1 level = [] ->
  pump_post (m + 1) k (level + 1) from1 to1 x -> pump_post m (k + 1) level from to x.
Proof.
  intros Hlevel T1 T2 Hin Hout Hempty. destruct x as [[r from'] to'].
  intros (moved & T1' & T2' & Hmv & Hlow & Hres). exists (fun L => at_level L level d ++ moved L).
  assert (outp from' level = []) as Hempty'.
  { destruct (Hmv level) as [_ E]. rewrite Hempty in E. symmetry in E. by apply app_eq_nil in E as [_ ?]. }
  assert (forall L, level < L -> at_level L level d = []) as Hat.
  { intros L HL. unfold at_level. by destruct (Z.eqb_spec level L); [lia|]. }
  split_and!.
  - by eapply ep_trans_weaken; [exact (ep_trans_trans _ _ _ _ _ _ _ _ _ _ T1 T1')|lia|..].
  - by eapply ep_trans_weaken; [exact (ep_trans_trans _ _ _ _ _ _ _ _ _ _ T2 T2')|lia|..].
  - intros L. destruct (Hmv L) as [E1 E2]. by rewrite E1, Hin, Hout, E2, !app_assoc.
  - intros L HL. rewrite Hlow by lia. unfold at_level. by destruct (Z.eqb_spec level L); [lia|].
  - destruct Hres as [[-> Hz]|(-> & K & HK & Hz & Hab & Hcap)]; [left|right]; (split; [done|]).
    + intros L HL. destruct (decide (L = level)) as [->|]; [done|]. apply Hz. lia.
    + exists K. split; [lia|]. split_and!.
      * intros L HL. destruct (decide (L = level)) as [->|]; [done|]. apply Hz. lia.
      * intros L HL. by rewrite Hat, Hab by lia.
      * rewrite (Hout K), Hat by lia. rewrite Hin, Hat, app_nil_r in Hcap by lia. done.
Qed.

Lemma pump_levels_wp n : forall m level from to, inv m from -> inv m to -> m + Z.of_nat n <= INT_MAX ->
  0 <= level -> level + Z.of_nat n = 4 ->
  wp (pump_levels n level from to) (pump_post m (Z.of_nat n) level from to).
Proof.
  induction n as [|n IH]; intros m level from to Hf Ht Hm H0 Hl; cbn [pump_levels].
  - apply wp_ret. exists none. split_and!; [by apply ep_trans_refl..|intros L; by rewrite app_nil_r|done|].
    left. split; [done|]. lia.
  - destruct (zget_lt (out_len from) level) as [olen Holen].
    { pose proof (lv_lens _ _ _ (i_out _ _ Hf)). lia. }
    destruct (zget_lt (in_len to) level) as [ilen Hilen].
    { pose proof (lv_lens _ _ _ (i_in _ _ Ht)). lia. }
    destruct (pend_at _ _ _ _ (i_out _ _ Hf) Holen) as (oarr & Hoarr & Epo & Zo & Co).
    destruct (pend_at _ _ _ _ (i_in _ _ Ht) Hilen) as (iarr & Hiarr & Epi & Zi & Ci).
    fold (outp from level) in Epo. fold (inp to level) in Epi.
    rewrite Holen. cbn [mbind option_bind]. apply wp_if; intros E0.
    + assert (outp from level = []) as Hnil by (apply zlen_nil_inv; rewrite Epo; lia).
      assert (forall L, [] = at_level L level []) as Hat by (intros L; unfold at_level; by case_match).
      eapply wp_mono; [apply (IH (m + 1) (level + 1) from to); try lia; by apply (ep_inv_mono m); [lia|]|].
      intros x Hx. replace (Z.of_nat (S n)) with (Z.of_nat n + 1) by lia.
      eapply (pump_post_cons m _ level [] from to from to); try done; try lia.
      1-2: by eapply ep_trans_weaken; [by apply ep_trans_refl|lia|..].
      all: intros L; by rewrite <- Hat, ?app_nil_r.
    + rewrite Hilen. cbn [mbind option_bind]. rewrite (usub64_small _ ilen) by (unfold SIZE_MAX, QUICZ_OPENSSL_CRYPTO_BUF_LEN in *; lia).
      apply wp_if; intros Ecap.
      { apply wp_ret. exists none. split_and!; try done.
        1-2: by eapply ep_trans_weaken; [by apply ep_trans_refl|lia|..].
        - intros L. by rewrite app_nil_r.
        - right. split; [done|]. exists level. rewrite Epo, Epi, Zo, Zi. split; [lia|]. split_and!; try done; try lia. }
      rewrite Hoarr. cbn [mbind option_bind]. apply wp_bind, wp_read_array; [lia..|]. rewrite Hiarr. cbn [mbind option_bind].
      apply wp_bind, wp_write_array; [lia..|].
      destruct (ep_trans_step m from _ _ Hf ltac:(lia) (step_take from level ltac:(lia))) as [T1 E1].
      destruct (ep_trans_step m to _ _ Ht ltac:(lia)
        (step_put to level ilen iarr (slice oarr 0 olen) Hilen Hiarr ltac:(lia))) as [T2 E2].
      rewrite (uadd64_small ilen olen) by (unfold SIZE_MAX, QUICZ_OPENSSL_CRYPTO_BUF_LEN in *; lia).
      rewrite Zo in *. eapply wp_mono; [apply (IH (m + 1) (level + 1)); try lia; by eapply ep_trans_inv|].
      intros x Hx. replace (Z.of_nat (S n)) with (Z.of_nat n + 1) by lia. revert Hx.
      rewrite <- Epo in *. destruct E1 as (_ & _ & _ & Ho1 & _). destruct E2 as (_ & _ & _ & _ & Hi2).
      apply (pump_post_cons m _ level (outp from level)); try done; try lia.
      * intros L. specialize (Ho1 L). cbn in Ho1. by rewrite app_nil_r in Ho1.
      * unfold outp. esimp. rewrite pend_clear by (pose proof (lv_lens _ _ _ (i_out _ _ Hf)); lia). by rewrite Z.eqb_refl.
Qed.

Lemma pump_wp m from to : inv m from -> inv m to -> m + 4 <= INT_MAX ->
  wp (pump_crypto from to) (pump_post m 4 0 from to).
Proof. intros. by apply (pump_levels_wp 4). Qed.

End WithHeaders.

End PairInv.
