(* ===== verification/PairLife.v ===== *)
(** * Runs and contexts of the OpenSSL pair

    Resource ownership of endpoints, the handshake run and the context
    life cycle, and the theorems about them. *)
From S2P Require Import Prelude CAbi OpenSSL CryptoLevels Adapter AdapterInv AdapterSession AdapterLife PairTranscript PairInv.
Import AdapterInv(label(..)).
Import AdapterSession(sent1, pulled1, received1, sent, pulled, received, at_level).
Import Pair PairInv.
Local Open Scope Z_scope.

Module PairLife.

Section WithOpenSSL.
Context {H : OpenSSLHeaders} {O : OpenSSL}.

(** ** Ownership *)

(** [w'] is [w] after calls that created the objects [X] and nothing else. *)
Record grows (w w' : world O) (X : gset resource) : Prop := {
  gr_wf : world_wf w';
  gr_next : (w_next w <= w_next w')%nat;
  gr_live : w_live w' = w_live w ∪ X;
  gr_fresh : forall k n, (k, n) ∈ X -> (w_next w <= n)%nat;
}.

Lemma grows_refl w : world_wf w -> grows w w ∅.
Proof. intros. constructor; try done; set_solver. Qed.

Lemma grows_trans w w1 w2 X Y : grows w w1 X -> grows w1 w2 Y -> grows w w2 (X ∪ Y).
Proof.
  intros [] []. constructor; [done|lia|by rewrite gr_live1, gr_live0, assoc_L by apply _|]. intros k n [Hin|Hin]%elem_of_union; [eauto|].
  transitivity (w_next w1); eauto.
Qed.

Lemma grows_disjoint w w' X : world_wf w -> grows w w' X -> X ## w_live w.
Proof. intros Hwf [] [k n] HX HL. apply Hwf in HL. apply gr_fresh0 in HX. lia. Qed.

Lemma grows_eq w w' X Y : grows w w' X -> X = Y -> grows w w' Y.
Proof. by intros ? <-. Qed.

Lemma grows_ext w c : world_wf w -> exists r w', ext c w = (r, w') /\ grows w w' ∅.
Proof.
  intros Hwf. unfold ext. destruct (respond c (w_ossl w)) as [r o]. eexists _, _. split; [done|].
  constructor; cbn; try done; set_solver.
Qed.

Lemma grows_same w w' : world_wf w -> w_live w' = w_live w -> w_next w' = w_next w -> grows w w' ∅.
Proof.
  intros Hwf Hl Hn. constructor; [|lia|set_solver|set_solver]. intros k n. rewrite Hl, Hn. apply Hwf.
Qed.

(** The object behind a handle. *)
Definition obj (k : kind) (h : option nat) : gset resource :=
  match h with Some n => {[(k, n)]} | None => ∅ end.

Lemma grows_new k c w : world_wf w -> exists h w', ext_new k c w = (h, w') /\ grows w w' (obj k h).
Proof.
  intros Hwf. unfold ext_new. destruct (respond c (w_ossl w)) as [r o]. destruct (r =? 0); eexists _, _; (split; [done|]).
  - constructor; cbn; try done; set_solver.
  - constructor; cbn -[union]; [|lia|done|].
    + intros k' n. cbn -[union]. intros [Hin|Hin]%elem_of_union; [apply Hwf in Hin; lia|].
      apply elem_of_singleton in Hin. simplify_eq. lia.
    + intros k' n Hin%elem_of_singleton. by simplify_eq.
Qed.

Definition handles (e : endpoint) : gset resource := obj KCtx (ctx e) ∪ obj KSsl (ssl e).

(** Everything an endpoint pointer owns. *)
Definition owned (p : endpoint_ptr) : gset resource :=
  match p with None => ∅ | Some (a, e) => {[(KMem, a)]} ∪ handles e end.

Lemma free_obj_wp k h (w : world O) : obj k h ⊆ w_live w ->
  wp (ext_free k h w) (fun w' => w_live w' = w_live w ∖ obj k h).
Proof.
  destruct h as [n|]; cbn -[ext_free difference].
  - intros Hin. apply wp_ext_free_Some; [set_solver|done].
  - intros _. apply wp_ext_free_None. set_solver.
Qed.

Lemma obj_disjoint k k' h h' : k <> k' -> obj k h ## obj k' h'.
Proof. intros. destruct h, h'; cbn; set_solver. Qed.

Lemma free_endpoint_wp p (w : world O) : owned p ⊆ w_live w ->
  wp (free_endpoint p w) (fun w' => w_live w' = w_live w ∖ owned p).
Proof.
  destruct p as [[a e]|]; cbn [free_endpoint owned].
  - unfold handles. intros Hin.
    pose proof (obj_disjoint KCtx KSsl (ctx e) (ssl e) ltac:(done)).
    pose proof (obj_disjoint KMem KSsl (Some a) (ssl e) ltac:(done)).
    pose proof (obj_disjoint KMem KCtx (Some a) (ctx e) ltac:(done)). cbn [obj] in *.
    apply wp_bind. eapply wp_mono; [apply free_obj_wp; set_solver|]. intros w1 E1.
    apply wp_bind. eapply wp_mono; [apply free_obj_wp; set_solver|]. intros w2 E2.
    eapply wp_mono; [apply (free_obj_wp KMem (Some a)); cbn [obj]; set_solver|]. intros w3 E3. cbn [obj] in E3.
    rewrite E3, E2, E1. set_solver.
  - intros _. apply wp_ret. set_solver.
Qed.

(** ** Initialisation *)

(** The static variables: configured parameters within their buffers, arrays
    of the last run of the declared shape. *)
Record globals_ok (g : globals) : Prop := {
  g_cparams : 0 <= configured_client_transport_parameters_len g <= 512;
  g_sparams : 0 <= configured_server_transport_parameters_len g <= 512;
  g_ccrypto : levels_ok QUICZ_OPENSSL_CRYPTO_BUF_LEN (last_client_crypto g) (last_client_crypto_len g);
  g_scrypto : levels_ok QUICZ_OPENSSL_CRYPTO_BUF_LEN (last_server_crypto g) (last_server_crypto_len g);
  g_cpeer : 0 <= last_client_peer_transport_parameters_len g <= 512;
  g_speer : 0 <= last_server_peer_transport_parameters_len g <= 512;
  g_csecrets : shape2 (last_client_secrets g);
  g_ssecrets : shape2 (last_server_secrets g);
  g_cavailable : shape2 (last_client_secret_available g);
  g_savailable : shape2 (last_server_secret_available g);
}.

(** The transport parameters an endpoint is to announce. *)
Definition local_params (g : globals) (is_client : bool) : list byte :=
  slice (pick_transport_parameters g is_client).1 0 (pick_transport_parameters g is_client).2.

Lemma pick_len g ic : globals_ok g -> 0 <= (pick_transport_parameters g ic).2 <= 512.
Proof.
  intros []. unfold pick_transport_parameters.
  destruct (ctrue (transport_parameters_configured g)), ic; cbn [snd]; try lia; by unfold zlen; cbn.
Qed.

(** The state of an endpoint that only knows its parameters and handles. *)
Definition fresh_endpoint (params : list byte) (e : endpoint) : Prop :=
  inv 0 e /\ (forall L, hist e L = [] /\ outp e L = [] /\ inp e L = []) /\ handshake_done e = 0 /\
  slice (local_transport_parameters e) 0 (local_transport_parameters_len e) = params.

Lemma fresh_zero params arr n c s : 0 <= n <= 512 -> slice arr 0 n = params ->
  fresh_endpoint params (zero_endpoint <| local_transport_parameters := arr |>
    <| local_transport_parameters_len := n |> <| ctx := c |> <| ssl := s |>).
Proof.
  intros Hn Hp. pose proof (zero_endpoint_inv zero_endpoint eq_refl) as Hinv.
  split_and!; [|intros L; unfold hist, outp, inp; esimp; cbn; by rewrite !pend_zeros|done|done].
  destruct Hinv. constructor; cbn; try done; lia.
Qed.

Definition init_post (params : list byte) (w : world O) : Z * endpoint * world O -> Prop :=
  fun '(r, e, w') => grows w w' (handles e) /\ fresh_endpoint params e /\ (ctrue r = true -> is_Some (ssl e)).

Ltac ext_step :=
  match goal with
  | |- context [ext ?c ?w] =>
      let r := fresh "r" in let o := fresh "o" in let E := fresh in
      destruct (AdapterLife.ext_cases c w) as (r & o & E); rewrite E; clear E; cbn [snd]
  end.

(** A path of calls that created [X] and otherwise only changed OpenSSL's state. *)
Lemma grows_shape (w w' : world O) X : world_wf w -> (w_next w <= w_next w')%nat -> w_live w' = w_live w ∪ X ->
  (forall k n, (k, n) ∈ X -> (w_next w <= n < w_next w')%nat) -> grows w w' X.
Proof.
  intros Hwf Hn Hl HX. constructor; [|done|done|intros k n Hin; by apply HX in Hin as []].
  intros k n. rewrite Hl. intros [Hin|Hin]%elem_of_union; [apply Hwf in Hin; lia|by apply HX in Hin as []].
Qed.

Lemma init_endpoint_wp g ic (w : world O) : globals_ok g -> world_wf w ->
  wp (init_endpoint g ic w) (init_post (local_params g ic) w).
Proof.
  intros Hg Hwf. unfold init_endpoint. pose proof (pick_len g ic Hg) as Hlen. unfold local_params.
  destruct (pick_transport_parameters g ic) as [params n]. cbn [fst snd] in *.
  unfold QUICZ_OPENSSL_TRANSPORT_PARAMS_BUF_LEN. apply wp_if; [lia|intros _].
  apply wp_bind, wp_read_array; [lia..|]. apply wp_bind, wp_write_array; [lia|rewrite zlen_slice; lia|].
  assert (slice (splice [] 0 (slice params 0 n)) 0 n = slice params 0 n) as Hs.
  { by apply slice_splice_len, zlen_slice; lia. }
  assert (forall w' : world O, w_next w' = S (w_next w) -> w_live w' = w_live w ∪ {[(KCtx, w_next w)]} ->
    grows w w' ({[(KCtx, w_next w)]} ∪ ∅)) as G1.
  { intros w' E1 E2. apply grows_shape; [done|lia|set_solver|].
    intros k n'. rewrite E1, right_id_L, elem_of_singleton by apply _. intros [= -> ->]. lia. }
  assert (forall w' : world O, w_next w' = S (S (w_next w)) ->
    w_live w' = w_live w ∪ {[(KCtx, w_next w)]} ∪ {[(KSsl, S (w_next w))]} ->
    grows w w' ({[(KCtx, w_next w)]} ∪ {[(KSsl, S (w_next w))]})) as G2.
  { intros w' E1 E2. apply grows_shape; [done|lia|set_solver|].
    intros k n'. rewrite E1, elem_of_union, !elem_of_singleton. intros [[= -> ->]|[= -> ->]]; lia. }
  change (local_transport_parameters zero_endpoint) with (@nil byte).
  set (arr := splice [] 0 (slice params 0 n)) in *. clearbody arr. cbv zeta.
  destruct (ext_new_spec KCtx (CallCtxNew ic) w) as [(o & E)|(o & E)]; rewrite E; clear E; cbn beta iota.
  { apply wp_ret. split_and!; [|by apply (fresh_zero _ arr n None None)|done].
    apply grows_shape; cbn; try done; set_solver. }
  destruct (AdapterLife.configure_ctx_cases (w_next w) (World o (S (w_next w)) (w_live w ∪ {[(KCtx, w_next w)]})))
    as (ok & o1 & E). change (@Adapter.configure_ctx H O) with (@init_ctx H O) in E. rewrite E. clear E.
  destruct ok; cbn [negb].
  2:{ apply wp_ret. split_and!; [by apply G1|by apply (fresh_zero _ arr n (Some _) None)|done]. }
  do 2 ext_step.
  match goal with |- context [ext_new KSsl ?c ?w'] =>
    destruct (ext_new_spec KSsl c w') as [(o4 & E)|(o4 & E)]; rewrite E; clear E; cbn beta iota end.
  { apply wp_ret. split_and!; [by apply G1|by apply (fresh_zero _ arr n (Some _) None)|done]. }
  do 3 ext_step. destruct (ctrue _); cbn [negb].
  2:{ apply wp_ret. split_and!; [by apply G2|by apply (fresh_zero _ arr n (Some _) (Some _))|done]. }
  apply wp_bind, wp_read_array; [esimp; lia..|]. ext_step. destruct (ctrue _); cbn [negb].
  2:{ apply wp_ret. split_and!; [by apply G2|by apply (fresh_zero _ arr n (Some _) (Some _))|done]. }
  destruct ic; ext_step; apply wp_ret; (split_and!; [by apply G2|by apply (fresh_zero _ arr n (Some _) (Some _))|by eexists]).
Qed.

Lemma init_pair_wp g (w : world O) : globals_ok g -> world_wf w ->
  wp (init_pair g zero_endpoint zero_endpoint w) (fun '(ok, c, s, w') => grows w w' (handles c ∪ handles s) /\
    handles c ## handles s /\
    (ok = true -> fresh_endpoint (local_params g true) c /\ fresh_endpoint (local_params g false) s /\
                  is_Some (ssl c) /\ is_Some (ssl s))).
Proof.
  intros Hg Hwf. unfold init_pair. apply wp_bind. eapply wp_mono; [by apply init_endpoint_wp|].
  intros [[r c] w1] (G1 & F1 & S1). cbn beta iota. apply wp_if; intros Er.
  { apply wp_ret. assert (handles zero_endpoint = ∅) as -> by (unfold handles; cbn; set_solver).
    split_and!; [by eapply grows_eq; [exact G1|set_solver]|set_solver|done]. }
  apply wp_bind. eapply wp_mono; [apply init_endpoint_wp; [done|by apply (gr_wf _ _ _ G1)]|].
  intros [[r' s] w2] (G2 & F2 & S2). apply wp_ret. split; [by eapply grows_trans|]. split.
  { pose proof (grows_disjoint _ _ _ (gr_wf _ _ _ G1) G2). pose proof (gr_live _ _ _ G1). set_solver. }
  apply negb_false_iff in Er. intros Er'. auto.
Qed.

Context {Hok : OpenSSLHeadersOk H}.

(** ** Driving and the run loop *)

Lemma drive_handshake_wp d m e s (w : world O) : (forall s o, bounded d (SSL_do_handshake s o)) ->
  inv m e -> m + Z.of_nat d + 1 <= INT_MAX -> ssl e = Some s ->
  wp (drive_handshake e w) (fun '(e', w') => w_live w' = w_live w /\ trans m (Z.of_nat d + 1) e none none e').
Proof.
  intros Hd Hinv Hm Hs. unfold drive_handshake. rewrite Hs. cbn [mbind option_bind].
  apply wp_bind. eapply wp_mono; [apply (ep_drive_wp d _ (Hd s (w_ossl w)) m e Hinv); lia|].
  intros [[rc o] e1] T1. cbn beta iota. pose proof (ep_trans_inv _ _ _ _ _ _ T1) as Hi1.
  assert (forall e', step e1 LOther e' -> trans m (Z.of_nat d + 1) e none none e') as Hlast.
  { intros e' Hstep. destruct (ep_trans_step _ _ _ _ Hi1 ltac:(lia) Hstep) as [T2 _].
    by eapply ep_trans_weaken; [exact (ep_trans_trans _ _ _ _ _ _ _ _ _ _ T1 T2)|lia|..]. }
  apply wp_if; intros Erc; [apply wp_ret; split; [done|apply Hlast, step_done]|].
  unfold ext. destruct (respond _ _) as [err o2]. apply wp_ret. split; [done|]. apply Hlast, step_error.
Qed.

Lemma trans_handles m k e o i e' : inv m e -> m + k <= INT_MAX -> trans m k e o i e' -> ctx e' = ctx e /\ ssl e' = ssl e.
Proof.
  intros Hinv Hm (ls & Hs & Hk & _). by destruct (steps_effect m e ls e' Hinv ltac:(lia) Hs) as [_ (? & ? & _)].
Qed.

Lemma trans_shift m j k e o i e' : 0 <= j -> trans (m + j) k e o i e' -> trans m (j + k) e o i e'.
Proof.
  intros Hj (ls & Hs & Hk & Hi & Hh). exists ls. rewrite Z.add_assoc. split_and!; try done. lia.
Qed.

(** Steps per loop iteration: two drives and two pumps. *)
Definition budget (d : nat) : Z := 2 * (Z.of_nat d + 5).

(** The two endpoints after some iterations: what one gave up the other took. *)
Definition exchanged (m k : Z) (c s c' s' : endpoint) : Prop :=
  exists mc ms, trans m k c mc ms c' /\ trans m k s ms mc s'.

Lemma exchanged_refl m k c s : inv m c -> inv m s -> 0 <= k -> exchanged m k c s c s.
Proof. intros. exists none, none. by split; (eapply ep_trans_weaken; [by apply ep_trans_refl|lia|..]). Qed.

Lemma exchanged_trans m k k' c s c1 s1 c2 s2 : exchanged m k c s c1 s1 -> exchanged (m + k) k' c1 s1 c2 s2 ->
  exchanged m (k + k') c s c2 s2.
Proof.
  intros (mc & ms & T1 & T2) (mc' & ms' & T3 & T4).
  exists (fun L => mc L ++ mc' L), (fun L => ms L ++ ms' L). by split; eapply ep_trans_trans.
Qed.

Lemma exchanged_weaken m k k' c s c' s' : exchanged m k c s c' s' -> k <= k' -> exchanged m k' c s c' s'.
Proof. intros (mc & ms & T1 & T2) Hk. exists mc, ms. by split; eapply ep_trans_weaken. Qed.

Lemma exchanged_inv m k c s c' s' : exchanged m k c s c' s' -> inv (m + k) c' /\ inv (m + k) s'.
Proof. intros (mc & ms & T1 & T2). split; by eapply ep_trans_inv. Qed.

Lemma exchanged_ssl m k c s c' s' : inv m c -> inv m s -> m + k <= INT_MAX -> exchanged m k c s c' s' ->
  ssl c' = ssl c /\ ssl s' = ssl s.
Proof.
  intros Hc Hs Hm (mc & ms & T1 & T2). split; [by apply (trans_handles m k c mc ms c')|by apply (trans_handles m k s ms mc s')].
Qed.

Lemma run_loop_wp d (Hd : forall s o, bounded d (SSL_do_handshake s o)) n : forall m it c s (w : world O),
  inv m c -> inv m s -> is_Some (ssl c) -> is_Some (ssl s) -> m + Z.of_nat n * budget d <= INT_MAX ->
  wp (run_loop n it c s w it) (fun '(c', s', w', it') => w_live w' = w_live w /\ it <= it' <= it + Z.of_nat n /\
    exchanged m (Z.of_nat n * budget d) c s c' s').
Proof.
  unfold budget. induction n as [|n IH]; intros m it c s w Hc Hs [sc Hsc] [ss Hss] Hm; cbn [run_loop].
  { apply wp_ret. split_and!; [done|lia|lia|]. by apply exchanged_refl. }
  apply wp_if; intros Edone.
  { apply wp_ret. split_and!; [done|lia|lia|]. apply exchanged_refl; [done|done|lia]. }
  apply wp_bind. eapply wp_mono; [apply (drive_handshake_wp d m c sc w Hd Hc); [lia|done]|].
  intros [c1 w1] [Hl1 T1]. cbn beta iota. pose proof (ep_trans_inv _ _ _ _ _ _ T1) as Hc1.
  apply wp_bind. eapply wp_mono; [apply (pump_wp (m + (Z.of_nat d + 1)) c1 s Hc1); [by apply (ep_inv_mono m); [lia|]|lia]|].
  intros [[r c2] s2] (mc & T2 & T3 & _). cbn beta iota.
  assert (exchanged m (Z.of_nat d + 5) c s c2 s2) as X1.
  { exists mc, none. split.
    - by eapply ep_trans_weaken; [exact (ep_trans_trans _ _ _ _ _ _ _ _ _ _ T1 T2)|lia|..].
    - by eapply ep_trans_weaken; [apply (trans_shift m (Z.of_nat d + 1)); [lia|exact T3]|lia|..]. }
  apply wp_if; intros Er.
  { apply wp_ret. split_and!; [done|lia|lia|]. by eapply exchanged_weaken; [exact X1|lia]. }
  destruct (exchanged_inv _ _ _ _ _ _ X1) as [Hc2 Hs2].
  destruct (exchanged_ssl m (Z.of_nat d + 5) c s c2 s2 Hc Hs ltac:(lia) X1) as [Ec2 Es2].
  apply wp_bind. eapply wp_mono; [apply (drive_handshake_wp d (m + (Z.of_nat d + 5)) s2 ss w1 Hd Hs2); [lia|congruence]|].
  intros [s3 w3] [Hl3 T4]. cbn beta iota. pose proof (ep_trans_inv _ _ _ _ _ _ T4) as Hs3.
  apply wp_bind. eapply wp_mono; [apply (pump_wp (m + (Z.of_nat d + 5) + (Z.of_nat d + 1)) s3 c2 Hs3);
    [by eapply ep_inv_mono; [|exact Hc2]; lia|lia]|].
  intros [[r' s4] c4] (ms & T5 & T6 & _). cbn beta iota.
  assert (exchanged m (2 * (Z.of_nat d + 5)) c s c4 s4) as X2.
  { eapply exchanged_weaken; [eapply (exchanged_trans _ _ (Z.of_nat d + 5) _ _ _ _ _ _ X1)|lia]. exists none, ms. split.
    - by eapply ep_trans_weaken; [apply (trans_shift _ (Z.of_nat d + 1)); [lia|exact T6]|lia|..].
    - by eapply ep_trans_weaken; [exact (ep_trans_trans _ _ _ _ _ _ _ _ _ _ T4 T5)|lia|..]. }
  apply wp_if; intros Er'.
  { apply wp_ret. split_and!; [congruence|lia|lia|]. by eapply exchanged_weaken; [exact X2|lia]. }
  destruct (exchanged_inv _ _ _ _ _ _ X2) as [Hc4 Hs4].
  destruct (exchanged_ssl m (2 * (Z.of_nat d + 5)) c s c4 s4 Hc Hs ltac:(lia) X2) as [Ec4 Es4].
  eapply wp_mono; [apply (IH (m + 2 * (Z.of_nat d + 5)) (it + 1) c4 s4 w3); [done|done|by eexists; rewrite Ec4|by eexists; rewrite Es4|lia]|].
  intros [[[c5 s5] w5] it5] (Hl5 & Hit & X3). split_and!; [congruence|lia|lia|].
  by eapply exchanged_weaken; [exact (exchanged_trans _ _ _ _ _ _ _ _ _ X2 X3)|lia].
Qed.

(** ** Recording a run *)

Lemma for_range_wp {S : Type} (P : Z -> S -> Prop) body n : forall i s, P i s ->
  (forall j s, i <= j < i + Z.of_nat n -> P j s -> wp (body j s) (P (j + 1))) ->
  wp (for_range n i body s) (P (i + Z.of_nat n)).
Proof.
  induction n as [|n IH]; intros i s Hs Hbody; cbn [for_range].
  - by rewrite Z.add_0_r.
  - apply wp_bind. eapply wp_mono; [apply Hbody; [lia|done]|]. intros s' Hs'.
    replace (i + Z.of_nat (Datatypes.S n)) with (i + 1 + Z.of_nat n) by lia. apply IH; [done|].
    intros j s'' Hj. apply Hbody. lia.
Qed.

(** [bufs]/[lens] hold the history of [e] for the levels below [i], and
    nothing for the others. *)
Definition recorded (e : endpoint) (i : Z) (bufs : list (list byte)) (lens : list Z) : Prop :=
  levels_ok QUICZ_OPENSSL_CRYPTO_BUF_LEN bufs lens /\
  forall L, pend bufs lens L = if L <? i then hist e L else [].

Lemma recorded_start e bufs : zlen bufs = 4 -> recorded e 0 bufs no_lens.
Proof.
  intros Hb. split; [constructor; [done..|]; by intros i n ->%zget_zeros|].
  intros L. rewrite pend_zeros. destruct (Z.ltb_spec L 0); [|done]. symmetry. unfold hist, pend, zget.
  by destruct (Z.ltb_spec L 0); [|lia].
Qed.

Lemma copy_history_level_wp m e i bufs lens : inv m e -> 0 <= i < 4 -> recorded e i bufs lens ->
  wp (copy_history_level e i bufs lens) (fun '(bufs', lens') => recorded e (i + 1) bufs' lens').
Proof.
  intros Hinv Hi [Hok1 Hrec]. unfold copy_history_level. destruct Hok1 as [Hb Hl Hc].
  pose proof (i_hist _ _ Hinv) as Hh. pose proof (lv_lens _ _ _ Hh).
  destruct (zget_lt (out_history_len e) i) as [n Hn]; [lia|].
  destruct (pend_at _ _ _ _ Hh Hn) as (src & Hsrc & Ep & Ez & Hcap). destruct (zget_lt bufs i) as [dst Hdst]; [lia|].
  rewrite Hn, Hsrc. cbn [mbind option_bind]. apply wp_bind, wp_read_array; [lia..|]. rewrite Hdst. cbn [mbind option_bind].
  apply wp_bind, wp_write_array; [lia..|]. apply wp_ret. split.
  - by apply levels_ok_set; [constructor|lia|lia].
  - intros L. unfold pend at 1. rewrite !zget_zset by lia. destruct (Z.eqb_spec i L) as [<-|Hne].
    + rewrite slice_splice_len by (done || lia).
      destruct (Z.ltb_spec i (i + 1)); [|lia].
      unfold hist. by rewrite Ep.
    + fold (pend bufs lens L). rewrite Hrec.
      by destruct (Z.ltb_spec L i), (Z.ltb_spec L (i + 1)); try lia.
Qed.

Definition with_crypto (g : globals) (cb : list (list byte)) (cl : list Z) (sb : list (list byte)) (sl : list Z) : globals :=
  g <| last_client_crypto := cb |> <| last_client_crypto_len := cl |>
    <| last_server_crypto := sb |> <| last_server_crypto_len := sl |>.

Lemma copy_last_crypto_wp m c s g : inv m c -> inv m s -> globals_ok g ->
  wp (copy_last_crypto c s g) (fun g' => exists cb cl sb sl, g' = with_crypto g cb cl sb sl /\
    recorded c 4 cb cl /\ recorded s 4 sb sl).
Proof.
  intros Hc Hs Hg. unfold copy_last_crypto. cbv zeta.
  apply (for_range_wp (fun i g' => exists cb cl sb sl, g' = with_crypto g cb cl sb sl /\
    recorded c i cb cl /\ recorded s i sb sl)).
  - exists (last_client_crypto g), no_lens, (last_server_crypto g), no_lens. split; [by destruct g|].
    split; apply recorded_start; [apply (lv_bufs _ _ _ (g_ccrypto _ Hg))|apply (lv_bufs _ _ _ (g_scrypto _ Hg))].
  - intros i g' Hi (cb & cl & sb & sl & -> & Rc & Rs). change (0 <= i < 4) in Hi. cbn [last_client_crypto last_client_crypto_len with_crypto set_field].
    apply wp_bind. eapply wp_mono; [by apply (copy_history_level_wp m); [|lia|]|]. intros [cb' cl'] Rc'. cbn beta iota zeta.
    apply wp_bind. eapply wp_mono; [by apply (copy_history_level_wp m s i); [|lia|]|]. intros [sb' sl'] Rs'.
    apply wp_ret. by exists cb', cl', sb', sl'.
Qed.

(** The secret recorded for a level and direction. *)
Definition secret_at (secs : list (list (list byte))) (avail : list (list Z)) (level dir : Z) : option (list byte) :=
  match zget2 avail level dir, zget2 secs level dir with
  | Some a, Some arr => if ctrue a then Some (slice arr 0 QUICZ_OPENSSL_SECRET_LEN) else None
  | _, _ => None
  end.

(** The secrets of [e] at the indices before [i] (in the order of the loops)
    are recorded, and no others. *)
Definition recorded_secrets (e : endpoint) (i : Z) (sv : list (list (list byte)) * list (list Z)) : Prop :=
  shape2 sv.1 /\ shape2 sv.2 /\
  forall l d, 0 <= l < 4 -> 0 <= d < 2 ->
    secret_at sv.1 sv.2 l d = if 2 * l + d <? i then secret_at (secrets e) (secret_available e) l d else None.

Lemma copy_available_secret_wp m e l d sv : inv m e -> 0 <= l < 4 -> 0 <= d < 2 -> recorded_secrets e (2 * l + d) sv ->
  wp (copy_available_secret e l d sv) (recorded_secrets e (2 * l + d + 1)).
Proof.
  intros Hinv Hl Hd (Hs1 & Hs2 & Hrec). destruct sv as [secs avail]. cbn [fst snd] in *. unfold copy_available_secret.
  destruct (shape2_get _ l d (i_available _ _ Hinv)) as [a Ha]; [lia..|].
  destruct (shape2_get _ l d (i_secrets _ _ Hinv)) as [src Hsrc]; [lia..|].
  destruct (shape2_get _ l d Hs1) as [dst Hdst]; [lia..|]. destruct (shape2_get _ l d Hs2) as [a' Ha']; [lia..|].
  assert (forall l' d', 0 <= l' < 4 -> 0 <= d' < 2 -> (l' =? l) && (d' =? d) = false ->
    (2 * l' + d' <? 2 * l + d + 1) = (2 * l' + d' <? 2 * l + d)) as Hidx.
  { intros l' d' Hl' Hd' Hne. destruct (Z.ltb_spec (2 * l' + d') (2 * l + d + 1)), (Z.ltb_spec (2 * l' + d') (2 * l + d)); lia. }
  rewrite Ha. cbn [mbind option_bind]. destruct (ctrue a) eqn:Ea.
  - rewrite Hsrc. cbn [mbind option_bind]. apply wp_bind, wp_read_array; [done..|]. rewrite Hdst. cbn [mbind option_bind].
    apply wp_bind, wp_write_array; [done|rewrite zlen_slice; done|]. rewrite Ha'. cbn [mbind option_bind].
    apply wp_ret. split_and!; [by apply shape2_set..|]. cbn [fst snd]. intros l' d' Hl' Hd'.
    unfold secret_at at 1. rewrite !zget2_zset2 by done.
    destruct ((l =? l') && (d =? d')) eqn:E.
    + apply andb_true_iff in E as [->%Z.eqb_eq ->%Z.eqb_eq]. destruct (Z.ltb_spec (2 * l' + d') (2 * l' + d' + 1)); [|lia].
      unfold secret_at. rewrite Ha, Hsrc, Ea. cbn [ctrue negb Z.eqb]. f_equal.
      by apply slice_splice_len, zlen_slice.
    + rewrite Hidx by (done || lia). by apply Hrec.
  - apply wp_ret. split_and!; [done..|]. cbn [fst snd]. intros l' d' Hl' Hd'. rewrite Hrec by done.
    destruct ((l' =? l) && (d' =? d)) eqn:E; [|by rewrite Hidx].
    apply andb_true_iff in E as [->%Z.eqb_eq ->%Z.eqb_eq].
    destruct (Z.ltb_spec (2 * l + d) (2 * l + d + 1)), (Z.ltb_spec (2 * l + d) (2 * l + d)); try lia.
    unfold secret_at. by rewrite Ha, Hsrc, Ea.
Qed.

Definition with_secrets (g : globals) (c s : list (list (list byte)) * list (list Z)) : globals :=
  g <| last_client_secrets := c.1 |> <| last_client_secret_available := c.2 |>
    <| last_server_secrets := s.1 |> <| last_server_secret_available := s.2 |>.

Lemma recorded_secrets_start e secs : shape2 secs -> recorded_secrets e 0 (secs, none_available).
Proof.
  intros Hs. split_and!; [done|apply shape2_fresh|]. cbn [fst snd]. intros l d Hl Hd.
  destruct (Z.ltb_spec (2 * l + d) 0); [lia|]. unfold secret_at.
  assert (zget2 none_available l d = Some 0) as ->.
  { destruct (shape2_get none_available l d (shape2_fresh 0)) as [a Ha]; [lia..|]. rewrite Ha. f_equal.
    unfold zget2 in Ha. destruct (zget none_available l) as [r|] eqn:E; [|done]. unfold zget in E, Ha.
    destruct (l <? 0); [done|]. destruct (d <? 0); [done|].
    apply list_elem_of_lookup_2 in E. cbn in Ha. apply list_elem_of_lookup_2 in Ha.
    unfold none_available in E. rewrite !elem_of_cons, elem_of_nil in E.
    destruct E as [->|[->|[->|[->|?]]]]; rewrite ?elem_of_cons, ?elem_of_nil in Ha; naive_solver. }
  by destruct (zget2 secs l d).
Qed.

Lemma copy_last_secrets_wp m c s g : inv m c -> inv m s -> globals_ok g ->
  wp (copy_last_secrets c s g) (fun g' => exists cs ss, g' = with_secrets g cs ss /\
    recorded_secrets c 8 cs /\ recorded_secrets s 8 ss).
Proof.
  intros Hc Hs Hg. unfold copy_last_secrets. cbv zeta.
  apply (for_range_wp (fun l g' => exists cs ss, g' = with_secrets g cs ss /\
    recorded_secrets c (2 * l) cs /\ recorded_secrets s (2 * l) ss)).
  - exists (last_client_secrets g, none_available), (last_server_secrets g, none_available). split; [by destruct g|].
    split; apply recorded_secrets_start; [apply (g_csecrets _ Hg)|apply (g_ssecrets _ Hg)].
  - intros l g' Hl Hinit. 
    replace (2 * (l + 1)) with (2 * l + (0 + Z.of_nat (Z.to_nat QUICZ_OPENSSL_SECRET_DIRECTION_COUNT)))
      by (change (Z.of_nat (Z.to_nat QUICZ_OPENSSL_SECRET_DIRECTION_COUNT)) with 2; lia).
    apply (for_range_wp (fun d g' => exists cs ss, g' = with_secrets g cs ss /\
      recorded_secrets c (2 * l + d) cs /\ recorded_secrets s (2 * l + d) ss)); [by rewrite Z.add_0_r|].
    intros d g1 Hd (cs & ss & -> & Rc & Rs). change (0 <= l < 4) in Hl. change (0 <= d < 2) in Hd.
    destruct cs as [cs ca], ss as [ss sa]. cbn [with_secrets set_field fst snd last_client_secrets last_client_secret_available].
    apply wp_bind. eapply wp_mono; [by apply (copy_available_secret_wp m c l d (cs, ca)); [|lia|lia|]|].
    intros [cs' ca'] Rc'. cbn beta iota zeta.
    apply wp_bind. eapply wp_mono; [by apply (copy_available_secret_wp m s l d (ss, sa)); [|lia|lia|]|].
    intros [ss' sa'] Rs'. apply wp_ret. exists (cs', ca'), (ss', sa'). by rewrite Z.add_assoc.
Qed.

(** Peer parameters of an endpoint. *)
Definition peer_params (e : endpoint) : list byte :=
  slice (peer_transport_parameters e) 0 (peer_transport_parameters_len e).

Lemma copy_last_params_wp m c s g : inv m c -> inv m s ->
  wp (copy_last_transport_parameters c s g) (fun g' => exists ca sa,
    g' = g <| last_client_peer_transport_parameters := ca |> <| last_server_peer_transport_parameters := sa |>
           <| last_client_peer_transport_parameters_len := peer_transport_parameters_len c |>
           <| last_server_peer_transport_parameters_len := peer_transport_parameters_len s |> /\
    slice ca 0 (peer_transport_parameters_len c) = peer_params c /\
    slice sa 0 (peer_transport_parameters_len s) = peer_params s).
Proof.
  intros Hc Hs. pose proof (i_peer _ _ Hc). pose proof (i_peer _ _ Hs).
  unfold copy_last_transport_parameters, QUICZ_OPENSSL_TRANSPORT_PARAMS_BUF_LEN. cbv zeta.
  apply wp_bind, wp_read_array; [lia..|]. apply wp_bind, wp_write_array; [lia|rewrite zlen_slice; lia|].
  apply wp_bind, wp_read_array; [lia..|]. apply wp_bind, wp_write_array; [lia|rewrite zlen_slice; lia|].
  apply wp_ret. exists (splice [] 0 (peer_params c)), (splice [] 0 (peer_params s)). split; [reflexivity|].
  split; apply slice_splice_len; try lia; apply zlen_slice; lia.
Qed.

Lemma copy_level_bytes_wp src dst : zlen src = 4 -> zlen dst = 4 -> wp (copy_level_bytes src dst) (fun l => l = src).
Proof.
  intros Hsrc Hdst. unfold copy_level_bytes.
  eapply wp_mono; [apply (for_range_wp (fun i l => zlen l = 4 /\ forall j, j < i -> zget l j = zget src j))|].
  - split; [done|]. intros j Hj. unfold zget. by destruct (Z.ltb_spec j 0); [|lia].
  - intros i l Hi [Hl Hpre]. change (0 <= i < 4) in Hi. destruct (zget_lt src i) as [n Hn]; [lia|]. rewrite Hn.
    apply wp_ret. split; [by rewrite zlen_zset|]. intros j Hj. rewrite zget_zset by lia.
    destruct (Z.eqb_spec i j) as [<-|]; [done|]. apply Hpre. lia.
  - cbn beta. intros l [Hl Hall]. apply list_eq_zget. intros j. destruct (decide (j < 4)); [by apply Hall|].
    unfold zget, zlen in *. destruct (j <? 0); [done|]. rewrite !lookup_ge_None_2 by lia. done.
Qed.

(** What a result says of the two endpoints: every field the C code copies
    per endpoint is that endpoint's, client and server apart. *)
Definition reports (r : quicz_openssl_pair_transcript_result) (c s : endpoint) : Prop :=
  client_done r = handshake_done c /\ server_done r = handshake_done s /\
  client_send_callbacks r = send_callbacks c /\ server_send_callbacks r = send_callbacks s /\
  client_recv_callbacks r = recv_callbacks c /\ server_recv_callbacks r = recv_callbacks s /\
  client_release_callbacks r = release_callbacks c /\ server_release_callbacks r = release_callbacks s /\
  client_yield_secret_callbacks r = yield_secret_callbacks c /\ server_yield_secret_callbacks r = yield_secret_callbacks s /\
  client_got_transport_params_callbacks r = got_transport_params_callbacks c /\ server_got_transport_params_callbacks r = got_transport_params_callbacks s /\
  client_peer_transport_parameters_len r = peer_transport_parameters_len c /\ server_peer_transport_parameters_len r = peer_transport_parameters_len s /\
  client_keylog_callbacks r = keylog_callbacks c /\ server_keylog_callbacks r = keylog_callbacks s /\
  client_keylog_bytes r = keylog_bytes c /\ server_keylog_bytes r = keylog_bytes s /\
  client_alert_callbacks r = alert_callbacks c /\ server_alert_callbacks r = alert_callbacks s /\
  client_last_alert r = last_alert c /\ server_last_alert r = last_alert s /\
  client_last_ssl_error r = last_ssl_error c /\ server_last_ssl_error r = last_ssl_error s /\
  client_read_level r = read_level c /\ server_read_level r = read_level s /\
  client_write_level r = write_level c /\ server_write_level r = write_level s /\
  client_out_level_bytes r = out_total_len c /\ server_out_level_bytes r = out_total_len s.

Lemma copy_result_wp m r c s : inv m c -> inv m s ->
  zlen (client_out_level_bytes r) = 4 -> zlen (server_out_level_bytes r) = 4 ->
  wp (copy_result_endpoint r c s) (fun r' => reports r' c s /\ initialized r' = initialized r /\
    drive_iterations r' = drive_iterations r).
Proof.
  intros Hc Hs Hr1 Hr2. unfold copy_result_endpoint. cbv zeta.
  assert (forall e, inv m e -> zlen (out_total_len e) = 4) as Htl.
  { intros e He. rewrite (i_total _ _ He). apply (lv_lens _ _ _ (i_hist _ _ He)). }
  apply wp_bind. eapply wp_mono; [apply copy_level_bytes_wp; [by apply Htl|done]|]. intros l ->.
  apply wp_bind. eapply wp_mono; [apply copy_level_bytes_wp; [by apply Htl|done]|]. intros l ->. by apply wp_ret.
Qed.

(** The recorded transcript of a client or server. *)
Definition client_transcript (g : globals) : Z -> list byte := pend (last_client_crypto g) (last_client_crypto_len g).
Definition server_transcript (g : globals) : Z -> list byte := pend (last_server_crypto g) (last_server_crypto_len g).

Lemma recorded_all m e bufs lens : inv m e -> recorded e 4 bufs lens -> forall L, pend bufs lens L = hist e L.
Proof.
  intros Hinv [_ Hrec] L. rewrite Hrec. destruct (Z.ltb_spec L 4); [done|].
  pose proof (lv_bufs _ _ _ (i_hist _ _ Hinv)) as Hb. symmetry. unfold hist, pend, zget, zlen in *.
  destruct (L <? 0); [done|]. by rewrite (lookup_ge_None_2 (out_history e)) by lia.
Qed.

(** Two fresh endpoints after the run: their traces, what was sent, and what
    the other side was given of it. *)
Definition ran (g : globals) (g' : globals) (r : quicz_openssl_pair_transcript_result) : Prop :=
  exists c0 s0 lc ls c s,
    fresh_endpoint (local_params g true) c0 /\ fresh_endpoint (local_params g false) s0 /\
    steps c0 lc c /\ steps s0 ls s /\ reports r c s /\
    (forall L, client_transcript g' L = sent L lc /\ sent L lc = received L ls ++ outp c L) /\
    (forall L, server_transcript g' L = sent L ls /\ sent L ls = received L lc ++ outp s L) /\
    (forall l d, 0 <= l < 4 -> 0 <= d < 2 ->
       secret_at (last_client_secrets g') (last_client_secret_available g') l d = secret_at (secrets c) (secret_available c) l d /\
       secret_at (last_server_secrets g') (last_server_secret_available g') l d = secret_at (secrets s) (secret_available s) l d) /\
    slice (last_client_peer_transport_parameters g') 0 (last_client_peer_transport_parameters_len g') = peer_params c /\
    slice (last_server_peer_transport_parameters g') 0 (last_server_peer_transport_parameters_len g') = peer_params s.

(** A fresh pair that exchanged bytes: histories, deliveries and what is left. *)
Lemma exchanged_streams k c s c' s' pc ps : fresh_endpoint pc c -> fresh_endpoint ps s -> 0 <= k <= INT_MAX ->
  exchanged 0 k c s c' s' -> exists lc ls, steps c lc c' /\ steps s ls s' /\
    (forall L, hist c' L = sent L lc /\ sent L lc = received L ls ++ outp c' L) /\
    (forall L, hist s' L = sent L ls /\ sent L ls = received L lc ++ outp s' L).
Proof.
  intros (Hc & Hcq & _) (Hs & Hsq & _) Hk (mc & ms & (lc & Sc & Kc & _ & Ec) & (ls & Ss & Ks & _ & Es)).
  exists lc, ls. split_and!; try done; intros L.
  - destruct (steps_effect 0 c lc c' Hc ltac:(lia) Sc) as [_ (_ & _ & HL)]. destruct (HL L) as [E1 E2].
    destruct (Hcq L) as (Q1 & Q2 & _). rewrite Q1, Q2 in *. cbn in E1, E2. split; [done|].
    by rewrite E2, (proj1 (Ec L)), (proj2 (Es L)).
  - destruct (steps_effect 0 s ls s' Hs ltac:(lia) Ss) as [_ (_ & _ & HL)]. destruct (HL L) as [E1 E2].
    destruct (Hsq L) as (Q1 & Q2 & _). rewrite Q1, Q2 in *. cbn in E1, E2. split; [done|].
    by rewrite E2, (proj1 (Es L)), (proj2 (Ec L)).
Qed.

(** Removing two owners' objects from a world that grew by them. *)
Lemma freed_sets (L A B C D : gset resource) :
  A ## L -> B ## L ∪ A -> (C ∪ D) ## L ∪ A ∪ B -> C ## D ->
  A ∪ C ⊆ L ∪ A ∪ B ∪ (C ∪ D) /\ B ∪ D ⊆ (L ∪ A ∪ B ∪ (C ∪ D)) ∖ (A ∪ C) /\
  (L ∪ A ∪ B ∪ (C ∪ D)) ∖ (A ∪ C) ∖ (B ∪ D) = L.
Proof.
  intros H1 H2 H3 H4. split; [clear; set_solver|]. split.
  - intros x Hx. assert (x ∉ A ∪ C) by set_solver. clear - Hx H0. set_solver.
  - apply set_eq. intros x. rewrite !elem_of_difference, !elem_of_union. split; [tauto|].
    intros Hx. assert ((x ∉ A) /\ (x ∉ B) /\ (x ∉ C) /\ (x ∉ D)) by set_solver. tauto.
Qed.

Lemma owned_ptr h e : (h = None -> handles e = ∅) -> owned ((fun a : nat => (a, e)) <$> h) = obj KMem h ∪ handles e.
Proof.
  intros Hn. destruct h as [a|]; cbn [fmap option_fmap option_map owned obj]; [done|].
  rewrite Hn by done. by rewrite left_id_L by apply _.
Qed.

(** Freeing both endpoints gives back what was created since [w0]. *)
Lemma free_pair_wp {A : Type} ca sa c s c' s' (w0 w1 w2 w3 w : world O) (K : world O -> option A) Q :
  world_wf w0 -> grows w0 w1 (obj KMem ca) -> grows w1 w2 (obj KMem sa) -> grows w2 w3 (handles c ∪ handles s) ->
  handles c ## handles s -> handles c' = handles c -> handles s' = handles s -> w_live w = w_live w3 ->
  (ca = None -> handles c = ∅) -> (sa = None -> handles s = ∅) ->
  (forall w', w_live w' = w_live w0 -> wp (K w') Q) ->
  wp (w ← free_endpoint ((fun a => (a, c')) <$> ca) w; w ← free_endpoint ((fun a => (a, s')) <$> sa) w; K w) Q.
Proof.
  intros Hwf G1 G2 G3 Hd Ec Es Hl Nc Ns HK.
  pose proof (grows_disjoint _ _ _ Hwf G1) as D1. pose proof (grows_disjoint _ _ _ (gr_wf _ _ _ G1) G2) as D2.
  pose proof (grows_disjoint _ _ _ (gr_wf _ _ _ G2) G3) as D3.
  pose proof (gr_live _ _ _ G1) as L1. pose proof (gr_live _ _ _ G2) as L2. pose proof (gr_live _ _ _ G3) as L3.
  rewrite <- Ec, <- Es in *. rewrite L2, L1 in *.
  destruct (freed_sets _ _ _ _ _ D1 D2 D3 Hd) as (I1 & I2 & E).
  apply wp_bind. eapply wp_mono; [apply free_endpoint_wp; rewrite owned_ptr, Hl, L3 by done; exact I1|].
  intros x1 E1. rewrite owned_ptr, Hl, L3 in E1 by done.
  apply wp_bind. eapply wp_mono; [apply free_endpoint_wp; rewrite owned_ptr, E1 by done; exact I2|].
  intros x2 E2. apply HK. rewrite owned_ptr, E1 in E2 by done. by rewrite E2.
Qed.

Lemma handles_same e e' : ctx e' = ctx e -> ssl e' = ssl e -> handles e' = handles e.
Proof. unfold handles. by intros -> ->. Qed.

Lemma reset_ok g : globals_ok g -> globals_ok (reset_last g).
Proof.
  intros []. constructor; cbn; try done; try apply shape2_fresh.
  - by apply (proj1 (recorded_start zero_endpoint _ (lv_bufs _ _ _ g_ccrypto0))).
  - by apply (proj1 (recorded_start zero_endpoint _ (lv_bufs _ _ _ g_scrypto0))).
Qed.

(** The static buffers hold the state of [c] and [s]. *)
Record recorded_run (c s : endpoint) (g : globals) : Prop := {
  rr_ok : globals_ok g;
  rr_client : forall L, client_transcript g L = hist c L;
  rr_server : forall L, server_transcript g L = hist s L;
  rr_secrets : forall l d, 0 <= l < 4 -> 0 <= d < 2 ->
    secret_at (last_client_secrets g) (last_client_secret_available g) l d = secret_at (secrets c) (secret_available c) l d /\
    secret_at (last_server_secrets g) (last_server_secret_available g) l d = secret_at (secrets s) (secret_available s) l d;
  rr_cparams : slice (last_client_peer_transport_parameters g) 0 (last_client_peer_transport_parameters_len g) = peer_params c;
  rr_sparams : slice (last_server_peer_transport_parameters g) 0 (last_server_peer_transport_parameters_len g) = peer_params s;
}.

Lemma globals_ok_secrets g cs ss : globals_ok g -> shape2 cs.1 -> shape2 cs.2 -> shape2 ss.1 -> shape2 ss.2 ->
  globals_ok (with_secrets g cs ss).
Proof. intros []. by constructor. Qed.

Lemma record_wp {A : Type} m c s g (K : globals -> option A) Q : inv m c -> inv m s -> globals_ok g ->
  (forall g', recorded_run c s g' -> wp (K g') Q) ->
  wp (g ← copy_last_crypto c s g; g ← copy_last_transport_parameters c s g; g ← copy_last_secrets c s g; K g) Q.
Proof.
  intros Hc Hs Hg HK. pose proof (i_peer _ _ Hc). pose proof (i_peer _ _ Hs).
  apply wp_bind. eapply wp_mono; [by apply (copy_last_crypto_wp m)|].
  intros g1 (cb & cl & sb & sl & -> & Rc & Rs). apply wp_bind. eapply wp_mono; [by apply (copy_last_params_wp m)|].
  intros g2 (ca & sa & E2 & Pc & Ps).
  assert (globals_ok g2) as Hg2.
  { subst g2. destruct Hg. constructor; cbn; try done; [apply Rc|apply Rs]. }
  apply wp_bind. eapply wp_mono; [by apply (copy_last_secrets_wp m)|]. intros g3 (cs & ss & -> & Sc & Ss).
  apply HK. constructor; [|subst g2..].
  - destruct Sc as (? & ? & _), Ss as (? & ? & _). by apply globals_ok_secrets.
  - by apply (recorded_all m).
  - by apply (recorded_all m).
  - intros l d Hl Hdr. destruct Sc as (_ & _ & Ec), Ss as (_ & _ & Es). rewrite Ec, Es by done.
    by destruct (Z.ltb_spec (2 * l + d) 8); [|lia].
  - done.
  - done.
Qed.

(** What a run leaves behind. *)
Definition run_post (g : globals) (w : world O) : quicz_openssl_pair_transcript_result * globals * world O -> Prop :=
  fun '(r, g', w') => w_live w' = w_live w /\ globals_ok g' /\ 0 <= drive_iterations r <= 80 /\
    if ctrue (initialized r) then ran g g' r
    else forall L, client_transcript g' L = [] /\ server_transcript g' L = [].

(** A run that gave up before the loop. *)
Lemma run_failed g (w : world O) r w' : globals_ok g -> initialized r = 0 -> drive_iterations r = 0 ->
  w_live w' = w_live w -> run_post g w (r, reset_last g, w').
Proof.
  intros Hg E1 E2 Hl. unfold run_post. rewrite E1, E2. split_and!; [done|by apply reset_ok|lia|lia|].
  intros L. unfold client_transcript, server_transcript. cbn. by rewrite !pend_zeros.
Qed.

Lemma run_alloc_failed g ca sa (w w1 w2 : world O) : globals_ok g -> world_wf w ->
  ca = None \/ sa = None -> grows w w1 (obj KMem ca) -> grows w1 w2 (obj KMem sa) ->
  wp (w ← free_endpoint ((fun a => (a, zero_endpoint)) <$> ca) w2;
      w ← free_endpoint ((fun a => (a, zero_endpoint)) <$> sa) w; Some (zero_result, reset_last g, w)) (run_post g w).
Proof.
  intros Hg Hwf Hnone G1 G2. pose proof (gr_wf _ _ _ G2) as Hwf2.
  assert (handles zero_endpoint = ∅) as Hz by (unfold handles; cbn; by rewrite left_id_L by apply _).
  apply (free_pair_wp ca sa zero_endpoint zero_endpoint _ _ w w1 w2 w2); auto.
  - eapply grows_eq; [by apply grows_refl|]. by rewrite Hz, left_id_L by apply _.
  - rewrite Hz. apply disjoint_empty_l.
  - intros w' Hl'. apply wp_ret. by apply run_failed.
Qed.


End WithOpenSSL.

End PairLife.
