(* ===== verification/PairProps.v ===== *)
(** * Operations of the OpenSSL pair

    Pumping, configuration, the copy functions and context sessions. *)
From S2P Require Import Prelude CAbi OpenSSL CryptoLevels Adapter AdapterInv AdapterSession AdapterLife PairTranscript PairInv PairLife.
Import AdapterInv(label(..)).
Import AdapterSession(sent1, pulled1, received1, sent, pulled, received, at_level).
Import Pair PairInv PairLife.
Local Open Scope Z_scope.

Module PairProps.

Section WithOpenSSL.
Context {H : OpenSSLHeaders} {O : OpenSSL}.

(** ** Configuration *)

Definition fits (p : ptr) (n : Z) : bool := (n <=? 512) && negb ((n >? 0) && bool_decide (p = None)).

(** Copying a caller's buffer into an empty parameter array. *)
Lemma copy_in {A : Type} (p : ptr) n (set : list byte -> A) :
  0 <= n <= zlen (default [] p) \/ (p = None /\ 0 <= n) -> fits p n = true ->
  exists arr, slice arr 0 n = ztake n (default [] p) /\
    (if n >? 0 then bs ← read_ptr p n; arr ← write_array 512 [] 0 bs; Some (set arr) else Some (set [])) = Some (set arr).
Proof.
  unfold fits. intros Hn Hf. apply andb_true_iff in Hf as [Hcap%Z.leb_le Hnull].
  destruct (Z.gtb_spec n 0) as [Hpos|Hz].
  - destruct p as [bs|]; [|done]. destruct Hn as [Hn|[? _]]; [|done]. change (0 <= n <= zlen bs) in Hn.
    change (default [] (Some bs)) with bs. exists (splice [] 0 (ztake n bs)). split; [by apply slice_splice_len, zlen_ztake; lia|].
    destruct (wp_elim _ _ (wp_read_ptr bs n (fun x => x = ztake n bs) Hn eq_refl)) as (? & -> & ->). cbn [mbind option_bind].
    unfold write_array. rewrite zlen_ztake by done. by destruct (Z.leb_spec (0 + n) 512); [|lia].
  - assert (n = 0) as -> by lia. by exists [].
Qed.

(** configured transport parameters are the ones announced. The call
    accepts exactly the buffers of at most 512 bytes that are not NULL unless
    empty; when it accepts, the next endpoints announce byte for byte the
    client and the server buffer; when it refuses, every static variable keeps
    its value. *)
Theorem pair_configure_exact (g : globals) (cp sp : ptr) (cl sl : Z)
    (Hc : 0 <= cl <= zlen (default [] cp) \/ (cp = None /\ 0 <= cl))
    (Hs : 0 <= sl <= zlen (default [] sp) \/ (sp = None /\ 0 <= sl)) :
  wp (quicz_openssl_pair_transcript_configure_transport_parameters cp cl sp sl g) (fun '(r, g') =>
    if fits cp cl && fits sp sl
    then r = 1 /\ local_params g' true = ztake cl (default [] cp) /\ local_params g' false = ztake sl (default [] sp) /\
         (globals_ok g -> globals_ok g')
    else r = 0 /\ g' = g).
Proof.
  unfold quicz_openssl_pair_transcript_configure_transport_parameters, fits, QUICZ_OPENSSL_TRANSPORT_PARAMS_BUF_LEN.
  assert ((cl >? 0) && bool_decide (cp = None) || (sl >? 0) && bool_decide (sp = None) || (cl >? 512) || (sl >? 512) =
    negb (fits cp cl && fits sp sl)) as E.
  { unfold fits. rewrite (Z.gtb_ltb cl 512), (Z.gtb_ltb sl 512), !Z.ltb_antisym.
    by destruct (_ && bool_decide (cp = None)), (_ && bool_decide (sp = None)), (cl <=? 512), (sl <=? 512). }
  rewrite E. fold (fits cp cl) (fits sp sl). destruct (fits cp cl) eqn:F1, (fits sp sl) eqn:F2; cbn [negb andb]; try by apply wp_ret.
  pose proof F1 as [Hcap1%Z.leb_le _]%andb_true_iff. pose proof F2 as [Hcap2%Z.leb_le _]%andb_true_iff.
  cbv zeta. set (g0 := g <| configured_client_transport_parameters := [] |> <| configured_server_transport_parameters := [] |>).
  destruct (copy_in cp cl (fun arr => g0 <| configured_client_transport_parameters := arr |>) Hc F1) as (ca & Ec & Xc).
  change (configured_client_transport_parameters g0) with (@nil byte).
  change (g0 <| configured_client_transport_parameters := [] |>) with g0 in Xc. rewrite Xc. cbn [mbind option_bind].
  set (g1 := g0 <| configured_client_transport_parameters := ca |>).
  destruct (copy_in sp sl (fun arr => g1 <| configured_server_transport_parameters := arr |>) Hs F2) as (sa & Es & Xs).
  change (configured_server_transport_parameters g1) with (@nil byte).
  change (g1 <| configured_server_transport_parameters := [] |>) with g1 in Xs. rewrite Xs. cbn [mbind option_bind].
  apply wp_ret. split_and!; try done. intros []. constructor; cbn; try done; lia.
Qed.

(** ** Pumping *)

Context {Hok : OpenSSLHeadersOk H}.

(** pumping moves whole levels and never loses or invents bytes. At every
    level the receiver gains exactly what the sender gives up, in order,
    appended to what it had. On success the sender has nothing left; on
    failure the levels below the first one that does not fit were moved whole
    and that level and the ones above are untouched. *)
Theorem pair_pump_conserves m (from to : endpoint)
    (Hfrom : inv m from) (Hto : inv m to) (Hm : m + 4 <= INT_MAX) :
  wp (pump_crypto from to) (fun '(r, from', to') =>
    (forall L, exists moved, inp to' L = inp to L ++ moved /\ outp from L = moved ++ outp from' L) /\
    (r = 1 /\ (forall L, 0 <= L < 4 -> outp from' L = []) \/
     r = 0 /\ exists K, 0 <= K < 4 /\ (forall L, 0 <= L < K -> outp from' L = []) /\
       (forall L, K <= L -> outp from' L = outp from L /\ inp to' L = inp to L) /\
       zlen (inp to K) + zlen (outp from K) > QUICZ_OPENSSL_CRYPTO_BUF_LEN)).
Proof.
  eapply wp_mono; [by apply (pump_wp m)|]. intros [[r from'] to'] (moved & _ & _ & Hmv & _ & Hres).
  split; [intros L; by exists (moved L)|]. destruct Hres as [[-> Hz]|(-> & K & HK & Hz & Hab & Hcap)]; [by left|right].
  split; [done|]. exists K. split_and!; try done; try lia. intros L HL. destruct (Hmv L) as [E1 E2].
  rewrite Hab in E1, E2 by done. by rewrite E1, E2, app_nil_r.
Qed.

(** ** Copying the recorded run *)

Lemma copy_crypto_level_wp bufs lens level out v : levels_ok QUICZ_OPENSSL_CRYPTO_BUF_LEN bufs lens ->
  wp (copy_crypto_level bufs lens level (Some out) (zlen out) (Some v)) (fun '(r, out', n) =>
    let tr := pend bufs lens level in
    if (0 <=? level) && (level <? 4) then
      if zlen tr <=? zlen out then r = 1 /\ n = Some (zlen tr) /\ out' = Some (tr ++ zdrop (zlen tr) out)
      else r = 0 /\ n = Some 0 /\ out' = Some out
    else r = 0 /\ n = Some v /\ out' = Some out).
Proof.
  intros Hlv. unfold copy_crypto_level, QUICZ_OPENSSL_LEVEL_COUNT.
  destruct (Z.leb_spec 0 level), (Z.ltb_spec level 4); cbn [andb].
  2-4: apply wp_if; [by intros _; apply wp_ret|intros E; cbn in E; lia].
  apply wp_if; intros E; [cbn in E; lia|]. apply wp_bind, wp_ret.
  pose proof (lv_lens _ _ _ Hlv). destruct (zget_lt lens level) as [n Hn]; [lia|]. rewrite Hn. cbn [mbind option_bind].
  destruct (pend_at _ _ _ _ Hlv Hn) as (arr & Harr & Ep & Ez & Hcap). rewrite Ep, Ez.
  destruct (Z.leb_spec n (zlen out)).
  - apply wp_if; [lia|intros _]. apply wp_if; [intros E'; by rewrite bool_decide_eq_false_2, andb_false_r in E'|intros _].
    rewrite Harr. cbn [mbind option_bind]. apply wp_bind, wp_read_array; [lia..|].
    apply wp_bind, wp_write_ptr; [lia|]. apply wp_bind, wp_ret, wp_ret. by rewrite Ez.
  - apply wp_if; [intros _; by apply wp_ret|lia].
Qed.

(** the copy functions return the recorded transcript. For a valid level
    they return exactly the transcript of the last run if it fits, and
    otherwise 0 with a length of 0 and nothing written; an invalid level gives
    0 and touches nothing. *)
Theorem pair_copy_crypto_exact (g : globals) (level v : Z) (out : list byte) (Hg : globals_ok g) :
  wp (quicz_openssl_pair_transcript_copy_client_crypto g level (Some out) (zlen out) (Some v)) (fun '(r, out', n) =>
    let tr := client_transcript g level in
    if (0 <=? level) && (level <? 4) then
      if zlen tr <=? zlen out then r = 1 /\ n = Some (zlen tr) /\ out' = Some (tr ++ zdrop (zlen tr) out)
      else r = 0 /\ n = Some 0 /\ out' = Some out
    else r = 0 /\ n = Some v /\ out' = Some out) /\
  wp (quicz_openssl_pair_transcript_copy_server_crypto g level (Some out) (zlen out) (Some v)) (fun '(r, out', n) =>
    let tr := server_transcript g level in
    if (0 <=? level) && (level <? 4) then
      if zlen tr <=? zlen out then r = 1 /\ n = Some (zlen tr) /\ out' = Some (tr ++ zdrop (zlen tr) out)
      else r = 0 /\ n = Some 0 /\ out' = Some out
    else r = 0 /\ n = Some v /\ out' = Some out).
Proof. destruct Hg. split; by apply copy_crypto_level_wp. Qed.

(** C40: copying an empty level into a NULL buffer is undefined. The guard
    accepts a NULL [out] when the level is empty, but the copy is still made
    with [memcpy], whose pointer arguments must be valid for a length of 0
    too; the same holds for the peer transport parameters. *)
Theorem pair_copy_null_undefined (g : globals) (level v : Z) (cap : Z)
    (Hg : globals_ok g) (Hlevel : 0 <= level < 4) (Hcap : 0 <= cap) (Hempty : client_transcript g level = []) :
  quicz_openssl_pair_transcript_copy_client_crypto g level None cap (Some v) = None /\
  (last_client_peer_transport_parameters_len g = 0 ->
   quicz_openssl_pair_transcript_copy_client_peer_transport_parameters g None cap (Some v) = None).
Proof.
  destruct Hg. pose proof (lv_lens _ _ _ g_ccrypto0). split.
  - unfold quicz_openssl_pair_transcript_copy_client_crypto, copy_crypto_level, QUICZ_OPENSSL_LEVEL_COUNT.
    destruct (zget_lt (last_client_crypto_len g) level) as [n Hn]; [lia|].
    destruct (pend_at _ _ _ _ g_ccrypto0 Hn) as (arr & Harr & Ep & Ez & Hc).
    unfold client_transcript in Hempty. rewrite Ep in Hempty. rewrite Hempty in Ez. change (0 = n) in Ez. subst n.
    assert ((level <? 0) = false) as -> by lia. assert ((level >=? 4) = false) as -> by lia.
    rewrite bool_decide_eq_false_2 by done. cbn [orb store mbind option_bind]. rewrite Hn. cbn [mbind option_bind].
    assert ((0 >? cap) = false) as -> by lia. cbn [negb andb Z.eqb]. rewrite Harr. by cbn.
  - intros E. unfold quicz_openssl_pair_transcript_copy_client_peer_transport_parameters, copy_params. rewrite E.
    assert ((0 >? cap) = false) as -> by lia. by cbn.
Qed.

Lemma copy_secret_wp secs avail level dir out v : shape2 secs -> shape2 avail ->
  wp (copy_secret secs avail level dir (Some out) (zlen out) (Some v)) (fun '(r, out', n) =>
    match (if (0 <=? level) && (level <? 4) && (0 <=? dir) && (dir <? 2) && (32 <=? zlen out)
           then secret_at secs avail level dir else None) with
    | Some secret => r = 1 /\ n = Some 32 /\ out' = Some (secret ++ zdrop 32 out)
    | None => r = 0 /\ n = Some 0 /\ out' = Some out
    end).
Proof.
  intros Hs Ha. unfold copy_secret, QUICZ_OPENSSL_LEVEL_COUNT, QUICZ_OPENSSL_SECRET_DIRECTION_COUNT, QUICZ_OPENSSL_SECRET_LEN.
  destruct (Z.leb_spec 0 level), (Z.ltb_spec level 4), (Z.leb_spec 0 dir), (Z.ltb_spec dir 2); cbn [andb].
  2-16: apply wp_bind; apply wp_if; [intros _; apply wp_ret; by cbn|intros E; cbn in E; lia].
  apply wp_bind. apply wp_if; intros E; [cbn in E; lia|].
  destruct (shape2_get avail level dir Ha) as [a Ea]; [lia..|]. destruct (shape2_get secs level dir Hs) as [arr Earr]; [lia..|].
  rewrite Ea. cbn [mbind option_bind]. apply wp_ret. unfold secret_at. rewrite Ea, Earr.
  rewrite (bool_decide_eq_false_2 (Some out = None)) by done. rewrite orb_false_r.
  destruct (ctrue a), (Z.leb_spec 32 (zlen out)), (Z.ltb_spec (zlen out) 32); try lia; cbn [negb orb]; try by cbn.
  cbn [mbind option_bind]. apply wp_bind, wp_read_array; [done..|].
  apply wp_bind, wp_write_ptr; [by rewrite zlen_slice|]. apply wp_bind, wp_ret, wp_ret. split_and!; try done.
  by rewrite zlen_slice.
Qed.

(** secrets are copied whole or not at all. The functions return the 32
    bytes recorded for the level and direction exactly when the indices are
    valid, a secret was recorded there and it fits; otherwise they return 0,
    set the length to 0 and leave the buffer alone. *)
Theorem pair_copy_secret_exact (g : globals) (level dir v : Z) (out : list byte) (Hg : globals_ok g) :
  let answer secs avail := if (0 <=? level) && (level <? 4) && (0 <=? dir) && (dir <? 2) && (32 <=? zlen out)
                           then secret_at secs avail level dir else None in
  let spec s := fun '(r, out', n) => match s with
    | Some secret => r = 1 /\ n = Some 32 /\ out' = Some (secret ++ zdrop 32 out)
    | None => r = 0 /\ n = Some 0 /\ out' = Some out
    end in
  wp (quicz_openssl_pair_transcript_copy_client_secret g level dir (Some out) (zlen out) (Some v))
     (spec (answer (last_client_secrets g) (last_client_secret_available g))) /\
  wp (quicz_openssl_pair_transcript_copy_server_secret g level dir (Some out) (zlen out) (Some v))
     (spec (answer (last_server_secrets g) (last_server_secret_available g))).
Proof. destruct Hg. split; by apply copy_secret_wp. Qed.

(** ** Context sessions *)

Inductive ctx_op : Type :=
  | CDrive (is_client : bool)
  | CResult
  | CProvide (is_client : bool) (level : Z) (data : list byte)
  | CCopyPending (is_client : bool) (level : Z) (out : list byte)
  | CCopySecret (is_client : bool) (level direction : Z) (out : list byte).

Inductive ctx_res : Type :=
  | CRet (r : Z)
  | CReport (r : quicz_openssl_pair_transcript_result)
  | CBytes (r : Z) (out : ptr) (written : cell).

Definition ctx_call (op : ctx_op) (c : pair_context) (w : world O) : option (ctx_res * pair_context * world O) :=
  match op with
  | CDrive ic =>
      '(r, c, w) ← quicz_openssl_pair_transcript_context_drive (Some c) ic w; c ← c; Some (CRet r, c, w)
  | CResult => '(r, w) ← quicz_openssl_pair_transcript_context_result (Some c) w; Some (CReport r, c, w)
  | CProvide ic level data =>
      '(r, c) ← quicz_openssl_pair_transcript_context_provide_crypto (Some c) ic level (Some data) (zlen data);
      c ← c; Some (CRet r, c, w)
  | CCopyPending ic level out =>
      '(r, out, n, c) ←
        quicz_openssl_pair_transcript_context_copy_pending_crypto (Some c) ic level (Some out) (zlen out) (Some 0);
      c ← c; Some (CBytes r out n, c, w)
  | CCopySecret ic level dir out =>
      '(r, out, n) ←
        quicz_openssl_pair_transcript_context_copy_secret (Some c) ic level dir (Some out) (zlen out) (Some 0);
      Some (CBytes r out n, c, w)
  end.

Fixpoint ctx_session (ops : list ctx_op) (c : pair_context) (w : world O)
    : option (list (ctx_op * ctx_res) * pair_context * world O) :=
  match ops with
  | [] => Some ([], c, w)
  | op :: ops =>
      '(r, c, w) ← ctx_call op c w;
      '(t, c, w) ← ctx_session ops c w;
      Some ((op, r) :: t, c, w)
  end.

(** CRYPTO bytes the caller copied from, and provided to, one side at level [L]. *)
Definition copied1 (side : bool) (L : Z) (e : ctx_op * ctx_res) : list byte :=
  match e with
  | (CCopyPending ic level _, CBytes r out n) =>
      if Bool.eqb ic side && (r =? 1) then at_level L level (ztake (default 0 n) (default [] out)) else []
  | _ => []
  end.
Definition provided1 (side : bool) (L : Z) (e : ctx_op * ctx_res) : list byte :=
  match e with
  | (CProvide ic level data, CRet r) => if Bool.eqb ic side && (r =? 1) then at_level L level data else []
  | _ => []
  end.
Definition copied (side : bool) (L : Z) (t : list (ctx_op * ctx_res)) : list byte := concat (copied1 side L <$> t).
Definition provided (side : bool) (L : Z) (t : list (ctx_op * ctx_res)) : list byte := concat (provided1 side L <$> t).

Definition call_post (m k : Z) ca sa ce se (op : ctx_op) (w : world O) : ctx_res * pair_context * world O -> Prop :=
  fun '(r, c', w') => w_live w' = w_live w /\ exists ce' se',
    c' = PairContext (Some (ca, ce')) (Some (sa, se')) /\
    trans m k ce (fun L => copied1 true L (op, r)) (fun L => provided1 true L (op, r)) ce' /\
    trans m k se (fun L => copied1 false L (op, r)) (fun L => provided1 false L (op, r)) se'.

(** A call that moved one endpoint. *)
Lemma lift_side m k ca sa ce se op (ic : bool) r e' (w w' : world O) : 0 <= k -> inv m ce -> inv m se ->
  w_live w' = w_live w ->
  trans m k (if ic then ce else se) (fun L => copied1 ic L (op, r)) (fun L => provided1 ic L (op, r)) e' ->
  (forall L, copied1 (negb ic) L (op, r) = [] /\ provided1 (negb ic) L (op, r) = []) ->
  call_post m k ca sa ce se op w
    (r, (if ic then PairContext (Some (ca, e')) (Some (sa, se)) else PairContext (Some (ca, ce)) (Some (sa, e'))), w').
Proof.
  intros Hk Hc Hs Hl T Hother. split; [done|].
  assert (forall e, inv m e -> trans m k e (fun L => copied1 (negb ic) L (op, r)) (fun L => provided1 (negb ic) L (op, r)) e).
  { intros e He. eapply ep_trans_weaken; [by apply ep_trans_refl|lia|..]; intros L; by destruct (Hother L). }
  destruct ic; [exists e', se|exists ce, e']; (split; [done|]); split; try done; auto.
Qed.

Lemma lift_none m k ca sa ce se op r (w w' : world O) : 0 <= k -> inv m ce -> inv m se -> w_live w' = w_live w ->
  (forall side L, copied1 side L (op, r) = [] /\ provided1 side L (op, r) = []) ->
  call_post m k ca sa ce se op w (r, PairContext (Some (ca, ce)) (Some (sa, se)), w').
Proof.
  intros Hk Hc Hs Hl Hn. apply (lift_side m k ca sa ce se op true); try done.
  eapply ep_trans_weaken; [by apply ep_trans_refl|lia|..]; intros L; by destruct (Hn true L).
Qed.

Lemma endpoint_of ca sa ce se (ic : bool) :
  context_endpoint (Some (PairContext (Some (ca, ce)) (Some (sa, se)))) ic =
    Some (if ic then ca else sa, if ic then ce else se).
Proof. by destruct ic. Qed.

Lemma put_of ca sa ce se (ic : bool) e' :
  put_endpoint (Some (PairContext (Some (ca, ce)) (Some (sa, se)))) ic (Some (if ic then ca else sa, e')) =
    Some (if ic then PairContext (Some (ca, e')) (Some (sa, se)) else PairContext (Some (ca, ce)) (Some (sa, e'))).
Proof. by destruct ic. Qed.

(** Only an accepted call moves bytes, and only on its own side. *)
Lemma refused_moves ic level data out side L :
  provided1 side L (CProvide ic level data, CRet 0) = [] /\
  forall out' n, copied1 side L (CCopyPending ic level out, CBytes 0 out' n) = [].
Proof. cbn. by rewrite andb_false_r. Qed.

Lemma provide_wp m k ca sa ce se (ic : bool) level data (w : world O) : inv m ce -> inv m se -> m < INT_MAX -> 1 <= k ->
  wp (ctx_call (CProvide ic level data) (PairContext (Some (ca, ce)) (Some (sa, se))) w)
     (call_post m k ca sa ce se (CProvide ic level data) w).
Proof.
  intros Hc Hs Hm Hk. pose proof (zlen_nonneg data). cbn [ctx_call].
  assert (inv m (if ic then ce else se)) as He by (by destruct ic).
  assert (forall r, r = 0 -> call_post m k ca sa ce se (CProvide ic level data) w
    (CRet r, PairContext (Some (ca, ce)) (Some (sa, se)), w)) as Hrefuse.
  { intros r ->. apply lift_none; try done; [lia|]. intros side L. split; [done|apply (refused_moves ic level data [])]. }
  unfold quicz_openssl_pair_transcript_context_provide_crypto. rewrite endpoint_of.
  rewrite (bool_decide_eq_false_2 (Some data = None)), andb_false_r, orb_false_r by done.
  apply wp_bind. apply wp_if; intros El; [apply wp_ret, wp_bind, wp_ret, wp_ret; by apply Hrefuse|].
  unfold QUICZ_OPENSSL_LEVEL_COUNT in *. set (e := if ic then ce else se) in *.
  pose proof (lv_lens _ _ _ (i_in _ _ He)). destruct (zget_lt (in_len e) level) as [len Hlen]; [lia|].
  destruct (pend_at _ _ _ _ (i_in _ _ He) Hlen) as (arr & Harr & _ & _ & Hcap). rewrite Hlen. cbn [mbind option_bind].
  rewrite (usub64_small _ len) by (unfold SIZE_MAX, QUICZ_OPENSSL_CRYPTO_BUF_LEN in *; lia).
  apply wp_if; intros Ecap; [apply wp_ret, wp_bind, wp_ret, wp_ret; by apply Hrefuse|].
  assert (forall e', trans m 1 e none (fun L => at_level L level data) e' ->
    call_post m k ca sa ce se (CProvide ic level data) w
      (CRet 1, (if ic then PairContext (Some (ca, e')) (Some (sa, se)) else PairContext (Some (ca, ce)) (Some (sa, e'))), w)) as Hfin.
  { intros e' T. apply lift_side; try done; [lia| |].
    - eapply ep_trans_weaken; [exact T|lia|done|]. intros L. cbn. by rewrite eqb_reflx.
    - intros L. cbn. by rewrite eqb_negb2. }
  rewrite (uadd64_small len) by (unfold SIZE_MAX, QUICZ_OPENSSL_CRYPTO_BUF_LEN in *; lia).
  apply wp_bind. apply wp_if; intros Epos.
  - rewrite Harr. cbn [mbind option_bind]. apply wp_bind, wp_read_ptr; [lia|]. rewrite ztake_all.
    apply wp_bind, wp_write_array; [lia..|]. apply wp_ret, wp_ret. rewrite put_of. apply wp_bind, wp_ret, wp_ret, Hfin.
    destruct (ep_trans_step m e _ _ He Hm (step_put e level len arr data Hlen Harr ltac:(lia))) as [T _]. exact T.
  - assert (data = []) as -> by (apply zlen_nil_inv; lia). apply wp_ret.
    rewrite zlen_nil, Z.add_0_r, (zset_get _ _ _ Hlen). apply wp_ret. rewrite put_of. apply wp_bind, wp_ret, wp_ret, Hfin.
    replace (e <| in_len := in_len e |>) with e by (by destruct e).
    eapply ep_trans_weaken; [by apply ep_trans_refl|lia|done|].
    intros L. unfold none, at_level. by destruct (level =? L).
Qed.

Lemma copy_pending_wp m k ca sa ce se (ic : bool) level out (w : world O) : inv m ce -> inv m se -> m < INT_MAX -> 1 <= k ->
  wp (ctx_call (CCopyPending ic level out) (PairContext (Some (ca, ce)) (Some (sa, se))) w)
     (call_post m k ca sa ce se (CCopyPending ic level out) w).
Proof.
  intros Hc Hs Hm Hk. cbn [ctx_call].
  assert (inv m (if ic then ce else se)) as He by (by destruct ic).
  assert (forall out' n, call_post m k ca sa ce se (CCopyPending ic level out) w
    (CBytes 0 out' n, PairContext (Some (ca, ce)) (Some (sa, se)), w)) as Hrefuse.
  { intros out' n. apply lift_none; try done; [lia|]. intros side L. split; [by apply (refused_moves ic level [])|done]. }
  unfold quicz_openssl_pair_transcript_context_copy_pending_crypto. rewrite endpoint_of. cbv zeta.
  apply wp_bind. apply wp_if; intros El; [apply wp_ret, wp_bind, wp_ret, wp_ret; by apply Hrefuse|].
  unfold QUICZ_OPENSSL_LEVEL_COUNT in *. set (e := if ic then ce else se) in *.
  pose proof (lv_lens _ _ _ (i_out _ _ He)). destruct (zget_lt (out_len e) level) as [len Hlen]; [lia|].
  destruct (pend_at _ _ _ _ (i_out _ _ He) Hlen) as (arr & Harr & Ep & Ez & Hcap). rewrite Hlen. cbn [mbind option_bind].
  rewrite (bool_decide_eq_false_2 (Some out = None)), andb_false_r, orb_false_r by done.
  apply wp_if; intros Ecap; [apply wp_ret, wp_bind, wp_ret, wp_ret; by apply Hrefuse|].
  rewrite Harr. cbn [mbind option_bind]. apply wp_bind, wp_read_array; [lia..|].
  apply wp_bind, wp_write_ptr; [lia|]. apply wp_bind, wp_ret, wp_ret. rewrite put_of. apply wp_bind, wp_ret, wp_ret.
  destruct (ep_trans_step m e _ _ He Hm (step_take e level ltac:(lia))) as [T _].
  apply lift_side; try done; [lia| |].
  - eapply ep_trans_weaken; [exact T|lia| |done]. intros L. cbn -[at_level ztake zdrop zlen]. rewrite eqb_reflx. cbn [andb].
    rewrite <- Ez at 1. rewrite ztake_app_all. unfold outp. by rewrite Ep.
  - intros L. cbn. by rewrite eqb_negb2.
Qed.

Lemma ctx_call_wp m d ca sa ce se op (w : world O) :
  (forall s o, bounded d (SSL_do_handshake s o)) -> inv m ce -> inv m se -> is_Some (ssl ce) -> is_Some (ssl se) ->
  m + Z.of_nat d + 1 <= INT_MAX ->
  wp (ctx_call op (PairContext (Some (ca, ce)) (Some (sa, se))) w)
     (call_post m (Z.of_nat d + 1) ca sa ce se op w).
Proof.
  intros Hd Hc Hs [sc Hsc] [ss Hss] Hm. destruct op as [ic| |ic level data|ic level out|ic level dir out]; cbn [ctx_call].
  - unfold quicz_openssl_pair_transcript_context_drive. rewrite endpoint_of.
    apply wp_bind, wp_bind.
    eapply wp_mono; [apply (drive_handshake_wp d m (if ic then ce else se) (if ic then sc else ss) w Hd);
      [by destruct ic|lia|by destruct ic]|].
    intros [e' w'] [Hl T]. apply wp_ret.
    rewrite put_of. apply wp_bind, wp_ret, wp_ret. apply lift_side; try done. lia.
  - unfold quicz_openssl_pair_transcript_context_result. apply wp_bind, wp_bind.
    eapply wp_mono; [by apply (copy_result_wp m)|]. intros r _.
    destruct (AdapterLife.ext_cases CallErrPeek w) as (code & o & ->). apply wp_ret, wp_ret. apply lift_none; try done. lia.
  - by apply provide_wp; [..|lia|lia].
  - by apply copy_pending_wp; [..|lia|lia].
  - apply wp_bind. unfold quicz_openssl_pair_transcript_context_copy_secret. rewrite endpoint_of.
    eapply wp_mono; [apply copy_secret_wp; destruct ic; apply Hc || apply Hs|].
    intros [[r out'] n] _. apply wp_ret. apply lift_none; try done. lia.
Qed.

Lemma ctx_session_wp d (Hd : forall s o, bounded d (SSL_do_handshake s o)) ca sa ops : forall m ce se (w : world O),
  inv m ce -> inv m se -> is_Some (ssl ce) -> is_Some (ssl se) -> m + zlen ops * (Z.of_nat d + 1) <= INT_MAX ->
  wp (ctx_session ops (PairContext (Some (ca, ce)) (Some (sa, se))) w) (fun '(t, c', w') =>
    t.*1 = ops /\ w_live w' = w_live w /\ exists ce' se', c' = PairContext (Some (ca, ce')) (Some (sa, se')) /\
      trans m (zlen ops * (Z.of_nat d + 1)) ce (fun L => copied true L t) (fun L => provided true L t) ce' /\
      trans m (zlen ops * (Z.of_nat d + 1)) se (fun L => copied false L t) (fun L => provided false L t) se').
Proof.
  induction ops as [|op ops IH]; intros m ce se w Hc Hs Sc Ss Hm; cbn [ctx_session].
  - apply wp_ret. split_and!; try done. exists ce, se. split; [done|]. by split; apply ep_trans_refl.
  - rewrite zlen_cons in *. pose proof (zlen_nonneg ops). apply wp_bind.
    eapply wp_mono; [apply (ctx_call_wp m d ca sa ce se op w Hd Hc Hs Sc Ss); lia|].
    intros [[r c1] w1] (Hl1 & ce1 & se1 & -> & T1 & T2). cbn beta iota.
    destruct (trans_handles m (Z.of_nat d + 1) _ _ _ _ Hc ltac:(lia) T1) as [_ Ec].
    destruct (trans_handles m (Z.of_nat d + 1) _ _ _ _ Hs ltac:(lia) T2) as [_ Es].
    apply wp_bind. eapply wp_mono; [apply (IH (m + (Z.of_nat d + 1)) ce1 se1 w1);
      [by eapply ep_trans_inv|by eapply ep_trans_inv|by rewrite Ec|by rewrite Es|lia]|].
    intros [[t c2] w2] (Ht & Hl2 & ce2 & se2 & -> & T3 & T4). cbn beta iota. apply wp_ret.
    split_and!; [cbn; by rewrite Ht|congruence|]. exists ce2, se2. split; [done|].
    split; (eapply ep_trans_weaken; [by eapply ep_trans_trans|lia|done|done]).
Qed.

(** New, the session, free. *)
Definition ctx_lifecycle (g : globals) (ops : list ctx_op) (w : world O)
    : option (option (list (ctx_op * ctx_res)) * option pair_context * world O) :=
  '(c, w) ← quicz_openssl_pair_transcript_context_new g w;
  match c with
  | None => Some (None, None, w)
  | Some (addr, c) =>
      '(t, c, w) ← ctx_session ops c w;
      w ← quicz_openssl_pair_transcript_context_free (Some (addr, c)) w;
      Some (Some t, Some c, w)
  end.

Lemma context_new_wp g (w : world O) : globals_ok g -> world_wf w ->
  wp (quicz_openssl_pair_transcript_context_new g w) (fun '(c, w') =>
    match c with
    | None => w_live w' = w_live w
    | Some (addr, c) => exists ca sa ce se w1 w2 w3,
        c = PairContext (Some (ca, ce)) (Some (sa, se)) /\
        grows w w1 {[(KMem, addr)]} /\ grows w1 w2 {[(KMem, ca)]} /\ grows w2 w3 {[(KMem, sa)]} /\
        grows w3 w' (handles ce ∪ handles se) /\ handles ce ## handles se /\
        fresh_endpoint (local_params g true) ce /\ fresh_endpoint (local_params g false) se /\
        is_Some (ssl ce) /\ is_Some (ssl se)
    end).
Proof.
  intros Hg Hwf. unfold quicz_openssl_pair_transcript_context_new.
  destruct (grows_new KMem CallCalloc w Hwf) as (mem & w1 & -> & G1). cbn beta iota.
  destruct mem as [addr|]; [|apply wp_ret; rewrite (gr_live _ _ _ G1); cbn; by rewrite right_id_L by apply _].
  destruct (grows_new KMem CallCalloc w1 (gr_wf _ _ _ G1)) as (ca & w2 & -> & G2).
  destruct (grows_new KMem CallCalloc w2 (gr_wf _ _ _ G2)) as (sa & w3 & -> & G3). cbn beta iota.
  pose proof (gr_wf _ _ _ G3) as Hwf3. apply wp_bind.
  assert (handles zero_endpoint = ∅) as Hz by (unfold handles; cbn; by rewrite left_id_L by apply _).
  assert (wp (match ca, sa with
     | Some _, Some _ => init_pair g zero_endpoint zero_endpoint w3
     | _, _ => Some (false, zero_endpoint, zero_endpoint, w3) end) (fun '(ok, c, s, w') =>
     grows w3 w' (handles c ∪ handles s) /\ handles c ## handles s /\
     (ca = None -> handles c = ∅) /\ (sa = None -> handles s = ∅) /\
     (ok = true -> is_Some ca /\ is_Some sa /\ fresh_endpoint (local_params g true) c /\
        fresh_endpoint (local_params g false) s /\ is_Some (ssl c) /\ is_Some (ssl s)))) as Hinit.
  { destruct ca as [ca|], sa as [sa|].
    1: eapply wp_mono; [by apply init_pair_wp|]; intros [[[ok c] s] w'] (G & D & Hi); split_and!; try done;
       intros E; destruct (Hi E) as (? & ? & ? & ?); split_and!; [by eexists|by eexists|done..].
    all: apply wp_ret; rewrite !Hz; split_and!; try done; try (apply disjoint_empty_l);
         by eapply grows_eq; [by apply grows_refl|rewrite left_id_L by apply _]. }
  eapply wp_mono; [exact Hinit|]. intros [[[ok c] s] w4] (G4 & Hdis & Nc & Ns & Hok'). cbn beta iota. clear Hinit.
  apply wp_if; intros E.
  - apply (free_pair_wp ca sa c s c s w1 w2 w3 w4 w4); try done; [by apply (gr_wf _ _ _ G1)|].
    intros w5 Hl5. apply wp_bind. pose proof (gr_live _ _ _ G1) as L1. cbn [obj] in L1.
    pose proof (grows_disjoint _ _ _ Hwf G1) as D1. cbn [obj] in D1.
    apply wp_ext_free_Some; [rewrite Hl5, L1; set_solver|]. apply wp_ret. cbn -[difference]. rewrite Hl5, L1. set_solver.
  - apply negb_false_iff in E. destruct (Hok' E) as ([ca' ->] & [sa' ->] & Fc & Fs & Sc & Ss). apply wp_ret.
    by exists ca', sa', c, s, w1, w2, w3.
Qed.

(** C32: a context's whole life. Creating a context, running any sequence of
    context calls that stays within the counters' range and freeing it has no
    undefined behaviour and leaves exactly the objects that were live before,
    also when the constructor fails half way; every call is answered; on each
    side and level the bytes copied out followed by the bytes still pending
    are what that side's OpenSSL produced (and what its history records), and
    the bytes provided are what it was given. *)
Theorem pair_context_lifecycle d (g : globals) (ops : list ctx_op) (w : world O)
    (Hd : forall s o, bounded d (SSL_do_handshake s o)) (Hg : globals_ok g) (Hwf : world_wf w)
    (Hlen : zlen ops * (Z.of_nat d + 1) <= INT_MAX) :
  wp (ctx_lifecycle g ops w) (fun '(t, c, w') => w_live w' = w_live w /\
    match t, c with
    | Some t, Some c => t.*1 = ops /\ exists ca sa ce se ce0 se0 lc ls,
        c = PairContext (Some (ca, ce)) (Some (sa, se)) /\
        fresh_endpoint (local_params g true) ce0 /\ fresh_endpoint (local_params g false) se0 /\
        steps ce0 lc ce /\ steps se0 ls se /\ forall L,
          (copied true L t ++ outp ce L = sent L lc /\ hist ce L = sent L lc /\ provided true L t = received L lc) /\
          (copied false L t ++ outp se L = sent L ls /\ hist se L = sent L ls /\ provided false L t = received L ls)
    | _, _ => t = None
    end).
Proof.
  unfold ctx_lifecycle. apply wp_bind. eapply wp_mono; [by apply context_new_wp|].
  intros [[[addr c]|] w4]; [|by intros; apply wp_ret].
  intros (ca & sa & ce & se & w1 & w2 & w3 & -> & G1 & G2 & G3 & G4 & Hdis & Fc & Fs & Sc & Ss).
  pose proof Fc as (Hc & Qc & _). pose proof Fs as (Hs & Qs & _). apply wp_bind.
  eapply wp_mono; [by apply (ctx_session_wp d Hd ca sa ops 0 ce se w4)|].
  intros [[t c'] w5] (Ht & Hl5 & ce' & se' & -> & T1 & T2). cbn beta iota. apply wp_bind.
  destruct (trans_handles 0 _ _ _ _ _ Hc Hlen T1) as [Ec1 Ec2]. destruct (trans_handles 0 _ _ _ _ _ Hs Hlen T2) as [Es1 Es2].
  cbn [quicz_openssl_pair_transcript_context_free client server].
  apply (free_pair_wp (Some ca) (Some sa) ce se ce' se' w1 w2 w3 w4 w5); try assumption; try discriminate;
    [by apply (gr_wf _ _ _ G1)|by apply handles_same..|].
  intros w6 Hl6. pose proof (gr_live _ _ _ G1) as L1. pose proof (grows_disjoint _ _ _ Hwf G1) as D1.
  apply wp_ext_free_Some; [rewrite Hl6, L1; clear; set_solver|]. apply wp_ret. split.
  { cbn -[difference]. rewrite Hl6, L1. clear - D1. set_solver. }
  split; [done|]. destruct T1 as (lc & S1 & K1 & _ & E1), T2 as (ls & S2 & K2 & _ & E2).
  exists ca, sa, ce', se', ce, se, lc, ls. split_and!; try done. intros L.
  destruct (steps_effect 0 ce lc ce' Hc ltac:(lia) S1) as [_ (_ & _ & HLc)].
  destruct (steps_effect 0 se ls se' Hs ltac:(lia) S2) as [_ (_ & _ & HLs)].
  destruct (HLc L) as [A1 A2], (HLs L) as [B1 B2], (Qc L) as (C1 & C2 & _), (Qs L) as (D1' & D2' & _).
  rewrite C1, C2 in *. rewrite D1', D2' in *. destruct (E1 L) as [<- <-], (E2 L) as [<- <-]. done.
Qed.

End WithOpenSSL.

End PairProps.
