(* ===== verification/Probe.v ===== *)
(** * The OpenSSL probe (examples/tls_openssl_probe.c)

    Which QUIC entry points the linked OpenSSL has: the callbacks that do
    nothing, the probe itself, and what its report can say. *)
From S2P Require Import Prelude CAbi OpenSSL CryptoLevels Adapter AdapterInv AdapterSession AdapterLife PairTranscript PairInv PairLife.
Local Open Scope Z_scope.

Module Probe.

(** [struct quicz_openssl_probe_result]. *)
Record quicz_openssl_probe_result : Type := ProbeResult {
  version_number : Z;
  has_quic_method : Z;
  quic_ctx_created : Z;
  quic_ssl_created : Z;
  quic_ssl_is_quic : Z;
  tls_ctx_created : Z;
  tls_ssl_created : Z;
  tls_ssl_is_quic_before_callbacks : Z;
  tls_ssl_is_quic_after_callbacks : Z;
  callbacks_set : Z;
  transport_params_set : Z;
  crypto_send_id : Z;
  yield_secret_id : Z;
  got_transport_params_id : Z;
}.

#[export] Instance eta_probe_result : Eta quicz_openssl_probe_result := fun r => ProbeResult
  (version_number r) (has_quic_method r) (quic_ctx_created r) (quic_ssl_created r) (quic_ssl_is_quic r)
  (tls_ctx_created r) (tls_ssl_created r) (tls_ssl_is_quic_before_callbacks r)
  (tls_ssl_is_quic_after_callbacks r) (callbacks_set r) (transport_params_set r)
  (crypto_send_id r) (yield_secret_id r) (got_transport_params_id r).

(** The callbacks: everything is consumed, nothing is ever received. *)
Definition crypto_send_cb (buf_len : Z) (consumed : cell) : option (Z * cell) :=
  consumed ← store consumed buf_len; Some (1, consumed).
Definition crypto_recv_rcd_cb : Z * ptr * Z := (1, None, 0).
Definition crypto_release_rcd_cb (bytes_read : Z) : Z := 1.
Definition yield_secret_cb (prot_level direction : Z) (secret : ptr) (secret_len : Z) : Z := 1.
Definition got_transport_params_cb (params : ptr) (params_len : Z) : Z := 1.
Definition alert_cb (alert_code : Z) : Z := 1.

Definition transport_parameters : list byte := [x00; x04; x80; x00; x75; x30].

Section WithOpenSSL.
Context {H : OpenSSLHeaders} {O : OpenSSL}.

Definition initial_result : quicz_openssl_probe_result := ProbeResult
  OPENSSL_VERSION_NUMBER 0 0 0 0 0 0 0 0 0 0
  OSSL_FUNC_SSL_QUIC_TLS_CRYPTO_SEND OSSL_FUNC_SSL_QUIC_TLS_YIELD_SECRET
  OSSL_FUNC_SSL_QUIC_TLS_GOT_TRANSPORT_PARAMS.

(** The first half: OpenSSL's own QUIC stack. *)
Definition probe_quic (r : quicz_openssl_probe_result) (w : world O) : option (quicz_openssl_probe_result * world O) :=
  let '(m, w) := ext CallQuicMethod w in
  let r := r <| has_quic_method := cbool (ctrue m) |> in
  if ctrue m then
    let '(c, w) := ext_new KCtx CallQuicCtxNew w in
    let r := r <| quic_ctx_created := cbool (bool_decide (c <> None)) |> in
    match c with
    | None => Some (r, w)
    | Some c =>
        let '(s, w) := ext_new KSsl (CallSslNew c) w in
        let r := r <| quic_ssl_created := cbool (bool_decide (s <> None)) |> in
        '(r, w) ← (match s with
                   | None => Some (r, w)
                   | Some s =>
                       let '(q, w) := ext (CallIsQuic s) w in
                       w ← ext_free KSsl (Some s) w;
                       Some (r <| quic_ssl_is_quic := q |>, w)
                   end);
        w ← ext_free KCtx (Some c) w;
        Some (r, w)
    end
  else Some (r, w).

(** The second half: the third-party QUIC-TLS interface. *)
Definition probe_tls (r : quicz_openssl_probe_result) (w : world O) : option (quicz_openssl_probe_result * world O) :=
  let '(c, w) := ext_new KCtx (CallCtxNew true) w in
  let r := r <| tls_ctx_created := cbool (bool_decide (c <> None)) |> in
  match c with
  | None => Some (r, w)
  | Some c =>
      let '(s, w) := ext_new KSsl (CallSslNew c) w in
      let r := r <| tls_ssl_created := cbool (bool_decide (s <> None)) |> in
      '(r, w) ← (match s with
                 | None => Some (r, w)
                 | Some s =>
                     let '(q, w) := ext (CallIsQuic s) w in
                     let r := r <| tls_ssl_is_quic_before_callbacks := q |> in
                     let '(q, w) := ext (CallSetQuicCbs s) w in
                     let r := r <| callbacks_set := q |> in
                     let '(q, w) := ext (CallIsQuic s) w in
                     let r := r <| tls_ssl_is_quic_after_callbacks := q |> in
                     let '(q, w) := ext (CallSetTransportParams s transport_parameters) w in
                     let r := r <| transport_params_set := q |> in
                     w ← ext_free KSsl (Some s) w;
                     Some (r, w)
                 end);
      w ← ext_free KCtx (Some c) w;
      Some (r, w)
  end.

(** [no_quic] is whether OPENSSL_NO_QUIC is defined. *)
Definition quicz_openssl_probe_run (no_quic : bool) (w : world O) : option (quicz_openssl_probe_result * world O) :=
  let r := initial_result in
  if no_quic then Some (r, w) else
  '(r, w) ← probe_quic r w;
  probe_tls r w.

Definition implies0 (a b : Z) : Prop := a <> 0 -> b = 1.

Ltac ext_all :=
  repeat match goal with
  | |- context [ext ?c ?w] =>
      let r := fresh "r" in let o := fresh "o" in let E := fresh in
      destruct (AdapterLife.ext_cases c w) as (r & o & E); rewrite E; clear E; cbn beta iota zeta
  end.

Lemma one_freed (L : gset resource) x : x ∉ L -> (L ∪ {[x]}) ∖ {[x]} = L.
Proof. set_solver. Qed.

Lemma two_freed (L : gset resource) x y : x ∉ L -> y ∉ L -> (L ∪ {[x]} ∪ {[y]}) ∖ {[y]} ∖ {[x]} = L.
Proof. set_solver. Qed.

Definition kept (w w' : world O) : Prop := w_live w' = w_live w /\ (w_next w <= w_next w')%nat.

Lemma kept_wf w w' : world_wf w -> kept w w' -> world_wf w'.
Proof. intros Hwf [Hl Hn] k n. rewrite Hl. intros Hin%Hwf. lia. Qed.

(** A context, perhaps a connection on it, both freed. *)
Ltac freed Hwf :=
  match goal with |- kept ?w _ =>
    pose proof (AdapterLife.fresh_not_live w KCtx (w_next w) Hwf ltac:(lia));
    pose proof (AdapterLife.fresh_not_live w KSsl (S (w_next w)) Hwf ltac:(lia))
  end;
  split; cbn -[union difference]; [first [done | by apply one_freed | by apply two_freed]|lia].

Ltac freeing :=
  repeat match goal with
  | |- wp (_ ≫= _) _ => apply wp_bind
  | |- wp (ext_free _ (Some _) _) _ => apply wp_ext_free_Some; [cbn -[union difference]; set_solver|]
  | |- wp (Some _) _ => apply wp_ret
  end.

Lemma probe_quic_wp (w : world O) : world_wf w ->
  wp (probe_quic initial_result w) (fun '(r, w') => kept w w' /\
    implies0 (quic_ctx_created r) (has_quic_method r) /\ implies0 (quic_ssl_created r) (quic_ctx_created r) /\
    implies0 (quic_ssl_is_quic r) (quic_ssl_created r) /\
    callbacks_set r = 0 /\ transport_params_set r = 0 /\ tls_ssl_created r = 0 /\
    tls_ssl_is_quic_before_callbacks r = 0 /\ tls_ssl_is_quic_after_callbacks r = 0).
Proof.
  intros Hwf. unfold probe_quic, implies0. ext_all. destruct (ctrue r); cbn [cbool].
  2:{ apply wp_ret. split_and!; first [done | freed Hwf]. }
  match goal with |- context [ext_new ?k ?c ?w'] =>
    destruct (ext_new_spec k c w') as [(o1 & ->)|(o1 & ->)]; cbn beta iota zeta end.
  { apply wp_ret. split_and!; first [done | freed Hwf]. }
  match goal with |- context [ext_new ?k ?c ?w'] =>
    destruct (ext_new_spec k c w') as [(o2 & ->)|(o2 & ->)]; cbn beta iota zeta end; ext_all; freeing.
  all: split_and!; first [done | freed Hwf].
Qed.

Lemma probe_tls_wp (r : quicz_openssl_probe_result) (w : world O) : world_wf w ->
  callbacks_set r = 0 -> transport_params_set r = 0 -> tls_ssl_created r = 0 ->
  tls_ssl_is_quic_before_callbacks r = 0 -> tls_ssl_is_quic_after_callbacks r = 0 ->
  wp (probe_tls r w) (fun '(r', w') => kept w w' /\
    quic_ctx_created r' = quic_ctx_created r /\ has_quic_method r' = has_quic_method r /\
    quic_ssl_created r' = quic_ssl_created r /\ quic_ssl_is_quic r' = quic_ssl_is_quic r /\
    implies0 (tls_ssl_created r') (tls_ctx_created r') /\
    implies0 (callbacks_set r') (tls_ssl_created r') /\ implies0 (transport_params_set r') (tls_ssl_created r') /\
    implies0 (tls_ssl_is_quic_before_callbacks r') (tls_ssl_created r') /\
    implies0 (tls_ssl_is_quic_after_callbacks r') (tls_ssl_created r')).
Proof.
  intros Hwf E1 E2 E3 E4 E5. unfold probe_tls, implies0.
  match goal with |- context [ext_new ?k ?c ?w'] =>
    destruct (ext_new_spec k c w') as [(o1 & ->)|(o1 & ->)]; cbn beta iota zeta end.
  { apply wp_ret. cbn [set_field]. split_and!; first [done | freed Hwf | cbn; congruence]. }
  match goal with |- context [ext_new ?k ?c ?w'] =>
    destruct (ext_new_spec k c w') as [(o2 & ->)|(o2 & ->)]; cbn beta iota zeta end; ext_all; freeing.
  all: split_and!; first [done | freed Hwf | cbn; congruence].
Qed.

End WithOpenSSL.

(** ** What the probe asked and was told

    An OpenSSL that also records every call and its answer; it answers and
    behaves like the one it wraps. *)
Section Logged.
Context {H : OpenSSLHeaders} {O : OpenSSL}.

Definition call_log : Type := list (ext_call * Z).

Fixpoint with_log (l : call_log) (p : ssl_prog ossl) : ssl_prog (call_log * ossl) :=
  match p with
  | PDone rc s => PDone rc (l, s)
  | PCall c k => PCall c (fun a => with_log l (k a))
  end.

#[local] Instance logged : OpenSSL := {|
  ossl := call_log * ossl;
  respond := fun c '(l, o) => let '(r, o) := respond c o in (r, (l ++ [(c, r)], o));
  SSL_do_handshake := fun s '(l, o) => with_log l (SSL_do_handshake s o);
  SSL_get0_alpn_selected := fun s '(_, o) => SSL_get0_alpn_selected s o;
  SSL_select_next_proto := SSL_select_next_proto;
|}.

Definition log (w : world logged) : call_log := fst (w_ossl w).

Lemma ext_logged c (w : world logged) : exists r o, ext c w = (r, w <| w_ossl := (log w ++ [(c, r)], o) |>).
Proof. unfold ext, log. destruct (w_ossl w) as [l o]. cbn. destruct (respond c o) as [r o']. by exists r, o'. Qed.

(** A creating call that was answered [r]: the next handle, unless [r] is 0. *)
Lemma ext_new_logged k c (w : world logged) : exists r w', log w' = log w ++ [(c, r)] /\
  ext_new k c w = (if r =? 0 then None else Some (w_next w), w') /\
  w_next w' = if r =? 0 then w_next w else S (w_next w).
Proof.
  unfold ext_new, log. destruct (w_ossl w) as [l o] eqn:E. cbn. destruct (respond c o) as [r o'].
  exists r. destruct (r =? 0); eexists; (split; [|split; [reflexivity|]]); reflexivity.
Qed.

Lemma ext_free_logged k h (w w' : world logged) : ext_free k h w = Some w' -> log w' = log w /\ w_next w' = w_next w.
Proof. unfold ext_free. intros E. by repeat (case_match || simplify_eq). Qed.

Definition asked (b : bool) (c : ext_call) (r : Z) : call_log := if b then [(c, r)] else [].
Definition answer (b : bool) (r : Z) : Z := if b then r else 0.
Definition created (r : Z) : bool := negb (r =? 0).

(** The calls of the first half and their answers: a QUIC method [m], a
    context [c] if there is a method, a connection [s] if there is a context,
    its answer [q] if there is a connection. [n] is the first free handle. *)
Definition quic_calls (n : nat) (m c s q : Z) : call_log :=
  asked true CallQuicMethod m ++ asked (created m) CallQuicCtxNew c ++
  asked (created m && created c) (CallSslNew n) s ++
  asked (created m && created c && created s) (CallIsQuic (S n)) q.

(** Likewise for the second half. *)
Definition tls_calls (n : nat) (c s before cbs after params : Z) : call_log :=
  asked true (CallCtxNew true) c ++ asked (created c) (CallSslNew n) s ++
  asked (created c && created s) (CallIsQuic (S n)) before ++
  asked (created c && created s) (CallSetQuicCbs (S n)) cbs ++
  asked (created c && created s) (CallIsQuic (S n)) after ++
  asked (created c && created s) (CallSetTransportParams (S n) transport_parameters) params.

Definition handles_used (m c s : Z) : nat :=
  if created m && created c then if created s then 2 else 1 else 0.

Definition quic_report (m c s q : Z) (r : quicz_openssl_probe_result) : quicz_openssl_probe_result :=
  r <| has_quic_method := cbool (created m) |>
    <| quic_ctx_created := cbool (created m && created c) |>
    <| quic_ssl_created := cbool (created m && created c && created s) |>
    <| quic_ssl_is_quic := answer (created m && created c && created s) q |>.

Definition tls_report (c s before cbs after params : Z) (r : quicz_openssl_probe_result) : quicz_openssl_probe_result :=
  r <| tls_ctx_created := cbool (created c) |> <| tls_ssl_created := cbool (created c && created s) |>
    <| tls_ssl_is_quic_before_callbacks := answer (created c && created s) before |>
    <| callbacks_set := answer (created c && created s) cbs |>
    <| tls_ssl_is_quic_after_callbacks := answer (created c && created s) after |>
    <| transport_params_set := answer (created c && created s) params |>.

(** Run one call: its answer [r] and what it appended to the log. *)
Ltac log_call E w' r L N :=
  match type of E with
  | context [ext ?c ?w] =>
      let o := fresh "o" in let Ec := fresh in
      destruct (ext_logged c w) as (r & o & Ec); rewrite Ec in E; clear Ec;
      set (w' := w <| w_ossl := _ |>) in E;
      assert (log w' = log w ++ [(c, r)] /\ w_next w' = w_next w) as [L N] by done; clearbody w'
  end.

Lemma probe_quic_report (w : world logged) :
  forall r' w', probe_quic initial_result w = Some (r', w') -> exists m c s q,
    log w' = log w ++ quic_calls (w_next w) m c s q /\ r' = quic_report m c s q initial_result /\
    w_next w' = (w_next w + handles_used m c s)%nat.
Proof.
  intros r' w' E. unfold probe_quic in E. log_call E w1 m L1 N1. exists m. unfold quic_calls, quic_report, handles_used, created. unfold ctrue in E.
  destruct (m =? 0); cbn [negb andb cbool] in *.
  { injection E as <- <-. exists 0, 0, 0. rewrite L1, N1, Nat.add_0_r. done. }
  destruct (ext_new_logged KCtx CallQuicCtxNew w1) as (c & w2 & L2 & Ec & N2). rewrite Ec in E. exists c.
  destruct (c =? 0); cbn [negb andb cbool] in *.
  { injection E as <- <-. exists 0, 0. rewrite L2, L1, N2, N1, Nat.add_0_r, <- app_assoc. done. }
  destruct (ext_new_logged KSsl (CallSslNew (w_next w1)) w2) as (s & w3 & L3 & Es & N3). rewrite Es in E. exists s.
  destruct (s =? 0); cbn [negb andb cbool mbind option_bind] in *.
  { destruct (ext_free _ _ w3) eqn:Ef; [|done]. apply ext_free_logged in Ef as [L4 N4]. injection E as <- <-.
    exists 0. rewrite L4, L3, L2, L1, N4, N3, N2, N1, <- !app_assoc. split_and!; [done|done|lia]. }
  log_call E w4 q L4 N4.
  destruct (ext_free _ _ w4) as [w5|] eqn:Ef; [|done]. apply ext_free_logged in Ef as [L5 N5]. cbn [mbind option_bind] in E.
  destruct (ext_free _ _ w5) as [w6|] eqn:Ef; [|done]. apply ext_free_logged in Ef as [L6 N6]. injection E as <- <-.
  exists q. rewrite L6, L5, L4, L3, L2, L1, N6, N5, N4, N3, N2, N1, <- !app_assoc. split_and!; [done|done|lia].
Qed.

Lemma probe_tls_report r (w : world logged) :
  forall r' w', probe_tls r w = Some (r', w') -> exists c s before cbs after params,
    log w' = log w ++ tls_calls (w_next w) c s before cbs after params /\
    (tls_ssl_created r = 0 -> tls_ssl_is_quic_before_callbacks r = 0 -> callbacks_set r = 0 ->
     tls_ssl_is_quic_after_callbacks r = 0 -> transport_params_set r = 0 ->
     r' = tls_report c s before cbs after params r).
Proof.
  intros r' w' E. unfold probe_tls in E.
  destruct (ext_new_logged KCtx (CallCtxNew true) w) as (c & w1 & L1 & Ec & N1). rewrite Ec in E. exists c.
  unfold tls_calls, tls_report, created. destruct (c =? 0); cbn [negb andb cbool] in *.
  { injection E as <- <-. exists 0, 0, 0, 0, 0. rewrite L1. split; [done|]. destruct r; cbn. by intros -> -> -> -> ->. }
  destruct (ext_new_logged KSsl (CallSslNew (w_next w)) w1) as (s & w2 & L2 & Es & N2). rewrite Es in E. exists s.
  destruct (s =? 0); cbn [negb andb cbool mbind option_bind] in *.
  { destruct (ext_free _ _ w2) eqn:Ef; [|done]. apply ext_free_logged in Ef as [L3 _]. injection E as <- <-.
    exists 0, 0, 0, 0. rewrite L3, L2, L1, <- !app_assoc. split; [done|]. destruct r; cbn. by intros -> -> -> -> ->. }
  log_call E w3 before L3 N3. log_call E w4 cbs L4 N4. log_call E w5 after L5 N5. log_call E w6 params L6 N6.
  destruct (ext_free _ _ w6) as [w7|] eqn:Ef; [|done]. apply ext_free_logged in Ef as [L7 N7]. cbn [mbind option_bind] in E.
  destruct (ext_free _ _ w7) as [w8|] eqn:Ef; [|done]. apply ext_free_logged in Ef as [L8 N8]. injection E as <- <-.
  exists before, cbs, after, params. rewrite L8, L7, L6, L5, L4, L3, L2, L1, N1, <- !app_assoc. done.
Qed.

(** C37: the probe's report is what OpenSSL answered. The probe has no
    undefined behaviour and leaves the live objects as they were. The calls it
    makes that return something are exactly the ones listed, in this order,
    and each object is only used when it was created: a context only with a
    method, a connection only on a context that exists, a question only to a
    connection that exists. Every creation flag is 1 exactly when that call was
    made and returned an object, every other field is the answer to its own
    question, or 0 when it could not be asked, and without QUIC nothing is
    called and the report is blank. *)
Theorem probe_report_exact (no_quic : bool) (w : world logged) (Hwf : world_wf w) :
  wp (quicz_openssl_probe_run no_quic w) (fun '(r, w') => w_live w' = w_live w /\
    if no_quic then log w' = log w /\ r = initial_result else
    exists m c s q c' s' before cbs after params,
      log w' = log w ++ quic_calls (w_next w) m c s q ++
        tls_calls (w_next w + handles_used m c s) c' s' before cbs after params /\
      r = tls_report c' s' before cbs after params (quic_report m c s q initial_result)).
Proof.
  unfold quicz_openssl_probe_run. destruct no_quic; [by apply wp_ret|]. cbv zeta. apply wp_bind.
  destruct (wp_elim _ _ (probe_quic_wp w Hwf)) as ([r1 w1] & E1 & K1 & _ & _ & _ & Z1 & Z2 & Z3 & Z4 & Z5). rewrite E1.
  destruct (probe_quic_report w _ _ E1) as (m & c & s & q & L1 & -> & N1).
  destruct (wp_elim _ _ (probe_tls_wp _ w1 (kept_wf _ _ Hwf K1) Z1 Z2 Z3 Z4 Z5)) as ([r2 w2] & E2 & K2 & _).
  cbn beta iota. apply wp_ret. rewrite E2. cbn.
  destruct (probe_tls_report _ w1 _ _ E2) as (c' & s' & before & cbs & after & params & L2 & R2).
  split; [destruct K1 as [<- _], K2 as [<- _]; done|].
  exists m, c, s, q, c', s', before, cbs, after, params. rewrite L2, L1, N1, <- app_assoc. split; [done|]. by apply R2.
Qed.

End Logged.

End Probe.
