(* ===== verification/TlsBackend.v ===== *)
(** * The transport's side of the C ABI (src/quic/tls_backend.zig)

    The Zig adapter that turns a table of C callbacks into the transport's
    [CryptoBackend], and the contract it relies on as a type class.  The
    sessions of the transport are proved against the contract alone; the two C
    backends discharge it in TlsTables. *)
From S2P Require Import Prelude CAbi.
Local Open Scope Z_scope.

Module TlsBackend.

(** [transport_types.Error]. *)
Inductive Error : Type :=
  | ConnectionClosed | InvalidPacket | CryptoError | Internal | OutOfMemory | BufferTooSmall
  | FlowControlBlocked | StreamClosed | InvalidStream.

(** [Error!T]. *)
Definition zresult (A : Type) : Type := (Error + A)%type.

Inductive PacketNumberSpace : Type := initial | handshake | application.

(** [TlsBackendPacketSpace.fromPacketNumberSpace], as the tag that crosses the ABI. *)
Definition fromPacketNumberSpace (space : PacketNumberSpace) : Z :=
  match space with
  | initial => QUICZ_TLS_BACKEND_INITIAL
  | handshake => QUICZ_TLS_BACKEND_HANDSHAKE
  | application => QUICZ_TLS_BACKEND_APPLICATION
  end.

Definition tlsBackendStatusError (status : quicz_tls_backend_status) : zresult unit :=
  match status with
  | QUICZ_TLS_BACKEND_OK | QUICZ_TLS_BACKEND_PENDING => inr tt
  | QUICZ_TLS_BACKEND_BUFFER_TOO_SMALL => inl BufferTooSmall
  | QUICZ_TLS_BACKEND_CRYPTO_ERROR => inl CryptoError
  | QUICZ_TLS_BACKEND_INTERNAL => inl Internal
  end.

Definition tlsBackendInputStatusError (status : quicz_tls_backend_status) : zresult unit :=
  match status with
  | QUICZ_TLS_BACKEND_OK => inr tt
  | QUICZ_TLS_BACKEND_PENDING => inl Internal
  | QUICZ_TLS_BACKEND_BUFFER_TOO_SMALL => inl BufferTooSmall
  | QUICZ_TLS_BACKEND_CRYPTO_ERROR => inl CryptoError
  | QUICZ_TLS_BACKEND_INTERNAL => inl Internal
  end.

Definition is_pending (status : quicz_tls_backend_status) : bool :=
  match status with QUICZ_TLS_BACKEND_PENDING => true | _ => false end.

Definition tlsBackendPendingOutputStatusError (status : quicz_tls_backend_status) (written_len : Z) : zresult unit :=
  if is_pending status && negb (written_len =? 0) then inl Internal else tlsBackendStatusError status.

(** [ZeroRttTrafficSecrets]: both members are optional. *)
Record ZeroRttTrafficSecrets : Type := ZeroRttSecrets { zr_local : option (list byte); zr_peer : option (list byte) }.

(** [TlsBackend]: the callbacks over an opaque context state [S]. *)
Record tls_backend (S : Type) : Type := {
  receive : S -> Z -> ptr -> Z -> option (quicz_tls_backend_status * S);
  pull : S -> Z -> ptr -> Z -> cell -> option (quicz_tls_backend_status * ptr * cell * S);
  set_local_transport_parameters : option (S -> ptr -> Z -> option (quicz_tls_backend_status * S));
  pull_peer_transport_parameters : option (S -> ptr -> Z -> cell -> option (quicz_tls_backend_status * ptr * cell * S));
  pull_handshake_traffic_secrets :
    option (S -> option quicz_handshake_traffic_secrets ->
            option (quicz_tls_backend_status * option quicz_handshake_traffic_secrets * S));
  pull_zero_rtt_traffic_secrets :
    option (S -> option ZeroRttTrafficSecrets -> option (quicz_tls_backend_status * option ZeroRttTrafficSecrets * S));
  pull_1rtt_traffic_secrets :
    option (S -> option quicz_one_rtt_traffic_secrets ->
            option (quicz_tls_backend_status * option quicz_one_rtt_traffic_secrets * S));
  pull_negotiated_alpn : option (S -> ptr -> Z -> cell -> option (quicz_tls_backend_status * ptr * cell * S));
  handshake_confirmed : option (S -> bool);
}.
Arguments receive {S} _. Arguments pull {S} _. Arguments set_local_transport_parameters {S} _.
Arguments pull_peer_transport_parameters {S} _. Arguments pull_handshake_traffic_secrets {S} _.
Arguments pull_zero_rtt_traffic_secrets {S} _. Arguments pull_1rtt_traffic_secrets {S} _.
Arguments pull_negotiated_alpn {S} _. Arguments handshake_confirmed {S} _.

Section Adapters.
Context {S : Type} (self : tls_backend S).

Definition receiveAdapter (s : S) (space : PacketNumberSpace) (data : list byte) : option (zresult unit * S) :=
  '(status, s) ← receive self s (fromPacketNumberSpace space) (Some data) (zlen data);
  Some (tlsBackendInputStatusError status, s).

(** The common tail of the three functions that return a slice of [out_buf]. *)
Definition returned_slice (status : quicz_tls_backend_status) (written_len : Z) (out_buf : list byte)
    : zresult (option (list byte)) :=
  if is_pending status && (written_len =? 0) then inr None else
  match tlsBackendPendingOutputStatusError status written_len with
  | inl e => inl e
  | inr _ => if written_len >? zlen out_buf then inl BufferTooSmall else inr (Some (ztake written_len out_buf))
  end.

(** One call of a slice-returning callback: [written_len] starts at 0. *)
Definition call_pull (f : ptr -> Z -> cell -> option (quicz_tls_backend_status * ptr * cell * S)) (out_buf : list byte)
    : option (zresult (option (list byte)) * S) :=
  '(status, out, written_len, s) ← f (Some out_buf) (zlen out_buf) (Some 0);
  out ← out; written_len ← written_len;
  Some (returned_slice status written_len out, s).

Definition pullAdapter (s : S) (space : PacketNumberSpace) (out_buf : list byte)
    : option (zresult (option (list byte)) * S) :=
  call_pull (pull self s (fromPacketNumberSpace space)) out_buf.

Definition setLocalTransportParametersAdapter (s : S) (data : list byte) : option (zresult unit * S) :=
  match set_local_transport_parameters self with
  | None => Some (inr tt, s)
  | Some set_local =>
      '(status, s) ← set_local s (Some data) (zlen data);
      Some (tlsBackendInputStatusError status, s)
  end.

Definition pullPeerTransportParametersAdapter (s : S) (out_buf : list byte)
    : option (zresult (option (list byte)) * S) :=
  match pull_peer_transport_parameters self with
  | None => Some (inr None, s)
  | Some pull_peer => call_pull (pull_peer s) out_buf
  end.

(** One call of a secrets callback; [init] is what the local variable holds. *)
Definition call_secrets {T : Type} (f : option T -> option (quicz_tls_backend_status * option T * S)) (init : T)
    : option (zresult (option T) * S) :=
  '(status, secrets, s) ← f (Some init);
  secrets ← secrets;
  Some (if is_pending status then inr None
        else match tlsBackendStatusError status with inl e => inl e | inr _ => inr (Some secrets) end, s).

(** [undefined]: the content of the local variable before the call. *)
Definition pullHandshakeTrafficSecretsAdapter (undef : quicz_handshake_traffic_secrets) (s : S)
    : option (zresult (option quicz_handshake_traffic_secrets) * S) :=
  match pull_handshake_traffic_secrets self with
  | None => Some (inr None, s)
  | Some pull_secrets => call_secrets (pull_secrets s) undef
  end.

Definition pullZeroRttTrafficSecretsAdapter (s : S) : option (zresult (option ZeroRttTrafficSecrets) * S) :=
  match pull_zero_rtt_traffic_secrets self with
  | None => Some (inr None, s)
  | Some pull_secrets => call_secrets (pull_secrets s) (ZeroRttSecrets None None)
  end.

Definition pullOneRttTrafficSecretsAdapter (undef : quicz_one_rtt_traffic_secrets) (s : S)
    : option (zresult (option quicz_one_rtt_traffic_secrets) * S) :=
  match pull_1rtt_traffic_secrets self with
  | None => Some (inr None, s)
  | Some pull_secrets => call_secrets (pull_secrets s) undef
  end.

Definition pullNegotiatedAlpnAdapter (s : S) (out_buf : list byte) : option (zresult (option (list byte)) * S) :=
  match pull_negotiated_alpn self with
  | None => Some (inr None, s)
  | Some pull_alpn => call_pull (pull_alpn s) out_buf
  end.

Definition handshakeConfirmedAdapter (s : S) : bool :=
  match handshake_confirmed self with None => false | Some confirmed => confirmed s end.

End Adapters.

(** ** The contract

    What the transport relies on: from a state with calls left ([Inv n] for a
    state that can still take [n] calls) a callback has no undefined
    behaviour; a slice-returning callback keeps the size of the caller's
    buffer, writes within it, and touches neither the buffer nor the length
    unless it answers OK. *)
Definition slice_post {S : Type} (Inv : S -> Prop) (out : list byte)
    : quicz_tls_backend_status * ptr * cell * S -> Prop :=
  fun '(st, out', n, s') => Inv s' /\ exists o w, out' = Some o /\ n = Some w /\ zlen o = zlen out /\
    0 <= w <= zlen out /\ (st <> QUICZ_TLS_BACKEND_OK -> o = out /\ w = 0).

Definition secrets_post {S T : Type} (Inv : S -> Prop) (out : T)
    : quicz_tls_backend_status * option T * S -> Prop :=
  fun '(st, out', s') => Inv s' /\ exists o, out' = Some o /\ (st <> QUICZ_TLS_BACKEND_OK -> o = out).

Definition for_hook {F : Type} (h : option F) (P : F -> Prop) : Prop := match h with Some f => P f | None => True end.

Class BackendContract {S : Type} (tb : tls_backend S) (Inv : nat -> S -> Prop) : Prop := {
  bc_mono : forall n s, Inv (Datatypes.S n) s -> Inv n s;
  bc_receive : forall n s space data, Inv (Datatypes.S n) s ->
    wp (receive tb s space (Some data) (zlen data)) (fun '(st, s') => Inv n s');
  bc_pull : forall n s space out, Inv (Datatypes.S n) s ->
    wp (pull tb s space (Some out) (zlen out) (Some 0)) (slice_post (Inv n) out);
  bc_set_local : for_hook (set_local_transport_parameters tb) (fun f => forall n s data, Inv (Datatypes.S n) s ->
    wp (f s (Some data) (zlen data)) (fun '(st, s') => Inv n s'));
  bc_peer : for_hook (pull_peer_transport_parameters tb) (fun f => forall n s out, Inv (Datatypes.S n) s ->
    wp (f s (Some out) (zlen out) (Some 0)) (slice_post (Inv n) out));
  bc_handshake : for_hook (pull_handshake_traffic_secrets tb) (fun f => forall n s out, Inv (Datatypes.S n) s ->
    wp (f s (Some out)) (secrets_post (Inv n) out));
  bc_zero_rtt : for_hook (pull_zero_rtt_traffic_secrets tb) (fun f => forall n s out, Inv (Datatypes.S n) s ->
    wp (f s (Some out)) (secrets_post (Inv n) out));
  bc_one_rtt : for_hook (pull_1rtt_traffic_secrets tb) (fun f => forall n s out, Inv (Datatypes.S n) s ->
    wp (f s (Some out)) (secrets_post (Inv n) out));
  bc_alpn : for_hook (pull_negotiated_alpn tb) (fun f => forall n s out, Inv (Datatypes.S n) s ->
    wp (f s (Some out) (zlen out) (Some 0)) (slice_post (Inv n) out));
}.

(** ** Sessions against the contract *)

Inductive zig_op : Type :=
  | ZReceive (space : PacketNumberSpace) (data : list byte)
  | ZPull (space : PacketNumberSpace) (out_buf : list byte)
  | ZSetLocal (data : list byte)
  | ZPullPeer (out_buf : list byte)
  | ZPullHandshake (undef : quicz_handshake_traffic_secrets)
  | ZPullZeroRtt
  | ZPullOneRtt (undef : quicz_one_rtt_traffic_secrets)
  | ZPullAlpn (out_buf : list byte)
  | ZConfirmed.

Inductive zig_res : Type :=
  | ZUnit (r : zresult unit)
  | ZSlice (r : zresult (option (list byte)))
  | ZHandshake (r : zresult (option quicz_handshake_traffic_secrets))
  | ZZeroRtt (r : zresult (option ZeroRttTrafficSecrets))
  | ZOneRtt (r : zresult (option quicz_one_rtt_traffic_secrets))
  | ZBool (b : bool).

Section Sessions.
Context {S : Type} (tb : tls_backend S).

Definition zig_call (op : zig_op) (s : S) : option (zig_res * S) :=
  match op with
  | ZReceive space data => '(r, s) ← receiveAdapter tb s space data; Some (ZUnit r, s)
  | ZPull space out => '(r, s) ← pullAdapter tb s space out; Some (ZSlice r, s)
  | ZSetLocal data => '(r, s) ← setLocalTransportParametersAdapter tb s data; Some (ZUnit r, s)
  | ZPullPeer out => '(r, s) ← pullPeerTransportParametersAdapter tb s out; Some (ZSlice r, s)
  | ZPullHandshake undef => '(r, s) ← pullHandshakeTrafficSecretsAdapter tb undef s; Some (ZHandshake r, s)
  | ZPullZeroRtt => '(r, s) ← pullZeroRttTrafficSecretsAdapter tb s; Some (ZZeroRtt r, s)
  | ZPullOneRtt undef => '(r, s) ← pullOneRttTrafficSecretsAdapter tb undef s; Some (ZOneRtt r, s)
  | ZPullAlpn out => '(r, s) ← pullNegotiatedAlpnAdapter tb s out; Some (ZSlice r, s)
  | ZConfirmed => Some (ZBool (handshakeConfirmedAdapter tb s), s)
  end.

Fixpoint zig_session (ops : list zig_op) (s : S) : option (list (zig_op * zig_res) * S) :=
  match ops with
  | [] => Some ([], s)
  | op :: ops => '(r, s) ← zig_call op s; '(t, s) ← zig_session ops s; Some ((op, r) :: t, s)
  end.

(** The buffer a call passed. *)
Definition op_buf (op : zig_op) : list byte :=
  match op with ZPull _ out | ZPullPeer out | ZPullAlpn out => out | _ => [] end.

(** A returned slice lies within the caller's buffer. *)
Definition in_bounds (e : zig_op * zig_res) : Prop :=
  match e.2 with ZSlice (inr (Some bs)) => zlen bs <= zlen (op_buf e.1) | _ => True end.

(** What the transport sees of a callback that keeps the contract. *)
Definition slice_answer (st : quicz_tls_backend_status) (bs : list byte) : zresult (option (list byte)) :=
  match st with
  | QUICZ_TLS_BACKEND_OK => inr (Some bs)
  | QUICZ_TLS_BACKEND_PENDING => inr None
  | QUICZ_TLS_BACKEND_BUFFER_TOO_SMALL => inl BufferTooSmall
  | QUICZ_TLS_BACKEND_CRYPTO_ERROR => inl CryptoError
  | QUICZ_TLS_BACKEND_INTERNAL => inl Internal
  end.

Lemma returned_slice_contract st w o n : 0 <= w <= n -> zlen o = n -> (st <> QUICZ_TLS_BACKEND_OK -> w = 0) ->
  returned_slice st w o = slice_answer st (ztake w o).
Proof.
  intros Hw Ho Hst. unfold returned_slice, tlsBackendPendingOutputStatusError.
  destruct st; cbn [is_pending andb tlsBackendStatusError slice_answer]; try done.
  - destruct (Z.gtb_spec w (zlen o)); [lia|done].
  - by rewrite (Hst ltac:(done)).
Qed.

(** A contract-abiding callback: the adapter's answer is the status and the
    written bytes. *)
Lemma call_pull_wp (Inv : S -> Prop) f out : wp (f (Some out) (zlen out) (Some 0)) (slice_post Inv out) ->
  wp (call_pull f out) (fun '(r, s') => Inv s' /\ exists st o w,
    f (Some out) (zlen out) (Some 0) = Some (st, Some o, Some w, s') /\ 0 <= w <= zlen out /\ zlen o = zlen out /\
    r = slice_answer st (ztake w o)).
Proof.
  intros Hf. unfold call_pull. destruct (wp_elim _ _ Hf) as ([[[st out'] n] s'] & E & Hi & o & w & -> & -> & Ho & Hw & Hst).
  rewrite E. cbn. split; [done|]. exists st, o, w. split_and!; try done; try lia.
  apply (returned_slice_contract st w o (zlen out)); try done. intros Hne. by apply Hst.
Qed.

Lemma call_secrets_wp {T : Type} (Inv : S -> Prop) (f : option T -> option (quicz_tls_backend_status * option T * S)) init :
  wp (f (Some init)) (secrets_post Inv init) -> wp (call_secrets f init) (fun '(r, s') => Inv s').
Proof.
  intros Hf. unfold call_secrets. destruct (wp_elim _ _ Hf) as ([[st out'] s'] & E & Hi & o & -> & _). rewrite E. by cbn.
Qed.

Context {Inv : nat -> S -> Prop} {BC : BackendContract tb Inv}.

Lemma slice_in_bounds op st o w : 0 <= w <= zlen (op_buf op) -> zlen o = zlen (op_buf op) ->
  in_bounds (op, ZSlice (slice_answer st (ztake w o))).
Proof. intros Hw Ho. destruct st; cbn; try done. by rewrite zlen_ztake; lia. Qed.

Lemma zig_slice_wp n op (f : ptr -> Z -> cell -> option (quicz_tls_backend_status * ptr * cell * S)) :
  wp (f (Some (op_buf op)) (zlen (op_buf op)) (Some 0)) (slice_post (Inv n) (op_buf op)) ->
  wp ('(r, s) ← call_pull f (op_buf op); Some (ZSlice r, s)) (fun '(r, s') => Inv n s' /\ in_bounds (op, r)).
Proof.
  intros Hf. apply wp_bind. eapply wp_mono; [by apply call_pull_wp|].
  intros [r s'] (Hi & st & o & w & _ & Hw & Ho & ->). apply wp_ret. split; [done|]. by apply slice_in_bounds.
Qed.

Lemma zig_call_wp n op s : Inv (Datatypes.S n) s ->
  wp (zig_call op s) (fun '(r, s') => Inv n s' /\ in_bounds (op, r)).
Proof.
  intros Hs. pose proof BC as [Hmono Hrecv Hpull Hset Hpeer Hhs Hzr Hor Halpn].
  destruct op as [space data|space out|data|out|undef| |undef|out|]; cbn [zig_call].
  - apply wp_bind. unfold receiveAdapter. apply wp_bind. eapply wp_mono; [by apply Hrecv|].
    intros [st s'] Hi. by apply wp_ret.
  - apply (zig_slice_wp n (ZPull space out) (pull tb s (fromPacketNumberSpace space))). by apply Hpull.
  - unfold setLocalTransportParametersAdapter. destruct (set_local_transport_parameters tb) as [f|]; cbn in Hset |- *;
      [|by split; [apply Hmono|]].
    apply wp_bind, wp_bind. eapply wp_mono; [by apply Hset|]. intros [st s'] Hi. by apply wp_ret.
  - unfold pullPeerTransportParametersAdapter. destruct (pull_peer_transport_parameters tb) as [f|]; cbn in Hpeer |- *;
      [|by split; [apply Hmono|]].
    apply (zig_slice_wp n (ZPullPeer out) (f s)). by apply Hpeer.
  - unfold pullHandshakeTrafficSecretsAdapter. destruct (pull_handshake_traffic_secrets tb) as [f|]; cbn in Hhs |- *;
      [|by split; [apply Hmono|]].
    apply wp_bind. eapply wp_mono; [by apply (call_secrets_wp (Inv n)), Hhs|]. intros [r s'] Hi. by apply wp_ret.
  - unfold pullZeroRttTrafficSecretsAdapter. destruct (pull_zero_rtt_traffic_secrets tb) as [f|]; cbn in Hzr |- *;
      [|by split; [apply Hmono|]].
    apply wp_bind. eapply wp_mono; [by apply (call_secrets_wp (Inv n)), Hzr|]. intros [r s'] Hi. by apply wp_ret.
  - unfold pullOneRttTrafficSecretsAdapter. destruct (pull_1rtt_traffic_secrets tb) as [f|]; cbn in Hor |- *;
      [|by split; [apply Hmono|]].
    apply wp_bind. eapply wp_mono; [by apply (call_secrets_wp (Inv n)), Hor|]. intros [r s'] Hi. by apply wp_ret.
  - unfold pullNegotiatedAlpnAdapter. destruct (pull_negotiated_alpn tb) as [f|]; cbn in Halpn |- *;
      [|by split; [apply Hmono|]].
    apply (zig_slice_wp n (ZPullAlpn out) (f s)). by apply Halpn.
  - apply wp_ret. by split; [apply Hmono|].
Qed.

Lemma zig_session_wp ops : forall n s,
  Inv (length ops + n) s ->
  wp (zig_session ops s) (fun '(t, s') => t.*1 = ops /\ Inv n s' /\ Forall in_bounds t).
Proof.
  induction ops as [|op ops IH]; intros n s Hs; cbn [zig_session].
  - by apply wp_ret.
  - apply wp_bind. eapply wp_mono; [by apply (zig_call_wp (length ops + n))|]. intros [r s1] [Hi Hb].
    apply wp_bind. eapply wp_mono; [by apply (IH n s1)|]. intros [t s2] (<- & Hi2 & Hb2). apply wp_ret. by split_and!; [|..|constructor].
Qed.

(** the transport against the contract. With any backend that keeps
    [BackendContract], every sequence of adapter calls within the backend's
    call budget returns, leaves the backend ready for the rest of its budget,
    and hands out only slices that fit the transport's buffers. *)
Theorem tls_backend_session_safe (ops : list zig_op) (n : nat) (s : S) (Hs : Inv (length ops + n) s) :
  wp (zig_session ops s) (fun '(t, s') => t.*1 = ops /\ Inv n s' /\ Forall in_bounds t).
Proof. by apply zig_session_wp. Qed.

End Sessions.

(** ** Backends that break the contract

    The only assumption left is the memory model's: a callback cannot change
    the size of the caller's buffer, and a [usize] is not negative. *)
Definition keeps_buffer {S : Type} (f : ptr -> Z -> cell -> option (quicz_tls_backend_status * ptr * cell * S)) : Prop :=
  forall out st o w s', f (Some out) (zlen out) (Some 0) = Some (st, Some o, Some w, s') ->
    zlen o = zlen out /\ 0 <= w.

Record keeps_buffers {S : Type} (tb : tls_backend S) : Prop := {
  kb_pull : forall s space, keeps_buffer (pull tb s space);
  kb_peer : for_hook (pull_peer_transport_parameters tb) (fun f => forall s, keeps_buffer (f s));
  kb_alpn : for_hook (pull_negotiated_alpn tb) (fun f => forall s, keeps_buffer (f s));
}.

Lemma returned_slice_bound st w o bs : 0 <= w -> returned_slice st w o = inr (Some bs) ->
  st = QUICZ_TLS_BACKEND_OK /\ w <= zlen o /\ bs = ztake w o.
Proof.
  intros Hw. unfold returned_slice, tlsBackendPendingOutputStatusError.
  destruct st; cbn [is_pending andb tlsBackendStatusError]; try done.
  - destruct (Z.gtb_spec w (zlen o)); intros; by simplify_eq.
  - by destruct (w =? 0).
Qed.

Lemma call_pull_bound {S : Type} (f : ptr -> Z -> cell -> option (quicz_tls_backend_status * ptr * cell * S)) out bs s' :
  keeps_buffer f -> call_pull f out = Some (inr (Some bs), s') -> zlen bs <= zlen out.
Proof.
  intros Hk ([[[st o] w] s1] & E & H1)%bind_Some. apply bind_Some in H1 as (o' & -> & H1).
  apply bind_Some in H1 as (w' & -> & H1). destruct (Hk _ _ _ _ _ E) as [Ho Hw]. injection H1 as Hr _.
  destruct (returned_slice_bound _ _ _ _ Hw Hr) as (_ & Hle & ->). rewrite zlen_ztake; lia.
Qed.

Lemma zig_call_bound {S : Type} (tb : tls_backend S) op s r s' : keeps_buffers tb ->
  zig_call tb op s = Some (r, s') -> in_bounds (op, r).
Proof.
  intros [Hp Hpeer Halpn] E. unfold in_bounds. cbn [fst snd].
  destruct r as [|[|[bs|]]| | | |]; try done.
  destruct op as [space data|space out|data|out|undef| |undef|out|]; cbn [zig_call op_buf] in *;
    apply bind_Some in E as ([r s1] & E & H1) || discriminate; simplify_eq.
  - eapply call_pull_bound; [apply Hp|exact E].
  - unfold pullPeerTransportParametersAdapter in E. destruct (pull_peer_transport_parameters tb); [|done].
    eapply call_pull_bound; [apply Hpeer|exact E].
  - unfold pullNegotiatedAlpnAdapter in E. destruct (pull_negotiated_alpn tb); [|done].
    eapply call_pull_bound; [apply Halpn|exact E].
Qed.

(** the adapter never trusts a reported length. For any callback table,
    also one that reports any status with any [written_len], every slice a
    session hands to the transport lies within the buffer of its call. *)
Theorem tls_backend_slices_in_bounds {S : Type} (tb : tls_backend S) (Hk : keeps_buffers tb)
    (ops : list zig_op) (s s' : S) (t : list (zig_op * zig_res)) (Hrun : zig_session tb ops s = Some (t, s')) :
  Forall in_bounds t.
Proof.
  revert s t Hrun. induction ops as [|op ops IH]; intros s t Hrun; cbn [zig_session] in Hrun; [by simplify_eq|].
  apply bind_Some in Hrun as ([r s1] & E & Hrun). apply bind_Some in Hrun as ([t' s2] & E' & Hrun). simplify_eq.
  constructor; [by eapply zig_call_bound|by eapply IH].
Qed.

End TlsBackend.
