(* ===== verification/TlsTables.v ===== *)
(** * The two C backends behind the transport's table

    The wrappers and tables with which examples/tls_c_abi_adapter.zig and
    examples/tls_openssl_backend_adapter.zig hand a C backend to the transport,
    the proofs that both meet [BackendContract], and the CRYPTO streams of a
    transport session over the OpenSSL adapter. *)
From S2P Require Import Prelude CAbi DemoBackend OpenSSL CryptoLevels Adapter AdapterInv AdapterSession AdapterLife TlsBackend.
Import TlsBackend.
Local Open Scope Z_scope.

Module TlsTables.

(** ** The demo backend as a table (examples/tls_c_abi_adapter.zig) *)

(** Both secrets wrappers: the C function fills a local struct, which is copied
    to [out] only on OK. *)
Definition copied_secrets {S T : Type} (call : option T -> option (quicz_tls_backend_status * option T * S))
    (undef : T) (out : option T) : option (quicz_tls_backend_status * option T * S) :=
  '(status, c_secrets, s) ← call (Some undef);
  match status with
  | QUICZ_TLS_BACKEND_OK => _ ← out; c_secrets ← c_secrets; Some (status, Some c_secrets, s)
  | _ => Some (status, out, s)
  end.

(** The wrappers [cDemoReceive] to [cDemoHandshakeConfirmed] only convert the
    enums and pass their arguments on, except the secrets one. *)
Definition demo_tls_backend (undef : quicz_handshake_traffic_secrets) : tls_backend Demo.globals := {|
  receive := Demo.quicz_tls_c_demo_receive;
  pull := Demo.quicz_tls_c_demo_pull;
  set_local_transport_parameters := Some Demo.quicz_tls_c_demo_set_local_transport_parameters;
  pull_peer_transport_parameters := Some Demo.quicz_tls_c_demo_pull_peer_transport_parameters;
  pull_handshake_traffic_secrets :=
    Some (fun g => copied_secrets (Demo.quicz_tls_c_demo_pull_handshake_traffic_secrets g) undef);
  pull_zero_rtt_traffic_secrets := None;
  pull_1rtt_traffic_secrets := None;
  pull_negotiated_alpn := None;
  handshake_confirmed := Some Demo.quicz_tls_c_demo_handshake_confirmed;
|}.

Lemma copied_secrets_wp {S T : Type} (Inv : S -> Prop) (call : option T -> option (quicz_tls_backend_status * option T * S))
    undef out :
  wp (call (Some undef)) (fun '(st, o, s) => Inv s /\ o <> None) ->
  wp (copied_secrets call undef (Some out)) (secrets_post Inv out).
Proof.
  intros Hc. unfold copied_secrets. apply wp_bind. eapply wp_mono; [exact Hc|].
  intros [[st [o|]] s'] [Hi Ho]; [|done].
  destruct st; cbn; (split; [done|]); by eexists.
Qed.

Lemma length_splice_fits (out bs : list byte) : zlen bs <= zlen out -> zlen (bs ++ zdrop (zlen bs) out) = zlen out.
Proof. intros. pose proof (zlen_nonneg bs). rewrite zlen_app, zlen_zdrop by lia. lia. Qed.

Ltac slice_case := split; [first [done|by constructor; cbn; lia]|]; eexists _, _; split_and!; try done; try lia.

Lemma demo_pull_contract g space out : Demo.inv g ->
  wp (Demo.quicz_tls_c_demo_pull g space (Some out) (zlen out) (Some 0)) (slice_post Demo.inv out).
Proof.
  intros Hinv. pose proof Hinv as [Hl Hi Hp Ho]. pose proof (zlen_nonneg out).
  unfold Demo.quicz_tls_c_demo_pull. wp_go; cbn -[zlen]; slice_case.
  by apply length_splice_fits; rewrite zlen_slice by lia; lia.
Qed.

Lemma demo_pull_peer_contract g out : Demo.inv g ->
  wp (Demo.quicz_tls_c_demo_pull_peer_transport_parameters g (Some out) (zlen out) (Some 0)) (slice_post Demo.inv out).
Proof.
  intros Hinv. pose proof Hinv as [Hl Hi Hp Ho]. pose proof (zlen_nonneg out).
  unfold Demo.quicz_tls_c_demo_pull_peer_transport_parameters. wp_go; cbn -[zlen]; slice_case.
  by apply length_splice_fits; rewrite zlen_slice by lia; lia.
Qed.

Lemma demo_step_inv g op : Demo.inv g -> wp (Demo.demo_step g op) (fun '(_, g') => Demo.inv g').
Proof. intros Hi. eapply wp_mono; [by apply Demo.refines_all|]. by intros [r g'] [_ Hi']. Qed.

(** The demo backend never runs out of calls. *)
#[export] Instance demo_contract undef : BackendContract (demo_tls_backend undef) (fun _ => Demo.inv).
Proof.
  constructor; cbn; try done; intros.
  - pose proof (demo_step_inv s (Demo.OpReceive space data)) as Hs. cbn in Hs.
    destruct (Demo.quicz_tls_c_demo_receive s space (Some data) (zlen data)) as [[st g]|]; by apply Hs.
  - by apply demo_pull_contract.
  - pose proof (demo_step_inv s (Demo.OpSetLocal data)) as Hs. cbn in Hs.
    destruct (Demo.quicz_tls_c_demo_set_local_transport_parameters s (Some data) (zlen data)) as [[st g]|]; by apply Hs.
  - by apply demo_pull_peer_contract.
  - apply copied_secrets_wp. unfold Demo.quicz_tls_c_demo_pull_handshake_traffic_secrets. cbn.
    destruct (Demo.handshake_secrets_sent s); cbn; [done|]. split; [|done]. by destruct H; constructor.
Qed.

(** ** The OpenSSL adapter as a table (examples/tls_openssl_backend_adapter.zig) *)

Section WithOpenSSL.
Context {H : OpenSSLHeaders} {O : OpenSSL}.
Context (undef_hs : quicz_handshake_traffic_secrets) (undef_ort : quicz_one_rtt_traffic_secrets).

(** The struct behind the context pointer, and OpenSSL. *)
Definition openssl_state : Type := Adapter.backend * world O.

Definition opensslBackendReceive (s : openssl_state) (space : Z) (data : ptr) (data_len : Z)
    : option (quicz_tls_backend_status * openssl_state) :=
  let '(b, w) := s in
  '(st, arg) ← Adapter.quicz_openssl_tls_backend_receive (Some b) space data data_len;
  b ← arg; Some (st, (b, w)).

Definition opensslBackendPull (s : openssl_state) (space : Z) (out : ptr) (out_len : Z) (written_len : cell)
    : option (quicz_tls_backend_status * ptr * cell * openssl_state) :=
  let '(b, w) := s in
  '(st, out, n, arg, w) ← Adapter.quicz_openssl_tls_backend_pull (Some b) space out out_len written_len w;
  b ← arg; Some (st, out, n, (b, w)).

Definition opensslBackendSetLocalTransportParameters (s : openssl_state) (data : ptr) (data_len : Z)
    : option (quicz_tls_backend_status * openssl_state) :=
  let '(b, w) := s in
  '(st, arg, w) ← Adapter.quicz_openssl_tls_backend_set_local_transport_parameters (Some b) data data_len w;
  b ← arg; Some (st, (b, w)).

Definition opensslBackendPullPeerTransportParameters (s : openssl_state) (out : ptr) (out_len : Z) (written_len : cell)
    : option (quicz_tls_backend_status * ptr * cell * openssl_state) :=
  let '(b, w) := s in
  '(st, out, n, arg) ←
    Adapter.quicz_openssl_tls_backend_pull_peer_transport_parameters (Some b) out out_len written_len;
  b ← arg; Some (st, out, n, (b, w)).

Definition opensslBackendPullHandshakeTrafficSecrets (s : openssl_state)
    : option quicz_handshake_traffic_secrets ->
      option (quicz_tls_backend_status * option quicz_handshake_traffic_secrets * openssl_state) :=
  let '(b, w) := s in
  copied_secrets (fun c_secrets =>
    '(st, out, arg) ← Adapter.quicz_openssl_tls_backend_pull_handshake_traffic_secrets (Some b) c_secrets;
    b ← arg; Some (st, out, (b, w))) undef_hs.

Definition opensslBackendPullOneRttTrafficSecrets (s : openssl_state)
    : option quicz_one_rtt_traffic_secrets ->
      option (quicz_tls_backend_status * option quicz_one_rtt_traffic_secrets * openssl_state) :=
  let '(b, w) := s in
  copied_secrets (fun c_secrets =>
    '(st, out, arg) ← Adapter.quicz_openssl_tls_backend_pull_1rtt_traffic_secrets (Some b) c_secrets;
    b ← arg; Some (st, out, (b, w))) undef_ort.

Definition opensslBackendHandshakeConfirmed (s : openssl_state) : bool :=
  Adapter.quicz_openssl_tls_backend_handshake_confirmed (Some s.1).

Definition opensslBackendPullNegotiatedAlpn (s : openssl_state) (out : ptr) (out_len : Z) (written_len : cell)
    : option (quicz_tls_backend_status * ptr * cell * openssl_state) :=
  let '(b, w) := s in
  '(st, out, n) ← Adapter.quicz_openssl_tls_backend_pull_negotiated_alpn (Some b) out out_len written_len w;
  Some (st, out, n, (b, w)).

Definition openssl_tls_backend : tls_backend openssl_state := {|
  receive := opensslBackendReceive;
  pull := opensslBackendPull;
  set_local_transport_parameters := Some opensslBackendSetLocalTransportParameters;
  pull_peer_transport_parameters := Some opensslBackendPullPeerTransportParameters;
  pull_handshake_traffic_secrets := Some opensslBackendPullHandshakeTrafficSecrets;
  pull_zero_rtt_traffic_secrets := None;
  pull_1rtt_traffic_secrets := Some opensslBackendPullOneRttTrafficSecrets;
  pull_negotiated_alpn := Some opensslBackendPullNegotiatedAlpn;
  handshake_confirmed := Some opensslBackendHandshakeConfirmed;
|}.

(** *** What the slice callbacks leave in the caller's buffer *)

Definition fits (out : list byte) (st : quicz_tls_backend_status) (out' : ptr) (n : cell) : Prop :=
  exists o k, out' = Some o /\ n = Some k /\ zlen o = zlen out /\ 0 <= k <= zlen out /\
    (st <> QUICZ_TLS_BACKEND_OK -> o = out /\ k = 0).

Lemma fits_untouched out st : fits out st (Some out) (Some 0).
Proof. pose proof (zlen_nonneg out). by exists out, 0. Qed.

Lemma fits_written out bs k : 0 <= k -> k = zlen bs -> k <= zlen out ->
  fits out QUICZ_TLS_BACKEND_OK (Some (bs ++ zdrop (zlen bs) out)) (Some k).
Proof. intros Hk -> Hle. eexists _, _. split_and!; try done. by apply length_splice_fits. Qed.

Lemma write_ptr_Some out bs out' : write_ptr (Some out) bs = Some out' ->
  zlen bs <= zlen out /\ out' = Some (bs ++ zdrop (zlen bs) out).
Proof.
  unfold write_ptr. cbn. destruct (Z.leb_spec (zlen bs) (zlen out)); cbn; intros; by simplify_eq.
Qed.

Lemma read_array_len cap a i n bs : read_array cap a i n = Some bs -> 0 <= n /\ zlen bs = n.
Proof.
  unfold read_array. destruct (Z.leb_spec 0 i), (Z.leb_spec 0 n), (Z.leb_spec (i + n) cap); cbn; intros; try done.
  simplify_eq. by rewrite zlen_slice.
Qed.

Ltac fits_solve :=
  repeat match goal with
  | H : read_array _ _ _ _ = Some _ |- _ => apply read_array_len in H as [? ?]
  | H : write_ptr (Some _) _ = Some _ |- _ => apply write_ptr_Some in H as [? ->]
  end; first [apply fits_untouched | apply fits_written; first [lia | apply zlen_nonneg] | done].

Lemma copy_fits b level out st out' n b' :
  Adapter.copy_pending_outbound b level (Some out) (zlen out) (Some 0) = Some (st, out', n, b') -> fits out st out' n.
Proof.
  unfold Adapter.copy_pending_outbound. intros. repeat (case_match || simplify_option_eq); fits_solve.
Qed.

Lemma fits_not_ok out st out' n : st <> QUICZ_TLS_BACKEND_OK -> fits out st out' n -> out' = Some out /\ n = Some 0.
Proof. intros Hst (o & k & -> & -> & _ & _ & Hq). by destruct (Hq Hst) as [-> ->]. Qed.

Lemma pull_drive_fits b s level out w st out' n arg w' :
  Adapter.pull_drive b s level (Some out) (zlen out) (Some 0) w = Some (st, out', n, arg, w') -> fits out st out' n.
Proof.
  unfold Adapter.pull_drive. intros (cnt & _ & E)%bind_Some. cbv zeta in E.
  apply bind_Some in E as ([[rc o] b2] & _ & E). destruct (if negb (rc =? 1) then _ else _) as [b3 w3].
  destruct (ctrue _); [by simplify_eq; apply fits_untouched|].
  apply bind_Some in E as ([[[st1 out1] n1] b4] & Hc%copy_fits & E).
  case_bool_decide; cbn in E; [|by simplify_eq].
  destruct (fits_not_ok out st1 out1 n1) as [-> ->]; [by subst|done|].
  repeat case_match; simplify_eq; apply fits_untouched.
Qed.

Lemma pull_fits b space out w st out' n arg w' :
  Adapter.quicz_openssl_tls_backend_pull (Some b) space (Some out) (zlen out) (Some 0) w = Some (st, out', n, arg, w') ->
  fits out st out' n.
Proof.
  unfold Adapter.quicz_openssl_tls_backend_pull. cbn -[Adapter.pull_drive]. intros E.
  destruct (Adapter.ssl b) as [s|]; [|by simplify_eq; apply fits_untouched].
  destruct (Adapter.packet_space_level space) as [level|]; [|by simplify_eq; apply fits_untouched].
  apply bind_Some in E as ([[[st1 out1] n1] b4] & Hc%copy_fits & E).
  case_bool_decide; cbn -[Adapter.pull_drive] in E; [|by simplify_eq].
  destruct (fits_not_ok out st1 out1 n1) as [-> ->]; [by subst|done|].
  destruct (negb _); [by simplify_eq; apply fits_untouched|]. by eapply pull_drive_fits.
Qed.

Lemma pull_peer_fits b out st out' n arg :
  Adapter.quicz_openssl_tls_backend_pull_peer_transport_parameters (Some b) (Some out) (zlen out) (Some 0) =
    Some (st, out', n, arg) -> fits out st out' n.
Proof.
  unfold Adapter.quicz_openssl_tls_backend_pull_peer_transport_parameters. cbn. intros.
  repeat (case_match || simplify_option_eq); fits_solve.
Qed.

Lemma pull_alpn_fits b out w st out' n :
  Adapter.quicz_openssl_tls_backend_pull_negotiated_alpn (Some b) (Some out) (zlen out) (Some 0) w =
    Some (st, out', n) -> fits out st out' n.
Proof.
  unfold Adapter.quicz_openssl_tls_backend_pull_negotiated_alpn. intros.
  repeat (case_match || simplify_option_eq); fits_solve.
Qed.

(** *** The contract *)

Context {Hok : OpenSSLHeadersOk H} (d : nat).

(** [n] more calls fit into the adapter's [int] counters. *)
Definition openssl_inv (n : nat) (s : openssl_state) : Prop :=
  exists m, AdapterInv.inv m s.1 /\ m + Z.of_nat n * (Z.of_nat d + 4) <= INT_MAX.

Definition drives_bounded : Prop := forall s o, bounded d (SSL_do_handshake s o).

(** [b] goes to [s'] by the API call [op] with result [r], within one call's budget. *)
Definition called (m : Z) (b : Adapter.backend) (op : AdapterLife.api_op) (r : AdapterLife.api_res) (s' : openssl_state) : Prop :=
  AdapterSession.trans m (Z.of_nat d + 4) b (fun L => AdapterLife.client_pulled1 L (op, r))
    (fun L => AdapterLife.client_delivered1 L (op, r)) s'.1.

Lemma api_called m b op (w : world O) : drives_bounded -> AdapterInv.inv m b -> m + Z.of_nat d + 4 <= INT_MAX ->
  wp (AdapterLife.api_call op b w) (fun '(r, b', w') => called m b op r (b', w')).
Proof.
  intros Hd Hi Hm. eapply wp_mono; [by apply (AdapterLife.api_call_wp m d b op w Hd Hi)|].
  by intros [[r b'] w'] [_ T].
Qed.

Lemma called_inv m b op r s' n : called m b op r s' -> m + Z.of_nat (S n) * (Z.of_nat d + 4) <= INT_MAX ->
  openssl_inv n s'.
Proof.
  intros T Hm. exists (m + (Z.of_nat d + 4)). split; [by eapply AdapterSession.trans_inv|lia].
Qed.

(** The wrappers make the API calls of [AdapterLife]. *)
Lemma receive_api b w space data :
  AdapterLife.api_call (AdapterLife.OpReceive space data) b w =
  '(st, s) ← opensslBackendReceive (b, w) space (Some data) (zlen data); Some (AdapterLife.RStatus st, s.1, s.2).
Proof.
  cbn [AdapterLife.api_call opensslBackendReceive].
  by destruct (Adapter.quicz_openssl_tls_backend_receive _ _ _ _) as [[? [?|]]|].
Qed.

Lemma pull_api b w space out :
  AdapterLife.api_call (AdapterLife.OpPull space out) b w =
  '(st, out, n, s) ← opensslBackendPull (b, w) space (Some out) (zlen out) (Some 0);
  Some (AdapterLife.RBytes st out n, s.1, s.2).
Proof.
  cbn [AdapterLife.api_call opensslBackendPull].
  by destruct (Adapter.quicz_openssl_tls_backend_pull _ _ _ _ _ _) as [[[[[? ?] ?] [?|]] ?]|].
Qed.

Lemma set_local_api b w data :
  AdapterLife.api_call (AdapterLife.OpSetLocal data) b w =
  '(st, s) ← opensslBackendSetLocalTransportParameters (b, w) (Some data) (zlen data);
  Some (AdapterLife.RStatus st, s.1, s.2).
Proof.
  cbn [AdapterLife.api_call opensslBackendSetLocalTransportParameters].
  by destruct (Adapter.quicz_openssl_tls_backend_set_local_transport_parameters _ _ _ _) as [[[? [?|]] ?]|].
Qed.

Lemma pull_peer_api b w out :
  AdapterLife.api_call (AdapterLife.OpPullPeer out) b w =
  '(st, out, n, s) ← opensslBackendPullPeerTransportParameters (b, w) (Some out) (zlen out) (Some 0);
  Some (AdapterLife.RBytes st out n, s.1, s.2).
Proof.
  cbn [AdapterLife.api_call opensslBackendPullPeerTransportParameters].
  by destruct (Adapter.quicz_openssl_tls_backend_pull_peer_transport_parameters _ _ _ _) as [[[[? ?] ?] [?|]]|].
Qed.

Lemma pull_alpn_api b w out :
  AdapterLife.api_call (AdapterLife.OpPullAlpn out) b w =
  '(st, out, n, s) ← opensslBackendPullNegotiatedAlpn (b, w) (Some out) (zlen out) (Some 0);
  Some (AdapterLife.RBytes st out n, s.1, s.2).
Proof.
  cbn [AdapterLife.api_call opensslBackendPullNegotiatedAlpn].
  by destruct (Adapter.quicz_openssl_tls_backend_pull_negotiated_alpn _ _ _ _ _) as [[[? ?] ?]|].
Qed.

(** A callback that is an API call. *)
Section Called.
Context (m : Z) (b : Adapter.backend) (w : world O).
Context (Hd : drives_bounded) (Hi : AdapterInv.inv m b) (Hm : m + Z.of_nat d + 4 <= INT_MAX).

Lemma called_status op (c : option (quicz_tls_backend_status * openssl_state)) :
  AdapterLife.api_call op b w = ('(st, s) ← c; Some (AdapterLife.RStatus st, s.1, s.2)) ->
  wp c (fun '(st, s') => called m b op (AdapterLife.RStatus st) s').
Proof.
  intros E. pose proof (api_called m b op w Hd Hi Hm) as Hr. rewrite E in Hr. by destruct c as [[st [b' w']]|].
Qed.

Lemma called_slice op (c : option (quicz_tls_backend_status * ptr * cell * openssl_state)) :
  AdapterLife.api_call op b w = ('(st, o, k, s) ← c; Some (AdapterLife.RBytes st o k, s.1, s.2)) ->
  wp c (fun '(st, o, k, s') => called m b op (AdapterLife.RBytes st o k) s').
Proof.
  intros E. pose proof (api_called m b op w Hd Hi Hm) as Hr. rewrite E in Hr.
  by destruct c as [[[[st o] k] [b' w']]|].
Qed.

Lemma called_handshake undef out :
  wp (opensslBackendPullHandshakeTrafficSecrets (b, w) (Some out))
    (secrets_post (called m b (AdapterLife.OpPullHandshakeSecrets undef_hs) undef) out).
Proof.
  pose proof (api_called m b (AdapterLife.OpPullHandshakeSecrets undef_hs) w Hd Hi Hm) as Hr.
  apply copied_secrets_wp. cbn -[called] in Hr |- *. by destruct (_ || _).
Qed.

Lemma called_one_rtt undef out :
  wp (opensslBackendPullOneRttTrafficSecrets (b, w) (Some out))
    (secrets_post (called m b (AdapterLife.OpPull1RttSecrets undef_ort) undef) out).
Proof.
  pose proof (api_called m b (AdapterLife.OpPull1RttSecrets undef_ort) w Hd Hi Hm) as Hr.
  apply copied_secrets_wp. cbn -[called] in Hr |- *. by destruct (_ || _).
Qed.

End Called.

Lemma pull_callback_fits s space out st o k s' :
  opensslBackendPull s space (Some out) (zlen out) (Some 0) = Some (st, o, k, s') -> fits out st o k.
Proof.
  destruct s as [b w]. intros ([[[[st1 o1] k1] arg] w1] & Hp%pull_fits & E)%bind_Some. by simplify_option_eq.
Qed.

Lemma pull_peer_callback_fits s out st o k s' :
  opensslBackendPullPeerTransportParameters s (Some out) (zlen out) (Some 0) = Some (st, o, k, s') -> fits out st o k.
Proof.
  destruct s as [b w]. intros ([[[st1 o1] k1] arg] & Hp%pull_peer_fits & E)%bind_Some. by simplify_option_eq.
Qed.

Lemma pull_alpn_callback_fits s out st o k s' :
  opensslBackendPullNegotiatedAlpn s (Some out) (zlen out) (Some 0) = Some (st, o, k, s') -> fits out st o k.
Proof.
  destruct s as [b w]. intros ([[st1 o1] k1] & Hp%pull_alpn_fits & E)%bind_Some. by simplify_option_eq.
Qed.

(** A slice callback whose state is described by [P]. *)
Lemma slice_post_intro (P : openssl_state -> Prop) out (c : option (quicz_tls_backend_status * ptr * cell * openssl_state)) :
  wp c (fun '(st, o, k, s') => P s') -> (forall st o k s, c = Some (st, o, k, s) -> fits out st o k) ->
  wp c (slice_post P out).
Proof. destruct c as [[[[st o] k] s']|]; [|done]. intros HP Hf. split; [done|]. by eapply Hf. Qed.

Lemma openssl_contract (Hd : drives_bounded) : BackendContract openssl_tls_backend openssl_inv.
Proof.
  assert (forall m n b op r s', m + Z.of_nat (S n) * (Z.of_nat d + 4) <= INT_MAX -> called m b op r s' ->
    openssl_inv n s') as Hinv by (intros; by eapply called_inv).
  constructor; cbn [receive pull set_local_transport_parameters pull_peer_transport_parameters
    pull_handshake_traffic_secrets pull_zero_rtt_traffic_secrets pull_1rtt_traffic_secrets pull_negotiated_alpn
    openssl_tls_backend for_hook]; try done.
  { intros n s (m & Hi & Hm). exists m. split; [done|lia]. }
  - intros n [b w] space data (m & Hi & Hm).
    eapply wp_mono; [eapply (called_status m); [done..|lia|apply receive_api]|]. intros [st s']. by eapply Hinv.
  - intros n [b w] space out (m & Hi & Hm). apply slice_post_intro; [|intros *; apply pull_callback_fits].
    eapply wp_mono; [eapply (called_slice m); [done..|lia|apply pull_api]|]. intros [[[st o] k] s']. by eapply Hinv.
  - intros n [b w] data (m & Hi & Hm).
    eapply wp_mono; [eapply (called_status m); [done..|lia|apply set_local_api]|]. intros [st s']. by eapply Hinv.
  - intros n [b w] out (m & Hi & Hm). apply slice_post_intro; [|intros *; apply pull_peer_callback_fits].
    eapply wp_mono; [eapply (called_slice m); [done..|lia|apply pull_peer_api]|]. intros [[[st o] k] s']. by eapply Hinv.
  - intros n [b w] out (m & Hi & Hm).
    eapply wp_mono; [apply (called_handshake m b w Hd Hi ltac:(lia) (AdapterLife.RLen 0))|].
    intros [[st o] s'] [Hc Ho]. split; [by eapply Hinv|done].
  - intros n [b w] out (m & Hi & Hm).
    eapply wp_mono; [apply (called_one_rtt m b w Hd Hi ltac:(lia) (AdapterLife.RLen 0))|].
    intros [[st o] s'] [Hc Ho]. split; [by eapply Hinv|done].
  - intros n [b w] out (m & Hi & Hm). apply slice_post_intro; [|intros *; apply pull_alpn_callback_fits].
    eapply wp_mono; [eapply (called_slice m); [done..|lia|apply pull_alpn_api]|]. intros [[[st o] k] s']. by eapply Hinv.
Qed.

(** *** The CRYPTO streams the transport sees *)

Definition zig_pulled1 (L : Z) (e : zig_op * zig_res) : list byte :=
  match e with
  | (ZPull space _, ZSlice (inr (Some bs))) =>
      match Adapter.packet_space_level (fromPacketNumberSpace space) with
      | Some level => AdapterSession.at_level L level bs | None => []
      end
  | _ => []
  end.

Definition zig_delivered1 (L : Z) (e : zig_op * zig_res) : list byte :=
  match e with
  | (ZReceive space data, ZUnit (inr _)) =>
      match Adapter.packet_space_level (fromPacketNumberSpace space) with
      | Some level => AdapterSession.at_level L level data | None => []
      end
  | _ => []
  end.

Definition zig_pulled (L : Z) (t : list (zig_op * zig_res)) : list byte := concat (zig_pulled1 L <$> t).
Definition zig_delivered (L : Z) (t : list (zig_op * zig_res)) : list byte := concat (zig_delivered1 L <$> t).

(** [b] goes to [s'] by the transport's call [op] with answer [r]. *)
Definition zig_called (m : Z) (b : Adapter.backend) (op : zig_op) : zig_res * openssl_state -> Prop :=
  fun '(r, s') => AdapterSession.trans m (Z.of_nat d + 4) b (fun L => zig_pulled1 L (op, r))
    (fun L => zig_delivered1 L (op, r)) s'.1.

Lemma called_quiet m b op r s' zop zr : called m b op r s' ->
  (forall L, AdapterLife.client_pulled1 L (op, r) = [] /\ AdapterLife.client_delivered1 L (op, r) = []) ->
  (forall L, zig_pulled1 L (zop, zr) = [] /\ zig_delivered1 L (zop, zr) = []) ->
  zig_called m b zop (zr, s').
Proof.
  intros T Hq Hz. eapply AdapterSession.trans_weaken; [exact T|lia|..]; intros L;
    destruct (Hq L) as [E1 E2], (Hz L) as [E3 E4]; by rewrite ?E1, ?E2, ?E3, ?E4.
Qed.

(** The slice the transport gets is the bytes the API call handed out. *)
Lemma zig_slice_called m b op zop buf
    (f : ptr -> Z -> cell -> option (quicz_tls_backend_status * ptr * cell * openssl_state)) :
  wp (f (Some buf) (zlen buf) (Some 0)) (fun '(st, o, k, s') => called m b op (AdapterLife.RBytes st o k) s') ->
  (forall st o k s, f (Some buf) (zlen buf) (Some 0) = Some (st, o, k, s) -> fits buf st o k) ->
  (forall L st o k, let r := AdapterLife.RBytes st (Some o) (Some k) in
    let zr := ZSlice (slice_answer st (ztake k o)) in
    AdapterLife.client_pulled1 L (op, r) = zig_pulled1 L (zop, zr) /\
    AdapterLife.client_delivered1 L (op, r) = zig_delivered1 L (zop, zr)) ->
  wp ('(r, s) ← call_pull f buf; Some (ZSlice r, s)) (zig_called m b zop).
Proof.
  intros Hc Hf Heq. apply wp_bind.
  eapply wp_mono; [apply (call_pull_wp (fun _ => True) f buf), slice_post_intro; [|done]|].
  { eapply wp_mono; [exact Hc|]. by intros [[[st o] k] s'] _. }
  intros [r s'] (_ & st & o & k & E & _ & _ & ->). rewrite E in Hc. apply wp_ret.
  eapply AdapterSession.trans_weaken; [exact Hc|lia|..]; intros L; by destruct (Heq L st o k).
Qed.

Lemma zig_call_called m b op (w : world O) : drives_bounded -> AdapterInv.inv m b -> m + Z.of_nat d + 4 <= INT_MAX ->
  wp (zig_call openssl_tls_backend op (b, w)) (zig_called m b op).
Proof.
  intros Hd Hi Hm.
  assert (AdapterSession.trans m (Z.of_nat d + 4) b AdapterSession.none AdapterSession.none b) as T0.
  { eapply AdapterSession.trans_weaken; [by apply AdapterSession.trans_refl|lia|done|done]. }
  destruct op as [space data|space out|data|out|undef| |undef|out|]; cbn [zig_call].
  - apply wp_bind, wp_bind. eapply wp_mono; [eapply (called_status m); [done..|apply receive_api]|].
    intros [st s'] T. do 2 apply wp_ret. eapply AdapterSession.trans_weaken; [exact T|lia|..]; intros L; by destruct st.
  - eapply (zig_slice_called m b (AdapterLife.OpPull (fromPacketNumberSpace space) out));
      [eapply (called_slice m); [done..|apply pull_api]|intros *; apply pull_callback_fits|].
    intros L st o k. cbn. by destruct (Adapter.packet_space_level _), st.
  - apply wp_bind, wp_bind. eapply wp_mono; [eapply (called_status m); [done..|apply set_local_api]|].
    intros [st s'] T. do 2 apply wp_ret. by eapply called_quiet.
  - eapply (zig_slice_called m b (AdapterLife.OpPullPeer out));
      [eapply (called_slice m); [done..|apply pull_peer_api]|intros *; apply pull_peer_callback_fits|done].
  - apply wp_bind. eapply wp_mono; [eapply call_secrets_wp, (called_handshake m b w Hd Hi Hm (AdapterLife.RLen 0))|].
    intros [r s'] T. apply wp_ret. by eapply called_quiet.
  - apply wp_ret. exact T0.
  - apply wp_bind. eapply wp_mono; [eapply call_secrets_wp, (called_one_rtt m b w Hd Hi Hm (AdapterLife.RLen 0))|].
    intros [r s'] T. apply wp_ret. by eapply called_quiet.
  - eapply (zig_slice_called m b (AdapterLife.OpPullAlpn out));
      [eapply (called_slice m); [done..|apply pull_alpn_api]|intros *; apply pull_alpn_callback_fits|done].
  - apply wp_ret. exact T0.
Qed.

Lemma zig_session_called (Hd : drives_bounded) ops : forall m b (w : world O),
  AdapterInv.inv m b -> m + zlen ops * (Z.of_nat d + 4) <= INT_MAX ->
  wp (zig_session openssl_tls_backend ops (b, w)) (fun '(t, s') =>
    AdapterSession.trans m (zlen ops * (Z.of_nat d + 4)) b (fun L => zig_pulled L t) (fun L => zig_delivered L t) s'.1).
Proof.
  induction ops as [|op ops IH]; intros m b w Hinv Hm; cbn [zig_session].
  - apply wp_ret. by apply AdapterSession.trans_refl.
  - rewrite zlen_cons in *. pose proof (zlen_nonneg ops).
    apply wp_bind. eapply wp_mono; [apply (zig_call_called m b op w Hd Hinv); lia|].
    intros [r [b1 w1]] T1. cbn [zig_called fst] in T1. apply wp_bind.
    eapply wp_mono; [apply (IH (m + (Z.of_nat d + 4)) b1 w1); [by eapply AdapterSession.trans_inv|lia]|].
    intros [t [b2 w2]] T2. apply wp_ret.
    eapply AdapterSession.trans_weaken; [exact (AdapterSession.trans_trans _ _ _ _ _ _ _ _ _ _ T1 T2)|lia|done|done].
Qed.

(** C4: the transport over the OpenSSL adapter. Whatever sequence of at most
    2^31/(d+4) calls the transport's [CryptoBackend] adapter makes through the
    OpenSSL table on a fresh backend, no call has undefined behaviour, every
    returned slice fits the transport's buffer, the slices returned for a
    packet-number space followed by the bytes still pending are the CRYPTO
    bytes OpenSSL produced at that level, the accepted deliveries are the bytes
    it was given, and once the adapter confirms the handshake OpenSSL has
    consumed them all. *)
Theorem tls_backend_openssl_stream c s cbs quic (ops : list zig_op) (w : world O) (Hd : drives_bounded)
    (Hlen : zlen ops * (Z.of_nat d + 4) <= INT_MAX) :
  wp (zig_session openssl_tls_backend ops (AdapterInv.fresh_backend c s cbs quic, w)) (fun '(t, (b', w')) =>
    t.*1 = ops /\ Forall in_bounds t /\
    exists ls, AdapterSession.steps (AdapterInv.fresh_backend c s cbs quic) ls b' /\ forall L,
      zig_pulled L t ++ AdapterInv.outp b' L = AdapterSession.sent L ls /\
      zig_delivered L t = AdapterSession.received L ls /\
      (handshakeConfirmedAdapter openssl_tls_backend (b', w') = true ->
        AdapterSession.consumed L ls = zig_delivered L t)).
Proof.
  pose proof (AdapterInv.inv_init c s cbs quic) as Hinv0. pose proof (openssl_contract Hd) as BC.
  assert (openssl_inv (length ops + 0) (AdapterInv.fresh_backend c s cbs quic, w)) as Hbudget.
  { exists 0. split; [done|]. unfold zlen in Hlen. rewrite Nat.add_0_r. lia. }
  pose proof (wp_and _ _ _ (zig_session_wp openssl_tls_backend ops 0 _ Hbudget)
    (zig_session_called Hd ops 0 _ w Hinv0 ltac:(lia))) as Hrun.
  eapply wp_mono; [exact Hrun|]. intros [t [b' w']] [(Ht & _ & Hb) (ls & Hs & Hk & Hi & Hh)].
  split_and!; [done..|]. exists ls. split; [done|]. intros L. destruct (Hh L) as [<- <-].
  apply (AdapterLife.streams_of_steps c s cbs quic ls b' (0 + zlen ops * (Z.of_nat d + 4)) L); [done|done|lia].
Qed.

End WithOpenSSL.

End TlsTables.
