(* ===== verification/Codec.v ===== *)
(** * Fixed buffers and variable-length integers (src/quic/buffer.zig, src/quic/packet.zig)

    The state-and-error monad of the Zig codecs, the in-memory reader and
    writer, the allocator as a list of answers with a count of live buffers,
    and the QUIC variable-length integers, with their round trip. *)
From S2P Require Import Prelude.
Local Open Scope Z_scope.

Module Codec.

(** ** Bytes and machine integers *)

Definition byteZ (b : byte) : Z := Z.of_N (Byte.to_N b).
Definition Zbyte (z : Z) : byte := default x00 (Byte.of_N (Z.to_N z)).

Lemma byteZ_range b : 0 <= byteZ b < 256.
Proof. unfold byteZ. pose proof (Byte.to_N_bounded b). lia. Qed.

Lemma byteZ_Zbyte z : 0 <= z < 256 -> byteZ (Zbyte z) = z.
Proof.
  intros Hz. unfold byteZ, Zbyte. destruct (Byte.of_N (Z.to_N z)) as [b|] eqn:E; cbn.
  - apply Byte.to_of_N_iff in E. rewrite E. lia.
  - apply Byte.of_N_None_iff in E. lia.
Qed.

Definition U64_MAX : Z := 18446744073709551615.
Definition U32_MAX : Z := 4294967295.

(** [@intCast] to an unsigned type with maximum [max]: out of range is illegal. *)
Definition intCast (max z : Z) : option Z := if (0 <=? z) && (z <=? max) then Some z else None.

(** [std.math.add(u64, a, b)]: [None] is [error.Overflow]. *)
Definition add64 (a b : Z) : option Z := if a + b <=? U64_MAX then Some (a + b) else None.

(** [a - b] of unsigned integers: a negative difference is illegal. *)
Definition sub64 (a b : Z) : option Z := if a <? b then None else Some (a - b).

(** [i64] arithmetic: out of range is illegal. *)
Definition I64_MIN : Z := -9223372036854775808.
Definition I64_MAX : Z := 9223372036854775807.
Definition i64 (z : Z) : option Z := if (I64_MIN <=? z) && (z <=? I64_MAX) then Some z else None.

(** ** Errors and effects *)

Inductive Err : Type :=
  | EndOfStream | NoSpaceLeft | OutOfMemory
  | InvalidHeaderForm | InvalidFixedBit | InvalidReservedBits | InvalidConnectionIdLength
  | InvalidPacketNumber | UnsupportedPacketType | UnexpectedToken | InvalidLength | InvalidVarInt
  | InvalidVersionNegotiation | InvalidVersionList | InvalidRetryPacket
  | UnsupportedFrameType | InvalidAckRange | InvalidPaddingLength | InvalidFrameLength | InvalidFrameValue
  | InvalidParameterValue | InvalidParameterLength | DuplicateParameter
  | InvalidPacket | BufferTooSmall | Internal | ConnectionClosed | FlowControlBlocked | CryptoError.

(** A computation over a state [S]: [None] is illegal behaviour (a failed
    safety check), otherwise an error or a value, and the new state. *)
Definition M (S A : Type) : Type := S -> option ((Err + A) * S).

#[export] Instance M_ret S : MRet (M S) := fun A a s => Some (inr a, s).
#[export] Instance M_bind S : MBind (M S) := fun A B k m s =>
  match m s with
  | Some (inr a, s') => k a s'
  | Some (inl e, s') => Some (inl e, s')
  | None => None
  end.

Definition throw {S A} (e : Err) : M S A := fun s => Some (inl e, s).
Definition illegal {S A} : M S A := fun _ => None.

(** A checked cast inside a computation. *)
Definition legal {S A} (o : option A) : M S A := fun s => match o with Some a => Some (inr a, s) | None => None end.

(** [... catch return e] and [PacketError!T] values. *)
Definition orelse {S A} (o : option A) (e : Err) : M S A := match o with Some a => mret a | None => throw e end.
Definition lift {S A} (r : Err + A) : M S A := match r with inr a => mret a | inl e => throw e end.

(** [if (c) return e]. *)
Definition guard_not {S} (c : bool) (e : Err) : M S unit := if c then throw e else mret tt.

(** Validators return an error union without touching the state. *)
#[export] Instance sum_ret : MRet (sum Err) := fun A a => inr a.
#[export] Instance sum_bind : MBind (sum Err) := fun A B k m => match m with inl e => inl e | inr a => k a end.

Definition fail_if (c : bool) (e : Err) : Err + unit := if c then inl e else inr tt.

(** [errdefer cleanup] in front of [m]. *)
Definition errdefer {S A} (cleanup : S -> S) (m : M S A) : M S A := fun s =>
  match m s with Some (inl e, s') => Some (inl e, cleanup s') | r => r end.

(** ** FixedWriter *)

Record FixedWriter : Type := Writer { buffer : list byte; wpos : Z }.

Definition writeAll (bytes : list byte) : M FixedWriter unit := fun w =>
  if wpos w >? zlen (buffer w) then None else
  if zlen (buffer w) - wpos w <? zlen bytes then Some (inl NoSpaceLeft, w) else
  Some (inr tt, Writer (ztake (wpos w) (buffer w) ++ bytes ++ zdrop (wpos w + zlen bytes) (buffer w))
                       (wpos w + zlen bytes)).

Definition writeByte (b : byte) : M FixedWriter unit := fun w =>
  if wpos w >=? zlen (buffer w) then Some (inl NoSpaceLeft, w) else
  Some (inr tt, Writer (zset (buffer w) (wpos w) b) (wpos w + 1)).

Definition getWritten (w : FixedWriter) : list byte := ztake (wpos w) (buffer w).

(** ** FixedReader and the allocator *)

(** [answers]: whether the next allocations succeed (all do when the list is
    used up); [live]: allocated and not yet freed buffers. *)
Record FixedReader : Type := Reader { data : list byte; rpos : Z; answers : list bool; live : Z }.

#[export] Instance eta_reader : Eta FixedReader := fun r => Reader (data r) (rpos r) (answers r) (live r).

Definition readByte : M FixedReader byte := fun r =>
  match zget (data r) (rpos r) with
  | None => Some (inl EndOfStream, r)
  | Some b => Some (inr b, r <| rpos := rpos r + 1 |>)
  end.

(** The caller's slice of length [n] is returned as its new contents. *)
Definition readNoEof (n : Z) : M FixedReader (list byte) := fun r =>
  if rpos r >? zlen (data r) then None else
  if zlen (data r) - rpos r <? n then Some (inl EndOfStream, r) else
  Some (inr (ztake n (zdrop (rpos r) (data r))), r <| rpos := rpos r + n |>).

Definition remainingLen : M FixedReader Z := fun r =>
  if rpos r >? zlen (data r) then None else Some (inr (zlen (data r) - rpos r), r).

(** [reader.pos]. *)
Definition getPos : M FixedReader Z := fun r => Some (inr (rpos r), r).

(** [allocator.alloc(u8, n)]: a request of 0 bytes does not reach the allocator. *)
Definition alloc (n : Z) : M FixedReader unit := fun r =>
  if n =? 0 then Some (inr tt, r) else
  match answers r with
  | false :: l => Some (inl OutOfMemory, r <| answers := l |>)
  | l => Some (inr tt, r <| answers := tail l |> <| live := live r + 1 |>)
  end.

(** [allocator.free] of a slice of length [n]. *)
Definition free_len (n : Z) (r : FixedReader) : FixedReader :=
  if n =? 0 then r else r <| live := live r - 1 |>.

Definition free (bs : list byte) : FixedReader -> FixedReader := free_len (zlen bs).

(** [readOwnedBytes]; [FixedReader] has [remainingLen]. *)
Definition readOwnedBytes (len : Z) : M FixedReader (list byte) :=
  left ← remainingLen;
  _ ← guard_not (len >? left) EndOfStream;
  _ ← alloc len;
  errdefer (free_len len) (readNoEof len).

(** The slice borrowed from the backing buffer, as its contents. *)
Definition readSlice (len : Z) : M FixedReader (list byte) := fun r =>
  if rpos r >? zlen (data r) then None else
  if zlen (data r) - rpos r <? len then Some (inl EndOfStream, r) else
  Some (inr (ztake len (zdrop (rpos r) (data r))), r <| rpos := rpos r + len |>).

Definition readBytes (len : Z) (borrow : bool) : M FixedReader (list byte) :=
  if borrow then readSlice len else readOwnedBytes len.

(** [errdefer allocator.free(bs)] for a slice that [readBytes] returned.
    Freeing bytes borrowed from the reader's buffer, which the allocator never
    handed out, is illegal. *)
Definition errdefer_free {A} (bs : list byte) (borrow : bool) (m : M FixedReader A) : M FixedReader A := fun r =>
  match m r with
  | Some (inl e, r') => if borrow && negb (zlen bs =? 0) then None else Some (inl e, free bs r')
  | res => res
  end.

(** ** Variable-length integers *)

Definition max_quic_varint : Z := 4611686018427387903.

(** [@as(u8, @intCast(v))] as a byte. *)
Definition u8 (v : Z) : option byte := z ← intCast 255 v; Some (Zbyte z).

(** [@as(u8, @intCast((v >> k) & 0xff))]. *)
Definition byte_of (v k : Z) : option byte := u8 (Z.land (Z.shiftr v k) 255).

(** [tag | @as(u8, @intCast(v >> k))]. *)
Definition tagged (tag v k : Z) : option byte := z ← intCast 255 (Z.shiftr v k); u8 (Z.lor tag z).

Definition encodeVarInt (value : Z) : M FixedWriter unit :=
  if value <=? 63 then b ← legal (u8 value); writeByte b else
  if value <=? 16383 then
    t0 ← legal (tagged 64 value 8);
    t1 ← legal (u8 (Z.land value 255));
    writeAll [t0; t1] else
  if value <=? 1073741823 then
    t0 ← legal (tagged 128 value 24);
    t1 ← legal (byte_of value 16);
    t2 ← legal (byte_of value 8);
    t3 ← legal (u8 (Z.land value 255));
    writeAll [t0; t1; t2; t3] else
  if value <=? 4611686018427387903 then
    t0 ← legal (tagged 192 value 56);
    t1 ← legal (byte_of value 48);
    t2 ← legal (byte_of value 40);
    t3 ← legal (byte_of value 32);
    t4 ← legal (byte_of value 24);
    t5 ← legal (byte_of value 16);
    t6 ← legal (byte_of value 8);
    t7 ← legal (u8 (Z.land value 255));
    writeAll [t0; t1; t2; t3; t4; t5; t6; t7] else
  throw InvalidVarInt.

(** [(value << 8) | b] on [u64]. *)
Definition shl8_or (value : Z) (b : byte) : Z := Z.lor (Z.land (Z.shiftl value 8) U64_MAX) (byteZ b).

(** [buf[i]] of a local array filled by [readNoEof]. *)
Definition at_ (buf : list byte) (i : Z) : M FixedReader byte := legal (zget buf i).

(** The value and the number of bytes consumed. *)
Definition decodeVarInt : M FixedReader (Z * Z) :=
  first ← readByte;
  let low := Z.land (byteZ first) 63 in
  match Z.shiftr (byteZ first) 6 with
  | 0 => mret (low, 1)
  | 1 => buf ← readNoEof 1; b0 ← at_ buf 0; mret (Z.lor (Z.shiftl low 8) (byteZ b0), 2)
  | 2 =>
      buf ← readNoEof 3; b0 ← at_ buf 0; b1 ← at_ buf 1; b2 ← at_ buf 2;
      mret (Z.lor (Z.lor (Z.lor (Z.shiftl low 24) (Z.shiftl (byteZ b0) 16)) (Z.shiftl (byteZ b1) 8)) (byteZ b2), 4)
  | 3 =>
      buf ← readNoEof 7; b0 ← at_ buf 0; b1 ← at_ buf 1; b2 ← at_ buf 2; b3 ← at_ buf 3;
      b4 ← at_ buf 4; b5 ← at_ buf 5; b6 ← at_ buf 6;
      mret (shl8_or (shl8_or (shl8_or (shl8_or (shl8_or (shl8_or (shl8_or low b0) b1) b2) b3) b4) b5) b6, 8)
  | _ => illegal
  end.

(** [quicVarIntWireLen] of src/quic/wire_len.zig; [None] is [error.InvalidPacket]. *)
Definition quicVarIntWireLen (value : Z) : option Z :=
  if value <=? 63 then Some 1 else
  if value <=? 16383 then Some 2 else
  if value <=? 1073741823 then Some 4 else
  if value <=? max_quic_varint then Some 8 else None.

(** ** Encoders as byte strings *)

Definition wf_writer (w : FixedWriter) : Prop := 0 <= wpos w <= zlen (buffer w).
Definition room (w : FixedWriter) : Z := zlen (buffer w) - wpos w.

Definition push (w : FixedWriter) (bs : list byte) : FixedWriter :=
  Writer (ztake (wpos w) (buffer w) ++ bs ++ zdrop (wpos w + zlen bs) (buffer w)) (wpos w + zlen bs).

(** [m] writes exactly [bs], or reports that they do not fit. *)
Definition emits (m : M FixedWriter unit) (bs : list byte) : Prop := forall w, wf_writer w ->
  if zlen bs <=? room w then m w = Some (inr tt, push w bs)
  else exists w', m w = Some (inl NoSpaceLeft, w') /\ wf_writer w'.

Lemma zdrop_zdrop {A} i j (l : list A) : 0 <= i -> 0 <= j -> zdrop i (zdrop j l) = zdrop (j + i) l.
Proof. intros. unfold zdrop. rewrite drop_drop. f_equal. lia. Qed.

Lemma ztake_app_exact {A} (a b : list A) n : n = zlen a -> ztake n (a ++ b) = a.
Proof. intros ->. apply ztake_app_all. Qed.

Lemma zdrop_app_exact {A} (a b : list A) n : n = zlen a -> zdrop n (a ++ b) = b.
Proof. intros ->. unfold zdrop, zlen. rewrite Nat2Z.id. apply drop_app_length. Qed.

Section Push.
Context (w : FixedWriter) (Hw : wf_writer w).

Lemma push_len bs : zlen bs <= room w -> zlen (buffer (push w bs)) = zlen (buffer w).
Proof.
  unfold room, wf_writer in *. intros. pose proof (zlen_nonneg bs). cbn.
  rewrite !zlen_app, zlen_ztake, zlen_zdrop by lia. lia.
Qed.

Lemma push_wf bs : zlen bs <= room w -> wf_writer (push w bs).
Proof. intros Hb. unfold wf_writer. rewrite push_len by done. cbn. unfold room, wf_writer in *. pose proof (zlen_nonneg bs). lia. Qed.

Lemma push_room bs : zlen bs <= room w -> room (push w bs) = room w - zlen bs.
Proof. intros. unfold room at 1. rewrite push_len by done. cbn. unfold room. lia. Qed.

Lemma getWritten_push bs : getWritten (push w bs) = getWritten w ++ bs.
Proof.
  unfold getWritten. cbn. rewrite app_assoc. apply ztake_app_exact.
  unfold wf_writer in Hw. rewrite zlen_app, zlen_ztake by lia. lia.
Qed.

Lemma push_push a b : zlen a + zlen b <= room w -> push (push w a) b = push w (a ++ b).
Proof.
  intros Hfit. pose proof (zlen_nonneg a). pose proof (zlen_nonneg b). unfold push at 1 3.
  pose proof (getWritten_push a) as Hg. unfold getWritten in Hg. rewrite Hg. unfold wf_writer, room in *.
  rewrite zlen_app. cbn [wpos push]. f_equal; [|lia].
  rewrite <- app_assoc. f_equal. rewrite <- app_assoc. do 2 f_equal. cbn [buffer push].
  rewrite <- (zdrop_zdrop (zlen b) (wpos w + zlen a)) by lia. rewrite app_assoc.
  rewrite zdrop_app_exact by (rewrite zlen_app, zlen_ztake by lia; lia).
  rewrite zdrop_zdrop by lia. f_equal. lia.
Qed.

End Push.

Lemma emits_all bs : emits (writeAll bs) bs.
Proof.
  intros w Hw. unfold writeAll, wf_writer, room in *. destruct (Z.gtb_spec (wpos w) (zlen (buffer w))); [lia|].
  destruct (Z.ltb_spec (zlen (buffer w) - wpos w) (zlen bs)), (Z.leb_spec (zlen bs) (zlen (buffer w) - wpos w)); try lia; [|done].
  by exists w.
Qed.

Lemma zset_split {A} (l : list A) i x : 0 <= i < zlen l -> zset l i x = ztake i l ++ [x] ++ zdrop (i + 1) l.
Proof.
  intros Hi. unfold zset, zlen, ztake, zdrop in *. destruct (Z.ltb_spec i 0); [lia|].
  rewrite insert_take_drop by lia. by replace (Z.to_nat (i + 1)) with (S (Z.to_nat i)) by lia.
Qed.

Lemma emits_byte b : emits (writeByte b) [b].
Proof.
  intros w Hw. change (zlen [b]) with 1. unfold writeByte, wf_writer, room in *.
  destruct (Z.geb_spec (wpos w) (zlen (buffer w))), (Z.leb_spec 1 (zlen (buffer w) - wpos w)); try lia; [by exists w|].
  unfold push. change (zlen [b]) with 1. by rewrite zset_split by lia.
Qed.

Lemma emits_bind m1 m2 a b : emits m1 a -> emits m2 b -> emits (m1 ≫= fun _ => m2) (a ++ b).
Proof.
  intros H1 H2 w Hw. specialize (H1 w Hw). pose proof (zlen_nonneg a). pose proof (zlen_nonneg b).
  unfold mbind, M_bind. rewrite zlen_app.
  destruct (Z.leb_spec (zlen a) (room w)) as [Ha|Ha].
  - rewrite H1. specialize (H2 (push w a) (push_wf w Hw a Ha)). rewrite push_room in H2 by done.
    destruct (Z.leb_spec (zlen a + zlen b) (room w)), (Z.leb_spec (zlen b) (room w - zlen a)); try lia; [|done].
    by rewrite H2, push_push by done.
  - destruct H1 as (w' & -> & Hw'). destruct (Z.leb_spec (zlen a + zlen b) (room w)); [lia|]. by exists w'.
Qed.

Lemma emits_legal {A} (o : option A) a (k : A -> M FixedWriter unit) bs :
  o = Some a -> emits (k a) bs -> emits (legal o ≫= k) bs.
Proof. by intros -> Hk. Qed.

Lemma emits_cons m b bs : emits m bs -> emits (writeByte b ≫= fun _ => m) (b :: bs).
Proof. intros. exact (emits_bind (writeByte b) m [b] bs (emits_byte b) H). Qed.

Lemma emits_nil : emits (mret tt) [].
Proof.
  intros w Hw. unfold wf_writer, room, push in *. change (zlen (@nil byte)) with 0.
  destruct (Z.leb_spec 0 (zlen (buffer w) - wpos w)); [|lia]. destruct w. cbn in *. rewrite Z.add_0_r, ztake_zdrop. done.
Qed.

Lemma gtb_false a b : a <= b -> (a >? b) = false.
Proof. intros. destruct (Z.gtb_spec a b); [lia|done]. Qed.

Lemma emits_lift {A} (o : Err + A) a (k : A -> M FixedWriter unit) bs : o = inr a -> emits (k a) bs -> emits (lift o ≫= k) bs.
Proof. by intros -> Hk. Qed.

Lemma emits_guard c e (k : unit -> M FixedWriter unit) bs : c = false -> emits (k tt) bs -> emits (guard_not c e ≫= k) bs.
Proof. by intros -> Hk. Qed.

Lemma emits_orelse {A} (o : option A) a e (k : A -> M FixedWriter unit) bs :
  o = Some a -> emits (k a) bs -> emits (orelse o e ≫= k) bs.
Proof. by intros -> Hk. Qed.

(** ** Parsers as byte strings *)

Definition wf_reader (r : FixedReader) : Prop := 0 <= rpos r <= zlen (data r).

(** What is left to read. *)
Definition remaining (r : FixedReader) : list byte := zdrop (rpos r) (data r).

(** [n] bytes on, with [k] more buffers. *)
Definition advance (r : FixedReader) (n k : Z) : FixedReader := Reader (data r) (rpos r + n) (answers r) (live r + k).

Lemma advance_advance r n k n' k' : advance (advance r n k) n' k' = advance r (n + n') (k + k').
Proof. unfold advance. cbn. f_equal; lia. Qed.

Lemma advance_0 r : advance r 0 0 = r.
Proof. destruct r. unfold advance. cbn. by rewrite !Z.add_0_r. Qed.

(** With memory available, [p] consumes exactly [bs], allocates [k] buffers and returns [a]. *)
Definition parses {A} (p : M FixedReader A) (bs : list byte) (a : A) (k : Z) : Prop := forall r rest,
  wf_reader r -> remaining r = bs ++ rest -> answers r = [] ->
  p r = Some (inr a, advance r (zlen bs) k).

Lemma parses_ret {A} (a : A) : parses (mret a) [] a 0.
Proof. intros r rest _ _ _. rewrite zlen_nil, advance_0. done. Qed.

Lemma remaining_len r : wf_reader r -> zlen (remaining r) = zlen (data r) - rpos r.
Proof. intros []. unfold remaining. rewrite zlen_zdrop; lia. Qed.

Lemma parses_bind {A B} (p : M FixedReader A) (f : A -> M FixedReader B) b1 b2 a c k1 k2 :
  parses p b1 a k1 -> parses (f a) b2 c k2 -> parses (p ≫= f) (b1 ++ b2) c (k1 + k2).
Proof.
  intros H1 H2 r rest Hr Hrem Ha. unfold mbind, M_bind. rewrite <- app_assoc in Hrem.
  pose proof (remaining_len r Hr) as Hl. rewrite Hrem, !zlen_app in Hl.
  pose proof (zlen_nonneg b1). pose proof (zlen_nonneg b2). pose proof (zlen_nonneg rest).
  rewrite (H1 r (b2 ++ rest) Hr Hrem Ha). rewrite (H2 _ rest).
  - by rewrite advance_advance, zlen_app.
  - unfold wf_reader in *. cbn. lia.
  - unfold remaining in *. cbn. rewrite <- zdrop_zdrop by (unfold wf_reader in *; lia). rewrite Hrem. by apply zdrop_app_exact.
  - done.
Qed.

Lemma parses_byte b : parses readByte [b] b 0.
Proof.
  intros r rest Hr Hrem Ha. pose proof (remaining_len r Hr) as Hl. rewrite Hrem in Hl. cbn in Hl.
  unfold readByte, remaining, zdrop, zget, wf_reader in *. destruct (Z.ltb_spec (rpos r) 0); [lia|].
  assert (data r !! Z.to_nat (rpos r) = Some b) as ->.
  { rewrite <- (Nat.add_0_r (Z.to_nat (rpos r))), <- lookup_drop, Hrem. done. }
  destruct r. unfold advance, set_field. cbn. by rewrite Z.add_0_r.
Qed.

Lemma parses_no_eof bs n : n = zlen bs -> parses (readNoEof n) bs bs 0.
Proof.
  intros -> r rest Hr Hrem Ha. pose proof (remaining_len r Hr) as Hl. rewrite Hrem, zlen_app in Hl.
  pose proof (zlen_nonneg rest). unfold readNoEof. unfold wf_reader in *.
  destruct (Z.gtb_spec (rpos r) (zlen (data r))); [lia|].
  destruct (Z.ltb_spec (zlen (data r) - rpos r) (zlen bs)); [lia|].
  unfold remaining in Hrem. rewrite Hrem, ztake_app_all. destruct r. unfold advance, set_field. cbn. by rewrite Z.add_0_r.
Qed.

Lemma parses_legal {A B} (o : option A) a (f : A -> M FixedReader B) bs c k :
  o = Some a -> parses (f a) bs c k -> parses (legal o ≫= f) bs c k.
Proof. by intros -> Hf. Qed.

(** A parser that reads [b1], then one that reads the rest. *)
Lemma parses_cons {B} b (f : byte -> M FixedReader B) bs c k :
  parses (f b) bs c k -> parses (readByte ≫= f) (b :: bs) c k.
Proof. intros Hf. exact (parses_bind readByte f [b] bs b c 0 k (parses_byte b) Hf). Qed.

Lemma parses_app {A B} (p : M FixedReader A) (f : A -> M FixedReader B) b1 b2 a c k :
  parses p b1 a 0 -> parses (f a) b2 c k -> parses (p ≫= f) (b1 ++ b2) c k.
Proof. intros Hp Hf. exact (parses_bind p f b1 b2 a c 0 k Hp Hf). Qed.

Lemma parses_guard {B} c e (f : unit -> M FixedReader B) bs a k :
  c = false -> parses (f tt) bs a k -> parses (guard_not c e ≫= f) bs a k.
Proof. by intros -> Hf. Qed.

Lemma parses_lift {A B} (o : Err + A) a (f : A -> M FixedReader B) bs c k :
  o = inr a -> parses (f a) bs c k -> parses (lift o ≫= f) bs c k.
Proof. by intros -> Hf. Qed.

Lemma parses_errdefer {A} cl (p : M FixedReader A) bs a k : parses p bs a k -> parses (errdefer cl p) bs a k.
Proof. intros Hp r rest Hr Hrem Ha. unfold errdefer. by rewrite (Hp r rest). Qed.

(** Buffers allocated for [n] bytes. *)
Definition allocs (n : Z) : Z := if n =? 0 then 0 else 1.

Lemma parses_alloc {B} n (f : unit -> M FixedReader B) bs c k :
  parses (f tt) bs c k -> parses (alloc n ≫= f) bs c (allocs n + k).
Proof.
  intros Hf. apply (parses_bind (alloc n) f [] bs tt c (allocs n) k); [|done].
  intros r rest _ _ Ha. unfold alloc, allocs. change (zlen (@nil byte)) with 0.
  destruct (n =? 0); [by rewrite advance_0|]. rewrite Ha. destruct r. cbn in *. subst. unfold advance, set_field. cbn.
  by rewrite Z.add_0_r.
Qed.

Lemma parses_owned bs n : n = zlen bs -> parses (readOwnedBytes n) bs bs (allocs n).
Proof.
  intros -> r rest Hr Hrem Ha. pose proof (remaining_len r Hr) as Hl. rewrite Hrem, zlen_app in Hl.
  pose proof (zlen_nonneg rest).
  assert (parses (_ ← guard_not (zlen bs >? zlen (data r) - rpos r) EndOfStream; _ ← alloc (zlen bs);
    errdefer (free_len (zlen bs)) (readNoEof (zlen bs))) bs bs (allocs (zlen bs) + 0)) as P.
  { apply parses_guard; [destruct (Z.gtb_spec (zlen bs) (zlen (data r) - rpos r)); [lia|done]|].
    by apply parses_alloc, parses_errdefer, parses_no_eof. }
  rewrite <- (Z.add_0_r (allocs (zlen bs))), <- (P r rest Hr Hrem Ha).
  unfold readOwnedBytes, remainingLen. unfold mbind at 1, M_bind at 1.
  by destruct (Z.gtb_spec (rpos r) (zlen (data r))); [unfold wf_reader in Hr; lia|].
Qed.

(** An optional payload, as the packet parsers read it. *)
Lemma parses_optional bs n : n = zlen bs -> parses (if n =? 0 then mret [] else readOwnedBytes n) bs bs (allocs n).
Proof.
  intros ->. destruct (Z.eqb_spec (zlen bs) 0) as [Hz|]; [|by apply parses_owned].
  apply zlen_nil_inv in Hz as ->. apply parses_ret.
Qed.

Lemma bind_ok {S A B} (m : M S A) (k : A -> M S B) s a s' : m s = Some (inr a, s') -> (m ≫= k) s = k a s'.
Proof. intros E. unfold mbind, M_bind. by rewrite E. Qed.

Lemma remainingLen_ok r : wf_reader r -> remainingLen r = Some (inr (zlen (remaining r)), r).
Proof.
  intros Hr. rewrite remaining_len by done. unfold remainingLen, wf_reader in *.
  by destruct (Z.gtb_spec (rpos r) (zlen (data r))); [lia|].
Qed.

Lemma advance_wf r bs rest k : wf_reader r -> remaining r = bs ++ rest ->
  wf_reader (advance r (zlen bs) k) /\ remaining (advance r (zlen bs) k) = rest.
Proof.
  intros Hr Hrem. pose proof (remaining_len r Hr) as Hl. rewrite Hrem, zlen_app in Hl.
  pose proof (zlen_nonneg bs). pose proof (zlen_nonneg rest). unfold wf_reader, remaining in *. cbn. split; [lia|].
  rewrite <- zdrop_zdrop, Hrem by lia. by apply zdrop_app_exact.
Qed.

Lemma free_live bs r : live (free bs r) = live r - allocs (zlen bs).
Proof. unfold free, free_len, allocs. destruct (zlen bs =? 0); [lia|]. by destruct r. Qed.

(** A reader at the start of a datagram. *)
Definition at_start (d : list byte) (l : Z) : FixedReader := Reader d 0 [] l.

Lemma at_start_ok d l : wf_reader (at_start d l) /\ remaining (at_start d l) = d /\ answers (at_start d l) = [].
Proof. split_and!; try done. pose proof (zlen_nonneg d). unfold wf_reader. cbn. lia. Qed.

(** ** Varint round trip *)

(** The [n] low bytes of [v], big endian. *)
Fixpoint be (n : nat) (v : Z) : list byte :=
  match n with 0%nat => [] | S n => Zbyte (v / 256 ^ Z.of_nat n mod 256) :: be n v end.

(** RFC 9000, section 16: a two-bit tag, the log of the length in bytes, the
    six high bits and then the [n] low bytes of the value. *)
Definition tagged_be (tag : Z) (n : nat) (v : Z) : list byte := Zbyte (tag * 64 + v / 256 ^ Z.of_nat n) :: be n v.

Definition varint_bytes (v : Z) : list byte :=
  if v <=? 63 then tagged_be 0 0 v else if v <=? 16383 then tagged_be 1 1 v else
  if v <=? 1073741823 then tagged_be 2 3 v else tagged_be 3 7 v.

(** A decidable fact about all bytes below [n], by evaluation. *)
Lemma below (n : Z) (P : Z -> bool) : forallb P (seqZ 0 n) = true -> forall x, 0 <= x < n -> P x = true.
Proof.
  intros Hall x Hx. rewrite forallb_forall in Hall. apply Hall, list_elem_of_In, elem_of_seqZ. lia.
Qed.

Lemma first_byte tag x : 0 <= tag <= 3 -> 0 <= x < 64 ->
  Z.lor (tag * 64) x = tag * 64 + x /\ Z.shiftr (tag * 64 + x) 6 = tag /\ Z.land (tag * 64 + x) 63 = x.
Proof.
  intros Ht Hx.
  assert ((Z.lor (tag * 64) x =? tag * 64 + x) && (Z.shiftr (tag * 64 + x) 6 =? tag) && (Z.land (tag * 64 + x) 63 =? x) = true)
    as Hb; [|by rewrite !andb_true_iff, !Z.eqb_eq in Hb; destruct Hb as [[??]?]].
  revert x Hx. assert (tag = 0 \/ tag = 1 \/ tag = 2 \/ tag = 3) as [->|[->|[->| ->]]] by lia;
    apply (below 64 (fun x => _)); by vm_compute.
Qed.

Lemma land_255 v : Z.land v 255 = v mod 256.
Proof. exact (Z.land_ones v 8 ltac:(lia)). Qed.

Lemma u8_ok v : 0 <= v < 256 -> u8 v = Some (Zbyte v).
Proof.
  intros. unfold u8, intCast. destruct (Z.leb_spec 0 v), (Z.leb_spec v 255); try lia. done.
Qed.

Lemma byte_of_ok v k : 0 <= v -> 0 <= k -> byte_of v k = Some (Zbyte (v / 2 ^ k mod 256)).
Proof.
  intros. unfold byte_of. rewrite land_255, Z.shiftr_div_pow2 by done. apply u8_ok. apply Z.mod_pos_bound. lia.
Qed.

Lemma low_byte_ok v : u8 (Z.land v 255) = Some (Zbyte (v mod 256)).
Proof. rewrite land_255. apply u8_ok, Z.mod_pos_bound. lia. Qed.

Lemma tagged_ok tag v k : 0 <= tag <= 3 -> 0 <= k -> 0 <= v < 64 * 2 ^ k ->
  tagged (tag * 64) v k = Some (Zbyte (tag * 64 + v / 2 ^ k)).
Proof.
  intros Ht Hk Hv. unfold tagged, intCast. rewrite Z.shiftr_div_pow2 by done.
  assert (0 <= v / 2 ^ k < 64) as Hq.
  { split; [apply Z.div_pos; lia|]. apply Z.div_lt_upper_bound; lia. }
  destruct (Z.leb_spec 0 (v / 2 ^ k)), (Z.leb_spec (v / 2 ^ k) 255); try lia. cbn [andb mbind option_bind].
  destruct (first_byte tag (v / 2 ^ k)) as (-> & _ & _); [done|done|]. apply u8_ok. lia.
Qed.

Lemma shl_add a b k : 0 <= k -> 0 <= b < 2 ^ k -> Z.lor (Z.shiftl a k) b = a * 2 ^ k + b.
Proof.
  intros Hk Hb. assert (Z.land (Z.shiftl a k) b = 0) as H0.
  { apply Z.bits_inj'. intros i Hi. rewrite Z.land_spec, Z.bits_0. destruct (Z.ltb_spec i k).
    - by rewrite Z.shiftl_spec_low.
    - rewrite <- (Z.mod_small b (2 ^ k)), Z.mod_pow2_bits_high by lia. apply andb_false_r. }
  by rewrite <- Z.lxor_lor, <- Z.add_nocarry_lxor, Z.shiftl_mul_pow2 by done.
Qed.

Lemma shl8_add a b : 0 <= b < 256 -> Z.lor (Z.shiftl a 8) b = a * 256 + b.
Proof. exact (shl_add a b 8 ltac:(lia)). Qed.

(** One step of the 8-byte loop. *)
Lemma shl8_or_step v k : 0 <= k -> 0 <= v < 2 ^ 62 ->
  shl8_or (v / 2 ^ (k + 8)) (Zbyte (v / 2 ^ k mod 256)) = v / 2 ^ k.
Proof.
  intros Hk Hv. unfold shl8_or. rewrite byteZ_Zbyte by (apply Z.mod_pos_bound; lia).
  assert (v / 2 ^ (k + 8) = v / 2 ^ k / 256) as ->.
  { rewrite Z.pow_add_r, <- Z.div_div by lia. done. }
  set (q := v / 2 ^ k).
  assert (0 <= q < 2 ^ 62) as Hq.
  { split; [apply Z.div_pos; lia|]. apply Z.div_lt_upper_bound; [lia|].
    assert (1 <= 2 ^ k) by (apply (Z.pow_le_mono_r 2 0 k); lia). nia. }
  replace (Z.land (Z.shiftl (q / 256) 8) U64_MAX) with (Z.shiftl (q / 256) 8).
  - rewrite shl8_add by (apply Z.mod_pos_bound; lia). pose proof (Z.div_mod q 256). lia.
  - symmetry. change U64_MAX with (Z.ones 64). rewrite Z.land_ones by lia. apply Z.mod_small.
    rewrite Z.shiftl_mul_pow2 by lia. change (2 ^ 64) with (4 * 2 ^ 62). change (2 ^ 8) with 256.
    pose proof (Z.mul_div_le q 256). pose proof (Z.div_pos q 256). lia.
Qed.

Lemma legal_Some {S A B} (o : option A) a (k : A -> M S B) : o = Some a -> legal o ≫= k = k a.
Proof. by intros ->. Qed.

Lemma emits_varint v : 0 <= v <= max_quic_varint -> emits (encodeVarInt v) (varint_bytes v).
Proof.
  intros Hv. unfold encodeVarInt, varint_bytes, tagged_be, be, max_quic_varint in *.
  rewrite (low_byte_ok v). change (256 ^ Z.of_nat 0) with 1. rewrite ?Z.div_1_r.
  destruct (Z.leb_spec v 63); [|destruct (Z.leb_spec v 16383); [|destruct (Z.leb_spec v 1073741823);
    [|destruct (Z.leb_spec v 4611686018427387903); [|lia]]]].
  - rewrite u8_ok by lia. apply emits_byte.
  - change 64 with (1 * 64) at 1. rewrite (tagged_ok 1 v 8) by lia. apply emits_all.
  - change 128 with (2 * 64). rewrite (tagged_ok 2 v 24), !byte_of_ok by lia. apply emits_all.
  - change 192 with (3 * 64). rewrite (tagged_ok 3 v 56), !byte_of_ok by lia. apply emits_all.
Qed.

(** The first byte of an encoding tells its length and the high bits. *)
Lemma first_byte_read tag x : 0 <= tag <= 3 -> 0 <= x < 64 ->
  Z.shiftr (byteZ (Zbyte (tag * 64 + x))) 6 = tag /\ Z.land (byteZ (Zbyte (tag * 64 + x))) 63 = x.
Proof. intros Ht Hx. rewrite byteZ_Zbyte by lia. by destruct (first_byte tag x Ht Hx) as (_ & ? & ?). Qed.

Lemma parses_tail {A} (k : list byte -> M FixedReader A) bs n a :
  n = zlen bs -> k bs = mret a -> parses (readNoEof n ≫= k) bs a 0.
Proof.
  intros Hn Hk. pose proof (parses_bind (readNoEof n) k bs [] bs a 0 0) as P. rewrite app_nil_r in P.
  apply P; [by apply parses_no_eof|]. rewrite Hk. apply parses_ret.
Qed.

Lemma or_step v k : 0 <= k -> 0 <= v ->
  Z.lor (Z.shiftl (v / 2 ^ (k + 8)) 8) (byteZ (Zbyte (v / 2 ^ k mod 256))) = v / 2 ^ k.
Proof.
  intros Hk Hv. rewrite byteZ_Zbyte, shl8_add by (apply Z.mod_pos_bound; lia).
  rewrite Z.pow_add_r, <- Z.div_div by lia. pose proof (Z.div_mod (v / 2 ^ k) 256). change (2 ^ 8) with 256. lia.
Qed.

Lemma or_chain3 q b0 b1 b2 :
  Z.lor (Z.lor (Z.lor (Z.shiftl q 24) (Z.shiftl b0 16)) (Z.shiftl b1 8)) b2 =
  Z.lor (Z.shiftl (Z.lor (Z.shiftl (Z.lor (Z.shiftl q 8) b0) 8) b1) 8) b2.
Proof. by rewrite !Z.shiftl_lor, !Z.shiftl_shiftl by lia. Qed.

Lemma div_64 v k : 0 <= k -> 0 <= v < 64 * 2 ^ k -> 0 <= v / 2 ^ k < 64.
Proof. intros. split; [apply Z.div_pos|apply Z.div_lt_upper_bound]; lia. Qed.

Lemma parses_varint v : 0 <= v <= max_quic_varint -> parses decodeVarInt (varint_bytes v) (v, zlen (varint_bytes v)) 0.
Proof.
  intros Hv. unfold decodeVarInt, varint_bytes, max_quic_varint in *.
  destruct (Z.leb_spec v 63); [|destruct (Z.leb_spec v 16383); [|destruct (Z.leb_spec v 1073741823)]];
    unfold tagged_be; apply parses_cons.
  - change (256 ^ Z.of_nat 0) with 1. rewrite Z.div_1_r. destruct (first_byte_read 0 v) as [-> ->]; [lia..|].
    apply parses_ret.
  - change (256 ^ Z.of_nat 1) with (2 ^ (0 + 8)).
    destruct (first_byte_read 1 (v / 2 ^ (0 + 8)) ltac:(lia) (div_64 v (0 + 8) ltac:(lia) ltac:(lia))) as [-> ->].
    apply parses_tail; [done|]. cbn [be]. change (256 ^ Z.of_nat 0) with (2 ^ 0). unfold at_.
    do 1 (erewrite legal_Some; [|reflexivity]). rewrite or_step by lia. by rewrite Z.div_1_r.
  - change (256 ^ Z.of_nat 3) with (2 ^ (16 + 8)).
    destruct (first_byte_read 2 (v / 2 ^ (16 + 8)) ltac:(lia) (div_64 v (16 + 8) ltac:(lia) ltac:(lia))) as [-> ->].
    apply parses_tail; [done|]. cbn [be]. change (256 ^ Z.of_nat 0) with (2 ^ 0).
    change (256 ^ Z.of_nat 1) with (2 ^ (0 + 8)). change (256 ^ Z.of_nat 2) with (2 ^ (8 + 8)). unfold at_.
    do 3 (erewrite legal_Some; [|reflexivity]). rewrite or_chain3.
    change (2 ^ (8 + 8)) with (2 ^ 16). rewrite (or_step v 16) by lia. change (2 ^ 16) with (2 ^ (8 + 8)).
    change (2 ^ (0 + 8)) with (2 ^ 8). rewrite (or_step v 8) by lia. change (2 ^ 8) with (2 ^ (0 + 8)).
    rewrite (or_step v 0) by lia. by rewrite Z.div_1_r.
  - change (256 ^ Z.of_nat 7) with (2 ^ (48 + 8)).
    destruct (first_byte_read 3 (v / 2 ^ (48 + 8)) ltac:(lia) (div_64 v (48 + 8) ltac:(lia) ltac:(lia))) as [-> ->].
    apply parses_tail; [done|]. cbn [be]. unfold at_. do 7 (erewrite legal_Some; [|reflexivity]).
    change (256 ^ Z.of_nat 6) with (2 ^ 48). change (256 ^ Z.of_nat 5) with (2 ^ 40).
    change (256 ^ Z.of_nat 4) with (2 ^ 32). change (256 ^ Z.of_nat 3) with (2 ^ 24).
    change (256 ^ Z.of_nat 2) with (2 ^ 16). change (256 ^ Z.of_nat 1) with (2 ^ 8). change (256 ^ Z.of_nat 0) with (2 ^ 0).
    assert (forall j k, 0 <= k -> j = k + 8 -> shl8_or (v / 2 ^ j) (Zbyte (v / 2 ^ k mod 256)) = v / 2 ^ k) as St
      by (intros j k Hk ->; apply shl8_or_step; lia).
    rewrite (St _ 48), (St _ 40), (St _ 32), (St _ 24), (St _ 16), (St _ 8), (St _ 0) by lia. by rewrite Z.div_1_r.
Qed.

(** C33: variable-length integers round trip. A value of at most 2^62 - 1 is
    written in as many bytes as [quicVarIntWireLen] says, or not at all when
    they do not fit, and decoding those bytes, whatever follows them, gives the
    value and that length and leaves the reader behind them; a larger value is
    refused without writing. *)
Theorem varint_roundtrip (v : Z) (Hv : 0 <= v <= U64_MAX) :
  match quicVarIntWireLen v with
  | Some n => exists bs, zlen bs = n /\ emits (encodeVarInt v) bs /\ parses decodeVarInt bs (v, n) 0
  | None => forall w, encodeVarInt v w = Some (inl InvalidVarInt, w)
  end.
Proof.
  pose proof (emits_varint v) as He. pose proof (parses_varint v) as Hp.
  unfold quicVarIntWireLen, max_quic_varint in *.
  assert (v <= 4611686018427387903 -> exists bs, zlen bs = zlen (varint_bytes v) /\ emits (encodeVarInt v) bs /\
    parses decodeVarInt bs (v, zlen (varint_bytes v)) 0) as Hok.
  { intros. exists (varint_bytes v). split; [done|]. split; [apply He|apply Hp]; lia. }
  unfold varint_bytes, encodeVarInt in *. destruct (Z.leb_spec v 63); [apply Hok; lia|].
  destruct (Z.leb_spec v 16383); [apply Hok; lia|]. destruct (Z.leb_spec v 1073741823); [apply Hok; lia|].
  by destruct (Z.leb_spec v 4611686018427387903); [apply Hok; lia|].
Qed.

Lemma varint_roundtrip_witness : exists bs, zlen bs = 2 /\ emits (encodeVarInt 15293) bs /\
  parses decodeVarInt bs (15293, 2) 0.
Proof. refine (varint_roundtrip 15293 _). unfold U64_MAX. lia. Defined.

End Codec.
