(* ===== verification/CodecSafe.v ===== *)
(** * Parsing arbitrary bytes

    The safety predicate of the codecs' readers, with a rule per combinator:
    on any input and with any answers of the allocator a parser does nothing
    illegal, only moves forward and accounts for every buffer it allocates. *)
From S2P Require Import Prelude Codec.
Import Codec.
Local Open Scope Z_scope.

Module Safe.

(** From any well-formed reader, whatever the bytes and the allocator's
    answers, [p] does nothing illegal, only moves forward, and changes the
    number of live buffers by [ce] on an error and as [Q] says on success. *)
Definition safe {A} (p : M FixedReader A) (ce : Z) (Q : A -> Z -> Prop) : Prop := forall r, wf_reader r ->
  wp (p r) (fun '(res, r') => wf_reader r' /\ data r' = data r /\ rpos r <= rpos r' /\
    match res with inl _ => live r' = live r + ce | inr a => Q a (live r' - live r) end).

Lemma safe_bind {A B} (p : M FixedReader A) (f : A -> M FixedReader B) ce Q1 Q :
  safe p ce Q1 -> (forall a k, Q1 a k -> safe (f a) (ce - k) (fun b k' => Q b (k + k'))) -> safe (p ≫= f) ce Q.
Proof.
  intros Hp Hf r Hr. unfold mbind, M_bind. specialize (Hp r Hr).
  destruct (p r) as [[[e|a] r1]|]; [done| |done]. destruct Hp as (Hr1 & Hd1 & Hm1 & Hq1).
  specialize (Hf a _ Hq1 r1 Hr1). eapply wp_mono; [exact Hf|].
  intros [[e|b] r2] (Hr2 & Hd2 & Hm2 & Hq2); split_and!; try done; try congruence; try lia.
  by replace (live r2 - live r) with (live r1 - live r + (live r2 - live r1)) by lia.
Qed.

Lemma safe_mono {A} (p : M FixedReader A) ce ce' (Q Q' : A -> Z -> Prop) :
  safe p ce Q -> ce = ce' -> (forall a k, Q a k -> Q' a k) -> safe p ce' Q'.
Proof.
  intros Hp <- HQ r Hr. eapply wp_mono; [by apply Hp|]. intros [[e|a] r'] (? & ? & ? & ?); split_and!; auto.
Qed.

Lemma safe_ret {A} (a : A) ce (Q : A -> Z -> Prop) : Q a 0 -> safe (mret a) ce Q.
Proof. intros HQ r Hr. cbn. split_and!; try done. by rewrite Z.sub_diag. Qed.

Lemma safe_throw {A} e (Q : A -> Z -> Prop) : safe (throw e) 0 Q.
Proof. intros r Hr. cbn. split_and!; try done. lia. Qed.

Lemma safe_guard c e : safe (guard_not c e) 0 (fun _ k => k = 0 /\ c = false).
Proof. destruct c; [apply safe_throw|by apply safe_ret]. Qed.

Lemma safe_lift {A} (o : Err + A) : safe (lift o) 0 (fun a k => k = 0 /\ o = inr a).
Proof. destruct o; [apply safe_throw|by apply safe_ret]. Qed.

Lemma safe_byte : safe readByte 0 (fun _ k => k = 0).
Proof.
  intros r Hr. unfold readByte. destruct (zget (data r) (rpos r)) as [b|] eqn:E; cbn.
  - pose proof (zget_Some_lt _ _ _ E). destruct r. unfold wf_reader in *. cbn in *. split_and!; try done; lia.
  - split_and!; try done. lia.
Qed.

Lemma safe_no_eof n : 0 <= n -> safe (readNoEof n) 0 (fun bs k => k = 0 /\ zlen bs = n).
Proof.
  intros Hn r Hr. unfold readNoEof. unfold wf_reader in Hr. destruct (Z.gtb_spec (rpos r) (zlen (data r))); [lia|].
  destruct (Z.ltb_spec (zlen (data r) - rpos r) n); cbn -[zlen ztake zdrop]; unfold wf_reader; cbn -[zlen ztake zdrop].
  - split_and!; try done; lia.
  - rewrite zlen_ztake by (rewrite zlen_zdrop by lia; lia). split_and!; try done; lia.
Qed.

Lemma safe_remaining : safe remainingLen 0 (fun n k => k = 0 /\ 0 <= n).
Proof.
  intros r Hr. unfold remainingLen, wf_reader in *. destruct (Z.gtb_spec (rpos r) (zlen (data r))); [lia|].
  cbn. unfold wf_reader. split_and!; try done; lia.
Qed.

Lemma safe_alloc n : safe (alloc n) 0 (fun _ k => k = allocs n).
Proof.
  intros r Hr. unfold alloc, allocs. destruct (n =? 0); [cbn; split_and!; try done; lia|].
  destruct r as [d p [|[] l] v]; cbn in *; split_and!; try done; lia.
Qed.

(** A cleanup that releases [n] buffers. *)
Definition releases (cl : FixedReader -> FixedReader) (n : Z) : Prop := forall r,
  data (cl r) = data r /\ rpos (cl r) = rpos r /\ live (cl r) = live r - n.

Lemma releases_len n : releases (free_len n) (allocs n).
Proof. intros r. unfold free_len, allocs. destruct (n =? 0); [split_and!; try done; lia|by destruct r]. Qed.

Lemma releases_comp f g n m : releases f n -> releases g m -> releases (fun r => f (g r)) (n + m).
Proof. intros Hf Hg r. destruct (Hf (g r)) as (-> & -> & ->), (Hg r) as (-> & -> & ->). split_and!; try done. lia. Qed.

Lemma safe_errdefer {A} cl n (p : M FixedReader A) ce Q : releases cl n -> safe p (ce + n) Q -> safe (errdefer cl p) ce Q.
Proof.
  intros Hcl Hp r Hr. unfold errdefer. specialize (Hp r Hr). destruct (p r) as [[[e|a] r1]|]; [|done|done].
  destruct Hp as (Hr1 & Hd1 & Hm1 & Hl1). destruct (Hcl r1) as (E1 & E2 & E3). cbn. unfold wf_reader in *.
  rewrite E1, E2, E3. split_and!; try done; try lia.
Qed.

Lemma safe_at buf i : 0 <= i < zlen buf -> safe (at_ buf i) 0 (fun _ k => k = 0).
Proof. intros Hi. unfold at_. destruct (zget_lt buf i Hi) as [b ->]. by apply safe_ret. Qed.

Lemma safe_bind0 {A B} (p : M FixedReader A) (f : A -> M FixedReader B) (P : A -> Prop) Q :
  safe p 0 (fun a k => k = 0 /\ P a) -> (forall a, P a -> safe (f a) 0 Q) -> safe (p ≫= f) 0 Q.
Proof. intros Hp Hf. eapply safe_bind; [exact Hp|]. intros a k [-> Ha]. by apply Hf. Qed.

(** A value that owns buffers, released if the rest fails. *)
Lemma safe_owning_P {A B} (p : M FixedReader A) cl (q : A -> M FixedReader B) (cost : A -> Z) (P : A -> Prop) Q :
  safe p 0 (fun a k => k = cost a /\ P a) -> (forall a, releases (cl a) (cost a)) ->
  (forall a, P a -> safe (q a) 0 (fun b k => Q b (cost a + k))) -> safe (p ≫= fun a => errdefer (cl a) (q a)) 0 Q.
Proof.
  intros Hp Hcl Hq. eapply safe_bind; [exact Hp|]. intros a k [-> Ha]. eapply safe_errdefer; [apply Hcl|].
  rewrite Z.sub_0_l, Z.add_opp_diag_l. by apply Hq.
Qed.

Lemma safe_owning {A B} (p : M FixedReader A) cl (q : A -> M FixedReader B) (cost : A -> Z) Q :
  safe p 0 (fun a k => k = cost a) -> (forall a, releases (cl a) (cost a)) ->
  (forall a, safe (q a) 0 (fun b k => Q b (cost a + k))) -> safe (p ≫= fun a => errdefer (cl a) (q a)) 0 Q.
Proof.
  intros Hp Hcl Hq. apply (safe_owning_P p cl q cost (fun _ => True)); [|done|auto]. by eapply safe_mono.
Qed.

Lemma safe_any {A} (p : M FixedReader A) : safe p 0 (fun _ k => k = 0) -> safe p 0 (fun _ k => k = 0 /\ True).
Proof. intros Hp. by eapply safe_mono. Qed.

Lemma safe_owned_len n : 0 <= n -> safe (readOwnedBytes n) 0 (fun bs k => k = allocs (zlen bs) /\ zlen bs = n).
Proof.
  intros Hn. unfold readOwnedBytes. eapply safe_bind0; [apply safe_remaining|]. intros left Hleft.
  eapply safe_bind0; [apply safe_guard|]. intros _ _.
  apply (safe_owning (alloc n) (fun _ => free_len n) (fun _ => readNoEof n) (fun _ => allocs n));
    [apply safe_alloc|intros; apply releases_len|].
  intros _. eapply safe_mono; [apply safe_no_eof; lia|done|]. intros bs k [-> Hbs]. rewrite Hbs. split; [lia|done].
Qed.

Lemma safe_owned n : 0 <= n -> safe (readOwnedBytes n) 0 (fun bs k => k = allocs (zlen bs)).
Proof. intros Hn. eapply safe_mono; [by apply safe_owned_len|done|]. by intros ?? [-> _]. Qed.

Lemma safe_slice n : 0 <= n -> safe (readSlice n) 0 (fun bs k => k = 0 /\ zlen bs = n).
Proof. exact (safe_no_eof n). Qed.

Tactic Notation "read_at" "as" ident(b) := eapply safe_bind0; [apply safe_any, safe_at; lia|intros b _].

(** On success the reader has moved. *)
Definition moves {A} (p : M FixedReader A) : Prop := forall r, wf_reader r ->
  wp (p r) (fun '(res, r') => match res with inr _ => rpos r < rpos r' | inl _ => True end).

Lemma moves_byte : moves readByte.
Proof. intros r Hr. unfold readByte. destruct (zget (data r) (rpos r)); cbn; [lia|done]. Qed.

Lemma moves_bind {A B} (p : M FixedReader A) (f : A -> M FixedReader B) ce Q1 ce' Q :
  moves p -> safe p ce Q1 -> (forall a, safe (f a) ce' Q) -> moves (p ≫= f).
Proof.
  intros Hm Hs Hf r Hr. specialize (Hm r Hr). specialize (Hs r Hr). unfold mbind, M_bind.
  destruct (p r) as [[[e|a] r1]|]; cbn in *; [done| |done]. destruct Hs as (Hr1 & _).
  eapply wp_mono; [by apply (Hf a r1)|]. intros [[e|b] r2] (_ & _ & ? & _); [done|lia].
Qed.

Lemma shl8_or_add v b : 0 <= v < 2 ^ 56 -> shl8_or v b = v * 256 + byteZ b.
Proof.
  intros Hv. unfold shl8_or. change U64_MAX with (Z.ones 64). rewrite Z.land_ones by lia.
  rewrite Z.mod_small by (rewrite Z.shiftl_mul_pow2 by lia; lia). apply shl8_add, byteZ_range.
Qed.

Lemma varint_safe_moves : safe decodeVarInt 0 (fun a k => k = 0 /\ 0 <= a.1 <= max_quic_varint) /\ moves decodeVarInt.
Proof.
  unfold decodeVarInt. match goal with |- context [readByte ≫= ?k] => set (tail := k) end.
  enough (forall first, safe (tail first) 0 (fun a k => k = 0 /\ 0 <= a.1 <= max_quic_varint)) as Htail.
  { split; [|by eapply moves_bind; [apply moves_byte|apply safe_byte|]].
    eapply safe_bind0; [apply safe_any, safe_byte|]. intros first _. apply Htail. }
  intros first. unfold tail. cbv zeta.
  pose proof (byteZ_range first) as Hb. set (b := byteZ first) in *. clearbody b.
  assert (0 <= Z.land b 63 < 64) as Hlow by (change 63 with (Z.ones 6); rewrite Z.land_ones by lia; apply Z.mod_pos_bound; lia).
  set (low := Z.land b 63) in *. clearbody low.
  assert (0 <= Z.shiftr b 6 <= 3) as Hs.
  { rewrite Z.shiftr_div_pow2 by lia. change (2 ^ 6) with 64. split; [apply Z.div_pos|apply Z.lt_succ_r, Z.div_lt_upper_bound]; lia. }
  pose proof byteZ_range as Hbyte. unfold max_quic_varint.
  assert (Z.shiftr b 6 = 0 \/ Z.shiftr b 6 = 1 \/ Z.shiftr b 6 = 2 \/ Z.shiftr b 6 = 3) as [->|[->|[->| ->]]] by lia.
  - apply safe_ret. cbn. lia.
  - eapply safe_bind0; [apply safe_no_eof; lia|]. intros buf Hbuf. cbn beta in Hbuf. read_at as b0. apply safe_ret.
    split; [done|]. cbn. rewrite shl8_add by done. specialize (Hbyte b0). lia.
  - eapply safe_bind0; [apply safe_no_eof; lia|]. intros buf Hbuf. cbn beta in Hbuf.
    read_at as b0. read_at as b1. read_at as b2. apply safe_ret. split; [done|]. cbn. rewrite or_chain3, !shl8_add by done.
    pose proof (Hbyte b0). pose proof (Hbyte b1). pose proof (Hbyte b2). lia.
  - eapply safe_bind0; [apply safe_no_eof; lia|]. intros buf Hbuf. cbn beta in Hbuf.
    read_at as b0. read_at as b1. read_at as b2. read_at as b3. read_at as b4. read_at as b5. read_at as b6.
    apply safe_ret. split; [done|]. cbn.
    pose proof (Hbyte b0). pose proof (Hbyte b1). pose proof (Hbyte b2). pose proof (Hbyte b3). pose proof (Hbyte b4).
    pose proof (Hbyte b5). pose proof (Hbyte b6).
    rewrite (shl8_or_add low) by lia. rewrite (shl8_or_add (low * 256 + _)) by lia.
    repeat (rewrite (shl8_or_add ((_ * 256 + _) * 256 + _)) by lia). lia.
Qed.

Lemma safe_varint : safe decodeVarInt 0 (fun a k => k = 0 /\ 0 <= a.1 <= max_quic_varint).
Proof. apply varint_safe_moves. Qed.

Lemma safe_optional n : 0 <= n -> safe (if n =? 0 then mret [] else readOwnedBytes n) 0 (fun bs k => k = allocs (zlen bs)).
Proof. intros. destruct (n =? 0); [by apply safe_ret|by apply safe_owned]. Qed.

Lemma safe_pos ce : safe getPos ce (fun _ k => k = 0).
Proof. intros r Hr. cbn. split_and!; try done. lia. Qed.

End Safe.
