(* ===== verification/Packet.v ===== *)
(** * Packet numbers (src/quic/packet.zig)

    The choice of a packet-number encoding, its bytes on the wire and its
    reconstruction, with their round trip. *)
From S2P Require Import Prelude Codec.
Import Codec.
Local Open Scope Z_scope.

Module Packet.

Definition max_packet_number : Z := 4611686018427387903.

(** ** Packet numbers *)

Record PacketNumberEncoding : Type := PnEncoding { pn_len : Z; truncated_packet_number : Z }.

Definition packetNumberLen (packet_number : Z) : Err + Z :=
  if packet_number <=? 255 then inr 1 else
  if packet_number <=? 65535 then inr 2 else
  if packet_number <=? 16777215 then inr 3 else
  if packet_number <=? 4294967295 then inr 4 else inl InvalidPacketNumber.

Definition packetNumberEncodingLenForUnacked (num_unacked_packets : Z) : Err + Z :=
  if num_unacked_packets =? 0 then inl InvalidPacketNumber else
  if num_unacked_packets <=? Z.shiftl 1 7 then inr 1 else
  if num_unacked_packets <=? Z.shiftl 1 15 then inr 2 else
  if num_unacked_packets <=? Z.shiftl 1 23 then inr 3 else
  if num_unacked_packets <=? Z.shiftl 1 31 then inr 4 else inl InvalidPacketNumber.

(** [(@as(u64, 1) << (len * 8)) - 1]. *)
Definition pn_mask (len : Z) : Z := Z.shiftl 1 (len * 8) - 1.

(** [None] is a failed [@intCast] to [u32]. *)
Definition encodePacketNumberForHeader (packet_number : Z) (largest_acked : option Z)
    : option (Err + PacketNumberEncoding) :=
  if packet_number >? max_packet_number then Some (inl InvalidPacketNumber) else
  let unacked := match largest_acked with
    | Some largest => if (largest >? max_packet_number) || (packet_number <=? largest) then None
                      else Some (packet_number - largest)
    | None => add64 packet_number 1
    end in
  match unacked with
  | None => Some (inl InvalidPacketNumber)
  | Some n =>
      match packetNumberEncodingLenForUnacked n with
      | inl e => Some (inl e)
      | inr len => t ← intCast U32_MAX (Z.land packet_number (pn_mask len)); Some (inr (PnEncoding len t))
      end
  end.

(** The loop of [encodePacketNumber]; [None]: an index outside [buf] or a
    shift that does not fit [u6]. *)
Fixpoint fill_packet_number (n : nat) (i pn_len packet_number : Z) (buf : list byte) : option (list byte) :=
  match n with
  | 0%nat => Some buf
  | S n =>
      shift ← intCast 63 ((pn_len - 1 - i) * 8);
      b ← byte_of packet_number shift;
      if i <? zlen buf then fill_packet_number n (i + 1) pn_len packet_number (zset buf i b) else None
  end.

(** [undef]: the contents of the uninitialised buffer. *)
Definition encodePacketNumber (undef : list byte) (packet_number pn_len : Z) : M FixedWriter unit :=
  buf ← legal (fill_packet_number (Z.to_nat pn_len) 0 pn_len packet_number (ztake 4 undef));
  if pn_len >? 4 then illegal else writeAll (ztake pn_len buf).

Definition validatePacketNumberEncoding (encoding : PacketNumberEncoding) : Err + unit :=
  if (pn_len encoding =? 0) || (pn_len encoding >? 4) then inl InvalidPacketNumber else
  if truncated_packet_number encoding >? pn_mask (pn_len encoding) then inl InvalidPacketNumber else inr tt.

Definition validatePacketNumberEncodingMatches (packet_number : Z) (encoding : PacketNumberEncoding) : Err + unit :=
  if packet_number >? max_packet_number then inl InvalidPacketNumber else
  match validatePacketNumberEncoding encoding with
  | inl e => inl e
  | inr _ => if negb (truncated_packet_number encoding =? Z.land packet_number (pn_mask (pn_len encoding)))
             then inl InvalidPacketNumber else inr tt
  end.

(** [while (i < pn_len)], [n] bytes to go. *)
Fixpoint decode_packet_number (n : nat) (value : Z) : M FixedReader Z :=
  match n with
  | 0%nat => mret value
  | S n => b ← readByte; decode_packet_number n (shl8_or value b)
  end.

Definition decodePacketNumber (pn_len : Z) : M FixedReader Z := decode_packet_number (Z.to_nat pn_len) 0.

(** [~m] on [u64]. *)
Definition not64 (m : Z) : Z := Z.land (Z.lnot m) U64_MAX.

Definition reconstructPacketNumber (expected_packet_number truncated_packet_number pn_len : Z) : Err + Z :=
  if (pn_len =? 0) || (pn_len >? 4) then inl InvalidPacketNumber else
  if expected_packet_number >? max_packet_number + 1 then inl InvalidPacketNumber else
  let pn_window := Z.shiftl 1 (pn_len * 8) in
  let pn_half_window := pn_window / 2 in
  let pn_mask := pn_window - 1 in
  if truncated_packet_number >? pn_mask then inl InvalidPacketNumber else
  let candidate := Z.lor (Z.land expected_packet_number (not64 pn_mask)) truncated_packet_number in
  let candidate_plus_half := default U64_MAX (add64 candidate pn_half_window) in
  let decoded :=
    if candidate_plus_half <=? expected_packet_number then add64 candidate pn_window else
    let expected_plus_half := default U64_MAX (add64 expected_packet_number pn_half_window) in
    Some (if (candidate >? expected_plus_half) && (candidate >=? pn_window) then candidate - pn_window else candidate) in
  match decoded with
  | None => inl InvalidPacketNumber
  | Some d => if d >? max_packet_number then inl InvalidPacketNumber else inr d
  end.

(** *** Reconstruction finds the nearest packet number *)

Definition window (len : Z) : Z := 256 ^ len.

Lemma window_cases len : 1 <= len <= 4 ->
  (len = 1 /\ window len = 256) \/ (len = 2 /\ window len = 65536) \/
  (len = 3 /\ window len = 16777216) \/ (len = 4 /\ window len = 4294967296).
Proof. intros. assert (len = 1 \/ len = 2 \/ len = 3 \/ len = 4) as [->|[->|[->| ->]]] by lia; unfold window; auto. Qed.

Lemma shiftl_window len : 1 <= len <= 4 -> Z.shiftl 1 (len * 8) = window len.
Proof. intros Hl. assert (len = 1 \/ len = 2 \/ len = 3 \/ len = 4) as [->|[->|[->| ->]]] by lia; done. Qed.

Lemma candidate_eq e t len : 1 <= len <= 4 -> 0 <= e <= U64_MAX -> 0 <= t < window len ->
  Z.lor (Z.land e (not64 (window len - 1))) t = e / window len * window len + t.
Proof.
  intros Hl He Ht. rewrite <- shiftl_window in * by done. rewrite Z.shiftl_1_l in *.
  assert (Z.land e (not64 (2 ^ (len * 8) - 1)) = Z.shiftl (e / 2 ^ (len * 8)) (len * 8)) as ->; [|by apply shl_add; lia].
  unfold not64. rewrite (Z.land_comm (Z.lnot _)), Z.land_assoc.
  change U64_MAX with (Z.ones 64). rewrite (Z.land_ones e 64), (Z.mod_small e) by (unfold U64_MAX in *; lia).
  rewrite <- Z.shiftr_div_pow2, <- Z.ldiff_ones_r, Z.ldiff_land by lia. f_equal. f_equal. rewrite Z.ones_equiv. lia.
Qed.

(** The computation in arithmetic: the candidate in the window of [e], moved by
    at most one window. *)
Lemma reconstruct_eq e t len : 1 <= len <= 4 -> 0 <= e <= max_packet_number + 1 -> 0 <= t < window len ->
  reconstructPacketNumber e t len =
    let c := e / window len * window len + t in
    let d := if c + window len / 2 <=? e then c + window len
             else if (c >? e + window len / 2) && (c >=? window len) then c - window len else c in
    if d >? max_packet_number then inl InvalidPacketNumber else inr d.
Proof.
  intros Hl He Ht. unfold reconstructPacketNumber. rewrite shiftl_window by done.
  rewrite candidate_eq by (unfold max_packet_number, U64_MAX in *; lia).
  destruct (Z.eqb_spec len 0), (Z.gtb_spec len 4); try lia. cbn [orb].
  destruct (Z.gtb_spec e (max_packet_number + 1)); [lia|]. cbv zeta.
  destruct (Z.gtb_spec t (window len - 1)); [lia|].
  pose proof (Z.div_mod e (window len)) as Hdm. pose proof (Z.mod_pos_bound e (window len)) as Hmb.
  unfold add64, U64_MAX, max_packet_number in *.
  assert (0 <= e / window len * window len + t <= 4611686018427387904 + 4294967296) as Hc.
  { destruct (window_cases len Hl) as [[-> E]|[[-> E]|[[-> E]|[-> E]]]]; rewrite E in *; lia. }
  assert (0 <= window len / 2 <= 4294967296) as Hh.
  { destruct (window_cases len Hl) as [[-> ->]|[[-> ->]|[[-> ->]|[-> ->]]]]; split; by vm_compute. }
  assert (window len <= 4294967296).
  { destruct (window_cases len Hl) as [[-> ->]|[[-> ->]|[[-> ->]|[-> ->]]]]; lia. }
  set (c := e / window len * window len + t) in *. set (h := window len / 2) in *.
  destruct (Z.leb_spec (c + h) 18446744073709551615); [|lia].
  destruct (Z.leb_spec (e + h) 18446744073709551615); [|lia].
  destruct (Z.leb_spec (c + window len) 18446744073709551615); [|lia]. cbn [default from_option id].
  by destruct (c + h <=? e).
Qed.

(** C34: packet-number reconstruction. For a valid length and expected number,
    the result is the packet number nearest to the expected one among all that
    have the truncated value as their low-order bytes, or an error if that
    nearest number exceeds 2^62 - 1. *)
Theorem reconstruct_nearest (e t len : Z) (Hlen : 1 <= len <= 4) (He : 0 <= e <= max_packet_number + 1)
    (Ht : 0 <= t < window len) :
  exists d, 0 <= d /\ d mod window len = t /\
    (forall d', 0 <= d' -> d' mod window len = t -> Z.abs (d - e) <= Z.abs (d' - e)) /\
    reconstructPacketNumber e t len = if d >? max_packet_number then inl InvalidPacketNumber else inr d.
Proof.
  rewrite reconstruct_eq by done. cbv zeta. set (d := if _ <=? e then _ else _). exists d.
  pose proof (Z.div_mod e (window len)) as Hdm. pose proof (Z.mod_pos_bound e (window len)) as Hmb.
  assert (0 <= e / window len) as Hq by (apply Z.div_pos; destruct (window_cases len Hlen); lia).
  assert (0 < window len) as Hw by (destruct (window_cases len Hlen) as [|[|[|]]]; lia).
  assert (exists k, d = k * window len + t /\ 0 <= k /\ (Z.abs (d - e) <= window len / 2 \/ d = t /\ d > e + window len / 2)) as (k & Ed & Hk & Hd).
  { subst d. set (q := e / window len) in *. set (r := e mod window len) in *. clearbody q r.
    destruct (window_cases len Hlen) as [[-> E]|[[-> E]|[[-> E]|[-> E]]]]; rewrite E in *;
      repeat match goal with |- context [?n / 2] => let v := eval vm_compute in (n / 2) in change (n / 2) with v end;
      match goal with |- context [if ?a <=? ?b then _ else _] => destruct (Z.leb_spec a b) end.
    all: try (exists (q + 1); lia).
    all: match goal with |- context [?a >? ?b] => destruct (Z.gtb_spec a b) end; cbn [andb]; try (exists q; lia).
    all: match goal with |- context [?a >=? ?b] => destruct (Z.geb_spec a b) end; [exists (q - 1); lia|exists q; lia]. }
  clearbody d. split_and!; [nia|rewrite Ed, Z.add_comm, Z.mod_add by lia; by apply Z.mod_small| |done].
  intros d' Hd0 Hd'. pose proof (Z.div_mod d' (window len)) as Hdm'. rewrite Hd' in Hdm'.
  assert (0 <= d' / window len) by (by apply Z.div_pos).
  set (k' := d' / window len) in *. clearbody k'. clear Hdm Hmb Hq.
  destruct (window_cases len Hlen) as [[-> E]|[[-> E]|[[-> E]|[-> E]]]]; rewrite E in *;
    repeat match goal with H : context [?n / 2] |- _ => let v := eval vm_compute in (n / 2) in change (n / 2) with v in H end; lia.
Qed.

Lemma reconstruct_nearest_witness : exists d, 0 <= d /\ d mod window 2 = 39732 /\
  (forall d', 0 <= d' -> d' mod window 2 = 39732 -> Z.abs (d - 2827172659) <= Z.abs (d' - 2827172659)) /\
  reconstructPacketNumber 2827172659 39732 2 = if d >? max_packet_number then inl InvalidPacketNumber else inr d.
Proof. apply (reconstruct_nearest 2827172659 39732 2); unfold max_packet_number, window; lia. Defined.

(** *** Packet numbers on the wire *)

Lemma shl8_or_small v b : 0 <= v < 2 ^ 56 -> shl8_or v b = v * 256 + byteZ b.
Proof.
  intros Hv. unfold shl8_or. change U64_MAX with (Z.ones 64).
  rewrite Z.land_ones, Z.mod_small by (rewrite ?Z.shiftl_mul_pow2 by lia; lia). apply shl8_add, byteZ_range.
Qed.

Lemma parses_pn_loop n : forall v t, (n <= 4)%nat -> 0 <= v < 256 ^ (4 - Z.of_nat n) -> 0 <= t ->
  parses (decode_packet_number n v) (be n t) (v * 256 ^ Z.of_nat n + t mod 256 ^ Z.of_nat n) 0.
Proof.
  induction n as [|n IH]; intros v t Hn Hv Ht; cbn [decode_packet_number be].
  - rewrite Z.pow_0_r, Z.mod_1_r, Z.mul_1_r, Z.add_0_r. apply parses_ret.
  - assert (256 ^ (4 - Z.of_nat (S n)) <= 256 ^ 4) by (apply Z.pow_le_mono_r; lia).
    pose proof (Z.mod_pos_bound (t / 256 ^ Z.of_nat n) 256 ltac:(lia)) as Hb.
    assert (0 < 256 ^ Z.of_nat n) by (apply Z.pow_pos_nonneg; lia).
    assert (256 ^ (4 - Z.of_nat n) = 256 ^ (4 - Z.of_nat (S n)) * 256) as E.
    { rewrite <- (Z.pow_1_r 256) at 3. rewrite <- Z.pow_add_r by lia. f_equal. lia. }
    apply parses_cons. rewrite shl8_or_small, byteZ_Zbyte by (done || (change (256 ^ 4) with (2 ^ 32) in *; lia)).
    assert (v * 256 ^ Z.of_nat (S n) + t mod 256 ^ Z.of_nat (S n) =
      (v * 256 + t / 256 ^ Z.of_nat n mod 256) * 256 ^ Z.of_nat n + t mod 256 ^ Z.of_nat n) as ->.
    { rewrite Nat2Z.inj_succ, Z.pow_succ_r, (Z.mul_comm 256), Z.rem_mul_r by lia. lia. }
    apply IH; lia.
Qed.

Lemma window_nat len : 1 <= len <= 4 -> 256 ^ Z.of_nat (Z.to_nat len) = window len.
Proof. intros. unfold window. f_equal. lia. Qed.

Lemma parses_pn len t : 1 <= len <= 4 -> 0 <= t < window len ->
  parses (decodePacketNumber len) (be (Z.to_nat len) t) t 0.
Proof.
  intros Hl Ht. unfold decodePacketNumber. pose proof (parses_pn_loop (Z.to_nat len) 0 t) as P.
  rewrite window_nat, Z.mod_small in P by done. apply P; [lia| |lia]. split; [lia|]. apply Z.pow_pos_nonneg; lia.
Qed.

Lemma fill_ok pn n : forall i len buf, 0 <= pn -> 0 <= i -> len = i + Z.of_nat n -> len <= 4 -> len <= zlen buf ->
  fill_packet_number n i len pn buf = Some (ztake i buf ++ be n pn ++ zdrop len buf).
Proof.
  induction n as [|n IH]; intros i len buf Hpn Hi -> Hlen Hbuf; cbn [fill_packet_number be].
  - rewrite Z.add_0_r. cbn [app]. by rewrite ztake_zdrop.
  - replace (i + Z.of_nat (S n) - 1 - i) with (Z.of_nat n) by lia. unfold intCast.
    destruct (Z.leb_spec 0 (Z.of_nat n * 8)), (Z.leb_spec (Z.of_nat n * 8) 63); try lia. cbn [andb mbind option_bind].
    rewrite byte_of_ok by lia. cbn [mbind option_bind].
    destruct (Z.ltb_spec i (zlen buf)); [|lia]. rewrite IH by (rewrite ?zlen_zset; lia).
    replace (2 ^ (Z.of_nat n * 8)) with (256 ^ Z.of_nat n) by (rewrite Z.mul_comm, Z.pow_mul_r by lia; done).
    rewrite zset_split by lia. set (b := Zbyte _). f_equal.
    assert (zlen (ztake i buf ++ [b]) = i + 1) as Hti by (rewrite zlen_app, zlen_ztake by lia; done).
    rewrite (app_assoc (ztake i buf) [b] (zdrop (i + 1) buf)), (ztake_app_exact (ztake i buf ++ [b])) by done.
    replace (i + Z.of_nat (S n)) with ((i + 1) + Z.of_nat n) by lia.
    rewrite <- (zdrop_zdrop (Z.of_nat n) (i + 1)), zdrop_app_exact, zdrop_zdrop by (done || lia).
    by rewrite <- app_assoc.
Qed.

Lemma be_len n v : zlen (be n v) = Z.of_nat n.
Proof. induction n; cbn [be]; rewrite ?zlen_cons; [done|lia]. Qed.

Lemma emits_pn undef len pn : zlen undef = 4 -> 1 <= len <= 4 -> 0 <= pn ->
  emits (encodePacketNumber undef pn len) (be (Z.to_nat len) pn).
Proof.
  intros Hu Hl Hpn. unfold encodePacketNumber. eapply emits_legal.
  - apply fill_ok; [lia..|]. rewrite zlen_ztake; lia.
  - destruct (Z.gtb_spec len 4); [lia|]. rewrite ztake_0. cbn [app].
    rewrite ztake_app_exact by (rewrite be_len; lia). apply emits_all.
Qed.

(** Reconstruction is exact half a window around the expected number. *)
Lemma reconstruct_exact e pn len : 1 <= len <= 4 -> 0 <= e <= max_packet_number + 1 -> 0 <= pn <= max_packet_number ->
  e - window len / 2 < pn <= e + window len / 2 -> reconstructPacketNumber e (pn mod window len) len = inr pn.
Proof.
  intros Hl He Hpn Hnear. assert (0 < window len) by (destruct (window_cases len Hl) as [|[|[|]]]; lia).
  rewrite reconstruct_eq by (done || by apply Z.mod_pos_bound). cbv zeta.
  pose proof (Z.div_mod e (window len) ltac:(lia)) as D1. pose proof (Z.mod_pos_bound e (window len) ltac:(lia)) as M1.
  pose proof (Z.div_mod pn (window len) ltac:(lia)) as D2. pose proof (Z.mod_pos_bound pn (window len) ltac:(lia)) as M2.
  assert (0 <= pn / window len) by (apply Z.div_pos; lia).
  set (q := e / window len) in *. set (p := pn / window len) in *. set (t := pn mod window len) in *.
  set (r := e mod window len) in *. clearbody q p t r.
  destruct (window_cases len Hl) as [[-> E]|[[-> E]|[[-> E]|[-> E]]]]; rewrite E in *;
    repeat match goal with
    | H : context [?n / 2] |- _ => let v := eval vm_compute in (n / 2) in change (n / 2) with v in H
    | |- context [?n / 2] => let v := eval vm_compute in (n / 2) in change (n / 2) with v
    end;
    (match goal with |- context [if ?a <=? ?b then _ else _] => destruct (Z.leb_spec a b) end;
     [|match goal with |- context [(?a >? ?b) && _] => destruct (Z.gtb_spec a b) end; cbn [andb];
       [match goal with |- context [?a >=? ?b] => destruct (Z.geb_spec a b) end|]]);
    match goal with |- context [?d >? max_packet_number] => destruct (Z.gtb_spec d max_packet_number) end;
    first [lia | f_equal; lia].
Qed.

Lemma pn_mask_land len pn : 1 <= len <= 4 -> Z.land pn (pn_mask len) = pn mod window len.
Proof.
  intros. unfold pn_mask. rewrite Z.shiftl_1_l, Z.sub_1_r, <- Z.ones_equiv, Z.land_ones by lia.
  rewrite <- shiftl_window, Z.shiftl_1_l by done. done.
Qed.

(** Packets sent since the largest acknowledged one, the current one included. *)
Definition unacked (pn : Z) (largest_acked : option Z) : Z :=
  match largest_acked with Some l => pn - l | None => pn + 1 end.

Lemma encode_pn_ok pn largest : 0 <= pn <= max_packet_number -> 0 < unacked pn largest <= 2 ^ 31 ->
  match largest with Some l => 0 <= l | None => True end ->
  exists len, 1 <= len <= 4 /\ unacked pn largest <= window len / 2 /\
    encodePacketNumberForHeader pn largest = Some (inr (PnEncoding len (pn mod window len))).
Proof.
  intros Hpn Hu Hl. unfold encodePacketNumberForHeader, add64.
  destruct (Z.gtb_spec pn max_packet_number); [lia|].
  assert ((match largest with
    | Some largest => if (largest >? max_packet_number) || (pn <=? largest) then None else Some (pn - largest)
    | None => if pn + 1 <=? U64_MAX then Some (pn + 1) else None end) = Some (unacked pn largest)) as ->.
  { unfold unacked, max_packet_number, U64_MAX in *. destruct largest as [l|].
    - destruct (Z.gtb_spec l 4611686018427387903), (Z.leb_spec pn l); try lia. done.
    - destruct (Z.leb_spec (pn + 1) 18446744073709551615); [done|lia]. }
  assert (exists len, 1 <= len <= 4 /\ unacked pn largest <= window len / 2 /\
    packetNumberEncodingLenForUnacked (unacked pn largest) = inr len) as (len & Hlen & Hw & ->).
  { unfold packetNumberEncodingLenForUnacked. set (u := unacked pn largest) in *. clearbody u.
    change (Z.shiftl 1 7) with (window 1 / 2). change (Z.shiftl 1 15) with (window 2 / 2).
    change (Z.shiftl 1 23) with (window 3 / 2). change (Z.shiftl 1 31) with (window 4 / 2). change (2 ^ 31) with (window 4 / 2) in Hu.
    destruct (Z.eqb_spec u 0); [lia|]. destruct (Z.leb_spec u (window 1 / 2)); [by exists 1|].
    destruct (Z.leb_spec u (window 2 / 2)); [by exists 2|]. destruct (Z.leb_spec u (window 3 / 2)); [by exists 3|].
    destruct (Z.leb_spec u (window 4 / 2)); [by exists 4|lia]. }
  exists len. split_and!; try done; try lia. rewrite pn_mask_land by done. unfold intCast, U32_MAX.
  assert (0 < window len <= 4294967296) by (destruct (window_cases len Hlen) as [|[|[|]]]; lia).
  pose proof (Z.mod_pos_bound pn (window len)).
  destruct (Z.leb_spec 0 (pn mod window len)), (Z.leb_spec (pn mod window len) 4294967295); try lia. done.
Qed.

(** packet numbers survive the header. For at most 2^31 unacknowledged
    packets an encoding is chosen without any failed cast; its bytes, written
    and read back, give the truncated number; and every receiver whose expected
    number is above the largest number acknowledged to the sender and less than
    half a window ahead reconstructs exactly the number that was sent. *)
Theorem packet_number_roundtrip (undef : list byte) (pn : Z) (largest : option Z)
    (Hundef : zlen undef = 4) (Hpn : 0 <= pn <= max_packet_number) (Hu : 0 < unacked pn largest <= 2 ^ 31)
    (Hl : match largest with Some l => 0 <= l | None => True end) :
  exists len t, encodePacketNumberForHeader pn largest = Some (inr (PnEncoding len t)) /\ 1 <= len <= 4 /\
    (exists bs, zlen bs = len /\ emits (encodePacketNumber undef t len) bs /\ parses (decodePacketNumber len) bs t 0) /\
    (forall expected, 0 <= expected <= max_packet_number + 1 ->
       match largest with Some l => l < expected | None => True end -> expected < pn + window len / 2 ->
       reconstructPacketNumber expected t len = inr pn).
Proof.
  destruct (encode_pn_ok pn largest Hpn Hu Hl) as (len & Hlen & Hw & E). exists len, (pn mod window len).
  assert (0 < window len) by (destruct (window_cases len Hlen) as [|[|[|]]]; lia).
  pose proof (Z.mod_pos_bound pn (window len)). split_and!; [done|lia|lia| |].
  - exists (be (Z.to_nat len) (pn mod window len)). split_and!; [rewrite be_len; lia|apply emits_pn|apply parses_pn]; lia.
  - intros e He Hle Hlt. apply reconstruct_exact; try done. unfold unacked in *. destruct largest; lia.
Qed.

Lemma packet_number_roundtrip_witness :
  exists len t, encodePacketNumberForHeader 11306674 (Some 11250603) = Some (inr (PnEncoding len t)) /\ 1 <= len <= 4 /\
    (exists bs, zlen bs = len /\ emits (encodePacketNumber [x00; x00; x00; x00] t len) bs /\ parses (decodePacketNumber len) bs t 0) /\
    (forall expected, 0 <= expected <= max_packet_number + 1 -> 11250603 < expected -> expected < 11306674 + window len / 2 ->
       reconstructPacketNumber expected t len = inr 11306674).
Proof.
  apply (packet_number_roundtrip [x00; x00; x00; x00] 11306674 (Some 11250603));
    [reflexivity|unfold max_packet_number; lia|cbn; lia|lia].
Defined.

End Packet.
