(* ===== verification/Headers.v ===== *)
(** * Packet headers and packets (src/quic/packet.zig)

    The long and short header codecs and the packets built on them, over the
    fixed reader and writer of [Codec]; the round trips, and the safety of
    parsing arbitrary bytes. *)
From S2P Require Import Prelude Codec CodecSafe Packet.
Import Codec Safe Packet.
Local Open Scope Z_scope.

Module Headers.

(** ** Headers *)

Definition v1 : Z := 1.
Definition v2 : Z := 1798521807.

Inductive PacketType : Type := initial | zero_rtt | handshake | retry.

#[export] Instance packet_type_eq_dec : EqDecision PacketType.
Proof. solve_decision. Defined.

Definition packet_type_code (t : PacketType) : Z :=
  match t with initial => 0 | zero_rtt => 1 | handshake => 2 | retry => 3 end.

Definition longHeaderPacketTypeBits (version : Z) (packet_type : PacketType) : Z :=
  if version =? v2 then match packet_type with initial => 1 | zero_rtt => 2 | handshake => 3 | retry => 0 end
  else packet_type_code packet_type.

(** [bits] is a [u2]. *)
Definition longHeaderPacketTypeFromBits (version bits : Z) : PacketType :=
  if version =? v2 then
    (if bits =? 0 then retry else if bits =? 1 then initial else if bits =? 2 then zero_rtt else handshake)
  else (if bits =? 0 then initial else if bits =? 1 then zero_rtt else if bits =? 2 then handshake else retry).

Record LongHeader : Type := Long {
  version : Z;
  dcid : list byte;
  scid : list byte;
  packet_type : PacketType;
  token : list byte;
  packet_number : Z;
  payload_length : Z;
}.

Record ShortHeader : Type := Short {
  s_dcid : list byte;
  spin_bit : bool;
  key_phase : bool;
  s_packet_number : Z;
}.

Definition validateVersionedPacketVersion (version : Z) : Err + unit :=
  if version =? 0 then inl InvalidVersionNegotiation else inr tt.
Definition validateLengthVarInt (value : Z) : Err + unit :=
  if value >? max_quic_varint then inl InvalidLength else inr tt.
Definition validateLongHeaderCidLen (len : Z) : Err + unit :=
  if len >? 20 then inl InvalidConnectionIdLength else inr tt.

(** [std.mem.writeInt(u32, ..., .big)] and its inverse. *)
Definition writeInt32 (v : Z) : list byte := be 4 v.
Definition readInt32 (bs : list byte) : Z := fold_left (fun a b => a * 256 + byteZ b) bs 0.

(** [token.len] is a [usize], so the cast to [u64] succeeds. *)
Definition encodeLongHeaderWithPacketNumberEncoding (undef : list byte) (header : LongHeader) (enc : PacketNumberEncoding)
    : M FixedWriter unit :=
  _ ← lift (validateLongHeaderCidLen (zlen (dcid header)));
  _ ← lift (validateLongHeaderCidLen (zlen (scid header)));
  _ ← lift (validateVersionedPacketVersion (version header));
  _ ← guard_not (bool_decide (packet_type header = retry)) UnsupportedPacketType;
  _ ← guard_not (bool_decide (packet_type header ≠ initial) && negb (zlen (token header) =? 0)) UnexpectedToken;
  _ ← lift (validatePacketNumberEncodingMatches (packet_number header) enc);
  wire_length ← orelse (add64 (payload_length header) (pn_len enc)) InvalidLength;
  _ ← lift (validateLengthVarInt wire_length);
  _ ← (if bool_decide (packet_type header = initial) then lift (validateLengthVarInt (zlen (token header))) else mret tt);
  low ← legal (intCast 255 (pn_len enc - 1));
  let first_byte := Z.lor (Z.lor (Z.lor (Z.lor 0 128) 64)
    (Z.shiftl (longHeaderPacketTypeBits (version header) (packet_type header)) 4)) low in
  first_byte ← legal (u8 first_byte);
  _ ← writeByte first_byte;
  _ ← writeAll (writeInt32 (version header));
  dcid_len ← legal (u8 (zlen (dcid header)));
  _ ← writeByte dcid_len;
  _ ← writeAll (dcid header);
  scid_len ← legal (u8 (zlen (scid header)));
  _ ← writeByte scid_len;
  _ ← writeAll (scid header);
  _ ← (if bool_decide (packet_type header = initial) then
         _ ← encodeVarInt (zlen (token header)); writeAll (token header)
       else mret tt);
  _ ← encodeVarInt wire_length;
  encodePacketNumber undef (truncated_packet_number enc) (pn_len enc).

Definition encodeLongHeader (undef : list byte) (header : LongHeader) : M FixedWriter unit :=
  len ← lift (packetNumberLen (packet_number header));
  t ← legal (intCast U32_MAX (packet_number header));
  encodeLongHeaderWithPacketNumberEncoding undef header (PnEncoding len t).

(** [if (expected) |e| try reconstruct(...) else truncated]. *)
Definition full_packet_number (expected_packet_number : option Z) (truncated pn_len : Z) : Err + Z :=
  match expected_packet_number with
  | Some expected => reconstructPacketNumber expected truncated pn_len
  | None => inr truncated
  end.

Definition parseLongHeaderInternal (expected_packet_number : option Z) : M FixedReader LongHeader :=
  first ← readByte;
  let first_byte := byteZ first in
  _ ← guard_not (Z.land first_byte 128 =? 0) InvalidHeaderForm;
  _ ← guard_not (Z.land first_byte 64 =? 0) InvalidFixedBit;
  _ ← guard_not (negb (Z.land first_byte 12 =? 0)) InvalidReservedBits;
  let pn_len := Z.land first_byte 3 + 1 in
  let packet_type_bits := Z.land (Z.shiftr first_byte 4) 3 in
  version_buf ← readNoEof 4;
  let version := readInt32 version_buf in
  _ ← lift (validateVersionedPacketVersion version);
  let packet_type := longHeaderPacketTypeFromBits version packet_type_bits in
  _ ← guard_not (bool_decide (packet_type = retry)) UnsupportedPacketType;
  dcid_len ← readByte;
  _ ← guard_not (byteZ dcid_len >? 20) InvalidConnectionIdLength;
  _ ← alloc (byteZ dcid_len);
  errdefer (free_len (byteZ dcid_len)) (
    dcid ← readNoEof (byteZ dcid_len);
    scid_len ← readByte;
    _ ← guard_not (byteZ scid_len >? 20) InvalidConnectionIdLength;
    _ ← alloc (byteZ scid_len);
    errdefer (free_len (byteZ scid_len)) (
      scid ← readNoEof (byteZ scid_len);
      token ← (if bool_decide (packet_type = initial) then
                 '(token_len, _) ← decodeVarInt;
                 if token_len =? 0 then mret [] else readOwnedBytes token_len
               else mret []);
      errdefer (free token) (
        '(length, _) ← decodeVarInt;
        _ ← guard_not (length <? pn_len) InvalidLength;
        truncated ← decodePacketNumber pn_len;
        packet_number ← lift (full_packet_number expected_packet_number truncated pn_len);
        mret (Long version dcid scid packet_type token packet_number (length - pn_len))))).

Definition deinitLongHeader (header : LongHeader) (r : FixedReader) : FixedReader :=
  free (token header) (free (scid header) (free (dcid header) r)).

(** *** Packets *)

Record LongPacket : Type := LongPkt { header : LongHeader; payload : list byte }.
Record ShortPacket : Type := ShortPkt { s_header : ShortHeader; s_payload : list byte }.

Definition with_payload_length (h : LongHeader) (n : Z) : LongHeader :=
  Long (version h) (dcid h) (scid h) (packet_type h) (token h) (packet_number h) n.

Definition encodeLongPacketWithPacketNumberEncoding (undef : list byte) (packet : LongPacket) (enc : PacketNumberEncoding)
    : M FixedWriter unit :=
  _ ← encodeLongHeaderWithPacketNumberEncoding undef (with_payload_length (header packet) (zlen (payload packet))) enc;
  writeAll (payload packet).

Definition encodeLongPacket (undef : list byte) (packet : LongPacket) : M FixedWriter unit :=
  _ ← encodeLongHeader undef (with_payload_length (header packet) (zlen (payload packet)));
  writeAll (payload packet).

(** On a fresh reader over the datagram; the second component is [reader_fbs.pos]. *)
Definition parseLongPacketInternal (expected_packet_number : option Z) : M FixedReader (LongPacket * Z) :=
  header ← parseLongHeaderInternal expected_packet_number;
  errdefer (deinitLongHeader header) (
    left ← remainingLen;
    _ ← guard_not (payload_length header >? left) InvalidLength;
    payload ← (if payload_length header =? 0 then mret [] else readOwnedBytes (payload_length header));
    pos ← getPos;
    mret (LongPkt header payload, pos)).

Definition deinitLongPacket (packet : LongPacket) (r : FixedReader) : FixedReader :=
  free (payload packet) (deinitLongHeader (header packet) r).

Definition encodeShortHeaderWithPacketNumberEncoding (undef : list byte) (header : ShortHeader) (enc : PacketNumberEncoding)
    : M FixedWriter unit :=
  _ ← guard_not (zlen (s_dcid header) >? 20) InvalidConnectionIdLength;
  _ ← lift (validatePacketNumberEncodingMatches (s_packet_number header) enc);
  low ← legal (intCast 255 (pn_len enc - 1));
  let b := Z.lor 0 64 in
  let b := if spin_bit header then Z.lor b 32 else b in
  let b := if key_phase header then Z.lor b 4 else b in
  first_byte ← legal (u8 (Z.lor b low));
  _ ← writeByte first_byte;
  _ ← writeAll (s_dcid header);
  encodePacketNumber undef (truncated_packet_number enc) (pn_len enc).

Definition encodeShortHeader (undef : list byte) (header : ShortHeader) : M FixedWriter unit :=
  len ← lift (packetNumberLen (s_packet_number header));
  t ← legal (intCast U32_MAX (s_packet_number header));
  encodeShortHeaderWithPacketNumberEncoding undef header (PnEncoding len t).

Definition parseShortHeaderInternal (dcid_len : Z) (expected_packet_number : option Z) : M FixedReader ShortHeader :=
  first ← readByte;
  let first_byte := byteZ first in
  _ ← guard_not (negb (Z.land first_byte 128 =? 0)) InvalidHeaderForm;
  _ ← guard_not (Z.land first_byte 64 =? 0) InvalidFixedBit;
  _ ← guard_not (negb (Z.land first_byte 24 =? 0)) InvalidReservedBits;
  let spin_bit := negb (Z.land first_byte 32 =? 0) in
  let key_phase := negb (Z.land first_byte 4 =? 0) in
  let pn_len := Z.land first_byte 3 + 1 in
  _ ← guard_not (dcid_len >? 20) InvalidConnectionIdLength;
  _ ← alloc dcid_len;
  errdefer (free_len dcid_len) (
    dcid ← readNoEof dcid_len;
    truncated ← decodePacketNumber pn_len;
    packet_number ← lift (full_packet_number expected_packet_number truncated pn_len);
    mret (Short dcid spin_bit key_phase packet_number)).

Definition deinitShortHeader (header : ShortHeader) (r : FixedReader) : FixedReader := free (s_dcid header) r.

Definition encodeShortPacketWithPacketNumberEncoding (undef : list byte) (packet : ShortPacket) (enc : PacketNumberEncoding)
    : M FixedWriter unit :=
  _ ← encodeShortHeaderWithPacketNumberEncoding undef (s_header packet) enc;
  writeAll (s_payload packet).

Definition encodeShortPacket (undef : list byte) (packet : ShortPacket) : M FixedWriter unit :=
  _ ← encodeShortHeader undef (s_header packet); writeAll (s_payload packet).

Definition parseShortPacketInternal (dcid_len : Z) (expected_packet_number : option Z) : M FixedReader ShortPacket :=
  header ← parseShortHeaderInternal dcid_len expected_packet_number;
  errdefer (deinitShortHeader header) (
    payload_len ← remainingLen;
    payload ← (if payload_len =? 0 then mret [] else readOwnedBytes payload_len);
    mret (ShortPkt header payload)).

Definition deinitShortPacket (packet : ShortPacket) (r : FixedReader) : FixedReader :=
  free (s_payload packet) (deinitShortHeader (s_header packet) r).

(** ** Round trips *)

Lemma readInt_be n : forall a t, 0 <= t ->
  fold_left (fun a b => a * 256 + byteZ b) (be n t) a = a * 256 ^ Z.of_nat n + t mod 256 ^ Z.of_nat n.
Proof.
  induction n as [|n IH]; intros a t Ht; cbn [be fold_left].
  - rewrite Z.pow_0_r, Z.mod_1_r. lia.
  - assert (0 < 256 ^ Z.of_nat n) by (apply Z.pow_pos_nonneg; lia).
    rewrite IH, byteZ_Zbyte by (done || by apply Z.mod_pos_bound).
    rewrite Nat2Z.inj_succ, Z.pow_succ_r, (Z.mul_comm 256 (256 ^ _)), (Z.rem_mul_r t) by lia. lia.
Qed.

Lemma readInt32_writeInt32 v : 0 <= v <= U32_MAX -> readInt32 (writeInt32 v) = v.
Proof.
  intros Hv. unfold readInt32, writeInt32, U32_MAX in *. rewrite readInt_be by lia. cbn [Z.mul Z.add].
  apply Z.mod_small. change (256 ^ Z.of_nat 4) with 4294967296. lia.
Qed.

Lemma type_bits_range v t : 0 <= longHeaderPacketTypeBits v t <= 3.
Proof. unfold longHeaderPacketTypeBits. destruct (v =? v2), t; cbn; lia. Qed.

Lemma type_bits_roundtrip v t : longHeaderPacketTypeFromBits v (longHeaderPacketTypeBits v t) = t.
Proof. unfold longHeaderPacketTypeFromBits, longHeaderPacketTypeBits. by destruct (v =? v2), t. Qed.

(** What the parser reads off the first byte of a long header. *)
Lemma long_first_byte bits low : 0 <= bits <= 3 -> 0 <= low <= 3 ->
  let b := 192 + 16 * bits + low in
  Z.lor (Z.lor (Z.lor (Z.lor 0 128) 64) (Z.shiftl bits 4)) low = b /\ (Z.land b 128 =? 0) = false /\
  (Z.land b 64 =? 0) = false /\ negb (Z.land b 12 =? 0) = false /\ Z.land b 3 = low /\ Z.land (Z.shiftr b 4) 3 = bits.
Proof.
  intros Hb Hl. assert (bits = 0 \/ bits = 1 \/ bits = 2 \/ bits = 3) as [->|[->|[->| ->]]] by lia;
    assert (low = 0 \/ low = 1 \/ low = 2 \/ low = 3) as [->|[->|[->| ->]]] by lia; by vm_compute.
Qed.

(** A packet number and the encoding chosen for it. *)
Record number_ok (pn : Z) (enc : PacketNumberEncoding) : Prop := {
  no_len : 1 <= pn_len enc <= 4;
  no_pn : 0 <= pn <= max_packet_number;
  no_trunc : truncated_packet_number enc = pn mod window (pn_len enc);
}.

(** A long header that can be sent. *)
Record long_ok (h : LongHeader) (enc : PacketNumberEncoding) : Prop := {
  lo_dcid : zlen (dcid h) <= 20;
  lo_scid : zlen (scid h) <= 20;
  lo_version : 0 < version h <= U32_MAX;
  lo_type : packet_type h <> retry;
  lo_token : packet_type h <> initial -> token h = [];
  lo_token_len : zlen (token h) <= max_quic_varint;
  lo_number : number_ok (packet_number h) enc;
  lo_length : 0 <= payload_length h /\ payload_length h + pn_len enc <= max_quic_varint;
}.

Definition token_bytes (h : LongHeader) : list byte :=
  if bool_decide (packet_type h = initial) then varint_bytes (zlen (token h)) ++ token h else [].

Definition long_bytes (h : LongHeader) (enc : PacketNumberEncoding) : list byte :=
  Zbyte (192 + 16 * longHeaderPacketTypeBits (version h) (packet_type h) + (pn_len enc - 1)) ::
  writeInt32 (version h) ++ Zbyte (zlen (dcid h)) :: dcid h ++ Zbyte (zlen (scid h)) :: scid h ++
  token_bytes h ++ varint_bytes (payload_length h + pn_len enc) ++
  be (Z.to_nat (pn_len enc)) (truncated_packet_number enc).

Lemma matches_ok pn enc : number_ok pn enc -> validatePacketNumberEncodingMatches pn enc = inr tt.
Proof.
  intros [Hl Hp Ht]. unfold validatePacketNumberEncodingMatches, validatePacketNumberEncoding.
  assert (0 < window (pn_len enc)) by (destruct (window_cases _ Hl) as [|[|[|]]]; lia).
  pose proof (Z.mod_pos_bound pn (window (pn_len enc))).
  rewrite pn_mask_land by done. unfold pn_mask. rewrite shiftl_window, Ht, Z.eqb_refl by done.
  destruct (Z.gtb_spec pn max_packet_number), (Z.eqb_spec (pn_len enc) 0), (Z.gtb_spec (pn_len enc) 4),
    (Z.gtb_spec (pn mod window (pn_len enc)) (window (pn_len enc) - 1)); try lia; done.
Qed.

Lemma emits_token h : zlen (token h) <= max_quic_varint ->
  emits (if bool_decide (packet_type h = initial) then _ ← encodeVarInt (zlen (token h)); writeAll (token h) else mret tt)
    (token_bytes h).
Proof.
  intros Ht. pose proof (zlen_nonneg (token h)). unfold token_bytes. case_bool_decide; [|apply emits_nil].
  apply emits_bind; [apply emits_varint; lia|apply emits_all].
Qed.

Lemma cid_len_ok n : n <= 20 -> validateLongHeaderCidLen n = inr tt.
Proof. intros. unfold validateLongHeaderCidLen. by rewrite gtb_false. Qed.

Lemma length_varint_ok n : n <= max_quic_varint -> validateLengthVarInt n = inr tt.
Proof. intros. unfold validateLengthVarInt. by rewrite gtb_false. Qed.

Lemma version_ok v : 0 < v -> validateVersionedPacketVersion v = inr tt.
Proof. intros. unfold validateVersionedPacketVersion. by destruct (Z.eqb_spec v 0); [lia|]. Qed.

Lemma low_bits_ok len : 1 <= len <= 4 -> intCast 255 (len - 1) = Some (len - 1).
Proof. intros. unfold intCast. by destruct (Z.leb_spec 0 (len - 1)), (Z.leb_spec (len - 1) 255); try lia. Qed.

Lemma number_bound pn enc : number_ok pn enc -> 0 <= truncated_packet_number enc < window (pn_len enc).
Proof.
  intros [Hl Hp ->]. apply Z.mod_pos_bound. destruct (window_cases _ Hl) as [|[|[|]]]; lia.
Qed.

Lemma emits_long undef h enc : zlen undef = 4 -> long_ok h enc ->
  emits (encodeLongHeaderWithPacketNumberEncoding undef h enc) (long_bytes h enc).
Proof.
  intros Hu [Hd Hs Hv Ht Htok Htl Hno [Hp0 Hp1]]. pose proof (no_len _ _ Hno) as Hlen.
  pose proof (zlen_nonneg (dcid h)). pose proof (zlen_nonneg (scid h)). pose proof (number_bound _ _ Hno).
  pose proof (type_bits_range (version h) (packet_type h)) as Hbits.
  destruct (long_first_byte _ (pn_len enc - 1) Hbits ltac:(lia)) as (E & _).
  unfold encodeLongHeaderWithPacketNumberEncoding.
  eapply emits_lift; [by apply cid_len_ok|]. eapply emits_lift; [by apply cid_len_ok|].
  eapply emits_lift; [apply version_ok; lia|]. apply emits_guard; [by apply bool_decide_eq_false_2|].
  apply emits_guard. { case_bool_decide as Hi; [|done]. by rewrite (Htok Hi). }
  eapply emits_lift; [by apply matches_ok|]. eapply emits_orelse.
  { unfold add64, U64_MAX, max_quic_varint in *. by destruct (Z.leb_spec (payload_length h + pn_len enc) 18446744073709551615); [|lia]. }
  eapply emits_lift; [by apply length_varint_ok|].
  assert (forall m bs, emits m bs -> emits (_ ← (if bool_decide (packet_type h = initial)
    then lift (validateLengthVarInt (zlen (token h))) else mret tt); m) bs) as Hskip.
  { intros m bs Hm. rewrite length_varint_ok by done. by case_bool_decide. }
  apply Hskip. eapply emits_legal; [by apply low_bits_ok|]. cbv zeta. rewrite E. eapply emits_legal; [apply u8_ok; lia|].
  apply emits_cons, emits_bind; [apply emits_all|]. eapply emits_legal; [apply u8_ok; lia|].
  apply emits_cons, emits_bind; [apply emits_all|]. eapply emits_legal; [apply u8_ok; lia|].
  apply emits_cons, emits_bind; [apply emits_all|]. apply emits_bind; [by apply emits_token|].
  apply emits_bind; [apply emits_varint; lia|]. apply emits_pn; [done|done|lia].
Qed.

(** *** Parsing what was written *)

(** What the receiver sees of a packet number: the number itself if it expects
    a close one, the truncated number if it expects none. *)
Definition seen_number (expected : option Z) (enc : PacketNumberEncoding) (pn : Z) : Prop :=
  full_packet_number expected (truncated_packet_number enc) (pn_len enc) = inr pn.

Definition with_packet_number (h : LongHeader) (pn : Z) : LongHeader :=
  Long (version h) (dcid h) (scid h) (packet_type h) (token h) pn (payload_length h).

Definition owned (h : LongHeader) : Z := allocs (zlen (dcid h)) + (allocs (zlen (scid h)) + allocs (zlen (token h))).

Lemma parses_token h : zlen (token h) <= max_quic_varint -> (packet_type h <> initial -> token h = []) ->
  parses (if bool_decide (packet_type h = initial) then
            '(token_len, _) ← decodeVarInt; if token_len =? 0 then mret [] else readOwnedBytes token_len
          else mret []) (token_bytes h) (token h) (allocs (zlen (token h))).
Proof.
  intros Hl Hi. pose proof (zlen_nonneg (token h)). unfold token_bytes. case_bool_decide as E.
  - eapply parses_app; [apply parses_varint; lia|]. cbn beta iota. destruct (Z.eqb_spec (zlen (token h)) 0) as [Hz|].
    + apply zlen_nil_inv in Hz. rewrite Hz. apply parses_ret.
    + by apply parses_owned.
  - rewrite (Hi E). apply parses_ret.
Qed.

Lemma parses_long expected h enc pn : long_ok h enc -> seen_number expected enc pn ->
  parses (parseLongHeaderInternal expected) (long_bytes h enc) (with_packet_number h pn) (owned h).
Proof.
  intros [Hd Hs Hv Ht Htok Htl Hno [Hp0 Hp1]] Hseen. pose proof (no_len _ _ Hno) as Hlen.
  pose proof (zlen_nonneg (dcid h)). pose proof (zlen_nonneg (scid h)). pose proof (number_bound _ _ Hno).
  pose proof (type_bits_range (version h) (packet_type h)) as Hbits.
  destruct (long_first_byte _ (pn_len enc - 1) Hbits ltac:(lia)) as (_ & F1 & F2 & F3 & F4 & F5).
  unfold parseLongHeaderInternal, long_bytes. apply parses_cons. cbv zeta.
  rewrite byteZ_Zbyte, F4, F5, Z.sub_add by lia.
  apply parses_guard; [done|]. apply parses_guard; [done|]. apply parses_guard; [done|].
  eapply parses_app; [by apply parses_no_eof|]. rewrite readInt32_writeInt32, type_bits_roundtrip by lia.
  eapply parses_lift; [apply version_ok; lia|]. apply parses_guard; [by apply bool_decide_eq_false_2|].
  apply parses_cons. rewrite byteZ_Zbyte by lia. apply parses_guard; [by apply gtb_false|].
  apply parses_alloc, parses_errdefer. eapply parses_app; [by apply parses_no_eof|].
  apply parses_cons. rewrite byteZ_Zbyte by lia. apply parses_guard; [by apply gtb_false|].
  apply parses_alloc, parses_errdefer. eapply parses_app; [by apply parses_no_eof|].
  rewrite <- (Z.add_0_r (allocs (zlen (token h)))). eapply parses_bind; [by apply parses_token|].
  apply parses_errdefer. eapply parses_app; [apply parses_varint; lia|]. cbn beta iota.
  apply parses_guard. { destruct (Z.ltb_spec (payload_length h + pn_len enc) (pn_len enc)); [lia|done]. }
  rewrite <- (app_nil_r (be _ _)). eapply parses_app; [by apply parses_pn|].
  eapply parses_lift; [exact Hseen|]. rewrite Z.add_simpl_r. apply parses_ret.
Qed.

(** C35: long-header packets round trip. A packet whose header can be sent is
    written as one byte string, or refused because it does not fit. Parsing a
    datagram that starts with that string, with any bytes behind it and an
    expected packet number at most half a window away, gives back the packet,
    field for field and byte for byte, consumes exactly that string, and
    [deinitLongPacket] then releases every buffer the parser allocated. *)
Theorem long_packet_roundtrip (undef : list byte) (pkt : LongPacket) (enc : PacketNumberEncoding) (expected : Z)
    (Hundef : zlen undef = 4)
    (Hok : long_ok (with_payload_length (header pkt) (zlen (payload pkt))) enc)
    (Hexp : 0 <= expected <= max_packet_number + 1)
    (Hnear : expected - window (pn_len enc) / 2 < packet_number (header pkt) <= expected + window (pn_len enc) / 2) :
  exists bs, emits (encodeLongPacketWithPacketNumberEncoding undef pkt enc) bs /\ forall trailing l,
    wp (parseLongPacketInternal (Some expected) (at_start (bs ++ trailing) l)) (fun '(r, s) => exists pkt',
      r = inr (pkt', zlen bs) /\ remaining s = trailing /\ live (deinitLongPacket pkt' s) = l /\
      payload pkt' = payload pkt /\
      header pkt' = with_payload_length (header pkt) (zlen (payload pkt))).
Proof.
  set (h := with_payload_length (header pkt) (zlen (payload pkt))) in *.
  exists (long_bytes h enc ++ payload pkt). split.
  { apply emits_bind; [by apply emits_long|apply emits_all]. }
  intros trailing l. rewrite <- app_assoc. set (d := long_bytes h enc ++ payload pkt ++ trailing).
  destruct (at_start_ok d l) as (Hwf & Hrem & Han).
  assert (seen_number (Some expected) enc (packet_number h)) as Hseen.
  { unfold seen_number, full_packet_number. pose proof (lo_number _ _ Hok) as [Hl Hp ->]. by apply reconstruct_exact. }
  pose proof (parses_long (Some expected) h enc _ Hok Hseen (at_start d l) (payload pkt ++ trailing) Hwf Hrem Han) as E1.
  destruct (advance_wf _ _ _ (owned h) Hwf Hrem) as [Hwf1 Hrem1].
  unfold parseLongPacketInternal. rewrite (bind_ok _ _ _ _ _ E1). set (r1 := advance _ _ _) in *.
  unfold errdefer. rewrite (bind_ok _ _ _ _ _ (remainingLen_ok r1 Hwf1)), Hrem1, zlen_app.
  pose proof (zlen_nonneg trailing). cbn [payload_length with_packet_number with_payload_length h].
  rewrite gtb_false by lia. rewrite (bind_ok (guard_not false InvalidLength) _ r1 tt r1) by done.
  rewrite (bind_ok _ _ _ _ _ (parses_optional (payload pkt) (zlen (payload pkt)) eq_refl r1 trailing Hwf1 Hrem1 Han)).
  rewrite (bind_ok getPos _ _ _ _ eq_refl). apply wp_ret. eexists. split_and!.
  - unfold r1. cbn [advance rpos at_start]. rewrite zlen_app. reflexivity.
  - by destruct (advance_wf _ _ _ (allocs (zlen (payload pkt))) Hwf1 Hrem1).
  - unfold deinitLongPacket, deinitLongHeader. rewrite !free_live. unfold r1, owned.
    cbn [live advance at_start payload header dcid scid token with_packet_number with_payload_length h]. lia.
  - done.
  - done.
Qed.

(** *** Short headers *)

Lemma short_first_byte (spin key : bool) low : 0 <= low <= 3 ->
  let b := 64 + (if spin then 32 else 0) + (if key then 4 else 0) + low in
  (let b := Z.lor 0 64 in let b := if spin then Z.lor b 32 else b in let b := if key then Z.lor b 4 else b in Z.lor b low) = b /\
  negb (Z.land b 128 =? 0) = false /\ (Z.land b 64 =? 0) = false /\ negb (Z.land b 24 =? 0) = false /\
  negb (Z.land b 32 =? 0) = spin /\ negb (Z.land b 4 =? 0) = key /\ Z.land b 3 = low /\ 0 <= b < 256.
Proof.
  intros Hl. assert (low = 0 \/ low = 1 \/ low = 2 \/ low = 3) as [->|[->|[->| ->]]] by lia;
    destruct spin, key; by vm_compute.
Qed.

Definition short_bytes (h : ShortHeader) (enc : PacketNumberEncoding) : list byte :=
  Zbyte (64 + (if spin_bit h then 32 else 0) + (if key_phase h then 4 else 0) + (pn_len enc - 1)) ::
  s_dcid h ++ be (Z.to_nat (pn_len enc)) (truncated_packet_number enc).

Lemma emits_short undef h enc : zlen undef = 4 -> zlen (s_dcid h) <= 20 -> number_ok (s_packet_number h) enc ->
  emits (encodeShortHeaderWithPacketNumberEncoding undef h enc) (short_bytes h enc).
Proof.
  intros Hu Hd Hno. pose proof (no_len _ _ Hno). pose proof (number_bound _ _ Hno).
  destruct (short_first_byte (spin_bit h) (key_phase h) (pn_len enc - 1) ltac:(lia)) as (E & _ & _ & _ & _ & _ & _ & Hr).
  unfold encodeShortHeaderWithPacketNumberEncoding. apply emits_guard; [by apply gtb_false|].
  eapply emits_lift; [by apply matches_ok|]. eapply emits_legal; [by apply low_bits_ok|]. cbv zeta in *. rewrite E.
  eapply emits_legal; [by apply u8_ok|]. apply emits_cons, emits_bind; [apply emits_all|]. apply emits_pn; [done|done|lia].
Qed.

Lemma parses_short expected h enc pn : zlen (s_dcid h) <= 20 -> number_ok (s_packet_number h) enc ->
  seen_number expected enc pn ->
  parses (parseShortHeaderInternal (zlen (s_dcid h)) expected) (short_bytes h enc)
    (Short (s_dcid h) (spin_bit h) (key_phase h) pn) (allocs (zlen (s_dcid h))).
Proof.
  intros Hd Hno Hseen. pose proof (no_len _ _ Hno). pose proof (number_bound _ _ Hno).
  destruct (short_first_byte (spin_bit h) (key_phase h) (pn_len enc - 1) ltac:(lia)) as (_ & F1 & F2 & F3 & F4 & F5 & F6 & Hr).
  unfold parseShortHeaderInternal, short_bytes. apply parses_cons. cbv zeta in *.
  rewrite byteZ_Zbyte, F4, F5, F6, Z.sub_add by done.
  apply parses_guard; [done|]. apply parses_guard; [done|]. apply parses_guard; [done|].
  apply parses_guard; [by apply gtb_false|]. rewrite <- (Z.add_0_r (allocs _)).
  apply parses_alloc, parses_errdefer. eapply parses_app; [by apply parses_no_eof|].
  rewrite <- (app_nil_r (be _ _)). eapply parses_app; [by apply parses_pn|].
  eapply parses_lift; [exact Hseen|]. apply parses_ret.
Qed.

(** short-header packets round trip. A packet with a connection id of at
    most 20 bytes and a number with a valid encoding is written as one byte
    string, or refused because it does not fit; parsing that datagram with the
    same connection-id length and an expected number at most half a window away
    gives back the spin bit, the key phase, the connection id, the full packet
    number and the payload, and [deinitShortPacket] releases every buffer. *)
Theorem short_packet_roundtrip (undef : list byte) (pkt : ShortPacket) (enc : PacketNumberEncoding) (expected : Z)
    (Hundef : zlen undef = 4) (Hcid : zlen (s_dcid (s_header pkt)) <= 20)
    (Hnum : number_ok (s_packet_number (s_header pkt)) enc) (Hexp : 0 <= expected <= max_packet_number + 1)
    (Hnear : expected - window (pn_len enc) / 2 < s_packet_number (s_header pkt) <= expected + window (pn_len enc) / 2) :
  exists bs, emits (encodeShortPacketWithPacketNumberEncoding undef pkt enc) bs /\ forall l,
    wp (parseShortPacketInternal (zlen (s_dcid (s_header pkt))) (Some expected) (at_start bs l))
      (fun '(r, s) => r = inr pkt /\ remaining s = [] /\ live (deinitShortPacket pkt s) = l).
Proof.
  destruct pkt as [h pl]. cbn [s_header s_payload] in *.
  exists (short_bytes h enc ++ pl). split.
  { apply emits_bind; [by apply emits_short|apply emits_all]. }
  intros l. set (d := short_bytes h enc ++ pl). destruct (at_start_ok d l) as (Hwf & Hrem & Han).
  assert (seen_number (Some expected) enc (s_packet_number h)) as Hseen.
  { unfold seen_number, full_packet_number. pose proof Hnum as [Hl Hp ->]. by apply reconstruct_exact. }
  pose proof (parses_short (Some expected) h enc _ Hcid Hnum Hseen (at_start d l) pl Hwf Hrem Han) as E1.
  destruct (advance_wf _ _ _ (allocs (zlen (s_dcid h))) Hwf Hrem) as [Hwf1 Hrem1].
  unfold parseShortPacketInternal. rewrite (bind_ok _ _ _ _ _ E1). set (r1 := advance _ _ _) in *.
  unfold errdefer. rewrite (bind_ok _ _ _ _ _ (remainingLen_ok r1 Hwf1)), Hrem1.
  rewrite <- (app_nil_r pl) in Hrem1.
  rewrite (bind_ok _ _ _ _ _ (parses_optional pl (zlen pl) eq_refl r1 [] Hwf1 Hrem1 Han)). apply wp_ret.
  split_and!; [by destruct h|by destruct (advance_wf _ _ _ (allocs (zlen pl)) Hwf1 Hrem1)|].
  unfold deinitShortPacket, deinitShortHeader. rewrite !free_live. unfold r1.
  cbn [live advance at_start s_payload s_header]. lia.
Qed.

(** ** Parsing arbitrary bytes *)

Lemma safe_pn_loop n : forall v, safe (decode_packet_number n v) 0 (fun _ k => k = 0).
Proof.
  induction n as [|n IH]; intros v; cbn [decode_packet_number]; [by apply safe_ret|].
  eapply safe_bind0; [apply safe_any, safe_byte|]. intros b _. apply IH.
Qed.

Lemma safe_long_header expected :
  safe (parseLongHeaderInternal expected) 0 (fun h k => k = owned h /\ 0 <= payload_length h).
Proof.
  unfold parseLongHeaderInternal. eapply safe_bind0; [apply safe_any, safe_byte|]. intros first _. cbv zeta.
  do 3 (eapply safe_bind0; [apply safe_guard|intros _ _]).
  eapply safe_bind0; [apply safe_no_eof; lia|]. intros vb _. eapply safe_bind0; [apply safe_lift|]. intros _ _.
  eapply safe_bind0; [apply safe_guard|intros _ _]. eapply safe_bind0; [apply safe_any, safe_byte|]. intros dl _.
  eapply safe_bind0; [apply safe_guard|intros _ _]. pose proof (byteZ_range dl) as Hdl.
  eapply (safe_owning (alloc (byteZ dl)) (fun _ => free_len (byteZ dl)) _ (fun _ => allocs (byteZ dl)));
    [apply safe_alloc|intros; apply releases_len|intros _].
  eapply safe_bind0; [apply safe_no_eof; lia|]. intros d Hd. cbn beta in Hd. eapply safe_bind0; [apply safe_any, safe_byte|]. intros sl _.
  eapply safe_bind0; [apply safe_guard|intros _ _]. pose proof (byteZ_range sl) as Hsl.
  eapply (safe_owning (alloc (byteZ sl)) (fun _ => free_len (byteZ sl)) _ (fun _ => allocs (byteZ sl)));
    [apply safe_alloc|intros; apply releases_len|intros _].
  eapply safe_bind0; [apply safe_no_eof; lia|]. intros sc Hsc. cbn beta in Hsc.
  eapply (safe_owning _ free _ (fun tok => allocs (zlen tok))); [|intros; apply releases_len|intros tok].
  { case_bool_decide; [|by apply safe_ret]. eapply safe_bind0; [apply safe_varint|]. intros [n m] Hn. cbn in Hn.
    destruct (n =? 0); [by apply safe_ret|apply safe_owned; lia]. }
  eapply safe_bind0; [apply safe_varint|]. intros [len m] Hlen. cbn in Hlen. eapply safe_bind0; [apply safe_guard|]. intros u Hg. cbn beta in Hg. clear u.
  eapply safe_bind0; [apply safe_any, safe_pn_loop|]. intros t _. eapply safe_bind0; [apply safe_lift|]. intros pn _.
  apply safe_ret. unfold owned. cbn. rewrite Hd, Hsc. split; [lia|].
  destruct (Z.ltb_spec len (Z.land (byteZ first) 3 + 1)); [done|lia].
Qed.

Lemma releases_long h : releases (deinitLongHeader h) (owned h).
Proof.
  pose proof (releases_comp _ _ _ _ (releases_len (zlen (token h)))
    (releases_comp _ _ _ _ (releases_len (zlen (scid h))) (releases_len (zlen (dcid h))))) as Hr.
  unfold owned. replace (allocs (zlen (dcid h)) + (allocs (zlen (scid h)) + allocs (zlen (token h)))) with
    (allocs (zlen (token h)) + (allocs (zlen (scid h)) + allocs (zlen (dcid h)))) by lia. exact Hr.
Qed.

Lemma safe_long_packet expected : safe (parseLongPacketInternal expected) 0
  (fun '(pkt, _) k => k = owned (header pkt) + allocs (zlen (payload pkt))).
Proof.
  apply (safe_owning_P _ deinitLongHeader _ owned (fun h => 0 <= payload_length h));
    [apply safe_long_header|apply releases_long|]. intros h Hpl.
  eapply safe_bind0; [apply safe_remaining|]. intros left _. eapply safe_bind0; [apply safe_guard|]. intros u _.
  eapply safe_bind; [by apply safe_optional|]. intros pl k ->.
  eapply safe_bind; [apply safe_pos|]. intros pos k ->. apply safe_ret. cbn [header payload]. lia.
Qed.

Lemma safe_short_packet dcid_len expected : 0 <= dcid_len -> safe (parseShortPacketInternal dcid_len expected) 0
  (fun pkt k => k = allocs (zlen (s_dcid (s_header pkt))) + allocs (zlen (s_payload pkt))).
Proof.
  intros Hdl. apply (safe_owning _ deinitShortHeader _ (fun h => allocs (zlen (s_dcid h)))); [|intros; apply releases_len|].
  - unfold parseShortHeaderInternal. eapply safe_bind0; [apply safe_any, safe_byte|]. intros first _. cbv zeta.
    do 4 (eapply safe_bind0; [apply safe_guard|intros _ _]).
    eapply (safe_owning (alloc dcid_len) (fun _ => free_len dcid_len) _ (fun _ => allocs dcid_len));
      [apply safe_alloc|intros; apply releases_len|intros _].
    eapply safe_bind0; [by apply safe_no_eof|]. intros d Hd. cbn beta in Hd.
    eapply safe_bind0; [apply safe_any, safe_pn_loop|]. intros t _. eapply safe_bind0; [apply safe_lift|]. intros pn _.
    apply safe_ret. cbn. rewrite Hd. lia.
  - intros h. eapply safe_bind0; [apply safe_remaining|]. intros left Hleft. cbn beta in Hleft.
    eapply safe_bind; [by apply safe_optional|]. intros pl k ->. apply safe_ret. cbn. lia.
Qed.

(** C36: parsing is safe on every input. Whatever the datagram, the expected
    number and the allocator's answers are, the packet parsers do nothing
    illegal, never read past the datagram, release every buffer they allocated
    when they fail, and on success [deinit] releases exactly the buffers they
    allocated. *)
Theorem packet_parse_safe (d : list byte) (allocator : list bool) (l dcid_len : Z) (expected : option Z)
    (Hcid : 0 <= dcid_len) :
  let r0 := Reader d 0 allocator l in
  wp (parseLongPacketInternal expected r0) (fun '(res, r) => 0 <= rpos r <= zlen d /\
    match res with inl _ => live r = l | inr (pkt, _) => live (deinitLongPacket pkt r) = l end) /\
  wp (parseShortPacketInternal dcid_len expected r0) (fun '(res, r) => 0 <= rpos r <= zlen d /\
    match res with inl _ => live r = l | inr pkt => live (deinitShortPacket pkt r) = l end).
Proof.
  cbv zeta. assert (wf_reader (Reader d 0 allocator l)) as Hwf by (unfold wf_reader; cbn; pose proof (zlen_nonneg d); lia).
  split.
  - eapply wp_mono; [by apply safe_long_packet|]. unfold wf_reader. cbn. intros [[e|[pkt n]] r] (Hr & Hd & _ & Hl); rewrite Hd in Hr.
    + split; [done|lia].
    + split; [done|]. unfold deinitLongPacket. rewrite free_live. destruct (releases_long (header pkt) r) as (_ & _ & ->). lia.
  - eapply wp_mono; [by apply safe_short_packet|]. unfold wf_reader. cbn. intros [[e|pkt] r] (Hr & Hd & _ & Hl); rewrite Hd in Hr.
    + split; [done|lia].
    + split; [done|]. unfold deinitShortPacket, deinitShortHeader. rewrite !free_live. lia.
Qed.

(** ** Concrete packets *)

Definition sample_header : LongHeader := Long v1 [x83; x94] [] initial [xaa] 2 0.

Lemma long_packet_roundtrip_witness :
  let pkt := LongPkt sample_header [x01; x02; x03] in let enc := PnEncoding 1 2 in
  exists bs, emits (encodeLongPacketWithPacketNumberEncoding [x00; x00; x00; x00] pkt enc) bs /\ forall trailing l,
    wp (parseLongPacketInternal (Some 0) (at_start (bs ++ trailing) l)) (fun '(r, s) => exists pkt',
      r = inr (pkt', zlen bs) /\ remaining s = trailing /\ live (deinitLongPacket pkt' s) = l /\
      payload pkt' = payload pkt /\
      header pkt' = with_payload_length (header pkt) (zlen (payload pkt))).
Proof.
  cbv zeta.
  apply (long_packet_roundtrip [x00; x00; x00; x00] (LongPkt sample_header [x01; x02; x03]) (PnEncoding 1 2) 0).
  - reflexivity.
  - repeat constructor; vm_compute; congruence.
  - unfold max_packet_number. lia.
  - vm_compute. split; congruence.
Defined.

Lemma short_packet_roundtrip_witness :
  let pkt := ShortPkt (Short [x83; x94] true false 700) [x01; x02; x03] in let enc := PnEncoding 1 188 in
  exists bs, emits (encodeShortPacketWithPacketNumberEncoding [x00; x00; x00; x00] pkt enc) bs /\ forall l,
    wp (parseShortPacketInternal 2 (Some 650) (at_start bs l))
      (fun '(r, s) => r = inr pkt /\ remaining s = [] /\ live (deinitShortPacket pkt s) = l).
Proof.
  cbv zeta.
  apply (short_packet_roundtrip [x00; x00; x00; x00] (ShortPkt (Short [x83; x94] true false 700) [x01; x02; x03]) (PnEncoding 1 188) 650).
  - reflexivity.
  - vm_compute. congruence.
  - repeat constructor; vm_compute; congruence.
  - unfold max_packet_number. lia.
  - vm_compute. split; congruence.
Defined.

Lemma packet_parse_safe_witness :
  let r0 := Reader [xc3; x00] 0 [true; false] 5 in
  wp (parseLongPacketInternal None r0) (fun '(res, r) => 0 <= rpos r <= 2 /\
    match res with inl _ => live r = 5 | inr (pkt, _) => live (deinitLongPacket pkt r) = 5 end) /\
  wp (parseShortPacketInternal 4 None r0) (fun '(res, r) => 0 <= rpos r <= 2 /\
    match res with inl _ => live r = 5 | inr pkt => live (deinitShortPacket pkt r) = 5 end).
Proof. apply (packet_parse_safe [xc3; x00] [true; false] 5 4 None). lia. Defined.

End Headers.
