(* ===== verification/ControlPackets.v ===== *)
(** * Version Negotiation, Retry and stateless reset (src/quic/packet.zig)

    The packets that are parsed from a complete datagram: their codecs, the
    round trips, and the safety of parsing arbitrary bytes. *)
From S2P Require Import Prelude Codec CodecSafe Packet Headers.
Import Codec Safe Packet Headers.
Local Open Scope Z_scope.

Module ControlPackets.

(** ** Codecs *)

Inductive HeaderForm : Type := long_form | short_form.

Definition parseHeaderForm (first_byte : byte) : HeaderForm :=
  if negb (Z.land (byteZ first_byte) 128 =? 0) then long_form else short_form.

Definition isReservedVersion (version : Z) : bool := Z.land version 252645135 =? 168430090.

Record VersionNegotiationPacket : Type := MkVn { vn_dcid : list byte; vn_scid : list byte; versions : list Z }.

Record RetryPacket : Type := MkRetry {
  rt_version : Z;
  rt_dcid : list byte;
  rt_scid : list byte;
  rt_token : list byte;
  integrity_tag : list byte;   (* [16]u8 *)
}.

Definition validateVersionNegotiationCidLen (len : Z) : Err + unit := fail_if (len >? 255) InvalidConnectionIdLength.
Definition validateVersionNegotiationVersion (version : Z) : Err + unit := fail_if (version =? 0) InvalidVersionList.

(** The loops over the version list. *)
Fixpoint validate_versions (vs : list Z) : Err + unit :=
  match vs with [] => mret tt | v :: vs => _ ← validateVersionNegotiationVersion v; validate_versions vs end.

Fixpoint write_versions (vs : list Z) : M FixedWriter unit :=
  match vs with [] => mret tt | v :: vs => _ ← writeAll (writeInt32 v); write_versions vs end.

Fixpoint read_versions (n : nat) : M FixedReader (list Z) :=
  match n with
  | 0%nat => mret []
  | S n =>
      version_buf ← readNoEof 4;
      let version := readInt32 version_buf in
      _ ← lift (validateVersionNegotiationVersion version);
      vs ← read_versions n;
      mret (version :: vs)
  end.

Definition encodeVersionNegotiationPacket (packet : VersionNegotiationPacket) : M FixedWriter unit :=
  _ ← lift (validateVersionNegotiationCidLen (zlen (vn_dcid packet)));
  _ ← lift (validateVersionNegotiationCidLen (zlen (vn_scid packet)));
  _ ← guard_not (zlen (versions packet) =? 0) InvalidVersionList;
  _ ← lift (validate_versions (versions packet));
  _ ← writeByte xc0;
  _ ← writeAll [x00; x00; x00; x00];
  dcid_len ← legal (u8 (zlen (vn_dcid packet)));
  _ ← writeByte dcid_len;
  _ ← writeAll (vn_dcid packet);
  scid_len ← legal (u8 (zlen (vn_scid packet)));
  _ ← writeByte scid_len;
  _ ← writeAll (vn_scid packet);
  write_versions (versions packet).

Definition parseVersionNegotiationPacket : M FixedReader VersionNegotiationPacket :=
  first_byte ← readByte;
  _ ← guard_not (Z.land (byteZ first_byte) 128 =? 0) InvalidHeaderForm;
  version_buf ← readNoEof 4;
  _ ← guard_not (negb (readInt32 version_buf =? 0)) InvalidVersionNegotiation;
  dcid_len ← readByte;
  dcid ← readOwnedBytes (byteZ dcid_len);
  errdefer (free dcid) (
    scid_len ← readByte;
    scid ← readOwnedBytes (byteZ scid_len);
    errdefer (free scid) (
      versions_len ← remainingLen;
      _ ← guard_not ((versions_len =? 0) || negb (versions_len mod 4 =? 0)) InvalidVersionList;
      _ ← alloc (versions_len / 4);
      errdefer (free_len (versions_len / 4)) (
        versions ← read_versions (Z.to_nat (versions_len / 4));
        mret (MkVn dcid scid versions)))).

Definition deinitVersionNegotiationPacket (packet : VersionNegotiationPacket) (r : FixedReader) : FixedReader :=
  free_len (zlen (versions packet)) (free (vn_scid packet) (free (vn_dcid packet) r)).

Definition encodeRetryPacket (packet : RetryPacket) : M FixedWriter unit :=
  _ ← lift (validateLongHeaderCidLen (zlen (rt_dcid packet)));
  _ ← lift (validateLongHeaderCidLen (zlen (rt_scid packet)));
  _ ← lift (validateVersionedPacketVersion (rt_version packet));
  _ ← guard_not (zlen (rt_token packet) =? 0) InvalidRetryPacket;
  let type_bits := longHeaderPacketTypeBits (rt_version packet) retry in
  first_byte ← legal (u8 (Z.lor (Z.lor 128 64) (Z.shiftl type_bits 4)));
  _ ← writeByte first_byte;
  _ ← writeAll (writeInt32 (rt_version packet));
  dcid_len ← legal (u8 (zlen (rt_dcid packet)));
  _ ← writeByte dcid_len;
  _ ← writeAll (rt_dcid packet);
  scid_len ← legal (u8 (zlen (rt_scid packet)));
  _ ← writeByte scid_len;
  _ ← writeAll (rt_scid packet);
  _ ← writeAll (rt_token packet);
  writeAll (integrity_tag packet).

Definition parseRetryPacket : M FixedReader RetryPacket :=
  first ← readByte;
  let first_byte := byteZ first in
  _ ← guard_not (Z.land first_byte 128 =? 0) InvalidHeaderForm;
  _ ← guard_not (Z.land first_byte 64 =? 0) InvalidFixedBit;
  let packet_type_bits := Z.land (Z.shiftr first_byte 4) 3 in
  version_buf ← readNoEof 4;
  let version := readInt32 version_buf in
  _ ← lift (validateVersionedPacketVersion version);
  let packet_type := longHeaderPacketTypeFromBits version packet_type_bits in
  _ ← guard_not (bool_decide (packet_type ≠ retry)) InvalidRetryPacket;
  dcid_len ← readByte;
  _ ← lift (validateLongHeaderCidLen (byteZ dcid_len));
  dcid ← readOwnedBytes (byteZ dcid_len);
  errdefer (free dcid) (
    scid_len ← readByte;
    _ ← lift (validateLongHeaderCidLen (byteZ scid_len));
    scid ← readOwnedBytes (byteZ scid_len);
    errdefer (free scid) (
      left ← remainingLen;
      _ ← guard_not (left <=? 16) InvalidRetryPacket;
      left ← remainingLen;
      token_len ← legal (sub64 left 16);
      token ← readOwnedBytes token_len;
      errdefer (free token) (
        integrity_tag ← readNoEof 16;
        mret (MkRetry version dcid scid token integrity_tag)))).

Definition deinitRetryPacket (packet : RetryPacket) (r : FixedReader) : FixedReader :=
  free (rt_token packet) (free (rt_scid packet) (free (rt_dcid packet) r)).

(** ** Stateless reset *)

Definition stateless_reset_token_len : Z := 16.
Definition min_stateless_reset_datagram_len : Z := stateless_reset_token_len + 5.

Definition statelessResetTokenCandidate (datagram : list byte) : option (list byte) :=
  if zlen datagram <? min_stateless_reset_datagram_len then None
  else Some (zdrop (zlen datagram - stateless_reset_token_len) datagram).

Definition matchesStatelessReset (datagram expected_token : list byte) : bool :=
  match statelessResetTokenCandidate datagram with
  | None => false
  | Some candidate => bool_decide (candidate = expected_token)
  end.

Definition isStatelessResetPrefix (unpredictable_prefix : list byte) : bool :=
  match unpredictable_prefix with [] => false | b :: _ => Z.land (byteZ b) 192 =? 64 end.

Definition encodeStatelessReset (unpredictable_prefix token : list byte) : M FixedWriter unit :=
  _ ← guard_not (zlen unpredictable_prefix <? min_stateless_reset_datagram_len - stateless_reset_token_len) InvalidLength;
  _ ← guard_not (negb (isStatelessResetPrefix unpredictable_prefix)) InvalidHeaderForm;
  _ ← writeAll unpredictable_prefix;
  writeAll token.

(** ** Parsers of whole datagrams *)

(** [p] on a reader with exactly [bs] left. *)
Definition consumes {A} (p : M FixedReader A) (bs : list byte) (a : A) (k : Z) : Prop := forall r,
  wf_reader r -> remaining r = bs -> answers r = [] -> p r = Some (inr a, advance r (zlen bs) k).

Lemma consumes_parses {A} (p : M FixedReader A) bs a k : parses p bs a k -> consumes p bs a k.
Proof. intros Hp r Hr Hrem Ha. apply (Hp r []); [done|by rewrite app_nil_r|done]. Qed.

Lemma consumes_app {A B} (p : M FixedReader A) (f : A -> M FixedReader B) b1 b2 a c k1 k2 :
  parses p b1 a k1 -> consumes (f a) b2 c k2 -> consumes (p ≫= f) (b1 ++ b2) c (k1 + k2).
Proof.
  intros H1 H2 r Hr Hrem Ha. rewrite (bind_ok _ _ _ _ _ (H1 r b2 Hr Hrem Ha)).
  destruct (advance_wf r b1 b2 k1 Hr Hrem) as [Hw Hrem']. rewrite (H2 _ Hw Hrem' Ha). by rewrite advance_advance, zlen_app.
Qed.

Lemma consumes_app0 {A B} (p : M FixedReader A) (f : A -> M FixedReader B) b1 b2 a c k :
  parses p b1 a 0 -> consumes (f a) b2 c k -> consumes (p ≫= f) (b1 ++ b2) c k.
Proof. intros H1 H2. by apply (consumes_app p f b1 b2 a c 0 k). Qed.

Lemma consumes_byte {B} b (f : byte -> M FixedReader B) bs c k : consumes (f b) bs c k -> consumes (readByte ≫= f) (b :: bs) c k.
Proof. intros Hf. apply (consumes_app0 readByte f [b] bs b); [apply parses_byte|done]. Qed.

Lemma consumes_guard {B} c e (f : unit -> M FixedReader B) bs a k : c = false -> consumes (f tt) bs a k -> consumes (guard_not c e ≫= f) bs a k.
Proof. by intros ->. Qed.

Lemma consumes_lift {A B} (o : Err + A) a (f : A -> M FixedReader B) bs c k :
  o = inr a -> consumes (f a) bs c k -> consumes (lift o ≫= f) bs c k.
Proof. by intros ->. Qed.

Lemma consumes_errdefer {A} cl (p : M FixedReader A) bs a k : consumes p bs a k -> consumes (errdefer cl p) bs a k.
Proof. intros Hp r Hr Hrem Ha. unfold errdefer. by rewrite (Hp r). Qed.

Lemma consumes_remaining {B} (f : Z -> M FixedReader B) bs c k : consumes (f (zlen bs)) bs c k -> consumes (remainingLen ≫= f) bs c k.
Proof.
  intros Hf r Hr Hrem Ha. rewrite (bind_ok _ _ _ _ _ (remainingLen_ok r Hr)), Hrem. by apply Hf.
Qed.

Lemma consumes_start {A} (p : M FixedReader A) bs a k l : consumes p bs a k ->
  wp (p (at_start bs l)) (fun '(res, s) => res = inr a /\ remaining s = [] /\ live s = l + k).
Proof.
  intros Hp. destruct (at_start_ok bs l) as (Hwf & Hrem & Han). rewrite (Hp _ Hwf Hrem Han). split; [done|].
  destruct (advance_wf (at_start bs l) bs [] k Hwf) as [_ E]; [by rewrite app_nil_r|done].
Qed.

(** ** Round trips *)

Definition version_ok32 (v : Z) : Prop := 0 < v <= U32_MAX.

Record vn_ok (p : VersionNegotiationPacket) : Prop := {
  vo_dcid : zlen (vn_dcid p) <= 255;
  vo_scid : zlen (vn_scid p) <= 255;
  vo_nonempty : versions p <> [];
  vo_versions : Forall version_ok32 (versions p);
}.

Definition version_bytes (vs : list Z) : list byte := List.concat (map writeInt32 vs).

Definition vn_bytes (p : VersionNegotiationPacket) : list byte :=
  xc0 :: [x00; x00; x00; x00] ++ Zbyte (zlen (vn_dcid p)) :: vn_dcid p ++
    Zbyte (zlen (vn_scid p)) :: vn_scid p ++ version_bytes (versions p).

Lemma versions_valid vs : Forall version_ok32 vs -> validate_versions vs = inr tt.
Proof.
  induction 1 as [|v vs Hv _ IH]; [done|]. cbn. unfold validateVersionNegotiationVersion, fail_if.
  destruct (Z.eqb_spec v 0); [unfold version_ok32 in Hv; lia|]. exact IH.
Qed.

Lemma emits_versions vs : emits (write_versions vs) (version_bytes vs).
Proof. induction vs as [|v vs IH]; [apply emits_nil|]. apply emits_bind; [apply emits_all|done]. Qed.

Lemma version_bytes_len vs : zlen (version_bytes vs) = 4 * zlen vs.
Proof.
  induction vs as [|v vs IH]; [done|]. unfold version_bytes in *. cbn [map List.concat]. rewrite zlen_app, zlen_cons, IH.
  change (zlen (writeInt32 v)) with 4. lia.
Qed.

Lemma parses_versions vs : Forall version_ok32 vs -> parses (read_versions (length vs)) (version_bytes vs) vs 0.
Proof.
  induction 1 as [|v vs Hv Hvs IH]; [apply parses_ret|]. unfold version_ok32 in Hv. cbn [length read_versions].
  unfold version_bytes. cbn [map List.concat]. eapply parses_app; [by apply parses_no_eof|]. cbv zeta.
  rewrite readInt32_writeInt32 by lia. eapply parses_lift.
  { unfold validateVersionNegotiationVersion, fail_if. by destruct (Z.eqb_spec v 0); [lia|]. }
  rewrite <- (app_nil_r (List.concat _)). eapply parses_app; [exact IH|]. apply parses_ret.
Qed.

Lemma vn_cid_ok n : n <= 255 -> validateVersionNegotiationCidLen n = inr tt.
Proof. intros. unfold validateVersionNegotiationCidLen, fail_if. by rewrite gtb_false. Qed.

Lemma emits_vn p : vn_ok p -> emits (encodeVersionNegotiationPacket p) (vn_bytes p).
Proof.
  intros [Hd Hs Hne Hvs]. pose proof (zlen_nonneg (vn_dcid p)). pose proof (zlen_nonneg (vn_scid p)).
  unfold encodeVersionNegotiationPacket. eapply emits_lift; [by apply vn_cid_ok|]. eapply emits_lift; [by apply vn_cid_ok|].
  apply emits_guard. { destruct (Z.eqb_spec (zlen (versions p)) 0) as [E|]; [by apply zlen_nil_inv in E|done]. }
  eapply emits_lift; [by apply versions_valid|]. apply emits_cons, emits_bind; [apply emits_all|].
  eapply emits_legal; [apply u8_ok; lia|]. apply emits_cons, emits_bind; [apply emits_all|].
  eapply emits_legal; [apply u8_ok; lia|]. apply emits_cons, emits_bind; [apply emits_all|]. apply emits_versions.
Qed.

Definition vn_owned (p : VersionNegotiationPacket) : Z :=
  allocs (zlen (vn_dcid p)) + (allocs (zlen (vn_scid p)) + (allocs (zlen (versions p)) + 0)).

Lemma consumes_vn p : vn_ok p -> consumes parseVersionNegotiationPacket (vn_bytes p) p (vn_owned p).
Proof.
  intros [Hd Hs Hne Hvs]. pose proof (zlen_nonneg (vn_dcid p)). pose proof (zlen_nonneg (vn_scid p)).
  unfold parseVersionNegotiationPacket, vn_bytes, vn_owned. apply consumes_byte, consumes_guard; [done|].
  eapply consumes_app0; [by apply parses_no_eof|]. apply consumes_guard; [done|].
  apply consumes_byte. rewrite byteZ_Zbyte by lia. eapply consumes_app; [by apply parses_owned|].
  apply consumes_errdefer, consumes_byte. rewrite byteZ_Zbyte by lia. eapply consumes_app; [by apply parses_owned|].
  apply consumes_errdefer, consumes_remaining. rewrite version_bytes_len.
  assert (zlen (versions p) <> 0) by (intros E; by apply zlen_nil_inv in E).
  replace (4 * zlen (versions p)) with (zlen (versions p) * 4) by lia. rewrite Z.mod_mul, Z.div_mul by lia. apply consumes_guard.
  { destruct (Z.eqb_spec (zlen (versions p) * 4) 0); [lia|done]. }
  apply consumes_parses, parses_alloc, parses_errdefer. unfold zlen at 1. rewrite Nat2Z.id.
  rewrite <- (app_nil_r (version_bytes _)). eapply parses_app; [by apply parses_versions|]. by destruct p; apply parses_ret.
Qed.

Record retry_ok (p : RetryPacket) : Prop := {
  rk_version : version_ok32 (rt_version p);
  rk_dcid : zlen (rt_dcid p) <= 20;
  rk_scid : zlen (rt_scid p) <= 20;
  rk_token : rt_token p <> [];
  rk_tag : zlen (integrity_tag p) = 16;
}.

Definition retry_bytes (p : RetryPacket) : list byte :=
  Zbyte (192 + 16 * longHeaderPacketTypeBits (rt_version p) retry) :: writeInt32 (rt_version p) ++
    Zbyte (zlen (rt_dcid p)) :: rt_dcid p ++ Zbyte (zlen (rt_scid p)) :: rt_scid p ++ rt_token p ++ integrity_tag p.

Lemma emits_retry p : retry_ok p -> emits (encodeRetryPacket p) (retry_bytes p).
Proof.
  intros [Hv Hd Hs Ht _]. unfold version_ok32 in Hv. pose proof (zlen_nonneg (rt_dcid p)). pose proof (zlen_nonneg (rt_scid p)).
  pose proof (type_bits_range (rt_version p) retry) as Hbits. destruct (long_first_byte _ 0 Hbits ltac:(lia)) as (E & _).
  rewrite Z.lor_0_r in E. change (Z.lor (Z.lor 0 128) 64) with (Z.lor 128 64) in E.
  unfold encodeRetryPacket. eapply emits_lift; [by apply cid_len_ok|]. eapply emits_lift; [by apply cid_len_ok|].
  eapply emits_lift; [apply version_ok; lia|]. apply emits_guard.
  { destruct (Z.eqb_spec (zlen (rt_token p)) 0) as [En|]; [by apply zlen_nil_inv in En|done]. }
  cbv zeta. rewrite E, Z.add_0_r. eapply emits_legal; [apply u8_ok; lia|]. apply emits_cons, emits_bind; [apply emits_all|].
  eapply emits_legal; [apply u8_ok; lia|]. apply emits_cons, emits_bind; [apply emits_all|].
  eapply emits_legal; [apply u8_ok; lia|]. apply emits_cons, emits_bind; [apply emits_all|].
  apply emits_bind; apply emits_all.
Qed.

Definition retry_owned (p : RetryPacket) : Z :=
  allocs (zlen (rt_dcid p)) + (allocs (zlen (rt_scid p)) + (allocs (zlen (rt_token p)) + 0)).

Lemma consumes_retry p : retry_ok p -> consumes parseRetryPacket (retry_bytes p) p (retry_owned p).
Proof.
  intros [Hv Hd Hs Ht Htag]. unfold version_ok32 in Hv. pose proof (zlen_nonneg (rt_dcid p)). pose proof (zlen_nonneg (rt_scid p)).
  pose proof (type_bits_range (rt_version p) retry) as Hbits.
  destruct (long_first_byte _ 0 Hbits ltac:(lia)) as (_ & F1 & F2 & _ & _ & F5). rewrite Z.add_0_r in *.
  unfold parseRetryPacket, retry_bytes, retry_owned. apply consumes_byte. cbv zeta. rewrite byteZ_Zbyte, F5 by lia.
  apply consumes_guard; [done|]. apply consumes_guard; [done|]. eapply consumes_app0; [by apply parses_no_eof|].
  rewrite readInt32_writeInt32, type_bits_roundtrip by lia. eapply consumes_lift; [apply version_ok; lia|].
  apply consumes_guard; [by apply bool_decide_eq_false_2; intros []|].
  apply consumes_byte. rewrite byteZ_Zbyte by lia. eapply consumes_lift; [by apply cid_len_ok|].
  eapply consumes_app; [by apply parses_owned|]. apply consumes_errdefer, consumes_byte. rewrite byteZ_Zbyte by lia.
  eapply consumes_lift; [by apply cid_len_ok|]. eapply consumes_app; [by apply parses_owned|].
  apply consumes_errdefer, consumes_remaining. rewrite zlen_app, Htag. pose proof (zlen_nonneg (rt_token p)).
  assert (zlen (rt_token p) <> 0) by (intros E; by apply zlen_nil_inv in E). apply consumes_guard.
  { destruct (Z.leb_spec (zlen (rt_token p) + 16) 16); [lia|done]. }
  apply consumes_remaining. rewrite zlen_app, Htag, (legal_Some _ (zlen (rt_token p))).
  2:{ unfold sub64. destruct (Z.ltb_spec (zlen (rt_token p) + 16) 16); [lia|by rewrite Z.add_simpl_r]. }
  eapply consumes_app; [by apply parses_owned|]. apply consumes_errdefer, consumes_parses.
  rewrite <- (app_nil_r (integrity_tag p)). eapply parses_app; [by apply parses_no_eof|]. by destruct p; apply parses_ret.
Qed.

(** ** Parsing arbitrary bytes *)

Lemma safe_versions n : safe (read_versions n) 0 (fun vs k => k = 0 /\ length vs = n).
Proof.
  induction n as [|n IH]; cbn [read_versions]; [by apply safe_ret|].
  eapply safe_bind0; [apply safe_no_eof; lia|]. intros vb _. cbv zeta. eapply safe_bind0; [apply safe_lift|]. intros _ _.
  eapply safe_bind0; [exact IH|]. intros vs Hvs. apply safe_ret. cbn. cbn beta in Hvs. by rewrite Hvs.
Qed.

Lemma safe_vn : safe parseVersionNegotiationPacket 0 (fun p k => k = vn_owned p).
Proof.
  unfold parseVersionNegotiationPacket. eapply safe_bind0; [apply safe_any, safe_byte|]. intros first _.
  eapply safe_bind0; [apply safe_guard|intros _ _]. eapply safe_bind0; [apply safe_no_eof; lia|]. intros vb _.
  eapply safe_bind0; [apply safe_guard|intros _ _]. eapply safe_bind0; [apply safe_any, safe_byte|]. intros dl _.
  pose proof (byteZ_range dl). eapply (safe_owning _ free _ (fun bs => allocs (zlen bs)));
    [apply safe_owned; lia|intros; apply releases_len|intros dcid].
  eapply safe_bind0; [apply safe_any, safe_byte|]. intros sl _. pose proof (byteZ_range sl).
  eapply (safe_owning _ free _ (fun bs => allocs (zlen bs))); [apply safe_owned; lia|intros; apply releases_len|intros scid].
  eapply safe_bind0; [apply safe_remaining|]. intros n Hn. cbn beta in Hn. eapply safe_bind0; [apply safe_guard|intros _ _].
  eapply (safe_owning (alloc (n / 4)) (fun _ => free_len (n / 4)) _ (fun _ => allocs (n / 4)));
    [apply safe_alloc|intros; apply releases_len|intros _].
  eapply safe_bind0; [apply safe_versions|]. intros vs Hvs. cbn beta in Hvs. apply safe_ret. unfold vn_owned. cbn.
  assert (zlen vs = n / 4) as -> by (unfold zlen; rewrite Hvs; apply Z2Nat.id, Z.div_pos; lia). lia.
Qed.

(** The guard on the bytes left and the second reading of them. *)
Lemma safe_remaining_twice {A} (f : Z -> M FixedReader A) e Q : (forall n, 16 < n -> safe (f n) 0 Q) ->
  safe (left ← remainingLen; _ ← guard_not (left <=? 16) e; left ← remainingLen; f left) 0 Q.
Proof.
  intros Hf r Hr. rewrite (bind_ok _ _ _ _ _ (remainingLen_ok r Hr)).
  destruct (Z.leb_spec (zlen (remaining r)) 16) as [|Hn].
  - change (guard_not true e) with (throw e : M FixedReader unit). by apply (safe_throw e Q r).
  - change (guard_not false e) with (mret tt : M FixedReader unit). rewrite (bind_ok (mret tt) _ r tt r) by done.
    rewrite (bind_ok _ _ _ _ _ (remainingLen_ok r Hr)). by apply Hf.
Qed.

Lemma reset_short_form first prefix : isStatelessResetPrefix (first :: prefix) = true -> parseHeaderForm first = short_form.
Proof. by destruct first. Qed.

Lemma safe_retry : safe parseRetryPacket 0 (fun p k => k = retry_owned p).
Proof.
  unfold parseRetryPacket. eapply safe_bind0; [apply safe_any, safe_byte|]. intros first _. cbv zeta.
  do 2 (eapply safe_bind0; [apply safe_guard|intros _ _]). eapply safe_bind0; [apply safe_no_eof; lia|]. intros vb _.
  eapply safe_bind0; [apply safe_lift|]. intros _ _. eapply safe_bind0; [apply safe_guard|intros _ _].
  eapply safe_bind0; [apply safe_any, safe_byte|]. intros dl _. eapply safe_bind0; [apply safe_lift|]. intros _ _.
  pose proof (byteZ_range dl). eapply (safe_owning _ free _ (fun bs => allocs (zlen bs)));
    [apply safe_owned; lia|intros; apply releases_len|intros dcid].
  eapply safe_bind0; [apply safe_any, safe_byte|]. intros sl _. eapply safe_bind0; [apply safe_lift|]. intros _ _.
  pose proof (byteZ_range sl). eapply (safe_owning _ free _ (fun bs => allocs (zlen bs)));
    [apply safe_owned; lia|intros; apply releases_len|intros scid].
  apply safe_remaining_twice. intros n Hn. rewrite (legal_Some _ (n - 16)).
  2:{ unfold sub64. by destruct (Z.ltb_spec n 16); [lia|]. }
  eapply (safe_owning _ free _ (fun bs => allocs (zlen bs))); [apply safe_owned; lia|intros; apply releases_len|intros token].
  eapply safe_bind0; [apply safe_no_eof; lia|]. intros tag _. apply safe_ret. unfold retry_owned. cbn. lia.
Qed.

Lemma releases_three a b c (x y z : Z) : releases a x -> releases b y -> releases c z ->
  releases (fun r => c (b (a r))) (x + (y + (z + 0))).
Proof.
  intros Ha Hb Hc. replace (x + (y + (z + 0))) with (z + (y + x)) by lia.
  apply (releases_comp c (fun r => b (a r))); [done|]. by apply releases_comp.
Qed.

Lemma releases_vn p : releases (deinitVersionNegotiationPacket p) (vn_owned p).
Proof. apply (releases_three (free (vn_dcid p)) (free (vn_scid p)) (free_len (zlen (versions p)))); apply releases_len. Qed.

Lemma releases_retry p : releases (deinitRetryPacket p) (retry_owned p).
Proof. apply (releases_three (free (rt_dcid p)) (free (rt_scid p)) (free (rt_token p))); apply releases_len. Qed.

(** Parsing Version Negotiation and Retry packets is safe on every datagram and with every allocator: nothing illegal
    happens, the subtraction of the tag length included, the reader stays within the datagram, a failed parse releases all
    it allocated and [deinit] releases exactly what a successful one holds. *)
Theorem control_parse_safe (d : list byte) (allocator : list bool) (l : Z) :
  let r0 := Reader d 0 allocator l in
  wp (parseVersionNegotiationPacket r0) (fun '(res, r) => 0 <= rpos r <= zlen d /\
    match res with inl _ => live r = l | inr pkt => live (deinitVersionNegotiationPacket pkt r) = l end) /\
  wp (parseRetryPacket r0) (fun '(res, r) => 0 <= rpos r <= zlen d /\
    match res with inl _ => live r = l | inr pkt => live (deinitRetryPacket pkt r) = l end).
Proof.
  cbv zeta. assert (wf_reader (Reader d 0 allocator l)) as Hwf by (unfold wf_reader; cbn; pose proof (zlen_nonneg d); lia).
  split.
  - eapply wp_mono; [by apply safe_vn|]. unfold wf_reader. cbn. intros [[e|p] r] (Hr & Hd & _ & Hl); rewrite Hd in Hr; (split; [done|]).
    + lia.
    + destruct (releases_vn p r) as (_ & _ & ->). lia.
  - eapply wp_mono; [by apply safe_retry|]. unfold wf_reader. cbn. intros [[e|p] r] (Hr & Hd & _ & Hl); rewrite Hd in Hr; (split; [done|]).
    + lia.
    + destruct (releases_retry p r) as (_ & _ & ->). lia.
Qed.

(** Version Negotiation, Retry and stateless reset datagrams round trip.  A well-formed packet is written as one byte
    string, or refused because it does not fit; parsing that datagram gives back the packet, consumes all of it, and
    [deinit] releases every buffer.  A stateless reset is its prefix followed by the token, looks like a short header, and
    is recognised with that token and no other. *)
Theorem control_packet_roundtrip (vn : VersionNegotiationPacket) (rt : RetryPacket) (first : byte) (prefix token : list byte)
    (Hvn : vn_ok vn) (Hrt : retry_ok rt)
    (Hfirst : isStatelessResetPrefix (first :: prefix) = true) (Hprefix : 4 <= zlen prefix) (Htoken : zlen token = 16) :
  (exists bs, emits (encodeVersionNegotiationPacket vn) bs /\ forall l,
    wp (parseVersionNegotiationPacket (at_start bs l)) (fun '(r, s) =>
      r = inr vn /\ remaining s = [] /\ live (deinitVersionNegotiationPacket vn s) = l)) /\
  (exists bs, emits (encodeRetryPacket rt) bs /\ forall l,
    wp (parseRetryPacket (at_start bs l)) (fun '(r, s) =>
      r = inr rt /\ remaining s = [] /\ live (deinitRetryPacket rt s) = l)) /\
  emits (encodeStatelessReset (first :: prefix) token) (first :: prefix ++ token) /\ parseHeaderForm first = short_form /\
  forall t, matchesStatelessReset (first :: prefix ++ token) t = bool_decide (token = t).
Proof.
  split_and!.
  - exists (vn_bytes vn). split; [by apply emits_vn|]. intros l. eapply wp_mono; [by apply consumes_start, consumes_vn|].
    intros [r s] (-> & Hr & Hl). split; [done|]. split; [done|]. destruct (releases_vn vn s) as (_ & _ & ->). lia.
  - exists (retry_bytes rt). split; [by apply emits_retry|]. intros l. eapply wp_mono; [by apply consumes_start, consumes_retry|].
    intros [r s] (-> & Hr & Hl). split; [done|]. split; [done|]. destruct (releases_retry rt s) as (_ & _ & ->). lia.
  - unfold encodeStatelessReset. apply emits_guard.
    { rewrite zlen_cons. unfold min_stateless_reset_datagram_len, stateless_reset_token_len.
      by destruct (Z.ltb_spec (zlen prefix + 1) (16 + 5 - 16)); [lia|]. }
    rewrite Hfirst. apply emits_guard; [done|]. change (first :: prefix ++ token) with ((first :: prefix) ++ token). apply emits_bind; apply emits_all.
  - by apply reset_short_form with prefix.
  - intros t. unfold matchesStatelessReset, statelessResetTokenCandidate. rewrite zlen_cons, zlen_app, Htoken.
    unfold min_stateless_reset_datagram_len, stateless_reset_token_len.
    destruct (Z.ltb_spec (zlen prefix + 16 + 1) (16 + 5)); [lia|].
    change (first :: prefix ++ token) with ((first :: prefix) ++ token). rewrite zdrop_app_exact; [done|]. rewrite zlen_cons. lia.
Qed.

Definition sample_prefix : list byte := [x01; x02; x03; x04].
Definition sample_token : list byte := replicate 16 xab.
Definition sample_vn : VersionNegotiationPacket := MkVn [x83; x94] [] [v1; v2].
Definition sample_retry : RetryPacket := MkRetry v2 [x83] [x01; x02] [xaa; xbb] (replicate 16 xcd).

Lemma control_packet_roundtrip_witness :
  (exists bs, emits (encodeVersionNegotiationPacket sample_vn) bs /\ forall l,
    wp (parseVersionNegotiationPacket (at_start bs l)) (fun '(r, s) =>
      r = inr sample_vn /\ remaining s = [] /\ live (deinitVersionNegotiationPacket sample_vn s) = l)) /\
  (exists bs, emits (encodeRetryPacket sample_retry) bs /\ forall l,
    wp (parseRetryPacket (at_start bs l)) (fun '(r, s) =>
      r = inr sample_retry /\ remaining s = [] /\ live (deinitRetryPacket sample_retry s) = l)) /\
  emits (encodeStatelessReset (x55 :: sample_prefix) sample_token) (x55 :: sample_prefix ++ sample_token) /\
  parseHeaderForm x55 = short_form /\
  forall t, matchesStatelessReset (x55 :: sample_prefix ++ sample_token) t = bool_decide (sample_token = t).
Proof.
  apply (control_packet_roundtrip sample_vn sample_retry x55 sample_prefix sample_token).
  - split; [done|done|done|]. repeat constructor; vm_compute; congruence.
  - repeat split; vm_compute; congruence.
  - reflexivity.
  - vm_compute. congruence.
  - reflexivity.
Defined.

End ControlPackets.
