(* ===== verification/Frame.v ===== *)
(** * Frames (src/quic/frame.zig)

    The frames of RFC 9000 and 9221, their validation, encoder and decoder
    (owning and borrowing), over the fixed reader and writer of [Codec]. *)
From S2P Require Import Prelude Codec.
Import Codec.
Local Open Scope Z_scope.

Module Frame.

Definition max_stream_count : Z := 1152921504606846976.

(** ** Data *)

Inductive FrameType : Type :=
  | T_padding | T_ping | T_ack | T_ack_ecn | T_reset_stream | T_stop_sending | T_crypto | T_new_token | T_stream
  | T_max_data | T_max_stream_data | T_max_streams_bidi | T_max_streams_uni
  | T_data_blocked | T_stream_data_blocked | T_streams_blocked_bidi | T_streams_blocked_uni
  | T_new_connection_id | T_retire_connection_id | T_path_challenge | T_path_response
  | T_connection_close | T_application_close | T_handshake_done | T_datagram | T_datagram_with_length.

(** [@intFromEnum]. *)
Definition frameTypeId (t : FrameType) : Z :=
  match t with
  | T_padding => 0 | T_ping => 1 | T_ack => 2 | T_ack_ecn => 3 | T_reset_stream => 4 | T_stop_sending => 5
  | T_crypto => 6 | T_new_token => 7 | T_stream => 8
  | T_max_data => 16 | T_max_stream_data => 17 | T_max_streams_bidi => 18 | T_max_streams_uni => 19
  | T_data_blocked => 20 | T_stream_data_blocked => 21 | T_streams_blocked_bidi => 22 | T_streams_blocked_uni => 23
  | T_new_connection_id => 24 | T_retire_connection_id => 25 | T_path_challenge => 26 | T_path_response => 27
  | T_connection_close => 28 | T_application_close => 29 | T_handshake_done => 30
  | T_datagram => 48 | T_datagram_with_length => 49
  end.

Record StreamFrame : Type := MkStream { st_stream_id : Z; st_offset : Z; st_fin : bool; st_data : list byte }.
Record CryptoFrame : Type := MkCrypto { cr_offset : Z; cr_data : list byte }.
Record DatagramFrame : Type := MkDatagram { dg_data : list byte }.
Record PaddingFrame : Type := MkPadding { pad_len : Z }.
Record NewTokenFrame : Type := MkNewToken { nt_token : list byte }.
Record AckRange : Type := MkRange { gap : Z; ack_range : Z }.
Record AckFrame : Type := MkAck {
  largest_acknowledged : Z;
  ack_delay : Z;
  first_ack_range : Z;
  ranges : list AckRange;
}.
Record EcnCounts : Type := MkEcn { ect0_count : Z; ect1_count : Z; ecn_ce_count : Z }.
Record AckEcnFrame : Type := MkAckEcn { ae_ack : AckFrame; ecn_counts : EcnCounts }.
Record ResetStreamFrame : Type := MkReset { rs_stream_id : Z; rs_application_error_code : Z; final_size : Z }.
Record StopSendingFrame : Type := MkStop { ss_stream_id : Z; ss_application_error_code : Z }.
Record MaxDataFrame : Type := MkMaxData { md_maximum_data : Z }.
Record MaxStreamDataFrame : Type := MkMaxStreamData { msd_stream_id : Z; msd_maximum_stream_data : Z }.
Record MaxStreamsBidiFrame : Type := MkMaxStreamsBidi { msb_maximum_streams : Z }.
Record MaxStreamsUniFrame : Type := MkMaxStreamsUni { msu_maximum_streams : Z }.
Record DataBlockedFrame : Type := MkDataBlocked { db_maximum_data : Z }.
Record StreamDataBlockedFrame : Type := MkStreamDataBlocked { sdb_stream_id : Z; sdb_maximum_stream_data : Z }.
Record StreamsBlockedBidiFrame : Type := MkStreamsBlockedBidi { sbb_maximum_streams : Z }.
Record StreamsBlockedUniFrame : Type := MkStreamsBlockedUni { sbu_maximum_streams : Z }.
Record NewConnectionIdFrame : Type := MkNewConnectionId {
  nci_sequence_number : Z;
  retire_prior_to : Z;
  connection_id : list byte;
  stateless_reset_token : list byte;   (* [16]u8 *)
}.
Record RetireConnectionIdFrame : Type := MkRetire { rci_sequence_number : Z }.
Record PathChallengeFrame : Type := MkPathChallenge { pc_data : list byte }.   (* [8]u8 *)
Record PathResponseFrame : Type := MkPathResponse { pr_data : list byte }.     (* [8]u8 *)
Record ConnectionCloseFrame : Type := MkClose { cc_error_code : Z; cc_frame_type : Z; cc_reason_phrase : list byte }.
Record ApplicationCloseFrame : Type := MkAppClose { ac_error_code : Z; ac_reason_phrase : list byte }.

Inductive Frame : Type :=
  | padding (_ : PaddingFrame)
  | ping
  | ack (_ : AckFrame)
  | ack_ecn (_ : AckEcnFrame)
  | reset_stream (_ : ResetStreamFrame)
  | stop_sending (_ : StopSendingFrame)
  | new_token (_ : NewTokenFrame)
  | stream (_ : StreamFrame)
  | crypto (_ : CryptoFrame)
  | max_data (_ : MaxDataFrame)
  | max_stream_data (_ : MaxStreamDataFrame)
  | max_streams_bidi (_ : MaxStreamsBidiFrame)
  | max_streams_uni (_ : MaxStreamsUniFrame)
  | data_blocked (_ : DataBlockedFrame)
  | stream_data_blocked (_ : StreamDataBlockedFrame)
  | streams_blocked_bidi (_ : StreamsBlockedBidiFrame)
  | streams_blocked_uni (_ : StreamsBlockedUniFrame)
  | new_connection_id (_ : NewConnectionIdFrame)
  | retire_connection_id (_ : RetireConnectionIdFrame)
  | path_challenge (_ : PathChallengeFrame)
  | path_response (_ : PathResponseFrame)
  | connection_close (_ : ConnectionCloseFrame)
  | application_close (_ : ApplicationCloseFrame)
  | handshake_done
  | datagram (_ : DatagramFrame).

(** ** Validation; [usize] is 64 bits wide, so casts between it and [u64] succeed *)

Definition varIntToUsize (value : Z) : Err + Z := if value <=? U64_MAX then inr value else inl InvalidFrameLength.

Definition minimalVarIntLen (value : Z) : Err + Z :=
  if value <=? 63 then inr 1 else
  if value <=? 16383 then inr 2 else
  if value <=? 1073741823 then inr 4 else
  if value <=? max_quic_varint then inr 8 else inl InvalidFrameValue.

Definition validateConnectionIdLen (len : Z) : Err + unit :=
  fail_if ((len =? 0) || (len >? 20)) InvalidConnectionIdLength.

Definition validateFrameVarInt (value : Z) : Err + unit := fail_if (value >? max_quic_varint) InvalidFrameValue.

Definition validateNewConnectionIdFrame (f : NewConnectionIdFrame) : Err + unit :=
  _ ← validateFrameVarInt (nci_sequence_number f);
  _ ← validateFrameVarInt (retire_prior_to f);
  _ ← validateConnectionIdLen (zlen (connection_id f));
  fail_if (retire_prior_to f >? nci_sequence_number f) InvalidFrameValue.

Definition validateFrameSliceLen (data : list byte) : Err + unit :=
  fail_if (zlen data >? max_quic_varint) InvalidFrameValue.

Definition validateNewTokenFrame (f : NewTokenFrame) : Err + unit :=
  _ ← fail_if (zlen (nt_token f) =? 0) InvalidFrameValue;
  validateFrameSliceLen (nt_token f).

Definition validateConnectionCloseFrame (close : ConnectionCloseFrame) : Err + unit :=
  _ ← validateFrameVarInt (cc_error_code close);
  _ ← validateFrameVarInt (cc_frame_type close);
  validateFrameSliceLen (cc_reason_phrase close).

Definition validateApplicationCloseFrame (close : ApplicationCloseFrame) : Err + unit :=
  _ ← validateFrameVarInt (ac_error_code close);
  validateFrameSliceLen (ac_reason_phrase close).

Definition validateResetStreamFrame (reset : ResetStreamFrame) : Err + unit :=
  _ ← validateFrameVarInt (rs_stream_id reset);
  _ ← validateFrameVarInt (rs_application_error_code reset);
  validateFrameVarInt (final_size reset).

Definition validateStopSendingFrame (stop : StopSendingFrame) : Err + unit :=
  _ ← validateFrameVarInt (ss_stream_id stop);
  validateFrameVarInt (ss_application_error_code stop).

Definition validateFrameEndOffset (offset data_len : Z) : Err + unit :=
  match add64 offset data_len with
  | None => inl InvalidFrameValue
  | Some end_offset => fail_if (end_offset >? max_quic_varint) InvalidFrameValue
  end.

Definition validateFrameSliceEndOffset (offset : Z) (data : list byte) : Err + unit :=
  validateFrameEndOffset offset (zlen data).

Definition validateFrameEndOffsetFromLen (offset data_len : Z) : Err + unit := validateFrameEndOffset offset data_len.

Definition validateStreamFrame (f : StreamFrame) : Err + unit :=
  _ ← validateFrameVarInt (st_stream_id f);
  validateFrameSliceEndOffset (st_offset f) (st_data f).

Definition validateMaxStreamDataFrame (f : MaxStreamDataFrame) : Err + unit :=
  _ ← validateFrameVarInt (msd_stream_id f);
  validateFrameVarInt (msd_maximum_stream_data f).

Definition validateStreamDataBlockedFrame (f : StreamDataBlockedFrame) : Err + unit :=
  _ ← validateFrameVarInt (sdb_stream_id f);
  validateFrameVarInt (sdb_maximum_stream_data f).

Definition validateStreamCount (maximum_streams : Z) : Err + unit :=
  fail_if (maximum_streams >? max_stream_count) InvalidFrameValue.

(** The loop over the additional ranges, from the smallest number so far. *)
Fixpoint validate_ranges (smallest : Z) (rs : list AckRange) : Err + unit :=
  match rs with
  | [] => inr tt
  | range :: rs =>
      _ ← validateFrameVarInt (gap range);
      _ ← validateFrameVarInt (ack_range range);
      match add64 (gap range) 2 with
      | None => inl InvalidAckRange
      | Some skipped =>
          if smallest <? skipped then inl InvalidAckRange else
          let range_largest := smallest - skipped in
          if ack_range range >? range_largest then inl InvalidAckRange else
          validate_ranges (range_largest - ack_range range) rs
      end
  end.

Definition validateAckFrame (a : AckFrame) : Err + unit :=
  _ ← validateFrameVarInt (largest_acknowledged a);
  _ ← validateFrameVarInt (ack_delay a);
  _ ← validateFrameVarInt (first_ack_range a);
  _ ← validateFrameVarInt (zlen (ranges a));
  _ ← fail_if (first_ack_range a >? largest_acknowledged a) InvalidAckRange;
  validate_ranges (largest_acknowledged a - first_ack_range a) (ranges a).

Definition validateAckEcnFrame (f : AckEcnFrame) : Err + unit :=
  _ ← validateAckFrame (ae_ack f);
  _ ← validateFrameVarInt (ect0_count (ecn_counts f));
  _ ← validateFrameVarInt (ect1_count (ecn_counts f));
  validateFrameVarInt (ecn_ce_count (ecn_counts f)).

(** ** Encoding *)

Definition writeType (t : FrameType) : M FixedWriter unit := b ← legal (u8 (frameTypeId t)); writeByte b.

Fixpoint encode_ranges (rs : list AckRange) : M FixedWriter unit :=
  match rs with
  | [] => mret tt
  | range :: rs => _ ← encodeVarInt (gap range); _ ← encodeVarInt (ack_range range); encode_ranges rs
  end.

Definition encodeAckFrameFields (a : AckFrame) : M FixedWriter unit :=
  _ ← lift (validateAckFrame a);
  _ ← encodeVarInt (largest_acknowledged a);
  _ ← encodeVarInt (ack_delay a);
  _ ← encodeVarInt (zlen (ranges a));
  _ ← encodeVarInt (first_ack_range a);
  encode_ranges (ranges a).

(** [while (i < padding.len)], [n] bytes to go. *)
Fixpoint encode_padding (n : nat) : M FixedWriter unit :=
  match n with 0%nat => mret tt | S n => _ ← writeType T_padding; encode_padding n end.

(** The type byte of a STREAM frame. *)
Definition stream_type (f : StreamFrame) : Z :=
  let t := frameTypeId T_stream in
  let t := if negb (st_offset f =? 0) then Z.lor t 4 else t in
  let t := Z.lor t 2 in
  if st_fin f then Z.lor t 1 else t.

Definition encodeFrame (frame : Frame) : M FixedWriter unit :=
  match frame with
  | padding f =>
      _ ← guard_not (pad_len f =? 0) InvalidPaddingLength;
      encode_padding (Z.to_nat (pad_len f))
  | ping => writeType T_ping
  | ack a => _ ← lift (validateAckFrame a); _ ← writeType T_ack; encodeAckFrameFields a
  | ack_ecn f =>
      _ ← lift (validateAckEcnFrame f);
      _ ← writeType T_ack_ecn;
      _ ← encodeAckFrameFields (ae_ack f);
      _ ← encodeVarInt (ect0_count (ecn_counts f));
      _ ← encodeVarInt (ect1_count (ecn_counts f));
      encodeVarInt (ecn_ce_count (ecn_counts f))
  | reset_stream f =>
      _ ← lift (validateResetStreamFrame f);
      _ ← writeType T_reset_stream;
      _ ← encodeVarInt (rs_stream_id f);
      _ ← encodeVarInt (rs_application_error_code f);
      encodeVarInt (final_size f)
  | stop_sending f =>
      _ ← lift (validateStopSendingFrame f);
      _ ← writeType T_stop_sending;
      _ ← encodeVarInt (ss_stream_id f);
      encodeVarInt (ss_application_error_code f)
  | new_token f =>
      _ ← lift (validateNewTokenFrame f);
      _ ← writeType T_new_token;
      _ ← encodeVarInt (zlen (nt_token f));
      writeAll (nt_token f)
  | stream f =>
      _ ← lift (validateStreamFrame f);
      b ← legal (u8 (stream_type f));
      _ ← writeByte b;
      _ ← encodeVarInt (st_stream_id f);
      _ ← (if negb (st_offset f =? 0) then encodeVarInt (st_offset f) else mret tt);
      _ ← encodeVarInt (zlen (st_data f));
      writeAll (st_data f)
  | crypto f =>
      _ ← lift (validateFrameSliceEndOffset (cr_offset f) (cr_data f));
      _ ← writeType T_crypto;
      _ ← encodeVarInt (cr_offset f);
      _ ← encodeVarInt (zlen (cr_data f));
      writeAll (cr_data f)
  | max_data f =>
      _ ← lift (validateFrameVarInt (md_maximum_data f));
      _ ← writeType T_max_data;
      encodeVarInt (md_maximum_data f)
  | max_stream_data f =>
      _ ← lift (validateMaxStreamDataFrame f);
      _ ← writeType T_max_stream_data;
      _ ← encodeVarInt (msd_stream_id f);
      encodeVarInt (msd_maximum_stream_data f)
  | max_streams_bidi f =>
      _ ← lift (validateStreamCount (msb_maximum_streams f));
      _ ← writeType T_max_streams_bidi;
      encodeVarInt (msb_maximum_streams f)
  | max_streams_uni f =>
      _ ← lift (validateStreamCount (msu_maximum_streams f));
      _ ← writeType T_max_streams_uni;
      encodeVarInt (msu_maximum_streams f)
  | data_blocked f =>
      _ ← lift (validateFrameVarInt (db_maximum_data f));
      _ ← writeType T_data_blocked;
      encodeVarInt (db_maximum_data f)
  | stream_data_blocked f =>
      _ ← lift (validateStreamDataBlockedFrame f);
      _ ← writeType T_stream_data_blocked;
      _ ← encodeVarInt (sdb_stream_id f);
      encodeVarInt (sdb_maximum_stream_data f)
  | streams_blocked_bidi f =>
      _ ← lift (validateStreamCount (sbb_maximum_streams f));
      _ ← writeType T_streams_blocked_bidi;
      encodeVarInt (sbb_maximum_streams f)
  | streams_blocked_uni f =>
      _ ← lift (validateStreamCount (sbu_maximum_streams f));
      _ ← writeType T_streams_blocked_uni;
      encodeVarInt (sbu_maximum_streams f)
  | new_connection_id f =>
      _ ← lift (validateNewConnectionIdFrame f);
      _ ← writeType T_new_connection_id;
      _ ← encodeVarInt (nci_sequence_number f);
      _ ← encodeVarInt (retire_prior_to f);
      len ← legal (u8 (zlen (connection_id f)));
      _ ← writeByte len;
      _ ← writeAll (connection_id f);
      writeAll (stateless_reset_token f)
  | retire_connection_id f =>
      _ ← lift (validateFrameVarInt (rci_sequence_number f));
      _ ← writeType T_retire_connection_id;
      encodeVarInt (rci_sequence_number f)
  | path_challenge f => _ ← writeType T_path_challenge; writeAll (pc_data f)
  | path_response f => _ ← writeType T_path_response; writeAll (pr_data f)
  | connection_close f =>
      _ ← lift (validateConnectionCloseFrame f);
      _ ← writeType T_connection_close;
      _ ← encodeVarInt (cc_error_code f);
      _ ← encodeVarInt (cc_frame_type f);
      _ ← encodeVarInt (zlen (cc_reason_phrase f));
      writeAll (cc_reason_phrase f)
  | application_close f =>
      _ ← lift (validateApplicationCloseFrame f);
      _ ← writeType T_application_close;
      _ ← encodeVarInt (ac_error_code f);
      _ ← encodeVarInt (zlen (ac_reason_phrase f));
      writeAll (ac_reason_phrase f)
  | handshake_done => writeType T_handshake_done
  | datagram f =>
      _ ← writeType T_datagram_with_length;
      _ ← encodeVarInt (zlen (dg_data f));
      writeAll (dg_data f)
  end.

(** ** Decoding *)

(** The allocator behind a reader: its next answers and its live buffers. *)
Record Heap : Type := MkHeap { heap_answers : list bool; heap_live : Z }.

Definition heap_of (r : FixedReader) : Heap := MkHeap (answers r) (live r).
Definition on_reader (f : Heap -> Heap) (r : FixedReader) : FixedReader :=
  let h := f (heap_of r) in Reader (data r) (rpos r) (heap_answers h) (heap_live h).

(** [allocator.free] of a slice of length [n]. *)
Definition heap_free (n : Z) (h : Heap) : Heap :=
  if n =? 0 then h else MkHeap (heap_answers h) (heap_live h - 1).

Definition deinitAckFrame (a : AckFrame) (h : Heap) : Heap := heap_free (zlen (ranges a)) h.

Definition deinitFrame (frame : Frame) (h : Heap) : Heap :=
  match frame with
  | ack a => deinitAckFrame a h
  | ack_ecn f => deinitAckFrame (ae_ack f) h
  | stream f => heap_free (zlen (st_data f)) h
  | crypto f => heap_free (zlen (cr_data f)) h
  | new_token f => heap_free (zlen (nt_token f)) h
  | new_connection_id f => heap_free (zlen (connection_id f)) h
  | connection_close f => heap_free (zlen (cc_reason_phrase f)) h
  | datagram f => heap_free (zlen (dg_data f)) h
  | application_close f => heap_free (zlen (ac_reason_phrase f)) h
  | _ => h
  end.

Definition deinitFrameBorrowing (frame : Frame) (h : Heap) : Heap :=
  match frame with
  | ack a => deinitAckFrame a h
  | ack_ecn f => deinitAckFrame (ae_ack f) h
  | _ => h
  end.

(** [(try packet.decodeVarInt(reader)).value]. *)
Definition varint : M FixedReader Z := '(value, _) ← decodeVarInt; mret value.

Definition decodeFrameType : M FixedReader Z :=
  '(value, len) ← decodeVarInt;
  minimal ← lift (minimalVarIntLen value);
  _ ← guard_not (negb (len =? minimal)) InvalidFrameValue;
  mret value.

(** [FixedReader] has [remainingLen]; [std.math.mul] fails past [usize]. *)
Definition validateAckRangeCountFitsReader (range_count : Z) : M FixedReader unit :=
  let min_range_bytes := range_count * 2 in
  _ ← guard_not (min_range_bytes >? U64_MAX) InvalidFrameLength;
  left ← remainingLen;
  guard_not (min_range_bytes >? left) InvalidFrameLength.

(** [for (ranges)], [n] entries to go. *)
Fixpoint decode_ranges (n : nat) : M FixedReader (list AckRange) :=
  match n with
  | 0%nat => mret []
  | S n => g ← varint; a ← varint; rs ← decode_ranges n; mret (MkRange g a :: rs)
  end.

Definition decodeAckFrameFields : M FixedReader AckFrame :=
  largest ← varint;
  delay ← varint;
  ack_range_count ← varint;
  first ← varint;
  range_count ← lift (varIntToUsize ack_range_count);
  _ ← validateAckRangeCountFitsReader range_count;
  _ ← alloc range_count;
  errdefer (on_reader (heap_free range_count)) (
    rs ← decode_ranges (Z.to_nat range_count);
    let a := MkAck largest delay first rs in
    _ ← lift (validateAckFrame a);
    mret a).

Definition is_type (frame_type : Z) (t : FrameType) : bool := frame_type =? frameTypeId t.

Definition decodeStream (frame_type : Z) (borrow : bool) : M FixedReader Frame :=
  let has_off := negb (Z.land frame_type 4 =? 0) in
  let has_len := negb (Z.land frame_type 2 =? 0) in
  let fin := negb (Z.land frame_type 1 =? 0) in
  stream_id ← varint;
  offset ← (if has_off then varint else mret 0);
  len_usize ← (if has_len then
      data_len ← varint;
      _ ← lift (validateFrameEndOffset offset data_len);
      lift (varIntToUsize data_len)
    else
      data_len ← remainingLen;
      _ ← lift (validateFrameEndOffsetFromLen offset data_len);
      mret data_len);
  d ← readBytes len_usize borrow;
  mret (stream (MkStream stream_id offset fin d)).

Definition decodeNewConnectionId (borrow : bool) : M FixedReader Frame :=
  sequence_number ← varint;
  retire_prior_to ← varint;
  connection_id_len ← readByte;
  _ ← lift (validateConnectionIdLen (byteZ connection_id_len));
  _ ← guard_not (retire_prior_to >? sequence_number) InvalidFrameValue;
  connection_id ← readBytes (byteZ connection_id_len) borrow;
  errdefer_free connection_id borrow (
    stateless_reset_token ← readNoEof 16;
    mret (new_connection_id (MkNewConnectionId sequence_number retire_prior_to connection_id stateless_reset_token))).

(** [decodeFrameImpl] after the frame type. *)
Definition decode_body (borrow : bool) (frame_type : Z) : M FixedReader Frame :=
  if is_type frame_type T_padding then mret (padding (MkPadding 1)) else
  if is_type frame_type T_ping then mret ping else
  if is_type frame_type T_ack || is_type frame_type T_ack_ecn then
    a ← decodeAckFrameFields;
    errdefer (on_reader (deinitAckFrame a)) (
      if is_type frame_type T_ack_ecn then
        ect0 ← varint; ect1 ← varint; ce ← varint;
        mret (ack_ecn (MkAckEcn a (MkEcn ect0 ect1 ce)))
      else mret (ack a)) else
  if is_type frame_type T_reset_stream then
    stream_id ← varint; code ← varint; size ← varint;
    mret (reset_stream (MkReset stream_id code size)) else
  if is_type frame_type T_stop_sending then
    stream_id ← varint; code ← varint;
    mret (stop_sending (MkStop stream_id code)) else
  if is_type frame_type T_new_token then
    token_len ← varint;
    len_usize ← lift (varIntToUsize token_len);
    _ ← guard_not (len_usize =? 0) InvalidFrameValue;
    token ← readBytes len_usize borrow;
    mret (new_token (MkNewToken token)) else
  if is_type frame_type T_crypto then
    offset ← varint; data_len ← varint;
    _ ← lift (validateFrameEndOffset offset data_len);
    len_usize ← lift (varIntToUsize data_len);
    d ← readBytes len_usize borrow;
    mret (crypto (MkCrypto offset d)) else
  if is_type frame_type T_max_data then
    m ← varint; mret (max_data (MkMaxData m)) else
  if is_type frame_type T_max_stream_data then
    stream_id ← varint; m ← varint; mret (max_stream_data (MkMaxStreamData stream_id m)) else
  if is_type frame_type T_max_streams_bidi then
    m ← varint; _ ← lift (validateStreamCount m); mret (max_streams_bidi (MkMaxStreamsBidi m)) else
  if is_type frame_type T_max_streams_uni then
    m ← varint; _ ← lift (validateStreamCount m); mret (max_streams_uni (MkMaxStreamsUni m)) else
  if is_type frame_type T_data_blocked then
    m ← varint; mret (data_blocked (MkDataBlocked m)) else
  if is_type frame_type T_stream_data_blocked then
    stream_id ← varint; m ← varint; mret (stream_data_blocked (MkStreamDataBlocked stream_id m)) else
  if is_type frame_type T_streams_blocked_bidi then
    m ← varint; _ ← lift (validateStreamCount m); mret (streams_blocked_bidi (MkStreamsBlockedBidi m)) else
  if is_type frame_type T_streams_blocked_uni then
    m ← varint; _ ← lift (validateStreamCount m); mret (streams_blocked_uni (MkStreamsBlockedUni m)) else
  if is_type frame_type T_new_connection_id then decodeNewConnectionId borrow else
  if is_type frame_type T_retire_connection_id then
    n ← varint; mret (retire_connection_id (MkRetire n)) else
  if is_type frame_type T_path_challenge then
    d ← readNoEof 8; mret (path_challenge (MkPathChallenge d)) else
  if is_type frame_type T_path_response then
    d ← readNoEof 8; mret (path_response (MkPathResponse d)) else
  if is_type (Z.land frame_type 248) T_stream then decodeStream frame_type borrow else
  if is_type frame_type T_connection_close then
    error_code ← varint; triggering ← varint; reason_len ← varint;
    len_usize ← lift (varIntToUsize reason_len);
    reason ← readBytes len_usize borrow;
    mret (connection_close (MkClose error_code triggering reason)) else
  if is_type frame_type T_application_close then
    error_code ← varint; reason_len ← varint;
    len_usize ← lift (varIntToUsize reason_len);
    reason ← readBytes len_usize borrow;
    mret (application_close (MkAppClose error_code reason)) else
  if is_type frame_type T_handshake_done then mret handshake_done else
  if is_type frame_type T_datagram_with_length then
    len ← varint; d ← readBytes len borrow; mret (datagram (MkDatagram d)) else
  throw UnsupportedFrameType.

Definition decodeFrameImpl (borrow : bool) : M FixedReader Frame :=
  frame_type ← decodeFrameType;
  decode_body borrow frame_type.

Definition decodeFrame : M FixedReader Frame := decodeFrameImpl false.
Definition decodeFrameBorrowing : M FixedReader Frame := decodeFrameImpl true.

Record DecodedFrame : Type := MkDecoded { frame : Frame; len : Z }.

(** The leading PADDING bytes of [data]. *)
Fixpoint padding_run (data : list byte) : Z :=
  match data with b :: data => if byteZ b =? frameTypeId T_padding then 1 + padding_run data else 0 | [] => 0 end.

(** The body of [decodeFrameSlice] and [decodeFrameSliceBorrowing]. *)
Definition decode_slice (borrow : bool) (data : list byte) : M Heap DecodedFrame := fun h =>
  match data with
  | [] => Some (inl EndOfStream, h)
  | first :: _ =>
      if byteZ first =? frameTypeId T_padding then
        let n := padding_run data in Some (inr (MkDecoded (padding (MkPadding n)) n), h) else
      match decodeFrameImpl borrow (Reader data 0 (heap_answers h) (heap_live h)) with
      | None => None
      | Some (inl e, r) => Some (inl e, heap_of r)
      | Some (inr decoded, r) => Some (inr (MkDecoded decoded (rpos r)), heap_of r)
      end
  end.

Definition decodeFrameSlice (data : list byte) : M Heap DecodedFrame := decode_slice false data.
Definition decodeFrameSliceBorrowing (data : list byte) : M Heap DecodedFrame := decode_slice true data.

End Frame.
