(* ===== verification/FrameProps.v ===== *)
(** * Properties of the frame codec (src/quic/frame.zig)

    The bytes of each frame, the round trip of encoding and decoding, and the
    safety of decoding arbitrary bytes, in the owning and the borrowing mode. *)
From S2P Require Import Prelude Codec CodecSafe Frame.
Import Codec Safe Frame.
Local Open Scope Z_scope.

Module FrameProps.

(** ** Well-formed frames *)

Definition u64 (v : Z) : Prop := 0 <= v <= U64_MAX.

Definition ack_typed (a : AckFrame) : Prop :=
  u64 (largest_acknowledged a) /\ u64 (ack_delay a) /\ u64 (first_ack_range a) /\
  Forall (fun r => u64 (gap r) /\ u64 (ack_range r)) (ranges a).

(** The values the Zig types admit. No slice of more than 2^62 - 1 bytes fits
    an address space; only DATAGRAM frames rely on that. *)
Definition frame_typed (f : Frame) : Prop :=
  match f with
  | padding f => u64 (pad_len f)
  | ping | handshake_done => True
  | ack a => ack_typed a
  | ack_ecn f => ack_typed (ae_ack f) /\ u64 (ect0_count (ecn_counts f)) /\ u64 (ect1_count (ecn_counts f)) /\
                 u64 (ecn_ce_count (ecn_counts f))
  | reset_stream f => u64 (rs_stream_id f) /\ u64 (rs_application_error_code f) /\ u64 (final_size f)
  | stop_sending f => u64 (ss_stream_id f) /\ u64 (ss_application_error_code f)
  | new_token _ => True
  | stream f => u64 (st_stream_id f) /\ u64 (st_offset f)
  | crypto f => u64 (cr_offset f)
  | max_data f => u64 (md_maximum_data f)
  | max_stream_data f => u64 (msd_stream_id f) /\ u64 (msd_maximum_stream_data f)
  | max_streams_bidi f => u64 (msb_maximum_streams f)
  | max_streams_uni f => u64 (msu_maximum_streams f)
  | data_blocked f => u64 (db_maximum_data f)
  | stream_data_blocked f => u64 (sdb_stream_id f) /\ u64 (sdb_maximum_stream_data f)
  | streams_blocked_bidi f => u64 (sbb_maximum_streams f)
  | streams_blocked_uni f => u64 (sbu_maximum_streams f)
  | new_connection_id f => u64 (nci_sequence_number f) /\ u64 (retire_prior_to f) /\ zlen (stateless_reset_token f) = 16
  | retire_connection_id f => u64 (rci_sequence_number f)
  | path_challenge f => zlen (pc_data f) = 8
  | path_response f => zlen (pr_data f) = 8
  | connection_close f => u64 (cc_error_code f) /\ u64 (cc_frame_type f)
  | application_close f => u64 (ac_error_code f)
  | datagram f => zlen (dg_data f) <= max_quic_varint
  end.

(** What [encodeFrame] checks before it writes. *)
Definition validateFrame (f : Frame) : Err + unit :=
  match f with
  | padding f => fail_if (pad_len f =? 0) InvalidPaddingLength
  | ack a => validateAckFrame a
  | ack_ecn f => validateAckEcnFrame f
  | reset_stream f => validateResetStreamFrame f
  | stop_sending f => validateStopSendingFrame f
  | new_token f => validateNewTokenFrame f
  | stream f => validateStreamFrame f
  | crypto f => validateFrameSliceEndOffset (cr_offset f) (cr_data f)
  | max_data f => validateFrameVarInt (md_maximum_data f)
  | max_stream_data f => validateMaxStreamDataFrame f
  | max_streams_bidi f => validateStreamCount (msb_maximum_streams f)
  | max_streams_uni f => validateStreamCount (msu_maximum_streams f)
  | data_blocked f => validateFrameVarInt (db_maximum_data f)
  | stream_data_blocked f => validateStreamDataBlockedFrame f
  | streams_blocked_bidi f => validateStreamCount (sbb_maximum_streams f)
  | streams_blocked_uni f => validateStreamCount (sbu_maximum_streams f)
  | new_connection_id f => validateNewConnectionIdFrame f
  | retire_connection_id f => validateFrameVarInt (rci_sequence_number f)
  | connection_close f => validateConnectionCloseFrame f
  | application_close f => validateApplicationCloseFrame f
  | _ => inr tt
  end.

(** ** Frames on the wire (RFC 9000, section 19) *)

Abbreviation vi := varint_bytes.

Definition ranges_bytes (rs : list AckRange) : list byte := concat (map (fun r => vi (gap r) ++ vi (ack_range r)) rs).

Definition ack_bytes (a : AckFrame) : list byte :=
  vi (largest_acknowledged a) ++ vi (ack_delay a) ++ vi (zlen (ranges a)) ++ vi (first_ack_range a) ++
  ranges_bytes (ranges a).

(** A length and the bytes it counts. *)
Definition counted (d : list byte) : list byte := vi (zlen d) ++ d.

Definition frame_bytes (f : Frame) : list byte :=
  match f with
  | padding f => repeat x00 (Z.to_nat (pad_len f))
  | ping => [x01]
  | ack a => x02 :: ack_bytes a
  | ack_ecn f => x03 :: ack_bytes (ae_ack f) ++ vi (ect0_count (ecn_counts f)) ++ vi (ect1_count (ecn_counts f)) ++
                 vi (ecn_ce_count (ecn_counts f))
  | reset_stream f => x04 :: vi (rs_stream_id f) ++ vi (rs_application_error_code f) ++ vi (final_size f)
  | stop_sending f => x05 :: vi (ss_stream_id f) ++ vi (ss_application_error_code f)
  | crypto f => x06 :: vi (cr_offset f) ++ counted (cr_data f)
  | new_token f => x07 :: counted (nt_token f)
  | stream f =>
      Zbyte (8 + (if st_offset f =? 0 then 0 else 4) + 2 + (if st_fin f then 1 else 0)) :: vi (st_stream_id f) ++
      (if st_offset f =? 0 then [] else vi (st_offset f)) ++ counted (st_data f)
  | max_data f => x10 :: vi (md_maximum_data f)
  | max_stream_data f => x11 :: vi (msd_stream_id f) ++ vi (msd_maximum_stream_data f)
  | max_streams_bidi f => x12 :: vi (msb_maximum_streams f)
  | max_streams_uni f => x13 :: vi (msu_maximum_streams f)
  | data_blocked f => x14 :: vi (db_maximum_data f)
  | stream_data_blocked f => x15 :: vi (sdb_stream_id f) ++ vi (sdb_maximum_stream_data f)
  | streams_blocked_bidi f => x16 :: vi (sbb_maximum_streams f)
  | streams_blocked_uni f => x17 :: vi (sbu_maximum_streams f)
  | new_connection_id f =>
      x18 :: vi (nci_sequence_number f) ++ vi (retire_prior_to f) ++ Zbyte (zlen (connection_id f)) ::
      connection_id f ++ stateless_reset_token f
  | retire_connection_id f => x19 :: vi (rci_sequence_number f)
  | path_challenge f => x1a :: pc_data f
  | path_response f => x1b :: pr_data f
  | connection_close f => x1c :: vi (cc_error_code f) ++ vi (cc_frame_type f) ++ counted (cc_reason_phrase f)
  | application_close f => x1d :: vi (ac_error_code f) ++ counted (ac_reason_phrase f)
  | handshake_done => [x1e]
  | datagram f => x31 :: counted (dg_data f)
  end.

(** *** What validation tells *)

Lemma bind_inr {A B} (m : Err + A) (k : A -> Err + B) b : (m ≫= k) = inr b -> exists a, m = inr a /\ k a = inr b.
Proof. destruct m as [e|a]; cbn; [done|]. eauto. Qed.

Lemma fail_if_inr c e u : fail_if c e = inr u -> c = false.
Proof. by destruct c. Qed.

Lemma gtb_false_le a b : (a >? b) = false -> a <= b.
Proof. destruct (Z.gtb_spec a b); [done|lia]. Qed.

Lemma end_offset_le a b u : 0 <= a -> 0 <= b -> validateFrameEndOffset a b = inr u -> a + b <= max_quic_varint.
Proof.
  unfold validateFrameEndOffset, add64, U64_MAX, max_quic_varint. intros Ha Hb.
  destruct (Z.leb_spec (a + b) 18446744073709551615); [|done]. intros Hf%fail_if_inr. by apply gtb_false_le in Hf.
Qed.

(** Every length in the goal is non-negative. *)
Ltac zlens := repeat match goal with
  | |- context [zlen ?d] => lazymatch goal with _ : 0 <= zlen d |- _ => fail | _ => pose proof (zlen_nonneg d) end
  end.

(** Splits a successful validation into its checks. *)
Ltac validated := repeat match goal with
  | H : (_ ≫= _) = inr _ |- _ => apply bind_inr in H as (? & ? & ?)
  | H : fail_if _ _ = inr _ |- _ => apply fail_if_inr in H
  | H : (_ >? _) = false |- _ => apply gtb_false_le in H
  | H : (_ =? _) = false |- _ => apply Z.eqb_neq in H
  | u : unit |- _ => destruct u
  | H : (_ || _) = false |- _ => apply orb_false_iff in H as [? ?]
  | H : _ /\ _ |- _ => destruct H
  end.


(** *** Frames that can be sent *)

Definition varint_ok (v : Z) : Prop := 0 <= v <= max_quic_varint.
Definition range_ok (r : AckRange) : Prop := varint_ok (gap r) /\ varint_ok (ack_range r).

Record ack_ok (a : AckFrame) : Prop := {
  ao_valid : validateAckFrame a = inr tt;
  ao_largest : varint_ok (largest_acknowledged a);
  ao_delay : varint_ok (ack_delay a);
  ao_first : varint_ok (first_ack_range a);
  ao_count : varint_ok (zlen (ranges a));
  ao_ranges : Forall range_ok (ranges a);
}.

(** The frames RFC 9000 allows: integers that fit a varint, stream counts of at
    most 2^60, data that ends below 2^62, acknowledged ranges that do not run
    below packet number 0, connection ids of 1 to 20 bytes, no empty token. *)
Definition frame_ok (f : Frame) : Prop :=
  match f with
  | padding f => 1 <= pad_len f <= U64_MAX
  | ping | handshake_done => True
  | ack a => ack_ok a
  | ack_ecn f => ack_ok (ae_ack f) /\ varint_ok (ect0_count (ecn_counts f)) /\
                 varint_ok (ect1_count (ecn_counts f)) /\ varint_ok (ecn_ce_count (ecn_counts f))
  | reset_stream f => varint_ok (rs_stream_id f) /\ varint_ok (rs_application_error_code f) /\ varint_ok (final_size f)
  | stop_sending f => varint_ok (ss_stream_id f) /\ varint_ok (ss_application_error_code f)
  | new_token f => 1 <= zlen (nt_token f) <= max_quic_varint
  | stream f => varint_ok (st_stream_id f) /\ 0 <= st_offset f /\ st_offset f + zlen (st_data f) <= max_quic_varint
  | crypto f => 0 <= cr_offset f /\ cr_offset f + zlen (cr_data f) <= max_quic_varint
  | max_data f => varint_ok (md_maximum_data f)
  | max_stream_data f => varint_ok (msd_stream_id f) /\ varint_ok (msd_maximum_stream_data f)
  | max_streams_bidi f => 0 <= msb_maximum_streams f <= max_stream_count
  | max_streams_uni f => 0 <= msu_maximum_streams f <= max_stream_count
  | data_blocked f => varint_ok (db_maximum_data f)
  | stream_data_blocked f => varint_ok (sdb_stream_id f) /\ varint_ok (sdb_maximum_stream_data f)
  | streams_blocked_bidi f => 0 <= sbb_maximum_streams f <= max_stream_count
  | streams_blocked_uni f => 0 <= sbu_maximum_streams f <= max_stream_count
  | new_connection_id f => varint_ok (nci_sequence_number f) /\ 0 <= retire_prior_to f <= nci_sequence_number f /\
                           1 <= zlen (connection_id f) <= 20 /\ zlen (stateless_reset_token f) = 16
  | retire_connection_id f => varint_ok (rci_sequence_number f)
  | path_challenge f => zlen (pc_data f) = 8
  | path_response f => zlen (pr_data f) = 8
  | connection_close f => varint_ok (cc_error_code f) /\ varint_ok (cc_frame_type f) /\
                          zlen (cc_reason_phrase f) <= max_quic_varint
  | application_close f => varint_ok (ac_error_code f) /\ zlen (ac_reason_phrase f) <= max_quic_varint
  | datagram f => zlen (dg_data f) <= max_quic_varint
  end.

Lemma ranges_ok s rs u : Forall (fun r => u64 (gap r) /\ u64 (ack_range r)) rs -> validate_ranges s rs = inr u ->
  Forall range_ok rs.
Proof.
  intros Ht. revert s. induction Ht as [|r rs [[? _] [? _]] _ IH]; intros s Hv; constructor; cbn in Hv; validated.
  - unfold validateFrameVarInt in *. validated. repeat split; lia.
  - destruct (add64 (gap r) 2) as [k|]; [|done]. destruct (s <? k); [done|]. destruct (ack_range r >? s - k); [done|].
    by eapply IH.
Qed.

Lemma ack_typed_ok a : ack_typed a -> validateAckFrame a = inr tt -> ack_ok a.
Proof.
  intros (H1 & H2 & H3 & H4) Hv. pose proof (zlen_nonneg (ranges a)). split; [done|..];
    unfold validateAckFrame, validateFrameVarInt, varint_ok, u64 in *; validated; [lia..|]. by eapply ranges_ok.
Qed.

Ltac open_validators := unfold validateResetStreamFrame, validateStopSendingFrame, validateNewTokenFrame,
  validateStreamFrame, validateMaxStreamDataFrame, validateStreamDataBlockedFrame, validateNewConnectionIdFrame,
  validateConnectionCloseFrame, validateApplicationCloseFrame, validateAckEcnFrame, validateFrameSliceEndOffset,
  validateConnectionIdLen, validateFrameVarInt, validateStreamCount, validateFrameSliceLen in *.

Lemma validate_ok f : frame_typed f -> validateFrame f = inr tt -> frame_ok f.
Proof.
  intros Ht Hv. destruct f; cbn [frame_typed validateFrame frame_ok] in *; open_validators; validated;
    unfold varint_ok, u64 in *; split_and?; try done; try lia; try (by apply ack_typed_ok);
    zlens; try lia; (eapply end_offset_le; [lia|lia|eassumption]).
Qed.

(** *** Encoding *)

Lemma emits_type t b m bs : Zbyte (frameTypeId t) = b -> emits m bs -> emits (writeType t ≫= fun _ => m) (b :: bs).
Proof. intros <- Hm. destruct t; by apply emits_cons. Qed.

Lemma emits_type_only t b : Zbyte (frameTypeId t) = b -> emits (writeType t) [b].
Proof. intros <-. destruct t; apply emits_byte. Qed.

Lemma emits_vi v m bs : 0 <= v <= max_quic_varint -> emits m bs -> emits (encodeVarInt v ≫= fun _ => m) (vi v ++ bs).
Proof. intros Hv Hm. by apply emits_bind; [apply emits_varint|]. Qed.

Lemma emits_counted d : zlen d <= max_quic_varint -> emits (_ ← encodeVarInt (zlen d); writeAll d) (counted d).
Proof. intros Hd. pose proof (zlen_nonneg d). apply emits_vi; [lia|]. apply emits_all. Qed.

Lemma emits_assoc {A B} (m : M FixedWriter A) (f : A -> M FixedWriter B) (g : B -> M FixedWriter unit) bs :
  emits (x ← m; y ← f x; g y) bs -> emits (y ← (x ← m; f x); g y) bs.
Proof.
  intros He w Hw. specialize (He w Hw). unfold mbind, M_bind in *. by destruct (m w) as [[[e|a] w']|].
Qed.

Lemma emits_ranges rs : Forall range_ok rs -> emits (encode_ranges rs) (ranges_bytes rs).
Proof.
  induction 1 as [|r rs [Hg Ha] _ IH]; [apply emits_nil|]. cbn. rewrite <- app_assoc. by apply emits_vi, emits_vi.
Qed.

Lemma emits_padding n : emits (encode_padding n) (repeat x00 n).
Proof. induction n as [|n IH]; [apply emits_nil|]. by apply emits_type. Qed.

Lemma emits_ack a : ack_ok a -> emits (encodeAckFrameFields a) (ack_bytes a).
Proof.
  intros [Hv H1 H2 H3 H4 H5]. unfold encodeAckFrameFields. eapply emits_lift; [exact Hv|].
  apply emits_vi; [done|]. apply emits_vi; [done|]. apply emits_vi; [done|]. apply emits_vi; [done|]. by apply emits_ranges.
Qed.

Lemma stream_type_ok f :
  stream_type f = 8 + (if st_offset f =? 0 then 0 else 4) + 2 + (if st_fin f then 1 else 0).
Proof. unfold stream_type. by destruct (st_offset f =? 0), (st_fin f). Qed.

(** The fields of a frame, one rule after the other. *)
Ltac emit_fields := repeat first
  [ apply emits_varint; unfold varint_ok in *; lia
  | apply emits_counted; unfold varint_ok in *; lia
  | apply emits_all
  | apply emits_vi; [unfold varint_ok in *; lia|] ].

Lemma stream_count_varint : max_stream_count <= max_quic_varint.
Proof. by vm_compute. Qed.

Lemma emits_frame f : frame_ok f -> validateFrame f = inr tt -> emits (encodeFrame f) (frame_bytes f).
Proof.
  intros Hok Hv. pose proof stream_count_varint.
  destruct f; cbn [frame_ok validateFrame encodeFrame frame_bytes] in *;
    try (eapply emits_lift; [exact Hv|]); try (by apply emits_type_only);
    repeat match goal with H : _ /\ _ |- _ => destruct H end;
    try (apply emits_type; [done|]; zlens; emit_fields; done).
  - apply emits_guard; [by destruct (Z.eqb_spec (pad_len p) 0); [lia|]|]. apply emits_padding.
  - apply emits_type; [done|]. by apply emits_ack.
  - apply emits_type, emits_bind; [done|by apply emits_ack|emit_fields].
  - rewrite stream_type_ok. eapply emits_legal; [apply u8_ok; by destruct (st_offset s =? 0), (st_fin s)|].
    zlens. apply emits_cons, emits_vi; [done|]. apply emits_bind; [|emit_fields].
    destruct (st_offset s =? 0); [apply emits_nil|emit_fields].
  - apply emits_type; [done|]. emit_fields. eapply emits_legal; [apply u8_ok; lia|]. apply emits_cons, emits_bind; apply emits_all.
Qed.

(** A frame that fails validation is refused and nothing is written. *)
Lemma refuses_frame f e w : validateFrame f = inl e -> encodeFrame f w = Some (inl e, w).
Proof.
  intros Hv. destruct f; cbn [validateFrame encodeFrame] in *; try done;
    try (rewrite Hv; done). unfold fail_if in Hv. unfold guard_not. destruct (pad_len p =? 0); [|done].
  by injection Hv as <-.
Qed.

(** *** Decoding what was encoded *)

Lemma parses_last {A B} (p : M FixedReader A) (f : A -> M FixedReader B) bs a c k :
  parses p bs a 0 -> parses (f a) [] c k -> parses (p ≫= f) bs c k.
Proof. intros Hp Hf. rewrite <- (app_nil_r bs). by eapply parses_app. Qed.

Lemma parses_assoc {A B C} (p : M FixedReader A) (f : A -> M FixedReader B) (g : B -> M FixedReader C) bs c k :
  parses (x ← p; y ← f x; g y) bs c k -> parses (y ← (x ← p; f x); g y) bs c k.
Proof.
  intros H r rest Hr Hrem Ha. rewrite <- (H r rest Hr Hrem Ha). unfold mbind, M_bind. by destruct (p r) as [[[]]|].
Qed.

Section ParseFields.
Context {B : Type} (c : B) (k : Z).
Implicit Types f : Z -> M FixedReader B.

Lemma parses_vi v f bs : varint_ok v -> parses (f v) bs c k -> parses (varint ≫= f) (vi v ++ bs) c k.
Proof. intros Hv Hf. apply parses_assoc. eapply parses_app; [by apply parses_varint|]. exact Hf. Qed.

Lemma parses_vi_last v f : varint_ok v -> parses (f v) [] c k -> parses (varint ≫= f) (vi v) c k.
Proof. intros Hv Hf. rewrite <- (app_nil_r (vi v)). by apply parses_vi. Qed.

Lemma Zbyte_byteZ b : Zbyte (byteZ b) = b.
Proof. unfold Zbyte, byteZ. by rewrite N2Z.id, Byte.of_to_N. Qed.

Lemma parses_type b f bs : byteZ b <= 63 -> parses (f (byteZ b)) bs c k -> parses (decodeFrameType ≫= f) (b :: bs) c k.
Proof.
  intros Ht Hf. pose proof (byteZ_range b). set (t := byteZ b) in *. assert (vi t = [b]) as E.
  { unfold varint_bytes. destruct (Z.leb_spec t 63); [|lia]. unfold tagged_be. cbn [be]. f_equal.
    rewrite Z.mul_0_l, Z.add_0_l, Z.div_1_r. apply Zbyte_byteZ. }
  apply parses_assoc. change (b :: bs) with ([b] ++ bs). rewrite <- E.
  eapply parses_app; [apply parses_varint; unfold max_quic_varint; lia|]. cbn beta iota. rewrite E.
  apply parses_assoc. eapply parses_lift; [unfold minimalVarIntLen; by destruct (Z.leb_spec t 63); [|lia]|].
  by apply parses_assoc, parses_guard.
Qed.

Lemma usize_ok v : varint_ok v -> varIntToUsize v = inr v.
Proof.
  unfold varint_ok, varIntToUsize, max_quic_varint, U64_MAX. intros.
  by destruct (Z.leb_spec v 18446744073709551615); [|lia].
Qed.

Lemma parses_usize v f bs : varint_ok v -> parses (f v) bs c k -> parses (lift (varIntToUsize v) ≫= f) bs c k.
Proof. intros Hv. apply parses_lift. by apply usize_ok. Qed.

(** Buffers that [readBytes] leaves behind. *)
Definition bytes_cost (borrow : bool) (n : Z) : Z := if borrow then 0 else allocs n.

Lemma parses_bytes borrow d (g : list byte -> M FixedReader B) bs : parses (g d) bs c k ->
  parses (readBytes (zlen d) borrow ≫= g) (d ++ bs) c (bytes_cost borrow (zlen d) + k).
Proof.
  intros Hg. eapply parses_bind; [|exact Hg]. destruct borrow; [|by apply parses_owned].
  exact (parses_no_eof d (zlen d) eq_refl).
Qed.

Lemma parses_bytes_last borrow d (g : list byte -> M FixedReader B) : parses (g d) [] c 0 ->
  parses (readBytes (zlen d) borrow ≫= g) d c (bytes_cost borrow (zlen d)).
Proof.
  intros Hg. rewrite <- (app_nil_r d) at 2. rewrite <- (Z.add_0_r (bytes_cost _ _)).
  eapply parses_bind; [|exact Hg]. destruct borrow; [|by apply parses_owned]. exact (parses_no_eof d (zlen d) eq_refl).
Qed.

Lemma parses_ranges rs (g : list AckRange -> M FixedReader B) : Forall range_ok rs ->
  parses (g rs) [] c k -> parses (decode_ranges (length rs) ≫= g) (ranges_bytes rs) c k.
Proof.
  intros Hrs. revert g. induction Hrs as [|r rs [Hg Ha] _ IH]; intros g Hk; cbn; [exact Hk|].
  rewrite <- app_assoc. apply parses_assoc, parses_vi; [done|]. apply parses_assoc, parses_vi; [done|].
  apply parses_assoc. apply IH. by destruct r.
Qed.

(** The ranges fill at least two bytes each, so the count fits the reader. *)
Lemma vi_len v : 1 <= zlen (vi v).
Proof.
  unfold varint_bytes. destruct (v <=? 63); [by vm_compute|]. destruct (v <=? 16383); [by vm_compute|].
  destruct (v <=? 1073741823); by vm_compute.
Qed.

Lemma ranges_len rs : 2 * zlen rs <= zlen (ranges_bytes rs).
Proof.
  induction rs as [|r rs IH]; [done|]. unfold ranges_bytes in *. cbn [map concat].
  rewrite zlen_cons, !zlen_app. pose proof (vi_len (gap r)). pose proof (vi_len (ack_range r)). lia.
Qed.

Lemma parses_fits n bs (g : unit -> M FixedReader B) : varint_ok n -> 2 * n <= zlen bs -> parses (g tt) bs c k ->
  parses (validateAckRangeCountFitsReader n ≫= g) bs c k.
Proof.
  intros Hn Hfit Hg. apply parses_assoc, parses_guard.
  { apply gtb_false. unfold varint_ok, max_quic_varint, U64_MAX in *. lia. }
  intros r rest Hr Hrem Ha. rewrite <- (Hg r rest Hr Hrem Ha).
  pose proof (f_equal zlen Hrem) as Hl. rewrite zlen_app in Hl. pose proof (zlen_nonneg rest).
  unfold mbind, M_bind. rewrite remainingLen_ok by done. rewrite gtb_false by lia. done.
Qed.

End ParseFields.

Lemma parses_ack a : ack_ok a -> parses decodeAckFrameFields (ack_bytes a) a (allocs (zlen (ranges a))).
Proof.
  intros [Hv H1 H2 H3 H4 H5]. unfold decodeAckFrameFields, ack_bytes.
  do 4 (apply parses_vi; [done|]). apply parses_usize; [done|].
  apply parses_fits; [done|apply ranges_len|]. rewrite <- (Z.add_0_r (allocs _)).
  apply parses_alloc, parses_errdefer. replace (Z.to_nat (zlen (ranges a))) with (length (ranges a)) by (unfold zlen; lia).
  apply parses_ranges; [done|]. destruct a. eapply parses_lift; [exact Hv|]. apply parses_ret.
Qed.

Lemma parses_errdefer_free {A} d borrow (p : M FixedReader A) bs a k :
  parses p bs a k -> parses (errdefer_free d borrow p) bs a k.
Proof. intros Hp r rest Hr Hrem Ha. unfold errdefer_free. by rewrite (Hp r rest). Qed.

(** Live buffers of a decoded frame. *)
Definition frame_cost (borrow : bool) (f : Frame) : Z :=
  match f with
  | ack a => allocs (zlen (ranges a))
  | ack_ecn f => allocs (zlen (ranges (ae_ack f)))
  | stream f => bytes_cost borrow (zlen (st_data f))
  | crypto f => bytes_cost borrow (zlen (cr_data f))
  | new_token f => bytes_cost borrow (zlen (nt_token f))
  | new_connection_id f => bytes_cost borrow (zlen (connection_id f))
  | connection_close f => bytes_cost borrow (zlen (cc_reason_phrase f))
  | application_close f => bytes_cost borrow (zlen (ac_reason_phrase f))
  | datagram f => bytes_cost borrow (zlen (dg_data f))
  | _ => 0
  end.

(** Evaluates the frame type and picks its branch of the decoder. *)
Ltac pick_type :=
  match goal with |- context [byteZ ?b] => let v := eval vm_compute in (byteZ b) in change (byteZ b) with v end;
  unfold decode_body; cbn [is_type frameTypeId Z.eqb Pos.eqb orb Z.land Pos.land Pos.Nsucc_double Pos.Ndouble Z.of_N].

Lemma count_ok v : v <= max_stream_count -> validateStreamCount v = inr tt.
Proof. intros. unfold validateStreamCount. by rewrite gtb_false. Qed.

Lemma end_offset_ok o n : o + n <= max_quic_varint -> validateFrameEndOffset o n = inr tt.
Proof.
  unfold validateFrameEndOffset, add64, max_quic_varint, U64_MAX. intros.
  destruct (Z.leb_spec (o + n) 18446744073709551615); [|lia]. by rewrite gtb_false.
Qed.

Lemma cid_ok n : 1 <= n <= 20 -> validateConnectionIdLen n = inr tt.
Proof. intros. unfold validateConnectionIdLen. by rewrite gtb_false by lia; destruct (Z.eqb_spec n 0); [lia|]. Qed.

Ltac parse_fields := unfold varint_ok in *; repeat first
  [ apply parses_ret
  | apply parses_vi; [unfold varint_ok; lia|]
  | apply parses_vi_last; [unfold varint_ok; lia|]
  | apply parses_usize; [unfold varint_ok; lia|]
  | apply parses_bytes_last
  | eapply parses_lift; [apply count_ok; lia|]
  | eapply parses_lift; [apply end_offset_ok; lia|]
  | eapply parses_lift; [apply cid_ok; lia|]
  | apply parses_guard; [by apply Z.eqb_neq; lia|]
  | apply parses_guard; [by apply gtb_false; lia|]
  | eapply parses_last; [by apply parses_no_eof|]
  | match goal with |- parses (mret _) [] (_ ?x) _ => destruct x; apply parses_ret end ].

Lemma parses_frame borrow f : frame_ok f -> (forall n, f <> padding n) ->
  parses (decodeFrameImpl borrow) (frame_bytes f) f (frame_cost borrow f).
Proof.
  intros Hok Hpad. pose proof stream_count_varint.
  destruct f; [by destruct (Hpad p)|..]; cbn [frame_ok frame_bytes frame_cost] in *;
    repeat match goal with H : _ /\ _ |- _ => destruct H end; unfold decodeFrameImpl.
  all: try (apply parses_type; [done|]; zlens; unfold counted; pick_type; parse_fields; fail).
  - apply parses_type; [done|]. pick_type. rewrite <- (app_nil_r (ack_bytes a)), <- (Z.add_0_r (allocs _)).
    eapply parses_bind; [by apply parses_ack|]. apply parses_errdefer, parses_ret.
  - apply parses_type; [done|]. pick_type. rewrite <- (Z.add_0_r (allocs _)).
    eapply parses_bind; [by apply parses_ack|]. apply parses_errdefer. parse_fields. destruct a as [? []]. apply parses_ret.
  - destruct s as [id off fin d]. cbn [st_stream_id st_offset st_fin st_data] in *. zlens. unfold counted.
    destruct fin, (Z.eqb_spec off 0) as [->|]; (apply parses_type; [done|]); pick_type; unfold decodeStream;
      cbv zeta; cbn [negb Z.eqb Z.land Pos.land Z.of_N Pos.Nsucc_double Pos.Ndouble app];
      parse_fields; apply parses_assoc; parse_fields; apply parses_assoc; parse_fields.
  - apply parses_type; [done|]. zlens. pick_type. unfold decodeNewConnectionId. parse_fields. apply parses_cons.
    rewrite byteZ_Zbyte by lia. parse_fields. rewrite <- (Z.add_0_r (bytes_cost _ _)). apply parses_bytes.
    apply parses_errdefer_free. parse_fields.
Qed.

(** [deinitFrame], or [deinitFrameBorrowing] for a borrowed frame. *)
Definition deinit (borrow : bool) : Frame -> Heap -> Heap := if borrow then deinitFrameBorrowing else deinitFrame.

Lemma heap_free_live n h : heap_live (heap_free n h) = heap_live h - allocs n.
Proof. unfold heap_free, allocs. destruct (n =? 0); cbn; lia. Qed.

Lemma deinit_live borrow f h : heap_live (deinit borrow f h) = heap_live h - frame_cost borrow f.
Proof.
  destruct borrow, f; cbn [deinit deinitFrame deinitFrameBorrowing deinitAckFrame frame_cost bytes_cost];
    unfold deinitAckFrame; rewrite ?heap_free_live; lia.
Qed.

(** What may follow a frame in a payload: PADDING frames are read as one run. *)
Definition separates (f : Frame) (trailing : list byte) : Prop :=
  match f with padding _ => padding_run trailing = 0 | _ => True end.

Lemma padding_run_repeat n rest : padding_run rest = 0 -> padding_run (repeat x00 n ++ rest) = Z.of_nat n.
Proof. intros Hr. induction n as [|n IH]; [done|]. cbn [repeat app padding_run]. rewrite IH. cbn. lia. Qed.

Lemma frame_first f : frame_ok f -> (forall n, f <> padding n) -> exists b bs, frame_bytes f = b :: bs /\ byteZ b <> 0.
Proof.
  intros Hok Hp. destruct f as [p| | | | | | |s| | | | | | | | | | | | | | | | |]; [by destruct (Hp p)|..]; cbn [frame_bytes];
    try (eexists _, _; split; [reflexivity|by vm_compute]).
  eexists _, _; split; [reflexivity|]. destruct (st_offset s =? 0), (st_fin s); by vm_compute.
Qed.

Lemma slice_roundtrip borrow f trailing l : frame_ok f -> separates f trailing ->
  decode_slice borrow (frame_bytes f ++ trailing) (MkHeap [] l) =
  Some (inr (MkDecoded f (zlen (frame_bytes f))), MkHeap [] (l + frame_cost borrow f)).
Proof.
  intros Hok Hsep. assert ((exists p, f = padding p) \/ forall n, f <> padding n) as [[p ->]|Hp] by (destruct f; eauto).
  - cbn in *. destruct p as [n]. cbn in *. assert (exists m, Z.to_nat n = S m) as [m Em] by (exists (Z.to_nat (n - 1)); lia).
    pose proof (padding_run_repeat (Z.to_nat n) trailing Hsep) as Hrun. rewrite Em in *. unfold decode_slice.
    cbn [repeat app] in *. change (byteZ x00 =? frameTypeId T_padding) with true. cbv iota. cbn [app] in Hrun.
    rewrite Hrun. unfold zlen. cbn [length]. rewrite repeat_length, <- Em, Z2Nat.id, Z.add_0_r by lia.
    by replace (Z.of_nat (Z.to_nat n)) with n by lia.
  - destruct (frame_first f Hok Hp) as (b & bs & E & Hb).
    pose proof (parses_frame borrow f Hok Hp (Reader (frame_bytes f ++ trailing) 0 [] l) trailing) as P.
    unfold decode_slice. rewrite E in *. cbn [app] in *. change (frameTypeId T_padding) with 0.
    rewrite (proj2 (Z.eqb_neq _ _) Hb). cbn [heap_answers heap_live]. rewrite P; [done| |done|done].
    unfold wf_reader. cbn [rpos data]. pose proof (zlen_nonneg (b :: bs ++ trailing)). lia.
Qed.

(** C11: frames round trip. [encodeFrame] refuses a frame that RFC 9000 does not
    allow without writing anything, and writes any other frame as one byte
    string, or reports that it does not fit. Whatever follows that string in
    the payload (for PADDING: no further padding), both decoders give back the
    frame and its length, and the matching deinit releases every buffer they
    allocated. *)
Theorem frame_roundtrip (f : Frame) (Ht : frame_typed f) :
  match validateFrame f with
  | inl e => forall w, encodeFrame f w = Some (inl e, w)
  | inr _ => frame_ok f /\ exists bs, emits (encodeFrame f) bs /\ forall borrow trailing l, separates f trailing ->
      wp (decode_slice borrow (bs ++ trailing) (MkHeap [] l)) (fun '(res, h) =>
        res = inr (MkDecoded f (zlen bs)) /\ heap_live (deinit borrow f h) = l)
  end.
Proof.
  destruct (validateFrame f) as [e|[]] eqn:Hv; [intros w; by apply refuses_frame|].
  pose proof (validate_ok f Ht Hv) as Hok. split; [done|]. exists (frame_bytes f). split; [by apply emits_frame|].
  intros borrow trailing l Hsep. rewrite slice_roundtrip by done. apply wp_ret. split; [done|].
  rewrite deinit_live. cbn. lia.
Qed.

(** ** Decoding arbitrary bytes *)

Lemma safe_vi : safe varint 0 (fun v k => k = 0 /\ varint_ok v).
Proof. eapply safe_bind0; [apply safe_varint|]. intros [v n] Hv. by apply safe_ret. Qed.

Lemma safe_bytes n borrow : 0 <= n ->
  safe (readBytes n borrow) 0 (fun bs k => k = bytes_cost borrow (zlen bs) /\ zlen bs = n).
Proof. intros. destruct borrow; [by apply safe_slice|by apply safe_owned_len]. Qed.

(** A decoded frame accounts for its buffers and is one that can be sent. *)
Definition decoded (borrow : bool) (f : Frame) (k : Z) : Prop := k = frame_cost borrow f /\ frame_ok f.

Lemma safe_payload n borrow (F : list byte -> Frame) : 0 <= n ->
  (forall d, frame_cost borrow (F d) = bytes_cost borrow (zlen d)) -> (forall d, zlen d = n -> frame_ok (F d)) ->
  safe (d ← readBytes n borrow; mret (F d)) 0 (decoded borrow).
Proof.
  intros Hn Hc Hok. eapply safe_bind; [by apply safe_bytes|]. intros d k [-> Hd]. apply safe_ret. split; [rewrite Hc; lia|auto].
Qed.

Lemma releases_heap n : releases (on_reader (heap_free n)) (allocs n).
Proof. intros r. cbn. rewrite heap_free_live. by destruct r. Qed.

Lemma safe_ranges n : safe (decode_ranges n) 0 (fun rs k => k = 0 /\ Forall range_ok rs /\ zlen rs = Z.of_nat n).
Proof.
  induction n as [|n IH]; cbn [decode_ranges]; [by apply safe_ret|].
  eapply safe_bind0; [apply safe_vi|]. intros g Hg. eapply safe_bind0; [apply safe_vi|]. intros a Ha.
  eapply safe_bind0; [exact IH|]. intros rs [Hrs Hl]. apply safe_ret. split; [done|]. split; [by constructor|].
  rewrite zlen_cons, Hl. lia.
Qed.

Lemma safe_fits n : safe (validateAckRangeCountFitsReader n) 0 (fun _ k => k = 0 /\ True).
Proof.
  eapply safe_bind0; [apply safe_guard|]. intros _ _. eapply safe_bind0; [apply safe_remaining|]. intros left _.
  by eapply safe_mono; [apply safe_guard| |intros ?? [-> _]].
Qed.

Lemma varint_u64 v : varint_ok v -> u64 v.
Proof. unfold varint_ok, u64, max_quic_varint, U64_MAX. lia. Qed.

Lemma safe_ack : safe decodeAckFrameFields 0 (fun a k => k = allocs (zlen (ranges a)) /\ ack_ok a).
Proof.
  unfold decodeAckFrameFields. eapply safe_bind0; [apply safe_vi|]. intros largest Hlargest.
  eapply safe_bind0; [apply safe_vi|]. intros delay Hdelay. eapply safe_bind0; [apply safe_vi|]. intros count Hcount.
  eapply safe_bind0; [apply safe_vi|]. intros first Hfirst. rewrite usize_ok by done.
  eapply safe_bind0; [apply safe_lift|]. intros n Hn. injection Hn as <-.
  eapply safe_bind0; [apply safe_fits|]. intros _ _.
  apply (safe_owning (alloc count) (fun _ => on_reader (heap_free count)) (fun _ => _) (fun _ => allocs count));
    [apply safe_alloc|intros; apply releases_heap|intros _].
  eapply safe_bind0; [apply safe_ranges|]. intros rs [Hrs Hl]. cbv zeta.
  eapply safe_bind0; [apply safe_lift|]. intros u Hv. destruct u. apply safe_ret.
  rewrite Z2Nat.id in Hl by apply Hcount. cbn [ranges]. rewrite Hl, Z.add_0_r. split; [done|].
  apply ack_typed_ok; [|exact Hv]. split_and!; try (by apply varint_u64). eapply Forall_impl; [|exact Hrs].
  intros r [Hg Ha]. split; by apply varint_u64.
Qed.

(** The rules for the fields of a frame. *)
Ltac safe_fields := repeat first
  [ eapply safe_bind0; [apply safe_vi|intros ? ?]
  | rewrite usize_ok by done; eapply safe_bind0; [apply safe_lift|intros ? [= <-]]
  | eapply safe_bind0; [apply safe_lift|intros [] ?]
  | eapply safe_bind0; [apply safe_guard|intros [] ?]
  | eapply safe_bind0; [apply safe_no_eof; lia|intros ? ?] ]; cbn beta in *.

Lemma safe_stream borrow t : safe (decodeStream t borrow) 0 (decoded borrow).
Proof.
  unfold decodeStream. cbv zeta. safe_fields. rename a into id.
  eapply (safe_bind0 _ _ (fun o => 0 <= o)).
  { destruct (negb _); [|by apply safe_ret]. eapply safe_mono; [apply safe_vi|done|]. intros o k [-> [? _]]. done. }
  intros off Hoff. eapply (safe_bind0 _ _ (fun n => 0 <= n /\ off + n <= max_quic_varint)).
  { destruct (negb _).
    - safe_fields. eapply safe_mono; [rewrite usize_ok by done; apply safe_lift|done|]. intros n k [-> [= <-]].
      split; [done|]. split; [by apply H0|]. eapply end_offset_le; [done|by apply H0|eassumption].
    - eapply safe_bind0; [apply safe_remaining|]. intros n Hn. safe_fields. apply safe_ret.
      split; [done|]. split; [done|]. by eapply end_offset_le. }
  intros n [Hn Hend]. apply safe_payload; [done|done|]. intros d Hd. cbn. rewrite Hd. auto.
Qed.

Lemma safe_new_cid : safe (decodeNewConnectionId false) 0 (decoded false).
Proof.
  unfold decodeNewConnectionId. safe_fields. eapply safe_bind0; [apply safe_any, safe_byte|]. intros cl _. safe_fields.
  pose proof (byteZ_range cl).
  change (safe (d ← readBytes (byteZ cl) false; errdefer (free d) (t ← readNoEof 16; mret (new_connection_id
    (MkNewConnectionId a a0 d t)))) 0 (decoded false)).
  eapply (safe_owning_P _ free _ (fun d => allocs (zlen d)) (fun d => zlen d = byteZ cl));
    [apply (safe_bytes _ false); lia|intros; apply releases_len|]. intros d Hd.
  eapply safe_bind0; [apply safe_no_eof; lia|]. intros tok Htok. cbn beta in Htok. apply safe_ret.
  unfold validateConnectionIdLen in *. validated. split; [cbn; lia|]. cbn. unfold varint_ok in *. split_and!; done || lia.
Qed.

Lemma safe_body borrow t : borrow = false \/ t <> frameTypeId T_new_connection_id ->
  safe (decode_body borrow t) 0 (decoded borrow).
Proof.
  intros Hbt. unfold decode_body.
  destruct (is_type t T_padding); [by apply safe_ret|]. destruct (is_type t T_ping); [by apply safe_ret|].
  destruct (_ || _).
  { eapply (safe_owning_P _ (fun a => on_reader (deinitAckFrame a)) _ (fun a => allocs (zlen (ranges a))) ack_ok);
      [apply safe_ack|intros; apply releases_heap|]. intros a Ha.
    destruct (is_type t T_ack_ecn); [safe_fields|]; apply safe_ret; (split; [cbn; lia|by cbn]). }
  repeat (match goal with |- safe (if is_type ?t ?T then _ else _) _ _ => destruct (is_type t T) eqn:?  end);
    try apply safe_stream; try apply safe_throw; try by apply safe_ret.
  all: try (safe_fields; first [apply safe_payload; [unfold varint_ok in *; lia|done|intros d Hd; cbn; rewrite ?Hd]|
    apply safe_ret; split; [done|]; cbn];
    unfold validateStreamCount in *; validated; unfold varint_ok in *; split_and?; (lia || (eapply end_offset_le; [lia|lia|eassumption]))).
  destruct Hbt as [->|Ht]; [apply safe_new_cid|]. destruct Ht. by apply Z.eqb_eq.
Qed.

Lemma safe_type : safe decodeFrameType 0 (fun _ k => k = 0) /\ moves decodeFrameType.
Proof.
  assert (forall p : Z * Z, safe (let '(value, len) := p in minimal ← lift (minimalVarIntLen value);
    _ ← guard_not (negb (len =? minimal)) InvalidFrameValue; mret value) 0 (fun _ k => k = 0)) as Hk.
  { intros [v n]. eapply safe_bind0; [apply safe_lift|]. intros m _. eapply safe_bind0; [apply safe_guard|]. intros _ _.
    by apply safe_ret. }
  split; [|by eapply moves_bind; [apply varint_safe_moves|apply safe_varint|exact Hk]].
  eapply safe_bind0; [apply safe_varint|]. intros p _. apply Hk.
Qed.

Lemma varint_one_byte r v r1 : decodeVarInt r = Some (inr (v, 1), r1) ->
  exists b, zget (data r) (rpos r) = Some b /\ byteZ b = v.
Proof.
  unfold decodeVarInt, readByte, mbind, M_bind. destruct (zget (data r) (rpos r)) as [b|]; [|done]. intros E.
  exists b. split; [done|]. pose proof (byteZ_range b) as Hb. revert E.
  assert (Z.shiftr (byteZ b) 6 = byteZ b / 64) as E6 by exact (Z.shiftr_div_pow2 (byteZ b) 6 ltac:(lia)).
  assert (0 <= byteZ b / 64 < 4) as Hq by (split; [apply Z.div_pos|apply Z.div_lt_upper_bound]; lia).
  assert (Z.land (byteZ b) 63 = byteZ b mod 64) as E63 by exact (Z.land_ones (byteZ b) 6 ltac:(lia)).
  rewrite E6, E63. destruct (byteZ b / 64) as [|q|q] eqn:Eq; [|destruct q as [[]|[]|]; try lia|lia].
  - intros [= <- <-]. symmetry. apply Z.mod_small. pose proof (Z.div_mod (byteZ b) 64). pose proof (Z.mod_pos_bound (byteZ b) 64). lia.
  - unfold at_, legal, mret, M_ret. intros. repeat case_match; congruence.
  - unfold at_, legal, mret, M_ret. intros. repeat case_match; congruence.
  - unfold at_, legal, mret, M_ret. intros. repeat case_match; congruence.
Qed.

Lemma type_first r t r1 : decodeFrameType r = Some (inr t, r1) -> t <= 63 ->
  exists b, zget (data r) (rpos r) = Some b /\ byteZ b = t.
Proof.
  unfold decodeFrameType, mbind, M_bind. destruct (decodeVarInt r) as [[[e|[v n]] r']|] eqn:E; try done.
  destruct (minimalVarIntLen v) as [e|m] eqn:Em; [done|]. cbn. destruct (Z.eqb_spec n m) as [->|]; [|done]. cbn.
  intros [= <- <-] Hv. unfold minimalVarIntLen in Em. destruct (Z.leb_spec v 63); [|lia]. injection Em as <-.
  by eapply varint_one_byte.
Qed.

Lemma padding_run_bounds data : 0 <= padding_run data <= zlen data.
Proof. induction data as [|b data IH]; [done|]. rewrite zlen_cons. cbn. destruct (byteZ b =? 0); lia. Qed.

(** What a decoder of a slice promises: it releases everything on an error,
    and on success returns a frame that can be sent, consumes at least one byte
    and leaves exactly the buffers that [deinit] releases. *)
Definition slice_result (borrow : bool) (d : list byte) (l : Z) (res : Err + DecodedFrame) (h : Heap) : Prop :=
  match res with
  | inl _ => heap_live h = l
  | inr dec => frame_ok (frame dec) /\ 1 <= len dec <= zlen d /\ heap_live (deinit borrow (frame dec) h) = l
  end.

Lemma safe_slice_decode borrow d an l : zlen d <= U64_MAX -> borrow = false \/ head d <> Some x18 ->
  wp (decode_slice borrow d (MkHeap an l)) (fun '(res, h) => slice_result borrow d l res h).
Proof.
  intros Hlen Hhd. unfold decode_slice. destruct d as [|b d]; [done|].
  pose proof (padding_run_bounds d). pose proof (zlen_nonneg d). rewrite zlen_cons in Hlen.
  destruct (Z.eqb_spec (byteZ b) (frameTypeId T_padding)) as [E|E].
  { cbn [padding_run wp]. rewrite (proj2 (Z.eqb_eq _ _) E). cbn. rewrite deinit_live, zlen_cons. cbn. lia. }
  set (r := Reader (b :: d) 0 _ _). assert (wf_reader r) as Hr by (unfold wf_reader; cbn [r rpos Codec.data]; rewrite zlen_cons; lia).
  unfold decodeFrameImpl. unfold mbind, M_bind. destruct safe_type as [Hs Hm]. specialize (Hs r Hr). specialize (Hm r Hr).
  destruct (decodeFrameType r) as [[[e|t] r1]|] eqn:Et; cbn in Hs, Hm; [cbn; destruct Hs as (_ & _ & _ & ->); lia| |done].
  destruct Hs as (Hr1 & Hd1 & _ & Hl1). assert (borrow = false \/ t <> frameTypeId T_new_connection_id) as Hbt.
  { destruct Hhd as [->|Hhd]; [by left|]. right. intros ->. destruct (type_first _ _ _ Et) as (b' & Hg & Hb'); [done|].
    injection Hg as <-. apply Hhd. cbn. by rewrite <- (Zbyte_byteZ b), Hb'. }
  pose proof (safe_body borrow t Hbt r1 Hr1) as Hb. destruct (decode_body borrow t r1) as [[[e|f] r2]|]; [| |done].
  - destruct Hb as (_ & _ & _ & Hl2). cbn. lia.
  - destruct Hb as (Hr2 & Hd2 & Hm2 & Hc & Hok). cbn. split; [done|]. unfold wf_reader in Hr2. rewrite Hd2, Hd1 in Hr2.
    cbn [r Codec.data] in Hr2. rewrite deinit_live, zlen_cons in *. cbn [heap_of heap_live]. lia.
Qed.

(** *** The borrowing decoder *)

(** Runs a parser and keeps the shape of the reader. *)
Lemma parses_run {A B} (p : M FixedReader A) bs a k (f : A -> M FixedReader B) r rest (P : option ((Err + B) * FixedReader) -> Prop) :
  parses p bs a k -> wf_reader r -> remaining r = bs ++ rest -> answers r = [] ->
  (forall r', wf_reader r' -> remaining r' = rest -> answers r' = [] -> P (f a r')) -> P ((p ≫= f) r).
Proof.
  intros Hp Hr Hrem Ha Hk. rewrite (bind_ok _ _ _ _ _ (Hp r rest Hr Hrem Ha)).
  destruct (advance_wf r bs rest k Hr Hrem). by apply Hk.
Qed.

Lemma readNoEof_short r n : wf_reader r -> zlen (remaining r) < n -> readNoEof n r = Some (inl EndOfStream, r).
Proof.
  intros Hr Hs. rewrite remaining_len in Hs by done. unfold readNoEof, wf_reader in *.
  destruct (Z.gtb_spec (rpos r) (zlen (data r))); [lia|]. by destruct (Z.ltb_spec (zlen (data r) - rpos r) n); [|lia].
Qed.

(** A NEW_CONNECTION_ID frame whose reset token is cut short. *)
Definition truncated_new_cid (seq retire : Z) (cid tok : list byte) : list byte :=
  x18 :: vi seq ++ vi retire ++ Zbyte (zlen cid) :: cid ++ tok.

Lemma parses_ret_r {A} (p : M FixedReader A) bs a k : parses (p ≫= mret) bs a k -> parses p bs a k.
Proof.
  intros Hp r rest Hr Hrem Ha. rewrite <- (Hp r rest Hr Hrem Ha). unfold mbind, M_bind. by destruct (p r) as [[[]]|].
Qed.

Lemma parses_varint_value v : varint_ok v -> parses varint (vi v) v 0.
Proof. intros Hv. apply parses_ret_r, parses_vi_last; [done|]. apply parses_ret. Qed.

Lemma parses_type_value b : byteZ b <= 63 -> parses decodeFrameType [b] (byteZ b) 0.
Proof. intros Hb. apply parses_ret_r, parses_type; [done|]. apply parses_ret. Qed.

Lemma bind_inr_ok {S A B} (o : Err + A) a (f : A -> M S B) s : o = inr a -> (lift o ≫= f) s = f a s.
Proof. by intros ->. Qed.

Lemma truncated_frees seq retire cid tok l : varint_ok seq -> 0 <= retire <= seq -> 1 <= zlen cid <= 20 -> zlen tok < 16 ->
  decodeFrameSliceBorrowing (truncated_new_cid seq retire cid tok) (MkHeap [] l) = None.
Proof.
  intros Hs Hret Hc Ht. unfold decodeFrameSliceBorrowing, decode_slice, truncated_new_cid.
  change (byteZ x18 =? frameTypeId T_padding) with false. cbv iota. cbn [heap_answers heap_live].
  match goal with |- match decodeFrameImpl true ?r with _ => _ end = _ => set (r0 := r) end.
  assert (decodeFrameImpl true r0 = None) as ->; [|done].
  assert (wf_reader r0) by (unfold wf_reader; cbn [r0 rpos data]; pose proof (zlen_nonneg (data r0)); cbn [r0 data] in *; lia).
  assert (varint_ok retire) by (unfold varint_ok in *; lia).
  eapply (parses_run _ [x18] _ 0 _ r0 _ (fun o => o = None)); [by apply parses_type_value|done|reflexivity|done|].
  intros r1 Hr1 Hrem1 Ha1. change (decodeNewConnectionId true r1 = None). unfold decodeNewConnectionId.
  eapply (parses_run _ _ _ 0 _ r1 _ (fun o => o = None)); [by apply (parses_varint_value seq)|done|exact Hrem1|done|].
  intros r2 Hr2 Hrem2 Ha2.
  eapply (parses_run _ _ _ 0 _ r2 _ (fun o => o = None)); [by apply (parses_varint_value retire)|done|exact Hrem2|done|].
  intros r3 Hr3 Hrem3 Ha3.
  eapply (parses_run _ [_] _ 0 _ r3 _ (fun o => o = None)); [apply parses_byte|done|exact Hrem3|done|].
  intros r4 Hr4 Hrem4 Ha4. rewrite byteZ_Zbyte by lia. rewrite (bind_inr_ok _ tt) by (apply cid_ok; lia).
  rewrite gtb_false by lia. rewrite (bind_ok (guard_not false _) _ r4 tt r4) by done.
  eapply (parses_run _ cid cid 0 _ r4 tok (fun o => o = None)); [exact (parses_no_eof cid _ eq_refl)|done|exact Hrem4|done|].
  intros r5 Hr5 Hrem5 _. unfold errdefer_free, mbind, M_bind. rewrite readNoEof_short by (rewrite ?Hrem5; done).
  by destruct (Z.eqb_spec (zlen cid) 0); [lia|].
Qed.

(** C24: when decoding is safe, in both modes. On any payload and with any
    answers of the allocator, the owning decoder [decodeFrameSlice] does
    nothing illegal; on an error it has released every buffer; a frame it
    returns is one RFC 9000 allows, took between one byte and the whole
    payload, and [deinitFrame] releases exactly the buffers it owns. The
    borrowing decoder [decodeFrameSliceBorrowing] of the receive path promises
    the same on every payload that does not start with a NEW_CONNECTION_ID
    frame; on a NEW_CONNECTION_ID frame whose stateless reset token is cut
    short it is not safe: it passes the connection id, a slice of the packet,
    to [allocator.free]. *)
Theorem frame_decode_safe :
  (forall d allocator l, zlen d <= U64_MAX ->
     wp (decodeFrameSlice d (MkHeap allocator l)) (fun '(res, h) => slice_result false d l res h)) /\
  (forall d allocator l, zlen d <= U64_MAX -> head d <> Some x18 ->
     wp (decodeFrameSliceBorrowing d (MkHeap allocator l)) (fun '(res, h) => slice_result true d l res h)) /\
  (forall seq retire cid tok l, 0 <= retire <= seq -> seq <= max_quic_varint -> 1 <= zlen cid <= 20 -> zlen tok < 16 ->
     decodeFrameSliceBorrowing (truncated_new_cid seq retire cid tok) (MkHeap [] l) = None).
Proof.
  split_and!.
  - intros d an l Hlen. apply safe_slice_decode; auto.
  - intros d an l Hlen Hhd. apply safe_slice_decode; auto.
  - intros. apply truncated_frees; unfold varint_ok; lia.
Qed.

(** Types above 63 whose low byte is that of a STREAM frame are decoded as one. *)
Lemma stream_type_aliased borrow t : 63 < t -> Z.land t 248 = 8 -> decode_body borrow t = decodeStream t borrow.
Proof.
  intros Ht Hm. unfold decode_body, is_type. rewrite Hm. cbn [frameTypeId].
  repeat match goal with |- context [t =? ?n] => rewrite (proj2 (Z.eqb_neq t n)) by lia end. done.
Qed.

(** The unknown frame type 0x108 reads as STREAM 0x08. *)
Lemma frame_type_mask_aliases :
  decodeFrameSlice [x41; x08; x05; xaa; xbb] (MkHeap [] 0) =
  Some (inr (MkDecoded (stream (MkStream 5 0 false [xaa; xbb])) 5), MkHeap [] 1).
Proof. by vm_compute. Qed.

(** ** Concrete frames *)

Definition sample_stream : Frame := stream (MkStream 4 100 true [xaa; xbb]).

Lemma frame_roundtrip_witness :
  frame_ok sample_stream /\ exists bs, emits (encodeFrame sample_stream) bs /\ forall borrow trailing l,
    separates sample_stream trailing ->
    wp (decode_slice borrow (bs ++ trailing) (MkHeap [] l)) (fun '(res, h) =>
      res = inr (MkDecoded sample_stream (zlen bs)) /\ heap_live (deinit borrow sample_stream h) = l).
Proof. apply (frame_roundtrip sample_stream). vm_compute. repeat split; congruence. Defined.

Lemma frame_decode_safe_witness :
  wp (decodeFrameSlice [x18; x01; x00; x01; xaa] (MkHeap [true; false] 3))
    (fun '(res, h) => slice_result false [x18; x01; x00; x01; xaa] 3 res h) /\
  wp (decodeFrameSliceBorrowing [x06; x00; x01; xaa] (MkHeap [] 3))
    (fun '(res, h) => slice_result true [x06; x00; x01; xaa] 3 res h) /\
  decodeFrameSliceBorrowing (truncated_new_cid 1 0 [xaa] []) (MkHeap [] 0) = None.
Proof.
  destruct frame_decode_safe as (Hown & Hborrow & Hfree). split_and!.
  - apply Hown. by vm_compute.
  - apply Hborrow; [by vm_compute|done].
  - apply Hfree; by vm_compute.
Defined.

End FrameProps.
