(* ===== verification/FramePayload.v ===== *)
(** * Frame payloads (src/quic/frame_payload.zig, frame_rules.zig, transport_error.zig)

    Which frames a packet type admits, the close error a received payload
    deserves, and the proof that the loop over the frames of a payload ends and
    reports the first violation. *)
From Stdlib Require Import String.
From S2P Require Import Prelude Codec CodecSafe Frame FrameProps.
Import Codec Safe Frame FrameProps.
Local Open Scope Z_scope.

Module FramePayload.

(** ** Frame rules *)

Inductive PacketNumberSpace : Type := sp_initial | sp_handshake | sp_application.
Inductive FramePacketType : Type := pt_initial | pt_zero_rtt | pt_handshake | pt_one_rtt.

(** [unnamed_code] is a value of the non-exhaustive enum without a name. *)
Inductive TransportErrorCode : Type :=
  | no_error | internal_error | connection_refused | flow_control_error | stream_limit_error | stream_state_error
  | final_size_error | frame_encoding_error | transport_parameter_error | connection_id_limit_error | protocol_violation
  | invalid_token | application_error | crypto_buffer_exceeded | key_update_error | aead_limit_reached | no_viable_path
  | version_negotiation_error | unnamed_code (value : Z).

Definition codeValue (code : TransportErrorCode) : Z :=
  match code with
  | no_error => 0 | internal_error => 1 | connection_refused => 2 | flow_control_error => 3 | stream_limit_error => 4
  | stream_state_error => 5 | final_size_error => 6 | frame_encoding_error => 7 | transport_parameter_error => 8
  | connection_id_limit_error => 9 | protocol_violation => 10 | invalid_token => 11 | application_error => 12
  | crypto_buffer_exceeded => 13 | key_update_error => 14 | aead_limit_reached => 15 | no_viable_path => 16
  | version_negotiation_error => 17 | unnamed_code value => value
  end.

(** The loop of [ackFrameRangesAreValid], from the smallest number so far. *)
Fixpoint ranges_are_valid (range_smallest : Z) (rs : list AckRange) : bool :=
  match rs with
  | [] => true
  | range :: rs =>
      match add64 (gap range) 2 with
      | None => false
      | Some skipped =>
          if range_smallest <? skipped then false else
          let range_largest := range_smallest - skipped in
          if ack_range range >? range_largest then false else
          ranges_are_valid (range_largest - ack_range range) rs
      end
  end.

Definition ackFrameRangesAreValid (a : AckFrame) : bool :=
  if first_ack_range a >? largest_acknowledged a then false else
  ranges_are_valid (largest_acknowledged a - first_ack_range a) (ranges a).

Fixpoint ranges_contain (range_smallest : Z) (rs : list AckRange) (packet_number : Z) : bool :=
  match rs with
  | [] => false
  | range :: rs =>
      match add64 (gap range) 2 with
      | None => false
      | Some skipped =>
          if range_smallest <? skipped then false else
          let range_largest := range_smallest - skipped in
          if ack_range range >? range_largest then false else
          let range_smallest := range_largest - ack_range range in
          if (packet_number >=? range_smallest) && (packet_number <=? range_largest) then true else
          ranges_contain range_smallest rs packet_number
      end
  end.

Definition ackFrameContains (a : AckFrame) (packet_number : Z) : bool :=
  if first_ack_range a >? largest_acknowledged a then false else
  let range_smallest := largest_acknowledged a - first_ack_range a in
  if (packet_number >=? range_smallest) && (packet_number <=? largest_acknowledged a) then true else
  ranges_contain range_smallest (ranges a) packet_number.

Definition frameIsAckEliciting (decoded : Frame) : bool :=
  match decoded with
  | padding _ | ack _ | ack_ecn _ | connection_close _ | application_close _ => false
  | _ => true
  end.

Definition frameAllowedInFramePacketType (decoded : Frame) (packet_type : FramePacketType) : bool :=
  match packet_type with
  | pt_initial | pt_handshake =>
      match decoded with
      | padding _ | ping | ack _ | ack_ecn _ | crypto _ | connection_close _ => true
      | _ => false
      end
  | pt_zero_rtt =>
      match decoded with
      | padding _ | ping | reset_stream _ | stop_sending _ | stream _ | max_data _ | max_stream_data _
      | max_streams_bidi _ | max_streams_uni _ | data_blocked _ | stream_data_blocked _ | streams_blocked_bidi _
      | streams_blocked_uni _ | new_connection_id _ | path_challenge _ | connection_close _ | application_close _ => true
      | _ => false
      end
  | pt_one_rtt => true
  end.

Definition defaultFramePacketTypeForSpace (space : PacketNumberSpace) : FramePacketType :=
  match space with sp_initial => pt_initial | sp_handshake => pt_handshake | sp_application => pt_one_rtt end.

Definition packetNumberSpaceForFramePacketType (packet_type : FramePacketType) : PacketNumberSpace :=
  match packet_type with
  | pt_initial => sp_initial | pt_handshake => sp_handshake | pt_zero_rtt | pt_one_rtt => sp_application
  end.

Definition frameAllowedInPacketNumberSpace (decoded : Frame) (space : PacketNumberSpace) : bool :=
  frameAllowedInFramePacketType decoded (defaultFramePacketTypeForSpace space).

Definition framePacketTypeErrorCode (decoded : Frame) (packet_type : FramePacketType) : option TransportErrorCode :=
  if frameAllowedInFramePacketType decoded packet_type then None else Some protocol_violation.

Definition frameDecodeErrorCode (err : Err) : option TransportErrorCode :=
  match err with
  | UnsupportedFrameType | InvalidAckRange | InvalidPaddingLength | InvalidConnectionIdLength
  | InvalidFrameLength | InvalidFrameValue | EndOfStream => Some frame_encoding_error
  | _ => None
  end.

Definition transportParameterErrorCode (err : Err) : option TransportErrorCode :=
  match err with
  | InvalidParameterValue | InvalidParameterLength | DuplicateParameter | InvalidVarInt | EndOfStream =>
      Some transport_parameter_error
  | _ => None
  end.

Definition crypto_error_min : Z := 256.
Definition crypto_error_max : Z := 511.

Definition isKnownFixedCode (raw_code : Z) : bool := (0 <=? raw_code) && (raw_code <=? 17).
Definition isCryptoErrorCode (raw_code : Z) : bool := (raw_code >=? crypto_error_min) && (raw_code <=? crypto_error_max).
Definition isKnownCode (raw_code : Z) : bool := isKnownFixedCode raw_code || isCryptoErrorCode raw_code.
Definition isConnectionCloseCode (code : TransportErrorCode) : bool := isKnownCode (codeValue code).

Definition cryptoErrorCode (tls_alert : Z) : Z := crypto_error_min + tls_alert.

(** [Some None]: the code is not a CRYPTO_ERROR; [None]: the cast to [u8] fails. *)
Definition cryptoErrorAlert (raw_code : Z) : option (option Z) :=
  if negb (isCryptoErrorCode raw_code) then Some None else
  alert ← intCast 255 (raw_code - crypto_error_min); Some (Some alert).

(** The alerts are the CRYPTO_ERROR codes, and the cast never fails. *)
Lemma crypto_error_bijection code alert :
  cryptoErrorAlert code = Some (Some alert) <-> 0 <= alert <= 255 /\ code = cryptoErrorCode alert.
Proof.
  unfold cryptoErrorAlert, cryptoErrorCode, isCryptoErrorCode, crypto_error_min, crypto_error_max, intCast. rewrite Z.geb_leb.
  destruct (Z.leb_spec 256 code), (Z.leb_spec code 511); cbn; try (split; [done|lia]).
  destruct (Z.leb_spec 0 (code - 256)), (Z.leb_spec (code - 256) 255); cbn; try lia. split; [intros [= <-]; lia|].
  intros [? ->]. do 2 f_equal. lia.
Qed.

(** ** Classification of a payload *)

(** [catch return 0]: the reader is local. *)
Definition rawFrameTypeValue (data : list byte) : Z :=
  match decodeVarInt (Reader data 0 [] 0) with Some (inr (value, _), _) => value | _ => 0 end.

Record CloseError : Type := MkCloseError { code : TransportErrorCode; frame_type : Z; reason_phrase : string }.

(** [m catch |err| handler err], then [k]. *)
Definition catch {S A B} (m : M S A) (handler : Err -> M S B) (k : A -> M S B) : M S B := fun s =>
  match m s with
  | None => None
  | Some (inl err, s') => handler err s'
  | Some (inr a, s') => k a s'
  end.

Definition modify {S} (f : S -> S) : M S unit := fun s => Some (inr tt, f s).

(** [while (offset < datagram.len)]; running out of [fuel] is illegal. *)
Fixpoint classify_loop (fuel : nat) (packet_type : FramePacketType) (datagram : list byte) (offset : Z)
    : M Heap (option CloseError) :=
  if negb (offset <? zlen datagram) then mret None else
  match fuel with
  | 0%nat => illegal
  | S fuel =>
      let rest := zdrop offset datagram in
      let frame_type_value := rawFrameTypeValue rest in
      catch (decodeFrameSlice rest)
        (fun err =>
           match err with
           | OutOfMemory => throw OutOfMemory
           | _ => mret (c ← frameDecodeErrorCode err; Some (MkCloseError c frame_type_value "frame encoding"))
           end)
        (fun decoded =>
           if len decoded =? 0 then
             _ ← modify (deinitFrame (frame decoded));
             mret (Some (MkCloseError frame_encoding_error frame_type_value "frame encoding"))
           else
             let close_code := framePacketTypeErrorCode (frame decoded) packet_type in
             _ ← modify (deinitFrame (frame decoded));
             match close_code with
             | Some c => mret (Some (MkCloseError c frame_type_value "packet type"))
             | None => classify_loop fuel packet_type datagram (offset + len decoded)
             end)
  end.

Definition classifyCloseError (packet_type : FramePacketType) (datagram : list byte) : M Heap (option CloseError) :=
  if zlen datagram =? 0 then mret (Some (MkCloseError protocol_violation 0 "empty payload")) else
  classify_loop (length datagram) packet_type datagram 0.

(** ** The loop ends *)

(** What a classification leaves behind: no buffer, and no error but a refused allocation. *)
Definition classified (l : Z) (res : Err + option CloseError) (h : Heap) : Prop :=
  heap_live h = l /\ match res with inl e => e = OutOfMemory | inr _ => True end.

Lemma loop_total pt d l : zlen d <= U64_MAX -> forall fuel off h, heap_live h = l -> 0 <= off -> zlen d - off <= Z.of_nat fuel ->
  wp (classify_loop fuel pt d off h) (fun '(res, h) => classified l res h).
Proof.
  intros Hd fuel. induction fuel as [|fuel IH]; intros off h Hh Hoff Hfuel; cbn [classify_loop];
    destruct (Z.ltb_spec off (zlen d)); cbn [negb]; try (by apply wp_ret); [lia|]. cbv zeta.
  pose proof (zlen_zdrop off d ltac:(lia)) as Hl. destruct h as [an' l']. cbn in Hh. subst l'.
  pose proof (safe_slice_decode false (zdrop off d) an' l ltac:(lia) (or_introl eq_refl)) as Hs.
  unfold catch, decodeFrameSlice. destruct (decode_slice false (zdrop off d) (MkHeap an' l)) as [[[e|dec] h1]|]; [| |done].
  - cbn in Hs. subst l. by destruct e.
  - destruct Hs as (_ & Hlen & Hlive). rewrite (proj2 (Z.eqb_neq (len dec) 0)) by lia.
    unfold modify, mbind, M_bind. cbn [deinit] in Hlive. destruct (framePacketTypeErrorCode (frame dec) pt); [by apply wp_ret|].
    apply IH; [done|lia|lia].
Qed.

(** classification terminates on every payload. Whatever the bytes, the
    packet type and the allocator's answers are, the loop over the frames ends
    within as many rounds as the payload has bytes, does nothing illegal and
    leaks no buffer, and its only error is a refused allocation. *)
Theorem payload_classify_total (pt : FramePacketType) (d : list byte) (allocator : list bool) (l : Z)
    (Hlen : zlen d <= U64_MAX) :
  wp (classifyCloseError pt d (MkHeap allocator l)) (fun '(res, h) => classified l res h).
Proof.
  unfold classifyCloseError. destruct (zlen d =? 0); [by apply wp_ret|].
  apply (loop_total pt d l Hlen); [done|lia|unfold zlen; lia].
Qed.

(** ** The loop reports the first violation *)

Definition type_of (f : Frame) : Z :=
  match f with
  | padding _ => 0 | ping => 1 | ack _ => 2 | ack_ecn _ => 3 | reset_stream _ => 4 | stop_sending _ => 5
  | crypto _ => 6 | new_token _ => 7 | stream f => stream_type f | max_data _ => 16 | max_stream_data _ => 17
  | max_streams_bidi _ => 18 | max_streams_uni _ => 19 | data_blocked _ => 20 | stream_data_blocked _ => 21
  | streams_blocked_bidi _ => 22 | streams_blocked_uni _ => 23 | new_connection_id _ => 24
  | retire_connection_id _ => 25 | path_challenge _ => 26 | path_response _ => 27 | connection_close _ => 28
  | application_close _ => 29 | handshake_done => 30 | datagram _ => 49
  end.

Definition payload_bytes (fs : list Frame) : list byte := List.concat (map frame_bytes fs).

Definition is_padding (f : Frame) : bool := match f with padding _ => true | _ => false end.

(** Two PADDING frames in a row would read as one. *)
Fixpoint no_double_padding (fs : list Frame) : bool :=
  match fs with
  | f :: (g :: _) as rest => negb (is_padding f && is_padding g) && no_double_padding rest
  | _ => true
  end.

(** The close error of a payload of well-formed frames. *)
Definition expected_close (pt : FramePacketType) (fs : list Frame) : option CloseError :=
  match fs with
  | [] => Some (MkCloseError protocol_violation 0 "empty payload")
  | _ =>
      match List.find (fun f => negb (frameAllowedInFramePacketType f pt)) fs with
      | Some f => Some (MkCloseError protocol_violation (type_of f) "packet type")
      | None => None
      end
  end.

Lemma frame_first_type f : frame_ok f -> exists b bs, frame_bytes f = b :: bs /\ byteZ b = type_of f /\ 0 <= type_of f <= 63.
Proof.
  intros Hok. destruct f as [p| | | | | | |s| | | | | | | | | | | | | | | | |]; cbn [frame_bytes type_of];
    try (eexists _, _; split; [reflexivity|by vm_compute]).
  - cbn in Hok. exists x00, (repeat x00 (Z.to_nat (pad_len p - 1))). split; [|by vm_compute].
    by replace (Z.to_nat (pad_len p)) with (S (Z.to_nat (pad_len p - 1))) by lia.
  - eexists _, _; split; [reflexivity|]. rewrite <- stream_type_ok.
    assert (0 <= stream_type s <= 63) by (unfold stream_type; by destruct (st_offset s =? 0), (st_fin s); vm_compute).
    rewrite byteZ_Zbyte; lia.
Qed.

Lemma raw_type f rest : frame_ok f -> rawFrameTypeValue (frame_bytes f ++ rest) = type_of f.
Proof.
  intros Hok. destruct (frame_first_type f Hok) as (b & bs & E & Hb & Hr). unfold rawFrameTypeValue.
  set (r := Reader _ _ _ _). assert (wf_reader r) by (unfold wf_reader; cbn; pose proof (zlen_nonneg (frame_bytes f ++ rest)); lia).
  assert (vi (type_of f) = [b]) as Ev.
  { unfold varint_bytes. destruct (Z.leb_spec (type_of f) 63); [|lia]. unfold tagged_be. cbn [be]. f_equal.
    rewrite Z.mul_0_l, Z.add_0_l, Z.div_1_r, <- Hb. apply Zbyte_byteZ. }
  rewrite (parses_varint (type_of f) ltac:(unfold max_quic_varint; lia) r (bs ++ rest)); [done|done| |done].
  unfold remaining. cbn [r rpos data]. rewrite Ev, E. done.
Qed.

Lemma deinit_heap f l : deinitFrame f (MkHeap [] (l + frame_cost false f)) = MkHeap [] l.
Proof.
  destruct f; cbn [deinitFrame frame_cost bytes_cost]; unfold deinitAckFrame, heap_free, allocs;
    try (destruct (_ =? 0)); cbn; f_equal; lia.
Qed.

Lemma payload_separates f fs : Forall frame_ok (f :: fs) -> no_double_padding (f :: fs) = true ->
  separates f (payload_bytes fs) /\ no_double_padding fs = true.
Proof.
  intros Hok Hn. destruct fs as [|g fs]; [by destruct f|]. cbn [no_double_padding] in Hn.
  apply andb_true_iff in Hn as [Hn Hrest]. split; [|exact Hrest]. destruct f; try done. cbn in Hn.
  assert (frame_ok g) as Hg by (by inversion_clear Hok as [|? ? _ Ht]; inversion_clear Ht). destruct (frame_first_type g Hg) as (b & bs & E & Hb & _).
  unfold separates, payload_bytes. cbn [map List.concat]. rewrite E. cbn [app padding_run].
  destruct (Z.eqb_spec (byteZ b) (frameTypeId T_padding)) as [Ez|]; [|done]. rewrite Hb in Ez. cbn in Ez.
  destruct g as [| | | | | | |s| | | | | | | | | | | | | | | | |]; try done. unfold type_of, stream_type in Ez.
  by destruct (st_offset s =? 0), (st_fin s).
Qed.

Lemma loop_exact pt l : forall fs fuel pre, Forall frame_ok fs -> no_double_padding fs = true ->
  zlen (payload_bytes fs) <= Z.of_nat fuel ->
  classify_loop fuel pt (pre ++ payload_bytes fs) (zlen pre) (MkHeap [] l) =
  Some (inr (f ← List.find (fun f => negb (frameAllowedInFramePacketType f pt)) fs;
             Some (MkCloseError protocol_violation (type_of f) "packet type")), MkHeap [] l).
Proof.
  induction fs as [|f fs IH]; intros fuel pre Hok Hsep Hfuel.
  { cbn. rewrite app_nil_r. destruct fuel; cbn [classify_loop]; by rewrite Z.ltb_irrefl. }
  destruct (payload_separates f fs Hok Hsep) as [Hs Hsep']. inversion_clear Hok as [|? ? Hf Hfs].
  destruct (frame_first_type f Hf) as (b & bs & E & _ & _).
  pose proof (zlen_nonneg (payload_bytes fs)). pose proof (zlen_nonneg pre). pose proof (zlen_nonneg bs).
  assert (payload_bytes (f :: fs) = frame_bytes f ++ payload_bytes fs) as Ep by done. rewrite Ep in *.
  assert (1 <= zlen (frame_bytes f)) by (rewrite E, zlen_cons; lia). rewrite zlen_app in Hfuel.
  destruct fuel as [|fuel]; [lia|]. cbn [classify_loop].
  rewrite !zlen_app. destruct (Z.ltb_spec (zlen pre) (zlen pre + (zlen (frame_bytes f) + zlen (payload_bytes fs)))); [|lia].
  cbn [negb]. cbv zeta. rewrite zdrop_app_exact by done. rewrite raw_type by done. unfold catch, decodeFrameSlice.
  rewrite slice_roundtrip by done. cbn [len frame]. rewrite (proj2 (Z.eqb_neq _ 0)) by lia.
  unfold modify. rewrite (bind_ok _ _ _ tt (MkHeap [] l)) by (by rewrite deinit_heap). cbn [List.find].
  unfold framePacketTypeErrorCode. destruct (frameAllowedInFramePacketType f pt); [|done]. cbn [negb].
  rewrite <- zlen_app, app_assoc. apply IH; [done|done|lia].
Qed.

(** C20: classification is exact. A payload made of well-formed frames gets no
    close error when the packet type admits all of them; otherwise it gets a
    PROTOCOL_VIOLATION with the type of the first frame that is not admitted,
    and an empty payload is a PROTOCOL_VIOLATION as well. No buffer is leaked. *)
Theorem payload_classify_exact (pt : FramePacketType) (fs : list Frame) (l : Z)
    (Hok : Forall frame_ok fs) (Hsep : no_double_padding fs = true) :
  classifyCloseError pt (payload_bytes fs) (MkHeap [] l) = Some (inr (expected_close pt fs), MkHeap [] l).
Proof.
  unfold classifyCloseError. destruct fs as [|f fs]; [done|].
  destruct (Z.eqb_spec (zlen (payload_bytes (f :: fs))) 0) as [Hz|Hz].
  - inversion_clear Hok as [|? ? Hf _]. destruct (frame_first_type f Hf) as (b & bs & E & _).
    unfold payload_bytes in Hz. cbn [map List.concat] in Hz. rewrite E in Hz. cbn [app] in Hz. rewrite zlen_cons in Hz.
    pose proof (zlen_nonneg (bs ++ List.concat (map frame_bytes fs))). lia.
  - pose proof (loop_exact pt l (f :: fs) (length (payload_bytes (f :: fs))) [] Hok Hsep) as Hloop.
    cbn [app] in Hloop. change (zlen (@nil byte)) with 0 in Hloop. rewrite Hloop by (unfold zlen; lia).
    unfold expected_close. by destruct (List.find _ _).
Qed.

(** ** Concrete payloads *)

Lemma payload_classify_total_witness :
  wp (classifyCloseError pt_zero_rtt [x01; x02; x41] (MkHeap [false] 0)) (fun '(res, h) => classified 0 res h).
Proof. apply (payload_classify_total pt_zero_rtt [x01; x02; x41] [false] 0). by vm_compute. Defined.

Lemma payload_classify_exact_witness :
  classifyCloseError pt_initial (payload_bytes [ping; handshake_done; ping]) (MkHeap [] 0) =
  Some (inr (Some (MkCloseError protocol_violation 30 "packet type")), MkHeap [] 0).
Proof. apply (payload_classify_exact pt_initial [ping; handshake_done; ping] 0); [repeat constructor|reflexivity]. Defined.

End FramePayload.
