(* ===== verification/RecvRanges.v ===== *)
(** * Received packet numbers (src/quic/packet_number_space.zig)

    The bounded history of received packet numbers: an array of at most 32
    intervals, from the largest numbers down, that rejects duplicates and from
    which ACK frames are built. *)
From S2P Require Import Prelude Codec Frame FramePayload.
Import Codec Frame FramePayload.
Local Open Scope Z_scope.

Module RecvRanges.

Record ReceivedPacketRange : Type := MkRecv { smallest : Z; largest : Z }.

Definition max_ranges : Z := 32.

(** The arrays hold [undefined] values past [count] and past the last ACK built. *)
Record ReceivedPacketRanges : Type := MkRecvRanges {
  rr_ranges : list ReceivedPacketRange;   (* [max_ranges] *)
  rr_count : Z;
  rr_ack_ranges : list AckRange;          (* [max_ranges - 1] *)
  forgotten_through : option Z;
}.

#[export] Instance eta_recv_ranges : Eta ReceivedPacketRanges := fun s =>
  MkRecvRanges (rr_ranges s) (rr_count s) (rr_ack_ranges s) (forgotten_through s).

(** [.{}], with the contents of the uninitialised arrays. *)
Definition empty_ranges (junk : list ReceivedPacketRange) (junk_ack : list AckRange) : ReceivedPacketRanges :=
  MkRecvRanges junk 0 junk_ack None.

Definition isImmediatelyBefore (previous next : Z) : bool := if previous =? U64_MAX then false else previous + 1 =? next.

(** ** Queries *)

Fixpoint contains_loop (rs : list ReceivedPacketRange) (packet_number : Z) : bool :=
  match rs with
  | [] => false
  | range :: rs => if packet_number >? largest range then contains_loop rs packet_number else packet_number >=? smallest range
  end.

Definition contains (s : ReceivedPacketRanges) (packet_number : Z) : bool :=
  contains_loop (ztake (rr_count s) (rr_ranges s)) packet_number.

(** The loop of [canRecord] over the first [count] ranges. *)
Fixpoint can_record_loop (rs : list ReceivedPacketRange) (count packet_number : Z) : bool :=
  match rs with
  | [] => count <? max_ranges
  | range :: rs =>
      if packet_number >? largest range then true
      else if packet_number >=? smallest range then false
      else if isImmediatelyBefore packet_number (smallest range) then true
      else can_record_loop rs count packet_number
  end.

Definition canRecord (s : ReceivedPacketRanges) (packet_number : Z) : bool :=
  match forgotten_through s with
  | Some forgotten =>
      if packet_number <=? forgotten then false
      else can_record_loop (ztake (rr_count s) (rr_ranges s)) (rr_count s) packet_number
  | None => can_record_loop (ztake (rr_count s) (rr_ranges s)) (rr_count s) packet_number
  end.

Definition nextExpectedPacketNumber (s : ReceivedPacketRanges) : option Z :=
  if rr_count s =? 0 then Some 0 else
  first ← zget (rr_ranges s) 0;
  Some (if largest first =? U64_MAX then largest first else largest first + 1).

(** ** Updates *)

(** [copyForwards] and [copyBackwards] of [n] elements within one array; slices past its end are illegal. *)
Definition copy_within {A} (l : list A) (dst src n : Z) : option (list A) :=
  if (0 <=? dst) && (0 <=? src) && (0 <=? n) && (dst + n <=? zlen l) && (src + n <=? zlen l)
  then Some (ztake dst l ++ ztake n (zdrop src l) ++ zdrop (dst + n) l) else None.

(** [l[i] = x]; past the end is illegal. *)
Definition store_at {A} (l : list A) (i : Z) (x : A) : option (list A) := _ ← zget l i; Some (zset l i x).

(** The branch of [insert] on a full array: the last range is forgotten. *)
Definition forget_last (s : ReceivedPacketRanges) : option ReceivedPacketRanges :=
  last ← zget (rr_ranges s) (rr_count s - 1);
  let forgotten := largest last in
  Some (s <| forgotten_through := Some (match forgotten_through s with
                                        | Some previous => Z.max previous forgotten
                                        | None => forgotten
                                        end) |> <| rr_count := rr_count s - 1 |>).

(** The rest of [insert]: the ranges from [index] move up by one. *)
Definition place (s : ReceivedPacketRanges) (index : Z) (range : ReceivedPacketRange) : option (bool * ReceivedPacketRanges) :=
  n ← sub64 (rr_count s) index;
  moved ← copy_within (rr_ranges s) (index + 1) index n;
  moved ← store_at moved index range;
  Some (true, s <| rr_ranges := moved |> <| rr_count := rr_count s + 1 |>).

(** [None]: an index out of bounds. *)
Definition insert (s : ReceivedPacketRanges) (index : Z) (range : ReceivedPacketRange) : option (bool * ReceivedPacketRanges) :=
  if (rr_count s =? max_ranges) && (index =? rr_count s) then Some (false, s) else
  s ← (if rr_count s =? max_ranges then forget_last s else Some s);
  place s index range.

Definition remove (s : ReceivedPacketRanges) (index : Z) : option ReceivedPacketRanges :=
  last ← sub64 (rr_count s) 1;
  n ← sub64 last index;
  moved ← copy_within (rr_ranges s) index (index + 1) n;
  Some (s <| rr_ranges := moved |> <| rr_count := last |>).

(** A packet number just above [range], at [index]. *)
Definition extend_up (s : ReceivedPacketRanges) (index packet_number : Z) (range : ReceivedPacketRange)
    : option (bool * ReceivedPacketRanges) :=
  moved ← store_at (rr_ranges s) index (MkRecv (smallest range) packet_number);
  let s := s <| rr_ranges := moved |> in
  if negb (index =? 0) then
    previous ← zget (rr_ranges s) (index - 1);
    if isImmediatelyBefore packet_number (smallest previous) then
      current ← zget (rr_ranges s) index;
      moved ← store_at (rr_ranges s) (index - 1) (MkRecv (smallest current) (largest previous));
      s ← remove (s <| rr_ranges := moved |>) index;
      Some (true, s)
    else Some (true, s)
  else Some (true, s).

(** A packet number just below [range], at [index]. *)
Definition extend_down (s : ReceivedPacketRanges) (index packet_number : Z) (range : ReceivedPacketRange)
    : option (bool * ReceivedPacketRanges) :=
  moved ← store_at (rr_ranges s) index (MkRecv packet_number (largest range));
  let s := s <| rr_ranges := moved |> in
  if index + 1 <? rr_count s then
    next ← zget (rr_ranges s) (index + 1);
    if isImmediatelyBefore (largest next) packet_number then
      current ← zget (rr_ranges s) index;
      moved ← store_at (rr_ranges s) index (MkRecv (smallest next) (largest current));
      s ← remove (s <| rr_ranges := moved |>) (index + 1);
      Some (true, s)
    else Some (true, s)
  else Some (true, s).

(** The loop of [record]; [None]: an index out of bounds, or out of fuel. *)
Fixpoint record_loop (fuel : nat) (s : ReceivedPacketRanges) (index packet_number : Z) : option (bool * ReceivedPacketRanges) :=
  if negb (index <? rr_count s) then insert s (rr_count s) (MkRecv packet_number packet_number) else
  match fuel with
  | 0%nat => None
  | S fuel =>
      range ← zget (rr_ranges s) index;
      if packet_number >? largest range then
        if isImmediatelyBefore (largest range) packet_number then extend_up s index packet_number range
        else insert s index (MkRecv packet_number packet_number)
      else if packet_number >=? smallest range then Some (false, s)
      else if isImmediatelyBefore packet_number (smallest range) then extend_down s index packet_number range
      else record_loop fuel s (index + 1) packet_number
  end.

Definition record (s : ReceivedPacketRanges) (packet_number : Z) : option (bool * ReceivedPacketRanges) :=
  if negb (canRecord s packet_number) then Some (false, s) else record_loop (Z.to_nat max_ranges) s 0 packet_number.

(** ** ACK frames *)

(** The loop over [ranges[1..count]]. *)
Fixpoint ack_loop (rs : list ReceivedPacketRange) (index : Z) (s : ReceivedPacketRanges) : option ReceivedPacketRanges :=
  match rs with
  | [] => Some s
  | range :: rs =>
      previous ← zget (rr_ranges s) index;
      d ← sub64 (smallest previous) (largest range);
      g ← sub64 d 2;
      w ← sub64 (largest range) (smallest range);
      acks ← store_at (rr_ack_ranges s) index (MkRange g w);
      ack_loop rs (index + 1) (s <| rr_ack_ranges := acks |>)
  end.

(** The slice [ack_ranges[0 .. count - 1]] is returned as its contents. *)
Definition ackFrame (s : ReceivedPacketRanges) : option (option AckFrame * ReceivedPacketRanges) :=
  if rr_count s =? 0 then Some (None, s) else
  largest_range ← zget (rr_ranges s) 0;
  s ← ack_loop (zdrop 1 (ztake (rr_count s) (rr_ranges s))) 0 s;
  first ← sub64 (largest largest_range) (smallest largest_range);
  n ← sub64 (rr_count s) 1;
  if n >? zlen (rr_ack_ranges s) then None else
  Some (Some (MkAck (largest largest_range) 0 first (ztake n (rr_ack_ranges s))), s).

(** ** The calls of a connection *)

(** The part of a packet number space these calls use. *)
Record PacketSpace : Type := MkSpace {
  discarded : bool;
  received_packet_ranges : ReceivedPacketRanges;
  next_peer_packet_number : Z;
  pending_ack_largest : option Z;
}.

#[export] Instance eta_space : Eta PacketSpace := fun s =>
  MkSpace (discarded s) (received_packet_ranges s) (next_peer_packet_number s) (pending_ack_largest s).

(** A new space; the arrays of its ranges are uninitialised. *)
Definition new_space (junk : list ReceivedPacketRange) (junk_ack : list AckRange) : PacketSpace :=
  MkSpace false (empty_ranges junk junk_ack) 0 None.

Definition recordReceivedPacketNumber (s : PacketSpace) (packet_number : Z) : option ((Err + bool) * PacketSpace) :=
  if packet_number >? max_quic_varint then Some (inl InvalidPacket, s) else
  '(inserted, rs) ← record (received_packet_ranges s) packet_number;
  let s := s <| received_packet_ranges := rs |> in
  if inserted : bool then
    next ← nextExpectedPacketNumber (received_packet_ranges s);
    Some (inr inserted, s <| next_peer_packet_number := next |>)
  else Some (inr inserted, s).

Definition queueAckForReceivedPacket (s : PacketSpace) (received_packet_number : option Z) : option ((Err + unit) * PacketSpace) :=
  if discarded s then Some (inl InvalidPacket, s) else
  let packet_number := default (next_peer_packet_number s) received_packet_number in
  '(res, s) ← recordReceivedPacketNumber s packet_number;
  match res with
  | inl e => Some (inl e, s)
  | inr false => Some (inr tt, s)
  | inr true =>
      first ← zget (rr_ranges (received_packet_ranges s)) 0;
      Some (inr tt, s <| pending_ack_largest := Some (largest first) |>)
  end.

(** The packet number side of processing a protected packet
    ([processProtectedLongDatagramWithRoute] and
    [processDecodedProtectedShortDatagram]): a number that cannot be recorded
    is dropped; an ack-eliciting packet, on a connection that is not closed,
    queues an ACK; then the number is recorded, which for an ack-eliciting
    packet is the second time. *)
Definition processPacketNumber (s : PacketSpace) (packet_number : Z) (ack_eliciting : bool) : option ((Err + unit) * PacketSpace) :=
  if discarded s then Some (inl InvalidPacket, s) else
  if negb (canRecord (received_packet_ranges s) packet_number) then Some (inr tt, s) else
  '(res, s) ← (if ack_eliciting then queueAckForReceivedPacket s (Some packet_number) else Some (inr tt, s));
  match res with
  | inl e => Some (inl e, s)
  | inr _ =>
      '(res, s) ← recordReceivedPacketNumber s packet_number;
      Some (match res with inl e => inl e | inr _ => inr tt end, s)
  end.

Definition pendingAckFrame (s : PacketSpace) : option (option AckFrame * PacketSpace) :=
  match pending_ack_largest s with
  | None => Some (None, s)
  | Some _ => '(a, rs) ← ackFrame (received_packet_ranges s); Some (a, s <| received_packet_ranges := rs |>)
  end.

(** What sending a packet with the pending ACK frame does to these fields. *)
Definition ack_sent (s : PacketSpace) : PacketSpace := s <| pending_ack_largest := None |>.

(** What [discardPacketNumberSpaceState] does to these fields. *)
Definition discard_space (junk : list ReceivedPacketRange) (junk_ack : list AckRange) (s : PacketSpace) : PacketSpace :=
  if discarded s then s else
  s <| discarded := true |> <| pending_ack_largest := None |> <| received_packet_ranges := empty_ranges junk junk_ack |>.

End RecvRanges.
