(* ===== verification/RecvRangesProps.v ===== *)
(** * Received packet numbers: correctness

    The array operations refine a function on the list of live ranges, and
    that function a set of packet numbers: what was accepted, less what was
    forgotten to bound memory. *)
From S2P Require Import Prelude Codec Frame FrameProps FramePayload RecvRanges.
Import Codec Frame FrameProps FramePayload RecvRanges.
Local Open Scope Z_scope.

Module RecvRangesProps.

(** ** The list of live ranges *)

(** The live ranges, in front of [undefined] elements. *)
Record holds (s : ReceivedPacketRanges) (l : list ReceivedPacketRange) : Prop := Holds {
  holds_ranges : exists junk, rr_ranges s = l ++ junk;
  holds_count : rr_count s = zlen l;
  holds_cap : zlen (rr_ranges s) = 32;
  holds_acks : zlen (rr_ack_ranges s) = 31;
}.

Definition in_range (r : ReceivedPacketRange) (x : Z) : Prop := smallest r <= x <= largest r.
Definition covers (l : list ReceivedPacketRange) (x : Z) : Prop := Exists (fun r => in_range r x) l.

#[export] Instance in_range_dec r x : Decision (in_range r x) := ltac:(unfold in_range; apply _).
#[export] Instance covers_dec l x : Decision (covers l x) := ltac:(unfold covers; apply _).

Definition range_ok (r : ReceivedPacketRange) : Prop := 0 <= smallest r <= largest r /\ largest r <= U64_MAX.

(** [b] is below [a], with a gap of at least one number. *)
Definition above (a b : ReceivedPacketRange) : Prop := largest b + 1 < smallest a.

Fixpoint descending (l : list ReceivedPacketRange) : Prop :=
  match l with
  | [] => True
  | r :: l => range_ok r /\ Forall (above r) l /\ descending l
  end.

(** ** The reference: recording a number in a list of ranges *)

(** [None]: the number is already there. *)
Fixpoint rec_list (l : list ReceivedPacketRange) (x : Z) : option (list ReceivedPacketRange) :=
  match l with
  | [] => Some [MkRecv x x]
  | r :: l =>
      if x >? largest r then
        Some (if largest r + 1 =? x then MkRecv (smallest r) x :: l else MkRecv x x :: r :: l)
      else if x >=? smallest r then None
      else if x + 1 =? smallest r then
        Some match l with
             | [] => [MkRecv x (largest r)]
             | r2 :: l2 => if largest r2 + 1 =? x then MkRecv (smallest r2) (largest r) :: l2 else MkRecv x (largest r) :: l
             end
      else l' ← rec_list l x; Some (r :: l')
  end.

(** A list longer than the array loses its last range. *)
Definition forgets (f : option Z) (x : Z) : Prop := match f with Some b => x <= b | None => False end.
Definition forget (f : option Z) (r : ReceivedPacketRange) : option Z :=
  Some match f with Some b => Z.max b (largest r) | None => largest r end.

(** *** Its meaning as a set *)

Lemma descending_cons_below r l x : descending (r :: l) -> covers l x -> x + 1 < smallest r.
Proof.
  intros (_ & Ha & _) Hc. unfold covers in Hc. rewrite Exists_exists in Hc. destruct Hc as (b & Hb & Hx).
  rewrite Forall_forall in Ha. specialize (Ha b Hb). unfold above, in_range in *. lia.
Qed.

Lemma covers_cons r l x : covers (r :: l) x <-> in_range r x \/ covers l x.
Proof. apply Exists_cons. Qed.

Lemma covers_nil x : covers [] x <-> False.
Proof. apply Exists_nil. Qed.

(** A number is refused exactly when it is there. *)
Lemma rec_list_None l x : descending l -> rec_list l x = None <-> covers l x.
Proof.
  induction l as [|r l IH]; intros Hd; simpl; rewrite ?covers_nil, ?covers_cons; [done|].
  pose proof (descending_cons_below r l x Hd) as Hb. destruct Hd as (Hr & _ & Hd).
  unfold range_ok, in_range in *. rewrite Z.gtb_ltb, Z.geb_leb.
  destruct (Z.ltb_spec (largest r) x); [split; [done|]; intros [?|?%Hb]; lia|].
  destruct (Z.leb_spec (smallest r) x); [split; [|done]; intros _; left; lia|].
  destruct (Z.eqb_spec (x + 1) (smallest r)); [split; [done|]; intros [?|?%Hb]; lia|].
  rewrite <-(IH Hd). destruct (rec_list l x); simpl; split; naive_solver lia.
Qed.

(** The numbers covered are the old ones and the new one. *)
Lemma rec_list_covers l x l' y : descending l -> rec_list l x = Some l' -> covers l' y <-> y = x \/ covers l y.
Proof.
  revert l'. induction l as [|r l IH]; intros l' Hd; simpl.
  { intros [= <-]. rewrite covers_cons, covers_nil. unfold in_range; simpl. lia. }
  destruct Hd as (Hr & Ha & Hd). unfold range_ok in Hr. rewrite Z.gtb_ltb, Z.geb_leb.
  destruct (Z.ltb_spec (largest r) x).
  { intros [= <-]. destruct (Z.eqb_spec (largest r + 1) x); rewrite !covers_cons; unfold in_range; simpl; intuition lia. }
  destruct (Z.leb_spec (smallest r) x); [done|].
  destruct (Z.eqb_spec (x + 1) (smallest r)).
  { intros [= <-]. destruct l as [|r2 l2]; [rewrite !covers_cons; unfold in_range; simpl; intuition lia|].
    destruct Hd as (Hr2 & _). unfold range_ok in Hr2.
    destruct (Z.eqb_spec (largest r2 + 1) x); rewrite !covers_cons; unfold in_range; simpl; intuition lia. }
  destruct (rec_list l x) as [l2|]; simpl; [|done]. intros [= <-]. rewrite !covers_cons, (IH l2 Hd eq_refl). tauto.
Qed.

Lemma above_covers r l : range_ok r -> descending l ->
  (forall y, covers l y -> y + 1 < smallest r) -> Forall (above r) l.
Proof.
  intros Hr Hd Hc. apply Forall_forall. intros b Hb. apply Hc. apply Exists_exists. exists b. split; [done|].
  assert (Hok : Forall range_ok l) by (clear -Hd; induction l; [done|]; destruct Hd as (? & _ & ?); constructor; auto).
  rewrite Forall_forall in Hok. specialize (Hok b Hb). unfold range_ok, in_range in *. lia.
Qed.

(** The new list is again descending with gaps. *)
Lemma rec_list_descending l x l' : 0 <= x <= U64_MAX -> descending l -> rec_list l x = Some l' -> descending l'.
Proof.
  intros Hx. revert l'. induction l as [|r l IH]; intros l' Hd.
  { intros [= <-]. repeat split; simpl; lia || done. }
  pose proof (fun y => descending_cons_below r l y Hd) as Hb.
  intros Hr'. pose proof (fun y => rec_list_covers (r :: l) x l' y Hd Hr') as Hc. simpl in Hr'.
  destruct Hd as (Hr & Ha & Hd). pose proof Hr as Hr0. unfold range_ok in Hr. rewrite Z.gtb_ltb, Z.geb_leb in Hr'.
  assert (Hcons : forall q k, range_ok q -> descending k -> (forall y, covers k y -> y + 1 < smallest q) -> descending (q :: k)).
  { intros q k Hq Hk Hy. simpl. auto using above_covers. }
  destruct (Z.ltb_spec (largest r) x).
  { destruct (Z.eqb_spec (largest r + 1) x); simplify_eq.
    - apply Hcons; [unfold range_ok; simpl; lia|done|done].
    - apply Hcons; [unfold range_ok; simpl; lia|done|]. intros y. rewrite covers_cons. unfold in_range. simpl. naive_solver lia. }
  destruct (Z.leb_spec (smallest r) x); [done|].
  destruct (Z.eqb_spec (x + 1) (smallest r)).
  { destruct l as [|r2 l2]; simplify_eq; [apply Hcons; [unfold range_ok; simpl; lia|done|by intros y ?%covers_nil]|].
    pose proof (fun y => descending_cons_below r2 l2 y Hd) as Hb2. destruct Hd as (Hr2 & Ha2 & Hd). unfold range_ok in Hr2.
    inversion_clear Ha as [|? ? Har _]. unfold above in Har.
    destruct (Z.eqb_spec (largest r2 + 1) x); simplify_eq.
    - apply Hcons; [unfold range_ok; simpl; lia|done|done].
    - apply Hcons; [unfold range_ok; simpl; lia|done|]. intros y. rewrite covers_cons. unfold in_range. simpl.
      intros [?|?%Hb2]; lia. }
  destruct (rec_list l x) as [l2|] eqn:Hl2; simpl in Hr'; simplify_eq.
  apply Hcons; [done|by apply IH|]. intros y Hy. apply (rec_list_covers l x l2 y Hd Hl2) in Hy. naive_solver lia.
Qed.

(** ** The array operations on the live ranges *)

Lemma zget_mid {A} (l1 : list A) x l2 : zget (l1 ++ x :: l2) (zlen l1) = Some x.
Proof. unfold zget, zlen. destruct (Z.ltb_spec (Z.of_nat (length l1)) 0); [lia|]. rewrite Nat2Z.id. by apply list_lookup_middle. Qed.

Lemma zset_mid {A} (l1 : list A) x y l2 : zset (l1 ++ x :: l2) (zlen l1) y = l1 ++ y :: l2.
Proof. unfold zset, zlen. rewrite Nat2Z.id, insert_app_r_alt, Nat.sub_diag by lia. done. Qed.

Lemma store_mid {A} (l1 : list A) x y l2 : store_at (l1 ++ x :: l2) (zlen l1) y = Some (l1 ++ y :: l2).
Proof. unfold store_at. rewrite zget_mid. simpl. by rewrite zset_mid. Qed.

Lemma zdrop_app_all {A} (l k : list A) : zdrop (zlen l) (l ++ k) = k.
Proof. unfold zdrop, zlen. rewrite Nat2Z.id. apply drop_app_length. Qed.

Lemma copy_within_eq {A} (l : list A) dst src n : 0 <= dst -> 0 <= src -> 0 <= n -> dst + n <= zlen l -> src + n <= zlen l ->
  copy_within l dst src n = Some (ztake dst l ++ ztake n (zdrop src l) ++ zdrop (dst + n) l).
Proof. intros. unfold copy_within. repeat (rewrite (proj2 (Z.leb_le _ _)) by lia). done. Qed.

(** Opening a hole and filling it. *)
Lemma shift_up {A} (l1 l2 : list A) x y j :
  (copy_within (l1 ++ l2 ++ y :: j) (zlen l1 + 1) (zlen l1) (zlen l2) ≫= fun moved => store_at moved (zlen l1) x)
  = Some (l1 ++ x :: l2 ++ j).
Proof.
  pose proof (zlen_nonneg l1). pose proof (zlen_nonneg l2). pose proof (zlen_nonneg j).
  rewrite copy_within_eq by (rewrite ?zlen_app, ?zlen_cons; lia).
  assert (exists z k, l2 ++ y :: j = z :: k) as (z & k & Hz) by (destruct l2; simpl; eauto).
  rewrite zdrop_app_all, ztake_app_all. rewrite Hz at 1.
  replace (zlen l1 + 1) with (zlen (l1 ++ [z])) at 1 by (rewrite zlen_app; done).
  replace (l1 ++ z :: k) with ((l1 ++ [z]) ++ k) by (by rewrite <-app_assoc). rewrite ztake_app_all.
  replace (l1 ++ l2 ++ y :: j) with ((l1 ++ l2 ++ [y]) ++ j) by (by rewrite <-!app_assoc).
  replace (zlen l1 + 1 + zlen l2) with (zlen (l1 ++ l2 ++ [y])) by (rewrite !zlen_app, zlen_cons, zlen_nil; lia).
  rewrite zdrop_app_all, <-app_assoc. simpl. apply store_mid.
Qed.

(** Closing a hole. *)
Lemma shift_down {A} (l1 l2 : list A) x j :
  exists z, copy_within (l1 ++ x :: l2 ++ j) (zlen l1) (zlen l1 + 1) (zlen l2) = Some (l1 ++ l2 ++ z :: j).
Proof.
  pose proof (zlen_nonneg l1). pose proof (zlen_nonneg l2). pose proof (zlen_nonneg j).
  rewrite copy_within_eq by (rewrite ?zlen_app, ?zlen_cons, ?zlen_app; lia). rewrite ztake_app_all.
  replace (l1 ++ x :: l2 ++ j) with ((l1 ++ [x]) ++ l2 ++ j) by (by rewrite <-app_assoc).
  replace (zlen l1 + 1) with (zlen (l1 ++ [x])) by (rewrite zlen_app; done). rewrite zdrop_app_all, ztake_app_all.
  destruct l2 as [|z l2 _] using rev_ind; simpl.
  - exists x. rewrite zlen_nil, Z.add_0_r, <-app_assoc, zdrop_app_all. done.
  - exists z. rewrite zlen_app, zlen_cons, zlen_nil.
    replace ((l1 ++ [x]) ++ (l2 ++ [z]) ++ j) with ((l1 ++ x :: l2) ++ z :: j) by (rewrite <-!app_assoc; done).
    replace (zlen l1 + (zlen l2 + (0 + 1))) with (zlen (l1 ++ x :: l2)) by (rewrite zlen_app, zlen_cons; lia).
    rewrite zdrop_app_all, <-!app_assoc. done.
Qed.

Lemma sub64_ok a b : b <= a -> sub64 a b = Some (a - b).
Proof. intros. unfold sub64. by destruct (Z.ltb_spec a b); [lia|]. Qed.

(** The states after an update: other ranges, the same ACK scratch space. *)
Lemma holds_intro s l junk : rr_ranges s = l ++ junk -> rr_count s = zlen l -> zlen l + zlen junk = 32 ->
  zlen (rr_ack_ranges s) = 31 -> holds s l.
Proof. intros Hr Hc Hj Ha. split; [by exists junk|done| |done]. by rewrite Hr, zlen_app. Qed.

Lemma holds_elim s l : holds s l ->
  exists junk, rr_ranges s = l ++ junk /\ rr_count s = zlen l /\ zlen l + zlen junk = 32 /\ zlen (rr_ack_ranges s) = 31.
Proof. intros [[j Hj] Hc Hcap Ha]. exists j. rewrite Hj, zlen_app in Hcap. done. Qed.

Lemma place_ok s l1 l2 r : holds s (l1 ++ l2) -> zlen (l1 ++ l2) < 32 ->
  exists s', place s (zlen l1) r = Some (true, s') /\ holds s' (l1 ++ r :: l2) /\ forgotten_through s' = forgotten_through s.
Proof.
  intros (j & Hj & Hc & Hcap & Ha)%holds_elim Hlt. rewrite zlen_app in *. pose proof (zlen_nonneg l2).
  destruct j as [|y j]; [rewrite zlen_nil in *; lia|]. unfold place. rewrite Hc, sub64_ok by lia. simpl.
  replace (zlen l1 + zlen l2 - zlen l1) with (zlen l2) by lia.
  rewrite Hj, <-app_assoc. pose proof (shift_up l1 l2 r y j) as Hs.
  destruct (copy_within _ _ _ _) as [m|]; [|done]. simpl in Hs |- *. rewrite Hs. simpl.
  eexists. split; [done|]. split; [|done].
  apply (holds_intro _ _ j); simpl; [by rewrite <-app_assoc| | |done]; rewrite ?zlen_app, !zlen_cons in *; lia.
Qed.

Lemma forget_last_ok s l r : holds s (l ++ [r]) ->
  exists s', forget_last s = Some s' /\ holds s' l /\ forgotten_through s' = forget (forgotten_through s) r.
Proof.
  intros (j & Hj & Hc & Hcap & Ha)%holds_elim. rewrite zlen_app, zlen_cons, zlen_nil in *. unfold forget_last.
  replace (rr_count s - 1) with (zlen l) by lia. rewrite Hj, <-app_assoc. simpl. rewrite zget_mid. simpl.
  eexists. split; [done|]. split; [|done].
  apply (holds_intro _ _ (r :: j)); simpl; [by rewrite Hj, <-app_assoc|done| |done]. rewrite zlen_cons. lia.
Qed.

(** [insert] in front of [l2]; a full array first loses its last range. *)
Definition trimmed (s s' : ReceivedPacketRanges) (x : Z) (l : list ReceivedPacketRange) : Prop :=
  (zlen l <= 32 /\ holds s' l /\ forgotten_through s' = forgotten_through s) \/
  (exists l' z, l = l' ++ [z] /\ covers l' x /\ holds s' l' /\ forgotten_through s' = forget (forgotten_through s) z).

Lemma covers_app l k x : covers (l ++ k) x <-> covers l x \/ covers k x.
Proof. apply Exists_app. Qed.

Lemma insert_ok s l1 l2 x : holds s (l1 ++ l2) -> zlen (l1 ++ l2) < 32 \/ l2 <> [] ->
  exists s', insert s (zlen l1) (MkRecv x x) = Some (true, s') /\ trimmed s s' x (l1 ++ MkRecv x x :: l2).
Proof.
  intros Hh Hne. pose proof (holds_count _ _ Hh) as Hc.
  assert (Hle : zlen (l1 ++ l2) <= 32) by (destruct (holds_elim _ _ Hh) as (j & _ & _ & ? & _); pose proof (zlen_nonneg j); lia).
  unfold insert, max_ranges. destruct (Z.eqb_spec (rr_count s) 32) as [Hf|Hf]; simpl.
  - destruct l2 as [|z l2 _] using rev_ind; [destruct Hne; [lia|done]|].
    destruct (Z.eqb_spec (zlen l1) (rr_count s)) as [He|_].
    { rewrite Hc, !zlen_app, zlen_cons, zlen_nil in He. pose proof (zlen_nonneg l2). lia. }
    rewrite app_assoc in Hh. destruct (forget_last_ok s (l1 ++ l2) z Hh) as (s1 & -> & Hh1 & Hf1). simpl.
    rewrite app_assoc, zlen_app, zlen_cons, zlen_nil in Hc.
    destruct (place_ok s1 l1 l2 (MkRecv x x) Hh1) as (s2 & -> & Hh2 & Hf2); [lia|]. exists s2. split; [done|]. right.
    exists (l1 ++ MkRecv x x :: l2), z. rewrite <-app_assoc, Hf2. split; [done|]. split; [|done].
    rewrite covers_app, covers_cons. right. left. unfold in_range. simpl. lia.
  - destruct (place_ok s l1 l2 (MkRecv x x) Hh) as (s2 & -> & Hh2 & Hf2); [lia|]. exists s2. split; [done|]. left.
    split; [|done]. rewrite zlen_app in *. rewrite zlen_cons. lia.
Qed.

Lemma remove_ok s l1 x l2 : holds s (l1 ++ x :: l2) ->
  exists s', remove s (zlen l1) = Some s' /\ holds s' (l1 ++ l2) /\ forgotten_through s' = forgotten_through s.
Proof.
  intros (j & Hj & Hc & Hcap & Ha)%holds_elim. rewrite zlen_app, zlen_cons in *.
  pose proof (zlen_nonneg l1). pose proof (zlen_nonneg l2). unfold remove. rewrite Hc, !sub64_ok by lia. simpl.
  rewrite sub64_ok by lia. simpl. rewrite Hj, <-app_assoc. simpl.
  replace (zlen l1 + (zlen l2 + 1) - 1 - zlen l1) with (zlen l2) by lia.
  destruct (shift_down l1 l2 x j) as (z & ->). simpl. eexists. split; [done|]. split; [|done].
  apply (holds_intro _ _ (z :: j)); simpl; [by rewrite <-app_assoc| | |done]; rewrite ?zlen_app, ?zlen_cons; lia.
Qed.

Lemma holds_store s l1 x y l2 : holds s (l1 ++ x :: l2) ->
  exists m, store_at (rr_ranges s) (zlen l1) y = Some m /\ holds (s <| rr_ranges := m |>) (l1 ++ y :: l2).
Proof.
  intros (j & Hj & Hc & Hcap & Ha)%holds_elim. rewrite Hj, <-app_assoc. simpl. rewrite store_mid. eexists. split; [done|].
  apply (holds_intro _ _ j); simpl; rewrite <-?app_assoc; try done; rewrite Hc || idtac; rewrite !zlen_app, !zlen_cons in *; lia.
Qed.

Lemma holds_get s l1 x l2 : holds s (l1 ++ x :: l2) -> zget (rr_ranges s) (zlen l1) = Some x.
Proof. intros (j & Hj & _)%holds_elim. rewrite Hj, <-app_assoc. apply zget_mid. Qed.

(** ** [record] refines the reference *)

Lemma isImmediatelyBefore_eq a b : b <= U64_MAX -> isImmediatelyBefore a b = (a + 1 =? b).
Proof. intros. unfold isImmediatelyBefore. destruct (Z.eqb_spec a U64_MAX), (Z.eqb_spec (a + 1) b); lia || done. Qed.

Lemma holds_le s l : holds s l -> zlen l <= 32.
Proof. intros (j & _ & _ & ? & _)%holds_elim. pose proof (zlen_nonneg j). lia. Qed.

Lemma extend_up_ok s l1 r l2 x : holds s (l1 ++ r :: l2) -> Forall (fun q => x + 1 < smallest q <= U64_MAX) l1 ->
  exists s', extend_up s (zlen l1) x r = Some (true, s') /\ holds s' (l1 ++ MkRecv (smallest r) x :: l2)
    /\ forgotten_through s' = forgotten_through s.
Proof.
  intros Hh Hl. unfold extend_up. destruct (holds_store s l1 r (MkRecv (smallest r) x) l2 Hh) as (m & -> & Hm). simpl.
  destruct l1 as [|q l1 _] using rev_ind; [simpl; eauto|].
  destruct (Z.eqb_spec (zlen (l1 ++ [q])) 0) as [H0|_]; simpl.
  { rewrite zlen_app, zlen_cons in H0. pose proof (zlen_nonneg l1). rewrite zlen_nil in H0. lia. }
  replace (zlen (l1 ++ [q]) - 1) with (zlen l1) by (rewrite zlen_app, zlen_cons, zlen_nil; lia).
  assert (Hg : zget m (zlen l1) = Some q).
  { rewrite <-app_assoc in Hm. exact (holds_get _ l1 q _ Hm). }
  rewrite Hg. simpl. apply Forall_app in Hl as [_ Hq]. inversion_clear Hq as [|? ? Hq1 _].
  rewrite isImmediatelyBefore_eq by lia. destruct (Z.eqb_spec (x + 1) (smallest q)); [lia|]. eauto.
Qed.

(** The list after a number just below [r]. *)
Definition lower (r : ReceivedPacketRange) (l : list ReceivedPacketRange) (x : Z) : list ReceivedPacketRange :=
  match l with
  | [] => [MkRecv x (largest r)]
  | r2 :: l2 => if largest r2 + 1 =? x then MkRecv (smallest r2) (largest r) :: l2 else MkRecv x (largest r) :: l
  end.

Lemma extend_down_ok s l1 r l2 x : holds s (l1 ++ r :: l2) -> x <= U64_MAX ->
  exists s', extend_down s (zlen l1) x r = Some (true, s') /\ holds s' (l1 ++ lower r l2 x)
    /\ forgotten_through s' = forgotten_through s.
Proof.
  intros Hh Hx. unfold extend_down. destruct (holds_store s l1 r (MkRecv x (largest r)) l2 Hh) as (m & -> & Hm).
  cbn [mbind option_bind]. pose proof (holds_count _ _ Hm) as Hc. rewrite Hc. rewrite zlen_app, zlen_cons.
  destruct l2 as [|r2 l2]; simpl.
  { rewrite zlen_nil. destruct (Z.ltb_spec (zlen l1 + 1) (zlen l1 + (0 + 1))); [lia|]. eauto. }
  rewrite zlen_cons. pose proof (zlen_nonneg l2).
  destruct (Z.ltb_spec (zlen l1 + 1) (zlen l1 + (zlen l2 + 1 + 1))); [|lia].
  assert (He : zlen l1 + 1 = zlen (l1 ++ [MkRecv x (largest r)])) by (rewrite zlen_app; done).
  assert (Hg : zget m (zlen l1 + 1) = Some r2).
  { rewrite He. refine (holds_get (s <| rr_ranges := m |>) (l1 ++ [MkRecv x (largest r)]) r2 l2 _). by rewrite <-app_assoc. }
  rewrite Hg. simpl. rewrite isImmediatelyBefore_eq by done. destruct (Z.eqb_spec (largest r2 + 1) x); [|eauto].
  pose proof (holds_get _ _ _ _ Hm) as Hg1. simpl in Hg1. rewrite Hg1. simpl.
  destruct (holds_store _ _ _ (MkRecv (smallest r2) (largest r)) _ Hm) as (m2 & Hst & Hm2). simpl in Hst. rewrite Hst. simpl.
  replace (zlen l1 + 1) with (zlen (l1 ++ [MkRecv (smallest r2) (largest r)])) by (rewrite zlen_app; done).
  destruct (remove_ok (s <| rr_ranges := m2 |>) (l1 ++ [MkRecv (smallest r2) (largest r)]) r2 l2) as (s' & Hr & Hh' & Hf).
  { rewrite <-app_assoc. exact Hm2. }
  change (s <| rr_ranges := m |> <| rr_ranges := m2 |>) with (s <| rr_ranges := m2 |>). rewrite Hr. simpl.
  exists s'. rewrite <-app_assoc in Hh'. done.
Qed.

(** The number a call accepts goes where the reference puts it. *)
Lemma record_loop_ok l2 : forall fuel s l1 x,
  holds s (l1 ++ l2) -> descending l2 -> 0 <= x <= U64_MAX -> Forall (fun q => x + 1 < smallest q <= U64_MAX) l1 ->
  (length l2 <= fuel)%nat -> can_record_loop l2 (zlen (l1 ++ l2)) x = true ->
  exists s' l2', rec_list l2 x = Some l2' /\ record_loop fuel s (zlen l1) x = Some (true, s') /\ trimmed s s' x (l1 ++ l2').
Proof.
  induction l2 as [|r l2 IH]; intros fuel s l1 x Hh Hd Hx Hl Hfuel Hcan.
  { pose proof (holds_count _ _ Hh) as Hc. rewrite app_nil_r in Hc.
    simpl in Hcan. rewrite app_nil_r in Hcan. unfold max_ranges in Hcan. apply Z.ltb_lt in Hcan.
    destruct (insert_ok s l1 [] x Hh) as (s' & Hi & Ht); [rewrite app_nil_r; auto|].
    exists s', [MkRecv x x]. split; [done|]. split; [|done].
    destruct fuel; simpl; rewrite Hc, Z.ltb_irrefl; simpl; exact Hi. }
  destruct fuel as [|fuel]; simpl in Hfuel; [lia|]. simpl in Hcan |- *. pose proof (holds_count _ _ Hh) as Hc.
  rewrite Hc, zlen_app, zlen_cons. pose proof (zlen_nonneg l2).
  destruct (Z.ltb_spec (zlen l1) (zlen l1 + (zlen l2 + 1))); [|lia]. simpl. rewrite (holds_get _ _ _ _ Hh). simpl.
  destruct Hd as (Hr & Ha & Hd). unfold range_ok in Hr.
  pose proof (holds_le _ _ Hh) as Hle. rewrite zlen_app, zlen_cons in Hle.
  rewrite Z.gtb_ltb, Z.geb_leb in *. rewrite !isImmediatelyBefore_eq in * by lia.
  destruct (Z.ltb_spec (largest r) x).
  { destruct (Z.eqb_spec (largest r + 1) x).
    - destruct (extend_up_ok s l1 r l2 x Hh Hl) as (s' & -> & Hh' & Hf). exists s', (MkRecv (smallest r) x :: l2).
      split; [done|]. split; [done|]. left. rewrite zlen_app, zlen_cons. split; [lia|done].
    - destruct (insert_ok s l1 (r :: l2) x Hh) as (s' & -> & Ht); [by right|]. eauto 10. }
  destruct (Z.leb_spec (smallest r) x); [done|]. destruct (Z.eqb_spec (x + 1) (smallest r)).
  { destruct (extend_down_ok s l1 r l2 x Hh) as (s' & -> & Hh' & Hf); [lia|].
    exists s', (lower r l2 x). split; [done|]. split; [done|]. left. split; [by eapply holds_le|done]. }
  replace (zlen l1 + 1) with (zlen (l1 ++ [r])) by (rewrite zlen_app; done).
  destruct (IH fuel s (l1 ++ [r]) x) as (s' & l2' & -> & -> & Ht); [by rewrite <-app_assoc|done|done| |lia|by rewrite <-app_assoc|].
  { apply Forall_app; split; [done|]. constructor; [lia|done]. }
  exists s', (r :: l2'). rewrite <-app_assoc in Ht. done.
Qed.

(** When [canRecord] says no. *)
Lemma can_record_loop_false l count x : descending l -> x <= U64_MAX -> can_record_loop l count x = false ->
  covers l x \/ 32 <= count /\ Forall (fun r => x + 1 < smallest r) l.
Proof.
  intros Hd Hx. induction l as [|r l IH]; simpl; [unfold max_ranges; rewrite Z.ltb_ge; auto|].
  destruct Hd as (Hr & _ & Hd). unfold range_ok in Hr. rewrite Z.gtb_ltb, Z.geb_leb, isImmediatelyBefore_eq by lia.
  rewrite covers_cons. destruct (Z.ltb_spec (largest r) x); [done|].
  destruct (Z.leb_spec (smallest r) x); [left; left; unfold in_range; lia|].
  destruct (Z.eqb_spec (x + 1) (smallest r)); [done|]. intros [?|[? ?]]%(IH Hd); [auto|]. right. split; [done|].
  constructor; [lia|done].
Qed.

Lemma holds_live s l : holds s l -> ztake (rr_count s) (rr_ranges s) = l.
Proof. intros (j & -> & -> & _)%holds_elim. apply ztake_app_all. Qed.

(** [x] is below every retained range of a full array, and adjacent to none. *)
Definition no_room (l : list ReceivedPacketRange) (x : Z) : Prop := zlen l = 32 /\ Forall (fun r => x + 1 < smallest r) l.

Lemma can_record_loop_no_room l count x : descending l -> x <= U64_MAX -> can_record_loop l count x = true ->
  ~ (32 <= count /\ Forall (fun r => x + 1 < smallest r) l).
Proof.
  intros Hd Hx Hcan [Hf Hl]. induction l as [|r l IH]; simpl in *; [unfold max_ranges in *; lia|].
  destruct Hd as (Hr & _ & Hd). unfold range_ok in Hr. inversion_clear Hl.
  rewrite Z.gtb_ltb, Z.geb_leb, isImmediatelyBefore_eq in Hcan by lia.
  destruct (Z.ltb_spec (largest r) x); [lia|]. destruct (Z.leb_spec (smallest r) x); [lia|].
  destruct (Z.eqb_spec (x + 1) (smallest r)); [lia|]. auto.
Qed.

Definition record_spec (s : ReceivedPacketRanges) (l : list ReceivedPacketRange) (x : Z) (b : bool) (s' : ReceivedPacketRanges) : Prop :=
  if b then ~ forgets (forgotten_through s) x /\ ~ no_room l x /\ exists l', rec_list l x = Some l' /\ trimmed s s' x l'
  else s' = s /\ (forgets (forgotten_through s) x \/ covers l x \/ no_room l x).

Lemma record_ok s l x : holds s l -> descending l -> 0 <= x <= U64_MAX ->
  exists b s', record s x = Some (b, s') /\ record_spec s l x b s'.
Proof.
  intros Hh Hd Hx. pose proof (holds_live _ _ Hh) as Hlive. pose proof (holds_count _ _ Hh) as Hc. pose proof (holds_le _ _ Hh) as Hle.
  assert (Hgo : canRecord s x = true -> ~ forgets (forgotten_through s) x /\ can_record_loop l (zlen l) x = true).
  { unfold canRecord. rewrite Hlive, Hc. destruct (forgotten_through s) as [f|]; simpl; [|tauto].
    destruct (Z.leb_spec x f); [done|]. split; [lia|done]. }
  unfold record. destruct (canRecord s x) eqn:Hcan; simpl.
  - destruct (Hgo eq_refl) as [Hf Hl].
    destruct (record_loop_ok l (Z.to_nat max_ranges) s [] x) as (s' & l' & Hrl & Hrec & Ht); try done.
    { unfold max_ranges, zlen in *. lia. }
    exists true, s'. split; [exact Hrec|]. split; [done|]. split; [|eauto].
    intros [? ?]. eapply (can_record_loop_no_room l (zlen l) x); [done|lia|done|]. split; [lia|done].
  - exists false, s. split; [done|]. split; [done|]. unfold canRecord in Hcan. rewrite Hlive, Hc in Hcan.
    assert (forgets (forgotten_through s) x \/ can_record_loop l (zlen l) x = false) as [?|Hn].
    { destruct (forgotten_through s) as [f|]; simpl; [|auto]. destruct (Z.leb_spec x f); auto. }
    + auto.
    + right. destruct (can_record_loop_false l (zlen l) x Hd ltac:(lia) Hn) as [?|[? ?]]; [auto|]. right. split; [lia|done].
Qed.

(** ** The history as a set *)

(** The live ranges of a state, and that none of them is forgotten. *)
Record history (s : ReceivedPacketRanges) (l : list ReceivedPacketRange) : Prop := History {
  history_holds : holds s l;
  history_descending : descending l;
  history_kept : forall y, covers l y -> ~ forgets (forgotten_through s) y;
}.

Lemma forgets_forget f r y : forgets (forget f r) y <-> forgets f y \/ y <= largest r.
Proof. destruct f as [b|]; simpl; lia. Qed.

Lemma descending_last l z : descending (l ++ [z]) -> range_ok z /\ descending l /\ forall y, covers l y -> largest z < y.
Proof.
  induction l as [|r l IH]; simpl; [intros (? & _); repeat split; try apply H; by intros y ?%covers_nil|].
  intros (Hr & Ha & (Hz & Hd & Hl)%IH). split; [done|]. apply Forall_app in Ha as [Ha Hrz]. inversion_clear Hrz as [|? ? Hz' _].
  split; [done|]. intros y. rewrite covers_cons. unfold in_range, above in *. naive_solver lia.
Qed.

(** One accepted number. *)
Lemma history_step s l x b s' : history s l -> 0 <= x <= U64_MAX -> record_spec s l x b s' ->
  exists l', history s' l' /\ (forall y, forgets (forgotten_through s) y -> forgets (forgotten_through s') y) /\
    (b = true -> covers l' x) /\
    forall y, covers l' y <-> (b = true /\ y = x \/ covers l y) /\ ~ forgets (forgotten_through s') y.
Proof.
  intros [Hh Hd Hk] Hx Hs. destruct b; cycle 1.
  { destruct Hs as [-> _]. exists l. split; [done|]. split; [done|]. split; [done|]. intros y. specialize (Hk y). naive_solver. }
  destruct Hs as (Hfx & _ & l1 & Hl1 & Ht). pose proof (rec_list_descending l x l1 Hx Hd Hl1) as Hd1.
  assert (Hcov : forall y, covers l1 y <-> y = x \/ covers l y) by (intros y; by apply rec_list_covers).
  assert (Hk1 : forall y, covers l1 y -> ~ forgets (forgotten_through s) y).
  { intros y [->|?%Hk]%Hcov; done. }
  destruct Ht as [(_ & Hh1 & Hf)|(l' & z & -> & Hc & Hh1 & Hf)].
  - exists l1. rewrite Hf. split; [by split; [done|done|rewrite Hf]|]. split; [done|]. split; [intros _; apply Hcov; auto|].
    intros y. rewrite Hcov. specialize (Hk1 y). rewrite Hcov in Hk1. naive_solver.
  - destruct (descending_last _ _ Hd1) as (Hz & Hd' & Hlow). exists l'. rewrite Hf.
    assert (Hk' : forall y, covers l' y <-> covers (l' ++ [z]) y /\ ~ forgets (forget (forgotten_through s) z) y).
    { intros y. rewrite forgets_forget, covers_app, covers_cons, covers_nil. unfold in_range. split.
      - intros Hy. split; [auto|]. specialize (Hk1 y). rewrite covers_app in Hk1. specialize (Hlow y Hy). naive_solver lia.
      - intros [[?|[?|[]]] Hn]; [done|]. exfalso. apply Hn. right. lia. }
    split; [split; [done|done|]; intros y Hy; rewrite Hf; by apply Hk'|]. split; [intros y ?; apply forgets_forget; auto|].
    split; [done|]. intros y. rewrite Hk', Hcov. naive_solver.
Qed.

(** ** ACK frames *)

Lemma descending_top r l y : descending (r :: l) -> covers (r :: l) y -> y <= largest r.
Proof.
  intros Hd. rewrite covers_cons. pose proof (descending_cons_below r l y Hd) as Hb. destruct Hd as (Hr & _).
  unfold range_ok, in_range in *. naive_solver lia.
Qed.

(** The ACK ranges of the live ranges below a smallest number. *)
Fixpoint ack_ranges_of (low : Z) (l : list ReceivedPacketRange) : list AckRange :=
  match l with
  | [] => []
  | r :: l => MkRange (low - largest r - 2) (largest r - smallest r) :: ack_ranges_of (smallest r) l
  end.

Lemma zlen_ack_ranges_of low l : zlen (ack_ranges_of low l) = zlen l.
Proof. revert low. induction l as [|r l IH]; intros low; simpl; [done|]. by rewrite !zlen_cons, IH. Qed.

(** The loop of [ackFrame] writes them, after what it has written. *)
Lemma ack_loop_ok l : forall s l1 p out junk,
  descending (p :: l) -> holds s (l1 ++ p :: l) -> rr_ack_ranges s = out ++ junk -> zlen out = zlen l1 ->
  exists s' junk', ack_loop l (zlen l1) s = Some s' /\ holds s' (l1 ++ p :: l) /\ forgotten_through s' = forgotten_through s /\
    rr_ack_ranges s' = (out ++ ack_ranges_of (smallest p) l) ++ junk'.
Proof.
  induction l as [|r l IH]; intros s l1 p out junk Hd Hh Ho Hlen; simpl.
  { exists s, junk. by rewrite app_nil_r. }
  destruct Hd as (Hp & Ha & Hd). inversion_clear Ha as [|? ? Hpr _]. pose proof Hd as (Hr & _). unfold range_ok, above in *.
  rewrite (holds_get _ _ _ _ Hh). simpl. do 3 (rewrite sub64_ok by lia; simpl).
  destruct (holds_elim _ _ Hh) as (j & Hj & Hc & Hcap & Hak).
  destruct junk as [|z junk].
  { rewrite Ho, app_nil_r in Hak. rewrite zlen_app, !zlen_cons in Hcap. pose proof (zlen_nonneg j). pose proof (zlen_nonneg l). lia. }
  rewrite Ho, <-Hlen, store_mid. simpl. rewrite Hlen.
  replace (zlen l1 + 1) with (zlen (l1 ++ [p])) by (rewrite zlen_app; done).
  set (q := MkRange _ _). destruct (IH (s <| rr_ack_ranges := out ++ q :: junk |>) (l1 ++ [p]) r (out ++ [q]) junk) as (s' & j' & -> & Hh' & Hf' & Ho').
  - done.
  - rewrite <-app_assoc. apply (holds_intro _ _ j); simpl; [done|done|done|]. rewrite <-Hak, Ho, !zlen_app, !zlen_cons. done.
  - simpl. by rewrite <-app_assoc.
  - rewrite !zlen_app, Hlen. done.
  - exists s', j'. rewrite <-!app_assoc in *. done.
Qed.

(** What the ACK frame says. *)
Definition ack_of (r : ReceivedPacketRange) (l : list ReceivedPacketRange) : AckFrame :=
  MkAck (largest r) 0 (largest r - smallest r) (ack_ranges_of (smallest r) l).

Lemma ackFrame_ok s r l : holds s (r :: l) -> descending (r :: l) ->
  exists s', ackFrame s = Some (Some (ack_of r l), s') /\ holds s' (r :: l) /\ forgotten_through s' = forgotten_through s.
Proof.
  intros Hh Hd. pose proof (holds_count _ _ Hh) as Hc. pose proof (zlen_nonneg l). unfold ackFrame.
  rewrite (holds_live _ _ Hh), Hc, zlen_cons. destruct (Z.eqb_spec (zlen l + 1) 0); [lia|].
  pose proof (holds_get s [] r l Hh) as Hg. rewrite zlen_nil in Hg. rewrite Hg. simpl.
  destruct (ack_loop_ok l s [] r [] (rr_ack_ranges s) Hd Hh eq_refl eq_refl) as (s' & j & Hl & Hh' & Hf & Ho).
  rewrite zlen_nil in Hl. change (zdrop 1 (r :: l)) with (drop 0 l). rewrite drop_0, Hl. simpl.
  destruct Hd as (Hr & _). unfold range_ok in Hr. rewrite (sub64_ok (largest r)) by lia. simpl.
  rewrite (holds_count _ _ Hh'). simpl. rewrite zlen_cons, sub64_ok by lia. simpl.
  rewrite Ho. simpl. replace (zlen l + 1 - 1) with (zlen (ack_ranges_of (smallest r) l)) by (rewrite zlen_ack_ranges_of; lia).
  rewrite ztake_app_all, Z.gtb_ltb. pose proof (zlen_nonneg j).
  destruct (Z.ltb_spec (zlen (ack_ranges_of (smallest r) l ++ j)) (zlen (ack_ranges_of (smallest r) l))) as [Hlt|_].
  { rewrite zlen_app in Hlt. lia. }
  eauto.
Qed.

(** The receiver's reading of it. *)
Lemma ack_ranges_of_read l : forall low y, low <= max_quic_varint -> Forall (above (MkRecv low low)) l -> descending l ->
  ranges_are_valid low (ack_ranges_of low l) = true /\ ranges_contain low (ack_ranges_of low l) y = bool_decide (covers l y).
Proof.
  induction l as [|r l IH]; intros low y Hlow Ha Hd; simpl; [done|].
  inversion_clear Ha as [|? ? Hr _]. unfold above in Hr. simpl in Hr. destruct Hd as (Hok & Ha & Hd). unfold range_ok in Hok.
  unfold max_quic_varint in *. unfold add64, U64_MAX in *. rewrite (proj2 (Z.leb_le _ _)) by lia.
  replace (low - largest r - 2 + 2) with (low - largest r) by lia.
  destruct (Z.ltb_spec low (low - largest r)); [lia|]. replace (low - (low - largest r)) with (largest r) by lia.
  rewrite Z.gtb_ltb. destruct (Z.ltb_spec (largest r) (largest r - smallest r)); [lia|].
  replace (largest r - (largest r - smallest r)) with (smallest r) by lia.
  destruct (IH (smallest r) y) as [Hv Hin]; [lia|exact Ha|done|].
  split; [done|]. rewrite Hin, Z.geb_leb, (bool_decide_ext _ _ (covers_cons r l y)), bool_decide_or.
  destruct (bool_decide_reflect (in_range r y)) as [Hy|Hy]; unfold in_range in Hy;
    destruct (Z.leb_spec (smallest r) y), (Z.leb_spec y (largest r)); done || lia.
Qed.

Lemma validateFrameVarInt_ok v : v <= max_quic_varint -> validateFrameVarInt v = inr tt.
Proof. intros. unfold validateFrameVarInt. rewrite Z.gtb_ltb, (proj2 (Z.ltb_ge _ _)) by lia. done. Qed.

(** The sender's check of it. *)
Lemma ack_ranges_of_valid l : forall low, low <= max_quic_varint -> Forall (above (MkRecv low low)) l -> descending l ->
  validate_ranges low (ack_ranges_of low l) = inr tt.
Proof.
  induction l as [|r l IH]; intros low Hlow Ha Hd; simpl; [done|].
  inversion_clear Ha as [|? ? Hr _]. unfold above in Hr. simpl in Hr. destruct Hd as (Hok & Ha & Hd). unfold range_ok in Hok.
  rewrite !validateFrameVarInt_ok by lia. simpl. unfold max_quic_varint in *. unfold add64, U64_MAX in *.
  rewrite (proj2 (Z.leb_le _ _)) by lia. replace (low - largest r - 2 + 2) with (low - largest r) by lia.
  destruct (Z.ltb_spec low (low - largest r)); [lia|]. replace (low - (low - largest r)) with (largest r) by lia.
  rewrite Z.gtb_ltb. destruct (Z.ltb_spec (largest r) (largest r - smallest r)); [lia|].
  replace (largest r - (largest r - smallest r)) with (smallest r) by lia. apply IH; [lia|exact Ha|done].
Qed.

Lemma ack_of_ok r l : descending (r :: l) -> largest r <= max_quic_varint -> zlen l <= 31 ->
  validateFrame (ack (ack_of r l)) = inr tt /\ ackFrameRangesAreValid (ack_of r l) = true /\
  forall y, ackFrameContains (ack_of r l) y = bool_decide (covers (r :: l) y).
Proof.
  intros (Hr & Ha & Hd) Hmax Hlen. unfold range_ok in Hr. split; [|split].
  - unfold validateFrame, validateAckFrame. cbn [ack_of largest_acknowledged ack_delay first_ack_range ranges].
    rewrite zlen_ack_ranges_of, !validateFrameVarInt_ok by (unfold max_quic_varint in *; lia). simpl.
    rewrite Z.gtb_ltb, (proj2 (Z.ltb_ge _ _)) by lia. simpl. replace (largest r - (largest r - smallest r)) with (smallest r) by lia.
    apply ack_ranges_of_valid; [lia|exact Ha|done].
  - unfold ackFrameRangesAreValid. simpl. rewrite Z.gtb_ltb, (proj2 (Z.ltb_ge _ _)) by lia.
    replace (largest r - (largest r - smallest r)) with (smallest r) by lia. apply (ack_ranges_of_read l (smallest r) 0); [lia|exact Ha|done].
  - intros y. unfold ackFrameContains. simpl. rewrite Z.gtb_ltb, (proj2 (Z.ltb_ge _ _)) by lia.
    replace (largest r - (largest r - smallest r)) with (smallest r) by lia.
    rewrite (proj2 (ack_ranges_of_read l (smallest r) y ltac:(lia) Ha Hd)), Z.geb_leb.
    rewrite (bool_decide_ext _ _ (covers_cons r l y)), bool_decide_or.
    destruct (bool_decide_reflect (in_range r y)) as [Hy|Hy]; unfold in_range in Hy;
      destruct (Z.leb_spec (smallest r) y), (Z.leb_spec y (largest r)); done || lia.
Qed.

(** ** A packet number space over its life *)

(** The calls of a connection: an ACK is queued for a packet of frames, a
    protected packet is processed, ack-eliciting or not, an ACK frame is built,
    it is sent, the space is discarded. *)
Inductive SpaceOp : Type :=
  | op_receive (received_packet_number : option Z)
  | op_process (packet_number : Z) (ack_eliciting : bool)
  | op_build_ack
  | op_ack_sent
  | op_discard (junk : list ReceivedPacketRange) (junk_ack : list AckRange).

Definition op_typed (op : SpaceOp) : Prop :=
  match op with
  | op_receive (Some x) | op_process x _ => 0 <= x <= U64_MAX
  | op_discard junk junk_ack => zlen junk = 32 /\ zlen junk_ack = 31
  | _ => True
  end.

(** Whether a packet number is accepted. *)
Definition accepted (s : PacketSpace) (x : Z) : bool :=
  negb (discarded s) && match recordReceivedPacketNumber s x with Some (inr b, _) => b | _ => false end.

(** Every number accepted so far, whether an ack-eliciting packet was accepted
    since the last ACK, and the state. *)
Fixpoint run_space (s : PacketSpace) (acc : list Z) (owed : bool) (ops : list SpaceOp) : option (list Z * bool * PacketSpace) :=
  match ops with
  | [] => Some (acc, owed, s)
  | op :: ops =>
      match op with
      | op_receive o =>
          let x := default (next_peer_packet_number s) o in
          '(_, s') ← queueAckForReceivedPacket s o;
          if accepted s x then run_space s' (x :: acc) true ops else run_space s' acc owed ops
      | op_process x ack_eliciting =>
          '(_, s') ← processPacketNumber s x ack_eliciting;
          if accepted s x then run_space s' (x :: acc) (ack_eliciting || owed) ops else run_space s' acc owed ops
      | op_build_ack => '(_, s') ← pendingAckFrame s; run_space s' acc owed ops
      | op_ack_sent => run_space (ack_sent s) acc false ops
      | op_discard junk junk_ack => run_space (discard_space junk junk_ack s) acc (owed && discarded s) ops
      end
  end.

(** [next_peer_packet_number] is one more than the largest number accepted. *)
Definition next_ok (acc : list Z) (next : Z) : Prop :=
  Forall (fun y => 0 <= y < next) acc /\ (next = 0 /\ acc = [] \/ next - 1 ∈ acc) /\ next <= max_quic_varint + 1.

(** What the live ranges say about the numbers accepted. *)
Record open_space (s : PacketSpace) (acc : list Z) (l : list ReceivedPacketRange) : Prop := OpenSpace {
  open_covers : forall y, covers l y <-> y ∈ acc /\ ~ forgets (forgotten_through (received_packet_ranges s)) y;
  open_next : nextExpectedPacketNumber (received_packet_ranges s) = Some (next_peer_packet_number s);
  open_pending : forall p, pending_ack_largest s = Some p -> p ∈ acc;
}.

Record space_inv (s : PacketSpace) (acc : list Z) (l : list ReceivedPacketRange) : Prop := SpaceInv {
  space_history : history (received_packet_ranges s) l;
  space_nodup : NoDup acc;
  space_next : next_ok acc (next_peer_packet_number s);
  space_open : if discarded s then pending_ack_largest s = None else open_space s acc l;
}.

Lemma nextExpected_ok s l : holds s l -> descending l ->
  exists n, nextExpectedPacketNumber s = Some n /\
    match l with [] => n = 0 | r :: _ => largest r <= max_quic_varint -> n = largest r + 1 end.
Proof.
  intros Hh Hd. unfold nextExpectedPacketNumber. rewrite (holds_count _ _ Hh). destruct l as [|r l]; [by exists 0|].
  rewrite zlen_cons. pose proof (zlen_nonneg l). destruct (Z.eqb_spec (zlen l + 1) 0); [lia|].
  pose proof (holds_get s [] r l Hh) as Hg. rewrite zlen_nil in Hg. rewrite Hg. simpl. eexists. split; [done|].
  intros Hr. unfold max_quic_varint, U64_MAX in *. destruct (Z.eqb_spec (largest r) 18446744073709551615); lia.
Qed.

(** The largest retained number is the largest accepted one. *)
Lemma next_step acc x next f r l : next_ok acc next -> 0 <= x <= max_quic_varint -> covers (r :: l) x ->
  (forall y, covers (r :: l) y <-> (y = x \/ y ∈ acc) /\ ~ forgets f y) -> descending (r :: l) ->
  largest r <= max_quic_varint /\ next_ok (x :: acc) (largest r + 1).
Proof.
  intros (Hall & Hnext & Hmax) Hx Hcx Hc Hd. pose proof (fun y => descending_top r l y Hd) as Htop.
  assert (Hin : covers (r :: l) (largest r)).
  { rewrite covers_cons. left. destruct Hd as (Hr & _). unfold range_ok, in_range in *. lia. }
  pose proof Hin as [Hl Hnf]%Hc. rewrite list.Forall_forall in Hall.
  assert (Hb : forall y, y ∈ acc -> 0 <= y <= largest r).
  { intros y Hy. specialize (Hall y Hy) as Hyn. destruct Hnext as [[_ ->]|Hnext]; [by apply not_elem_of_nil in Hy|].
    destruct (decide (covers (r :: l) (next - 1))) as [Hn%Htop|Hn]; [lia|].
    destruct f as [b|]; simpl in *; [|exfalso; apply Hn, Hc; auto].
    destruct (Z.leb_spec (next - 1) b); [lia|]. exfalso. apply Hn, Hc. split; [auto|lia]. }
  assert (Hlm : largest r <= max_quic_varint) by (destruct Hl as [->|Hl]; [lia|specialize (Hall _ Hl); lia]).
  split; [done|]. split; [|split; [|lia]].
  - apply list.Forall_cons. split; [specialize (Htop _ Hcx); lia|]. apply list.Forall_forall. intros y Hy. specialize (Hb y Hy). lia.
  - right. replace (largest r + 1 - 1) with (largest r) by lia. apply elem_of_cons. tauto.
Qed.

(** One call on an open space: refused, a duplicate, or accepted. *)
Inductive receives (s : PacketSpace) (acc : list Z) (l : list ReceivedPacketRange) (x : Z) : Err + bool -> PacketSpace -> Prop :=
  | receives_invalid : max_quic_varint < x -> receives s acc l x (inl InvalidPacket) s
  | receives_duplicate :
      x <= max_quic_varint -> x ∈ acc \/ forgets (forgotten_through (received_packet_ranges s)) x \/ no_room l x ->
      receives s acc l x (inr false) s
  | receives_new rs r l' : x <= max_quic_varint ->
      x ∉ acc -> ~ forgets (forgotten_through (received_packet_ranges s)) x -> ~ no_room l x ->
      history rs (r :: l') -> covers (r :: l') x -> next_ok (x :: acc) (largest r + 1) ->
      nextExpectedPacketNumber rs = Some (largest r + 1) ->
      (forall y, covers (r :: l') y <-> y ∈ x :: acc /\ ~ forgets (forgotten_through rs) y) ->
      receives s acc l x (inr true) (s <| received_packet_ranges := rs |> <| next_peer_packet_number := largest r + 1 |>).

Lemma recordReceived_ok s acc l x : space_inv s acc l -> discarded s = false -> 0 <= x <= U64_MAX ->
  exists res s', recordReceivedPacketNumber s x = Some (res, s') /\ receives s acc l x res s'.
Proof.
  intros [Hh Hn Hnx Hop] Hdis Hx. rewrite Hdis in Hop. destruct Hop as [Hcov Hnext Hpend]. unfold recordReceivedPacketNumber.
  rewrite Z.gtb_ltb. destruct (Z.ltb_spec max_quic_varint x) as [Hm|Hm]; [eexists _, _; split; [done|]; by constructor|].
  pose proof (history_holds _ _ Hh) as Hho. pose proof (history_descending _ _ Hh) as Hd.
  destruct (record_ok _ l x Hho Hd Hx) as (b & rs & -> & Hs). simpl.
  destruct (history_step _ l x b rs Hh Hx Hs) as (l' & Hh' & Hmono & Hcx & Hc'). destruct b.
  - specialize (Hcx eq_refl). destruct l' as [|r l']; [by apply covers_nil in Hcx|].
    pose proof (history_descending _ _ Hh') as Hd'.
    assert (Hc : forall y, covers (r :: l') y <-> (y = x \/ y ∈ acc) /\ ~ forgets (forgotten_through rs) y).
    { intros y. rewrite Hc', Hcov. specialize (Hmono y). naive_solver. }
    destruct (next_step acc x _ _ r l' Hnx ltac:(lia) Hcx Hc Hd') as [Hlr Hno].
    destruct (nextExpected_ok rs (r :: l') (history_holds _ _ Hh') Hd') as (n & Hne & Hn'). rewrite Hne. simpl. rewrite (Hn' Hlr) in *.
    eexists _, _. split; [done|]. destruct Hs as (Hf & Hroom & l1 & Hl1 & _).
    apply (receives_new s acc l x rs r l'); try done.
    + intros Hin. assert (covers l x) as Hlx by (by apply Hcov). apply (rec_list_None l x Hd) in Hlx. congruence.
    + intros y. rewrite elem_of_cons. apply Hc.
  - destruct Hs as [-> Hs]. eexists _, _. split; [done|]. replace (s <| received_packet_ranges := _ |>) with s by (by destruct s).
    apply receives_duplicate; [done|]. rewrite Hcov in Hs. naive_solver.
Qed.

(** An ACK is pending exactly when one is owed. *)
Definition owed_ok (s : PacketSpace) (owed : bool) : Prop := pending_ack_largest s = None <-> owed = false.

(** A call on [x] keeps the invariant, with the number accepted or not;
    [queues]: an accepted number leaves an ACK pending. *)
Definition kept (s : PacketSpace) (acc : list Z) (x : Z) (queues : bool) (s' : PacketSpace) : Prop :=
  (exists l', space_inv s' (if accepted s x then x :: acc else acc) l') /\
  if accepted s x && queues then pending_ack_largest s' <> None else pending_ack_largest s' = pending_ack_largest s.

Lemma kept_refused s acc l x queues : space_inv s acc l -> accepted s x = false -> kept s acc x queues s.
Proof. intros Hinv E. unfold kept. rewrite E. split; [by exists l|done]. Qed.

(** A number just accepted. *)
Lemma new_inv s acc l x rs r l' pending : space_inv s acc l -> discarded s = false ->
  history rs (r :: l') -> next_ok (x :: acc) (largest r + 1) -> x ∉ acc ->
  nextExpectedPacketNumber rs = Some (largest r + 1) ->
  (forall y, covers (r :: l') y <-> y ∈ x :: acc /\ ~ forgets (forgotten_through rs) y) ->
  (forall p, pending = Some p -> p = largest r \/ pending_ack_largest s = Some p) ->
  space_inv (s <| received_packet_ranges := rs |> <| next_peer_packet_number := largest r + 1 |> <| pending_ack_largest := pending |>)
    (x :: acc) (r :: l').
Proof.
  intros [_ Hnd _ Hop] Hdis Hh Hno Hin Hne Hc Hp. rewrite Hdis in Hop. destruct Hop as [_ _ Hpend].
  split; simpl; [done|by constructor|done|]. rewrite Hdis. split; simpl; [done|done|]. intros p Hs.
  destruct (Hp p Hs) as [->|E]; [|by apply list_elem_of_further, Hpend].
  apply Hc. rewrite covers_cons. left. destruct (history_descending _ _ Hh) as (Hr & _). unfold range_ok, in_range in *. lia.
Qed.

Lemma received_number_typed s acc l o : space_inv s acc l -> op_typed (op_receive o) ->
  0 <= default (next_peer_packet_number s) o <= U64_MAX.
Proof.
  intros Hinv Ho. destruct o as [y|]; [exact Ho|]. destruct (space_next _ _ _ Hinv) as (Hall & Hn & Hmax). simpl.
  unfold max_quic_varint, U64_MAX in *. destruct Hn as [[-> _]|Hn]; [lia|].
  rewrite list.Forall_forall in Hall. specialize (Hall _ Hn). lia.
Qed.

Lemma queueAck_ok s acc l o : space_inv s acc l -> op_typed (op_receive o) ->
  let x := default (next_peer_packet_number s) o in
  exists res s', queueAckForReceivedPacket s o = Some (res, s') /\ kept s acc x true s' /\
    (if accepted s x then discarded s' = false else s' = s).
Proof.
  intros Hinv Ho x. pose proof (received_number_typed s acc l o Hinv Ho) as Hx. fold x in Hx.
  unfold queueAckForReceivedPacket. fold x. destruct (discarded s) eqn:Hdis.
  { assert (accepted s x = false) as Ha by (unfold accepted; by rewrite Hdis).
    eexists _, s. split; [done|]. split; [by eapply kept_refused|by rewrite Ha]. }
  destruct (recordReceived_ok s acc l x Hinv Hdis Hx) as (res & s1 & E & Hr). rewrite E. cbn [mbind option_bind].
  assert (Ha : accepted s x = match res with inr b => b | inl _ => false end) by (unfold accepted; by rewrite Hdis, E).
  destruct Hr as [Hm|Hm Hs|rs r l' Hm Hin Hf Hroom Hh Hcx Hno Hne Hc].
  1,2: (eexists _, s; split; [done|]; split; [by eapply kept_refused|by rewrite Ha]).
  pose proof (holds_get rs [] r l' (history_holds _ _ Hh)) as Hg. rewrite zlen_nil in Hg. simpl. rewrite Hg. simpl.
  eexists _, _. split; [done|]. rewrite Ha. split; [|done]. unfold kept. rewrite Ha. split; [|done]. exists (r :: l').
  eapply new_inv; try done. intros p [= <-]. by left.
Qed.

Lemma refused_number s x : canRecord (received_packet_ranges s) x = false -> accepted s x = false.
Proof.
  intros E. unfold accepted, recordReceivedPacketNumber, record. rewrite E. destruct (x >? max_quic_varint); cbn; by rewrite andb_false_r.
Qed.

(** Recording a number that was accepted already changes nothing. *)
Lemma record_again s acc l x : space_inv s acc l -> discarded s = false -> 0 <= x <= U64_MAX -> x ∈ acc ->
  exists res, recordReceivedPacketNumber s x = Some (res, s).
Proof.
  intros Hinv Hdis Hx Hin. destruct (recordReceived_ok s acc l x Hinv Hdis Hx) as (res & s1 & E & Hr). rewrite E.
  destruct Hr; [by eexists|by eexists|done].
Qed.

Lemma record_refused s acc l x : space_inv s acc l -> discarded s = false -> 0 <= x <= U64_MAX -> accepted s x = false ->
  exists res, recordReceivedPacketNumber s x = Some (res, s).
Proof.
  intros Hinv Hdis Hx Ha. destruct (recordReceived_ok s acc l x Hinv Hdis Hx) as (res & s1 & E & Hr). rewrite E.
  unfold accepted in Ha. rewrite Hdis, E in Ha. destruct Hr; [by eexists|by eexists|done].
Qed.

Lemma record_quiet s acc l x : space_inv s acc l -> discarded s = false -> 0 <= x <= U64_MAX ->
  exists res s', recordReceivedPacketNumber s x = Some (res, s') /\ kept s acc x false s'.
Proof.
  intros Hinv Hdis Hx. destruct (recordReceived_ok s acc l x Hinv Hdis Hx) as (res & s1 & E & Hr). rewrite E.
  assert (Ha : accepted s x = match res with inr b => b | inl _ => false end) by (unfold accepted; by rewrite Hdis, E).
  eexists _, _. split; [done|]. destruct Hr as [Hm|Hm Hs|rs r l' Hm Hin Hf Hroom Hh Hcx Hno Hne Hc].
  1,2: by eapply kept_refused.
  unfold kept. rewrite Ha. split; [|done]. exists (r :: l').
  eapply (new_inv s acc l x rs r l' (pending_ack_largest s)); try done. by right.
Qed.

(** [processPacketNumber] keeps the invariant and queues an ACK for a new
    ack-eliciting packet only. *)
Lemma process_ok s acc l x e : space_inv s acc l -> 0 <= x <= U64_MAX ->
  exists res s', processPacketNumber s x e = Some (res, s') /\ kept s acc x e s'.
Proof.
  intros Hinv Hx. unfold processPacketNumber. destruct (discarded s) eqn:Hdis.
  { eexists _, s. split; [done|]. eapply kept_refused; [done|]. unfold accepted. by rewrite Hdis. }
  destruct (canRecord (received_packet_ranges s) x) eqn:Hcan; cbn [negb].
  2:{ eexists _, s. split; [done|]. eapply kept_refused; [done|]. by apply refused_number. }
  destruct e; cbn [mbind option_bind].
  2:{ destruct (record_quiet s acc l x Hinv Hdis Hx) as (res & s1 & -> & Hk). cbn. by eexists _, _. }
  destruct (queueAck_ok s acc l (Some x) Hinv Hx) as (res & s1 & -> & Hk & Hacc). cbn [mbind option_bind default from_option id] in *.
  destruct res as [err|[]]; [by eexists _, _|]. pose proof Hk as [[l1 Hinv1] _]. destruct (accepted s x) eqn:Ha.
  - destruct (record_again s1 (x :: acc) l1 x Hinv1 Hacc Hx) as (res & ->); [constructor|]. cbn. by eexists _, _.
  - subst s1. destruct (record_refused s acc l x Hinv Hdis Hx Ha) as (res & ->). cbn. by eexists _, _.
Qed.

(** What [pendingAckFrame] builds when an ACK is owed or not. *)
Definition acks (s : PacketSpace) (acc : list Z) (owed : bool) (oa : option AckFrame) : Prop :=
  match oa with
  | None => owed = false
  | Some a => owed = true /\ largest_acknowledged a ∈ acc /\ Forall (fun y => y <= largest_acknowledged a) acc /\
      validateFrame (ack a) = inr tt /\ ackFrameRangesAreValid a = true /\
      forall y, ackFrameContains a y = true <-> y ∈ acc /\ ~ forgets (forgotten_through (received_packet_ranges s)) y
  end.

(** A pending ACK has ranges to report. *)
Lemma pending_ranges s acc l p : space_inv s acc l -> discarded s = false -> pending_ack_largest s = Some p ->
  exists r l0, l = r :: l0.
Proof.
  intros [Hh _ (Hall & _ & _) Hop] Hdis Hp. rewrite Hdis in Hop. destruct Hop as [_ Hnext Hpend]. destruct l as [|r l0]; [|eauto].
  destruct (nextExpected_ok _ [] (history_holds _ _ Hh) (history_descending _ _ Hh)) as (n & Hn & ->). rewrite Hnext in Hn. injection Hn as E.
  rewrite list.Forall_forall in Hall. specialize (Hall p (Hpend p Hp)). lia.
Qed.

Lemma pendingAck_ok s acc l owed : space_inv s acc l -> owed_ok s owed ->
  exists oa s', pendingAckFrame s = Some (oa, s') /\ space_inv s' acc l /\ owed_ok s' owed /\ acks s acc owed oa.
Proof.
  intros Hinv Ho. unfold pendingAckFrame. destruct (pending_ack_largest s) as [p|] eqn:Hp.
  2:{ exists None, s. split_and!; try done. by apply Ho. }
  pose proof (space_open _ _ _ Hinv) as Hop. destruct (discarded s) eqn:Hds; [congruence|].
  destruct (pending_ranges s acc l p Hinv Hds Hp) as (r & l0 & ->).
  destruct Hop as [Hcov Hnext Hpend]. destruct Hinv as [Hh Hn Hno _].
  pose proof (history_holds _ _ Hh) as Hho. pose proof (history_descending _ _ Hh) as Hd.
  destruct (ackFrame_ok _ r l0 Hho Hd) as (rs & -> & Hho' & Hf). simpl.
  assert (Hin : largest r ∈ acc).
  { apply Hcov. rewrite covers_cons. left. destruct Hd as (Hr & _). unfold range_ok, in_range in *. lia. }
  assert (Hlr : largest r <= max_quic_varint).
  { destruct Hno as (Hall & _ & Hmax). rewrite list.Forall_forall in Hall. specialize (Hall _ Hin). lia. }
  destruct (nextExpected_ok rs (r :: l0) Hho' Hd) as (n & Hne & Hn').
  destruct (nextExpected_ok _ (r :: l0) Hho Hd) as (n2 & Hne2 & Hn2). rewrite Hnext in Hne2. injection Hne2 as E2.
  specialize (Hn' Hlr). specialize (Hn2 Hlr). cbn in Hn', Hn2.
  eexists _, _. split; [done|]. split; [|split; [exact Ho|]].
  - split; simpl; [|done|done|].
    + split; [done|done|]. rewrite Hf. apply Hh.
    + rewrite Hds. split; simpl; [by rewrite Hf|congruence|done].
  - pose proof (holds_le _ _ Hho) as Hle. rewrite zlen_cons in Hle.
    destruct (ack_of_ok r l0 Hd Hlr ltac:(lia)) as (Hv & Hval & Hc). split.
    { destruct owed; [done|]. pose proof (proj2 Ho eq_refl). congruence. }
    split; [done|]. split; [|split; [done|split; [done|]]].
    + destruct Hno as (Hall & _). eapply list.Forall_impl; [exact Hall|]. intros y Hy. cbn in *. lia.
    + intros y. rewrite Hc, bool_decide_eq_true. apply Hcov.
Qed.

Lemma kept_owed s acc x queues s' owed : kept s acc x queues s' -> owed_ok s owed ->
  owed_ok s' (if accepted s x then queues || owed else owed).
Proof.
  intros [_ Hp] Ho. unfold owed_ok in *. destruct (accepted s x), queues; cbn [andb orb] in *; rewrite ?Hp; try done.
Qed.

Lemma discard_inv s acc l junk junk_ack : space_inv s acc l -> zlen junk = 32 -> zlen junk_ack = 31 ->
  space_inv (discard_space junk junk_ack s) acc (if discarded s then l else []).
Proof.
  intros Hinv Hj Hja. unfold discard_space. destruct (discarded s) eqn:Hds; [done|].
  destruct Hinv as [Hh Hn Hno Hopn]. split; simpl; [|done|done|done].
  split; [by apply (holds_intro _ _ junk)|done|]. by intros y ?%covers_nil.
Qed.

Lemma run_space_ok ops : forall s acc owed l, space_inv s acc l -> owed_ok s owed -> Forall op_typed ops ->
  exists acc' owed' s' l', run_space s acc owed ops = Some (acc', owed', s') /\ space_inv s' acc' l' /\ owed_ok s' owed'.
Proof.
  induction ops as [|op ops IH]; intros s acc owed l Hinv Ho Ht; cbn [run_space]; [eauto 8|]. inversion_clear Ht as [|? ? Hop Ht'].
  destruct op as [o|x e| | |junk junk_ack].
  - destruct (queueAck_ok s acc l o Hinv Hop) as (res & s' & -> & Hk & _). pose proof (kept_owed _ _ _ _ _ owed Hk Ho) as Ho'.
    destruct Hk as [[l' Hinv'] _]. simpl. destruct (accepted s _); eauto.
  - destruct (process_ok s acc l x e Hinv Hop) as (res & s' & -> & Hk). pose proof (kept_owed _ _ _ _ _ owed Hk Ho) as Ho'.
    destruct Hk as [[l' Hinv'] _]. simpl. destruct (accepted s _); eauto.
  - destruct (pendingAck_ok s acc l owed Hinv Ho) as (oa & s' & -> & Hinv' & Ho' & _). simpl. eauto.
  - apply (IH _ _ _ l); [|done|done]. destruct Hinv as [Hh Hn Hno Hopn]. split; simpl; [done|done|done|].
    destruct (discarded s); [done|]. destruct Hopn as [? ? _]. by split.
  - destruct Hop. apply (IH _ _ _ (if discarded s then l else [])); [by apply discard_inv| |done].
    unfold discard_space, owed_ok in *. destruct (discarded s); [by rewrite andb_true_r|by rewrite andb_false_r].
Qed.

Lemma new_space_inv junk junk_ack : zlen junk = 32 -> zlen junk_ack = 31 -> space_inv (new_space junk junk_ack) [] [].
Proof.
  intros Hj Hja. split; simpl.
  - split; [by apply (holds_intro _ _ junk)|done|]. by intros y ?%covers_nil.
  - constructor.
  - split; [done|]. split; [by left|]. unfold max_quic_varint. lia.
  - split; simpl; [|done|done]. intros y. rewrite covers_nil, elem_of_nil. tauto.
Qed.

(** ** The theorems *)

Section Lives.
Context (junk : list ReceivedPacketRange) (junk_ack : list AckRange) (ops : list SpaceOp).
Hypothesis Hjunk : zlen junk = 32.
Hypothesis Hjunk_ack : zlen junk_ack = 31.
Hypothesis Htyped : Forall op_typed ops.

Lemma run_new_space : exists acc owed s l, run_space (new_space junk junk_ack) [] false ops = Some (acc, owed, s) /\
  space_inv s acc l /\ owed_ok s owed.
Proof. apply (run_space_ok ops _ _ _ []); [by apply new_space_inv|done|done]. Qed.

(** C16: duplicate packets are rejected with bounded memory. In whatever order
    packets are processed, ACK frames built and sent and the space discarded,
    no array access of the 32-entry history is out of bounds; no packet number
    is ever accepted twice; the next expected number is one more than the
    largest accepted; and an open space accepts a packet number exactly when it
    is new, above the numbers the full history had to forget, and not below
    all of 32 retained ranges. *)
Theorem received_numbers_exact :
  exists acc owed s, run_space (new_space junk junk_ack) [] false ops = Some (acc, owed, s) /\ NoDup acc /\
    next_ok acc (next_peer_packet_number s) /\
    (discarded s = false -> forall x, 0 <= x <= U64_MAX -> exists res s', recordReceivedPacketNumber s x = Some (res, s') /\
      match res with
      | inl e => e = InvalidPacket /\ max_quic_varint < x /\ s' = s
      | inr b => x <= max_quic_varint /\ (b = true <->
          (let rs := received_packet_ranges s in
          (x ∉ acc) /\ ~ forgets (forgotten_through rs) x /\ ~ no_room (ztake (rr_count rs) (rr_ranges rs)) x))
      end).
Proof.
  destruct run_new_space as (acc & owed & s & l & Hrun & Hinv & _). exists acc, owed, s. split; [done|].
  split; [apply Hinv|]. split; [apply Hinv|]. intros Hdis x Hx.
  destruct (recordReceived_ok s acc l x Hinv Hdis Hx) as (res & s' & Hrec & Hr). exists res, s'. split; [done|].
  cbv zeta. rewrite (holds_live _ _ (history_holds _ _ (space_history _ _ _ Hinv))). destruct Hr; [done| |]; split; try done.
  split; [done|]. intros (? & ? & ?). tauto.
Qed.

(** C17: ACK frames tell the truth. Whatever happened to a space, in whatever
    order ack-eliciting and other packets were processed, an ACK frame is built
    exactly when an ack-eliciting packet was accepted since the last ACK was
    sent. The frame passes the encoder's validation and the peer's range check;
    its largest acknowledged number is the largest number accepted; and the
    peer reads from it exactly the packet numbers that were accepted and not
    forgotten. *)
Theorem ack_frame_exact :
  wp (run_space (new_space junk junk_ack) [] false ops) (fun '(acc, owed, s) => wp (pendingAckFrame s) (fun '(oa, _) =>
    match oa with
    | None => owed = false
    | Some a => owed = true /\ largest_acknowledged a ∈ acc /\ Forall (fun y => y <= largest_acknowledged a) acc /\
        validateFrame (ack a) = inr tt /\ ackFrameRangesAreValid a = true /\
        forall y, ackFrameContains a y = true <-> y ∈ acc /\ ~ forgets (forgotten_through (received_packet_ranges s)) y
    end)).
Proof.
  destruct run_new_space as (acc & owed & s & l & -> & Hinv & Ho).
  destruct (pendingAck_ok s acc l owed Hinv Ho) as (oa & s' & Hp & _ & _ & Ha). apply wp_ret. rewrite Hp. exact Ha.
Qed.

End Lives.

Definition demo_junk : list ReceivedPacketRange := replicate 32 (MkRecv 7 3).
Definition demo_junk_ack : list AckRange := replicate 31 (MkRange 1 1).
Definition demo_ops : list SpaceOp :=
  [op_receive (Some 0); op_receive None; op_process 5 true; op_build_ack; op_ack_sent; op_process 5 true; op_process 4 true;
   op_process 100 false; op_receive (Some 2); op_process 3 false].

Lemma demo_ops_typed : Forall op_typed demo_ops.
Proof. unfold demo_ops. repeat constructor; unfold U64_MAX; try lia. Qed.

Definition demo_final : option (list Z * bool * PacketSpace) :=
  Eval vm_compute in run_space (new_space demo_junk demo_junk_ack) [] false demo_ops.

Lemma demo_run : run_space (new_space demo_junk demo_junk_ack) [] false demo_ops = demo_final.
Proof. vm_compute. reflexivity. Qed.

Lemma received_numbers_exact_witness :
  exists acc owed s, run_space (new_space demo_junk demo_junk_ack) [] false demo_ops = Some (acc, owed, s) /\
    acc = [3; 2; 100; 4; 5; 1; 0] /\ NoDup acc /\ next_peer_packet_number s = 101.
Proof.
  destruct (received_numbers_exact demo_junk demo_junk_ack demo_ops) as (acc & owed & s & Hr & Hn & _); [done|done|apply demo_ops_typed|].
  exists acc, owed, s. split; [done|]. rewrite demo_run in Hr. unfold demo_final in Hr. inversion Hr. subst. done.
Defined.

Lemma ack_frame_exact_witness :
  exists acc owed s s' a, run_space (new_space demo_junk demo_junk_ack) [] false demo_ops = Some (acc, owed, s) /\
    pendingAckFrame s = Some (Some a, s') /\ a = MkAck 100 0 0 [MkRange 93 5] /\
    forall y, ackFrameContains a y = true <-> y ∈ acc /\ ~ forgets (forgotten_through (received_packet_ranges s)) y.
Proof.
  pose proof (ack_frame_exact demo_junk demo_junk_ack demo_ops eq_refl eq_refl demo_ops_typed) as H.
  rewrite demo_run in H |- *. unfold demo_final in *. do 5 eexists. split; [reflexivity|]. split; [vm_compute; reflexivity|].
  split; [reflexivity|]. apply H.
Defined.

(** [contains] decides by the first range whose largest number is not below the
    packet number, which in a descending list is the first range: it denies
    numbers that are retained in any other range. *)
Lemma contains_misses_lower_ranges :
  exists acc owed s, run_space (new_space demo_junk demo_junk_ack) [] false demo_ops = Some (acc, owed, s) /\
    3 ∈ acc /\ covers (ztake (rr_count (received_packet_ranges s)) (rr_ranges (received_packet_ranges s))) 3 /\
    contains (received_packet_ranges s) 3 = false.
Proof.
  rewrite demo_run. do 3 eexists. split; [reflexivity|]. split; [constructor|]. split; [|done].
  apply (bool_decide_unpack _). vm_compute. done.
Qed.

End RecvRangesProps.
