(* ===== verification/TransportParams.v ===== *)
(** * Transport parameters (src/quic/transport_parameters.zig)

    The transport parameter extension: the typed values, their validation, the
    encoder, and the parser with its duplicate check and its ownership of
    decoded buffers. *)
From S2P Require Import Prelude Codec Headers ControlPackets.
Import Codec Headers ControlPackets.
Local Open Scope Z_scope.

Module TransportParams.

Definition max_connection_id_len : Z := 20.
Definition max_udp_payload_size_default : Z := 65527.
Definition max_stream_count : Z := Z.shiftl 1 60.
Definition max_idle_timeout_ms_cap : Z := Z.shiftl 1 32.

(** [unknown_parameter] is a value of the non-exhaustive enum without a name. *)
Inductive ParameterId : Type :=
  | original_destination_connection_id | max_idle_timeout | stateless_reset_token | max_udp_payload_size | initial_max_data
  | initial_max_stream_data_bidi_local | initial_max_stream_data_bidi_remote | initial_max_stream_data_uni
  | initial_max_streams_bidi | initial_max_streams_uni | ack_delay_exponent | max_ack_delay | disable_active_migration
  | preferred_address | active_connection_id_limit | initial_source_connection_id | retry_source_connection_id
  | version_information | unknown_parameter (value : Z).

(** [@intFromEnum]. *)
Definition idValue (id : ParameterId) : Z :=
  match id with
  | original_destination_connection_id => 0 | max_idle_timeout => 1 | stateless_reset_token => 2 | max_udp_payload_size => 3
  | initial_max_data => 4 | initial_max_stream_data_bidi_local => 5 | initial_max_stream_data_bidi_remote => 6
  | initial_max_stream_data_uni => 7 | initial_max_streams_bidi => 8 | initial_max_streams_uni => 9
  | ack_delay_exponent => 10 | max_ack_delay => 11 | disable_active_migration => 12 | preferred_address => 13
  | active_connection_id_limit => 14 | initial_source_connection_id => 15 | retry_source_connection_id => 16
  | version_information => 17 | unknown_parameter value => value
  end.

(** [@enumFromInt]. *)
Definition parameterId (value : Z) : ParameterId :=
  match value with
  | 0 => original_destination_connection_id | 1 => max_idle_timeout | 2 => stateless_reset_token | 3 => max_udp_payload_size
  | 4 => initial_max_data | 5 => initial_max_stream_data_bidi_local | 6 => initial_max_stream_data_bidi_remote
  | 7 => initial_max_stream_data_uni | 8 => initial_max_streams_bidi | 9 => initial_max_streams_uni
  | 10 => ack_delay_exponent | 11 => max_ack_delay | 12 => disable_active_migration | 13 => preferred_address
  | 14 => active_connection_id_limit | 15 => initial_source_connection_id | 16 => retry_source_connection_id
  | 17 => version_information | _ => unknown_parameter value
  end.

Definition isReservedParameterId (id : Z) : bool := id mod 31 =? 27.

Record PreferredAddress : Type := MkPreferred {
  ipv4_address : list byte;            (* [4]u8 *)
  ipv4_port : Z;
  ipv6_address : list byte;            (* [16]u8 *)
  ipv6_port : Z;
  pa_connection_id : list byte;
  pa_stateless_reset_token : list byte; (* [16]u8 *)
}.

Record VersionInformation : Type := MkVersionInfo { chosen_version : Z; available_versions : list Z }.

Fixpoint contains_version (vs : list Z) (version : Z) : bool :=
  match vs with [] => false | available :: vs => if available =? version then true else contains_version vs version end.

Definition containsAvailableVersion (self : VersionInformation) (version : Z) : bool :=
  contains_version (available_versions self) version.

Record TransportParameters : Type := MkParams {
  tp_original_destination_connection_id : option (list byte);
  tp_max_idle_timeout : Z;
  tp_stateless_reset_token : option (list byte);   (* ?[16]u8 *)
  tp_max_udp_payload_size : Z;
  tp_initial_max_data : Z;
  tp_initial_max_stream_data_bidi_local : Z;
  tp_initial_max_stream_data_bidi_remote : Z;
  tp_initial_max_stream_data_uni : Z;
  tp_initial_max_streams_bidi : Z;
  tp_initial_max_streams_uni : Z;
  tp_ack_delay_exponent : Z;
  tp_max_ack_delay : Z;
  tp_disable_active_migration : bool;
  tp_preferred_address : option PreferredAddress;
  tp_active_connection_id_limit : Z;
  tp_initial_source_connection_id : option (list byte);
  tp_retry_source_connection_id : option (list byte);
  tp_version_information : option VersionInformation;
}.

#[export] Instance eta_params : Eta TransportParameters := fun p =>
  MkParams (tp_original_destination_connection_id p) (tp_max_idle_timeout p) (tp_stateless_reset_token p)
    (tp_max_udp_payload_size p) (tp_initial_max_data p) (tp_initial_max_stream_data_bidi_local p)
    (tp_initial_max_stream_data_bidi_remote p) (tp_initial_max_stream_data_uni p) (tp_initial_max_streams_bidi p)
    (tp_initial_max_streams_uni p) (tp_ack_delay_exponent p) (tp_max_ack_delay p) (tp_disable_active_migration p)
    (tp_preferred_address p) (tp_active_connection_id_limit p) (tp_initial_source_connection_id p)
    (tp_retry_source_connection_id p) (tp_version_information p).

(** [TransportParameters{}]. *)
Definition default_params : TransportParameters :=
  MkParams None 0 None max_udp_payload_size_default 0 0 0 0 0 0 3 25 false None 2 None None None.

(** [if (self.field) |slice| allocator.free(slice)]. *)
Definition free_optional (o : option (list byte)) (r : FixedReader) : FixedReader :=
  match o with Some bs => free bs r | None => r end.

Definition deinit (self : TransportParameters) (r : FixedReader) : TransportParameters * FixedReader :=
  let r := free_optional (tp_original_destination_connection_id self) r in
  let r := free_optional (tp_initial_source_connection_id self) r in
  let r := free_optional (tp_retry_source_connection_id self) r in
  let r := match tp_preferred_address self with Some preferred => free (pa_connection_id preferred) r | None => r end in
  let r := match tp_version_information self with Some vi => free_len (zlen (available_versions vi)) r | None => r end in
  (default_params, r).

(** ** Validation *)

Definition validateConnectionIdLen (cid : list byte) : Err + unit :=
  fail_if (zlen cid >? max_connection_id_len) InvalidParameterValue.

Definition validatePreferredAddressConnectionIdLen (cid : list byte) : Err + unit :=
  fail_if ((zlen cid =? 0) || (zlen cid >? max_connection_id_len)) InvalidParameterValue.

Definition validateIntegerParameter (id : ParameterId) (value : Z) : Err + unit :=
  _ ← fail_if (value >? max_quic_varint) InvalidParameterValue;
  match id with
  | max_idle_timeout => fail_if (value >? max_idle_timeout_ms_cap) InvalidParameterValue
  | max_udp_payload_size => fail_if ((value <? 1200) || (value >? max_udp_payload_size_default)) InvalidParameterValue
  | initial_max_streams_bidi | initial_max_streams_uni => fail_if (value >? max_stream_count) InvalidParameterValue
  | ack_delay_exponent => fail_if (value >? 20) InvalidParameterValue
  | max_ack_delay => fail_if (value >=? Z.shiftl 1 14) InvalidParameterValue
  | active_connection_id_limit => fail_if (value <? 2) InvalidParameterValue
  | _ => inr tt
  end.

Definition validateParameterIdVarInt (id : Z) : Err + unit := fail_if (id >? max_quic_varint) InvalidParameterValue.

(** [value.len] is a [usize], so the cast to [u64] succeeds. *)
Definition validateParameterValueLen (value : list byte) : Err + Z :=
  _ ← fail_if (zlen value >? max_quic_varint) InvalidParameterLength; inr (zlen value).

Definition validateVersion (version : Z) : Err + unit := fail_if (version =? 0) InvalidParameterValue.

Definition validateChosenVersion (version : Z) : Err + unit :=
  _ ← validateVersion version; fail_if (isReservedVersion version) InvalidParameterValue.

(** [std.math.mul(usize, 4, n)] and [std.math.add(usize, 4, len)] on 64-bit sizes. *)
Definition versionInformationValueLen (available_count : Z) : Err + Z :=
  if 4 * available_count >? U64_MAX then inl InvalidParameterLength else
  let available_len := 4 * available_count in
  if 4 + available_len >? U64_MAX then inl InvalidParameterLength else
  let value_len := 4 + available_len in
  _ ← fail_if (value_len >? max_quic_varint) InvalidParameterLength; inr value_len.

(** ** Encoding *)

(** A local writer over an uninitialised array, and [getWritten] of it. *)
Definition with_scratch (raw : list byte) (m : M FixedWriter unit) : M FixedWriter (list byte) := fun w =>
  match m (Writer raw 0) with
  | Some (inr _, scratch) => Some (inr (getWritten scratch), w)
  | Some (inl e, _) => Some (inl e, w)
  | None => None
  end.

Definition writeInt16 (v : Z) : list byte := be 2 v.
Definition readInt16 (bs : list byte) : Z := fold_left (fun a b => a * 256 + byteZ b) bs 0.

Definition encodeBytesValue (id : ParameterId) (value : list byte) : M FixedWriter unit :=
  _ ← lift (validateParameterIdVarInt (idValue id));
  value_len ← lift (validateParameterValueLen value);
  _ ← encodeVarInt (idValue id);
  _ ← encodeVarInt value_len;
  writeAll value.

(** [raw]: the contents of the uninitialised array [raw: [8]u8]. *)
Definition encodeUncheckedIntegerValue (raw : list byte) (id : ParameterId) (value : Z) : M FixedWriter unit :=
  _ ← lift (validateParameterIdVarInt (idValue id));
  _ ← guard_not (value >? max_quic_varint) InvalidParameterValue;
  written ← with_scratch raw (encodeVarInt value);
  encodeBytesValue id written.

Definition encodeIntegerValue (raw : list byte) (id : ParameterId) (value : Z) : M FixedWriter unit :=
  _ ← lift (validateIntegerParameter id value);
  encodeUncheckedIntegerValue raw id value.

Definition encodeReservedParameter (id : Z) (value : list byte) : M FixedWriter unit :=
  _ ← lift (validateParameterIdVarInt id);
  value_len ← lift (validateParameterValueLen value);
  _ ← guard_not (negb (isReservedParameterId id)) InvalidParameterValue;
  _ ← encodeVarInt id;
  _ ← encodeVarInt value_len;
  writeAll value.

Definition encodeConnectionIdValue (id : ParameterId) (cid : list byte) : M FixedWriter unit :=
  _ ← lift (validateConnectionIdLen cid);
  encodeBytesValue id cid.

Definition encodeZeroLengthValue (id : ParameterId) : M FixedWriter unit :=
  _ ← encodeVarInt (idValue id);
  encodeVarInt 0.

Definition encodeStatelessResetToken (token : list byte) : M FixedWriter unit := encodeBytesValue stateless_reset_token token.

(** [raw]: the contents of the uninitialised array [raw: [61]u8]. *)
Definition encodePreferredAddress (raw : list byte) (preferred : PreferredAddress) : M FixedWriter unit :=
  _ ← lift (validatePreferredAddressConnectionIdLen (pa_connection_id preferred));
  written ← with_scratch raw (
    _ ← writeAll (ipv4_address preferred);
    _ ← writeAll (writeInt16 (ipv4_port preferred));
    _ ← writeAll (ipv6_address preferred);
    _ ← writeAll (writeInt16 (ipv6_port preferred));
    cid_len ← legal (u8 (zlen (pa_connection_id preferred)));
    _ ← writeByte cid_len;
    _ ← writeAll (pa_connection_id preferred);
    writeAll (pa_stateless_reset_token preferred));
  encodeBytesValue preferred_address written.

Fixpoint validate_available (vs : list Z) : Err + unit :=
  match vs with [] => mret tt | available :: vs => _ ← validateVersion available; validate_available vs end.

Definition encodeVersionInformation (vi : VersionInformation) : M FixedWriter unit :=
  _ ← lift (validateChosenVersion (chosen_version vi));
  value_len ← lift (versionInformationValueLen (zlen (available_versions vi)));
  _ ← lift (validate_available (available_versions vi));
  _ ← encodeVarInt (idValue version_information);
  _ ← encodeVarInt value_len;
  _ ← writeAll (writeInt32 (chosen_version vi));
  write_versions (available_versions vi).

(** [if (field) |value| try ...] and [if (field != default) try ...]. *)
Definition when_some {A} (o : option A) (m : A -> M FixedWriter unit) : M FixedWriter unit :=
  match o with Some a => m a | None => mret tt end.
Definition when (b : bool) (m : M FixedWriter unit) : M FixedWriter unit := if b then m else mret tt.

(** [raw8], [raw61]: the contents of the uninitialised local arrays. *)
Definition encode (raw8 raw61 : list byte) (params : TransportParameters) : M FixedWriter unit :=
  let int id value := encodeIntegerValue raw8 id value in
  _ ← when_some (tp_original_destination_connection_id params) (encodeConnectionIdValue original_destination_connection_id);
  _ ← when (negb (tp_max_idle_timeout params =? 0)) (int max_idle_timeout (tp_max_idle_timeout params));
  _ ← when_some (tp_stateless_reset_token params) encodeStatelessResetToken;
  _ ← when (negb (tp_max_udp_payload_size params =? max_udp_payload_size_default))
        (int max_udp_payload_size (tp_max_udp_payload_size params));
  _ ← when (negb (tp_initial_max_data params =? 0)) (int initial_max_data (tp_initial_max_data params));
  _ ← when (negb (tp_initial_max_stream_data_bidi_local params =? 0))
        (int initial_max_stream_data_bidi_local (tp_initial_max_stream_data_bidi_local params));
  _ ← when (negb (tp_initial_max_stream_data_bidi_remote params =? 0))
        (int initial_max_stream_data_bidi_remote (tp_initial_max_stream_data_bidi_remote params));
  _ ← when (negb (tp_initial_max_stream_data_uni params =? 0))
        (int initial_max_stream_data_uni (tp_initial_max_stream_data_uni params));
  _ ← when (negb (tp_initial_max_streams_bidi params =? 0)) (int initial_max_streams_bidi (tp_initial_max_streams_bidi params));
  _ ← when (negb (tp_initial_max_streams_uni params =? 0)) (int initial_max_streams_uni (tp_initial_max_streams_uni params));
  _ ← when (negb (tp_ack_delay_exponent params =? 3)) (int ack_delay_exponent (tp_ack_delay_exponent params));
  _ ← when (negb (tp_max_ack_delay params =? 25)) (int max_ack_delay (tp_max_ack_delay params));
  _ ← when (tp_disable_active_migration params) (encodeZeroLengthValue disable_active_migration);
  _ ← when_some (tp_preferred_address params) (encodePreferredAddress raw61);
  _ ← when (negb (tp_active_connection_id_limit params =? 2))
        (int active_connection_id_limit (tp_active_connection_id_limit params));
  _ ← when_some (tp_initial_source_connection_id params) (encodeConnectionIdValue initial_source_connection_id);
  _ ← when_some (tp_retry_source_connection_id params) (encodeConnectionIdValue retry_source_connection_id);
  when_some (tp_version_information params) encodeVersionInformation.

(** ** Parsing *)

(** A local reader over the value, with the same allocator. *)
Definition on_value {A} (value : list byte) (p : M FixedReader A) : M FixedReader A := fun r =>
  match p (Reader value 0 (answers r) (live r)) with
  | Some (res, r') => Some (res, r <| answers := answers r' |> <| live := live r' |>)
  | None => None
  end.

Definition cloneBytes (bs : list byte) : M FixedReader (list byte) := _ ← alloc (zlen bs); mret bs.

Definition parseIntegerValue (id : ParameterId) (value : list byte) : M FixedReader Z :=
  '(parsed, len) ← on_value value decodeVarInt;
  _ ← guard_not (negb (len =? zlen value)) InvalidParameterLength;
  _ ← lift (validateIntegerParameter id parsed);
  mret parsed.

Definition parsePreferredAddress (value : list byte) : M FixedReader PreferredAddress :=
  _ ← guard_not (zlen value <? 41) InvalidParameterLength;
  on_value value (
    ipv4_address ← readNoEof 4;
    port_buf ← readNoEof 2;
    let ipv4_port := readInt16 port_buf in
    ipv6_address ← readNoEof 16;
    port_buf ← readNoEof 2;
    let ipv6_port := readInt16 port_buf in
    cid_len ← readByte;
    _ ← guard_not ((byteZ cid_len =? 0) || (byteZ cid_len >? max_connection_id_len)) InvalidParameterValue;
    left ← remainingLen;
    _ ← guard_not (negb (left =? byteZ cid_len + 16)) InvalidParameterLength;
    connection_id ← readOwnedBytes (byteZ cid_len);
    errdefer (free connection_id) (
      token ← readNoEof 16;
      mret (MkPreferred ipv4_address ipv4_port ipv6_address ipv6_port connection_id token))).

(** [std.mem.readInt(u32, value[offset..][0..4], .big)]. *)
Definition version_at (value : list byte) (offset : Z) : option Z :=
  if (0 <=? offset) && (offset + 4 <=? zlen value) then Some (readInt32 (ztake 4 (zdrop offset value))) else None.

Fixpoint read_available (n : nat) (value : list byte) (offset : Z) : M FixedReader (list Z) :=
  match n with
  | 0%nat => mret []
  | S n =>
      available ← legal (version_at value offset);
      _ ← lift (validateVersion available);
      vs ← read_available n value (offset + 4);
      mret (available :: vs)
  end.

Definition parseVersionInformation (value : list byte) : M FixedReader VersionInformation :=
  _ ← guard_not ((zlen value <? 4) || negb (zlen value mod 4 =? 0)) InvalidParameterLength;
  chosen ← legal (version_at value 0);
  _ ← lift (validateChosenVersion chosen);
  available_count ← legal (sub64 (zlen value / 4) 1);
  _ ← alloc available_count;
  errdefer (free_len available_count) (
    vs ← read_available (Z.to_nat available_count) value 4;
    mret (MkVersionInfo chosen vs)).

(** [start = pos; pos += len; data[start..pos]]. *)
Definition take_slice (len : Z) : M FixedReader (list byte) := fun r =>
  Some (inr (ztake len (zdrop (rpos r) (data r))), r <| rpos := rpos r + len |>).

Definition readValueSlice (value_len : Z) : M FixedReader (list byte) :=
  left ← remainingLen;
  _ ← guard_not (value_len >? left) EndOfStream;
  take_slice value_len.

(** [std.ArrayList(u64)]. *)
Record IdList : Type := MkIds { items : list Z; capacity : Z }.
Definition no_ids : IdList := MkIds [] 0.

(** [std.ArrayList.growCapacity] for 8-byte items and 64-byte cache lines. *)
Definition growCapacity (minimum : Z) : Z := minimum + (minimum / 2 + 8).

(** A value, after a cleanup. *)
Definition ret_after {A} (cleanup : FixedReader -> FixedReader) (a : A) : M FixedReader A := fun r => Some (inr a, cleanup r).

(** A full list asks the allocator for a larger buffer, which replaces the old one. *)
Definition append_id (seen : IdList) (id : Z) : M FixedReader IdList :=
  let n := zlen (items seen) + 1 in
  if n <=? capacity seen then mret (MkIds (items seen ++ [id]) (capacity seen)) else
  _ ← alloc (growCapacity n);
  ret_after (free_len (capacity seen)) (MkIds (items seen ++ [id]) (growCapacity n)).

Definition deinit_ids (seen : IdList) : FixedReader -> FixedReader := free_len (capacity seen).

Definition rememberParameterId (seen : IdList) (id : Z) : M FixedReader IdList :=
  if existsb (Z.eqb id) (items seen) then throw DuplicateParameter else append_id seen id.

(** The switch over a known or unknown parameter. *)
Definition parse_value (id : ParameterId) (value : list byte) (result : TransportParameters) : M FixedReader TransportParameters :=
  match id with
  | original_destination_connection_id =>
      _ ← lift (validateConnectionIdLen value);
      cid ← cloneBytes value; mret (result <| tp_original_destination_connection_id := Some cid |>)
  | max_idle_timeout => v ← parseIntegerValue id value; mret (result <| tp_max_idle_timeout := v |>)
  | stateless_reset_token =>
      _ ← guard_not (negb (zlen value =? 16)) InvalidParameterLength;
      mret (result <| tp_stateless_reset_token := Some value |>)
  | max_udp_payload_size => v ← parseIntegerValue id value; mret (result <| tp_max_udp_payload_size := v |>)
  | initial_max_data => v ← parseIntegerValue id value; mret (result <| tp_initial_max_data := v |>)
  | initial_max_stream_data_bidi_local =>
      v ← parseIntegerValue id value; mret (result <| tp_initial_max_stream_data_bidi_local := v |>)
  | initial_max_stream_data_bidi_remote =>
      v ← parseIntegerValue id value; mret (result <| tp_initial_max_stream_data_bidi_remote := v |>)
  | initial_max_stream_data_uni => v ← parseIntegerValue id value; mret (result <| tp_initial_max_stream_data_uni := v |>)
  | initial_max_streams_bidi => v ← parseIntegerValue id value; mret (result <| tp_initial_max_streams_bidi := v |>)
  | initial_max_streams_uni => v ← parseIntegerValue id value; mret (result <| tp_initial_max_streams_uni := v |>)
  | ack_delay_exponent => v ← parseIntegerValue id value; mret (result <| tp_ack_delay_exponent := v |>)
  | max_ack_delay => v ← parseIntegerValue id value; mret (result <| tp_max_ack_delay := v |>)
  | disable_active_migration =>
      _ ← guard_not (negb (zlen value =? 0)) InvalidParameterLength;
      mret (result <| tp_disable_active_migration := true |>)
  | preferred_address => preferred ← parsePreferredAddress value; mret (result <| tp_preferred_address := Some preferred |>)
  | active_connection_id_limit => v ← parseIntegerValue id value; mret (result <| tp_active_connection_id_limit := v |>)
  | initial_source_connection_id =>
      _ ← lift (validateConnectionIdLen value);
      cid ← cloneBytes value; mret (result <| tp_initial_source_connection_id := Some cid |>)
  | retry_source_connection_id =>
      _ ← lift (validateConnectionIdLen value);
      cid ← cloneBytes value; mret (result <| tp_retry_source_connection_id := Some cid |>)
  | version_information => vi ← parseVersionInformation value; mret (result <| tp_version_information := Some vi |>)
  | unknown_parameter _ => mret result
  end.

(** The [defer] and [errdefer] of [parse] when an error is returned. *)
Definition abandon (result : TransportParameters) (seen : IdList) (r : FixedReader) : FixedReader :=
  (deinit result (deinit_ids seen r)).2.

(** The loop of [parse]; the result and the identifiers seen are local variables. *)
Fixpoint parse_loop (fuel : nat) (result : TransportParameters) (seen : IdList) : M FixedReader TransportParameters :=
  left ← remainingLen;
  if left =? 0 then ret_after (deinit_ids seen) result else
  match fuel with
  | 0%nat => illegal
  | S fuel =>
      '(id_raw, value_len, seen') ← errdefer (abandon result seen) (
        id ← decodeVarInt;
        len ← decodeVarInt;
        seen' ← rememberParameterId seen id.1;
        mret (id.1, len.1, seen'));
      result' ← errdefer (abandon result seen') (
        value ← readValueSlice value_len;
        parse_value (parameterId id_raw) value result);
      parse_loop fuel result' seen'
  end.

(** Every iteration reads at least one byte. *)
Definition parse (data : list byte) (allocator : list bool) (l : Z) : option ((Err + TransportParameters) * FixedReader) :=
  parse_loop (length data) default_params no_ids (Reader data 0 allocator l).

End TransportParams.
