(* ===== verification/TransportParamsProps.v ===== *)
(** * Transport parameters: correctness

    The encoder accepts exactly the values RFC 9000 allows; the parser gives
    them back, ignores unknown parameters, rejects duplicates, yields only
    values within those bounds and accounts for every buffer. *)
From S2P Require Import Prelude Codec CodecSafe Headers ControlPackets FramePayload TransportParams.
Import Codec Safe Headers ControlPackets FramePayload TransportParams.
Local Open Scope Z_scope.

Module TransportParamsProps.

(** ** Valid parameters *)

(** The bounds the code enforces on an integer parameter. *)
Definition int_bounds (id : ParameterId) : Z * Z :=
  match id with
  | max_idle_timeout => (0, 4294967296)
  | max_udp_payload_size => (1200, 65527)
  | initial_max_streams_bidi | initial_max_streams_uni => (0, 1152921504606846976)
  | ack_delay_exponent => (0, 20)
  | max_ack_delay => (0, 16383)
  | active_connection_id_limit => (2, max_quic_varint)
  | _ => (0, max_quic_varint)
  end.

Definition int_valid (id : ParameterId) (v : Z) : Prop := (int_bounds id).1 <= v <= (int_bounds id).2.

Definition opt_ok {A} (P : A -> Prop) (o : option A) : Prop := match o with Some a => P a | None => True end.

Definition cid_ok (cid : list byte) : Prop := zlen cid <= 20.
Definition token_ok (token : list byte) : Prop := zlen token = 16.

(** What the types say of a preferred address. *)
Definition preferred_typed (a : PreferredAddress) : Prop :=
  zlen (ipv4_address a) = 4 /\ 0 <= ipv4_port a < 65536 /\ zlen (ipv6_address a) = 16 /\ 0 <= ipv6_port a < 65536 /\
  zlen (pa_stateless_reset_token a) = 16.

Definition preferred_ok (a : PreferredAddress) : Prop := 1 <= zlen (pa_connection_id a) <= 20.

Definition versions_typed (vi : VersionInformation) : Prop :=
  0 <= chosen_version vi <= U32_MAX /\ Forall (fun v => 0 <= v <= U32_MAX) (available_versions vi).

Definition versions_ok (vi : VersionInformation) : Prop :=
  chosen_version vi <> 0 /\ isReservedVersion (chosen_version vi) = false /\
  Forall (fun v => v <> 0) (available_versions vi) /\ 4 + 4 * zlen (available_versions vi) <= max_quic_varint.

(** The values the Zig types admit. *)
Record params_typed (p : TransportParameters) : Prop := {
  ty_idle : 0 <= tp_max_idle_timeout p;
  ty_token : opt_ok token_ok (tp_stateless_reset_token p);
  ty_udp : 0 <= tp_max_udp_payload_size p;
  ty_data : 0 <= tp_initial_max_data p;
  ty_bidi_local : 0 <= tp_initial_max_stream_data_bidi_local p;
  ty_bidi_remote : 0 <= tp_initial_max_stream_data_bidi_remote p;
  ty_uni : 0 <= tp_initial_max_stream_data_uni p;
  ty_streams_bidi : 0 <= tp_initial_max_streams_bidi p;
  ty_streams_uni : 0 <= tp_initial_max_streams_uni p;
  ty_exponent : 0 <= tp_ack_delay_exponent p;
  ty_delay : 0 <= tp_max_ack_delay p;
  ty_preferred : opt_ok preferred_typed (tp_preferred_address p);
  ty_limit : 0 <= tp_active_connection_id_limit p;
  ty_versions : opt_ok versions_typed (tp_version_information p);
}.

(** The values the code accepts, parameter by parameter. *)
Definition params_ok (p : TransportParameters) : Prop :=
  opt_ok cid_ok (tp_original_destination_connection_id p) /\
  int_valid max_idle_timeout (tp_max_idle_timeout p) /\
  int_valid max_udp_payload_size (tp_max_udp_payload_size p) /\
  int_valid initial_max_data (tp_initial_max_data p) /\
  int_valid initial_max_stream_data_bidi_local (tp_initial_max_stream_data_bidi_local p) /\
  int_valid initial_max_stream_data_bidi_remote (tp_initial_max_stream_data_bidi_remote p) /\
  int_valid initial_max_stream_data_uni (tp_initial_max_stream_data_uni p) /\
  int_valid initial_max_streams_bidi (tp_initial_max_streams_bidi p) /\
  int_valid initial_max_streams_uni (tp_initial_max_streams_uni p) /\
  int_valid ack_delay_exponent (tp_ack_delay_exponent p) /\
  int_valid max_ack_delay (tp_max_ack_delay p) /\
  opt_ok preferred_ok (tp_preferred_address p) /\
  int_valid active_connection_id_limit (tp_active_connection_id_limit p) /\
  opt_ok cid_ok (tp_initial_source_connection_id p) /\
  opt_ok cid_ok (tp_retry_source_connection_id p) /\
  opt_ok versions_ok (tp_version_information p).

(** The values RFC 9000 (section 18.2) and RFC 9368 (section 3) allow. *)
Definition rfc_versions_ok (vi : VersionInformation) : Prop :=
  chosen_version vi <> 0 /\ Forall (fun v => v <> 0) (available_versions vi) /\
  4 + 4 * zlen (available_versions vi) <= max_quic_varint.

Definition rfc_params_ok (p : TransportParameters) : Prop :=
  opt_ok cid_ok (tp_original_destination_connection_id p) /\ tp_max_idle_timeout p <= max_quic_varint /\
  1200 <= tp_max_udp_payload_size p <= max_quic_varint /\
  Forall (fun v => v <= max_quic_varint) [tp_initial_max_data p; tp_initial_max_stream_data_bidi_local p;
    tp_initial_max_stream_data_bidi_remote p; tp_initial_max_stream_data_uni p] /\
  tp_initial_max_streams_bidi p <= 2 ^ 60 /\ tp_initial_max_streams_uni p <= 2 ^ 60 /\
  tp_ack_delay_exponent p <= 20 /\ tp_max_ack_delay p < 2 ^ 14 /\
  opt_ok preferred_ok (tp_preferred_address p) /\ 2 <= tp_active_connection_id_limit p <= max_quic_varint /\
  opt_ok cid_ok (tp_initial_source_connection_id p) /\ opt_ok cid_ok (tp_retry_source_connection_id p) /\
  opt_ok rfc_versions_ok (tp_version_information p).

(** Limits of this library that the RFCs do not have: the idle timeout cap of
    transport_parameters.zig, the largest UDP payload it knows, and no
    reserved version as the chosen one. *)
Definition library_limits (p : TransportParameters) : Prop :=
  tp_max_idle_timeout p <= max_idle_timeout_ms_cap /\ tp_max_udp_payload_size p <= max_udp_payload_size_default /\
  opt_ok (fun vi => isReservedVersion (chosen_version vi) = false) (tp_version_information p).

Lemma params_ok_iff p : params_typed p -> params_ok p <-> rfc_params_ok p /\ library_limits p.
Proof.
  intros []. unfold params_ok, rfc_params_ok, library_limits, int_valid, versions_ok, rfc_versions_ok. cbn [int_bounds fst snd].
  rewrite !list.Forall_cons, list.Forall_nil. change max_idle_timeout_ms_cap with 4294967296. change max_udp_payload_size_default with 65527.
  change (2 ^ 60) with 1152921504606846976. change (2 ^ 14) with 16384.
  assert (4294967296 <= max_quic_varint /\ 65527 <= max_quic_varint) as [? ?] by (unfold max_quic_varint; lia).
  destruct (tp_version_information p); cbn [opt_ok]; split; intros; destruct_and?; repeat split; try done; lia.
Qed.

(** ** The encoder *)

(** [m] never succeeds. *)
Definition fails (m : M FixedWriter unit) : Prop := forall w, wf_writer w ->
  exists e w', m w = Some (inl e, w') /\ wf_writer w'.

(** [m] writes [bs] when [P] holds, and fails otherwise. *)
Definition writes_iff (P : Prop) (m : M FixedWriter unit) (bs : list byte) : Prop := (P /\ emits m bs) \/ (~ P /\ fails m).

Lemma fails_bind m1 (m2 : unit -> M FixedWriter unit) : fails m1 -> fails (m1 ≫= m2).
Proof. intros Hf w Hw. destruct (Hf w Hw) as (e & w' & E & Hw'). unfold mbind, M_bind. rewrite E. eauto. Qed.

Lemma fails_after m1 bs m2 : emits m1 bs -> fails m2 -> fails (m1 ≫= fun _ => m2).
Proof.
  intros He Hf w Hw. specialize (He w Hw). unfold mbind, M_bind. destruct (Z.leb_spec (zlen bs) (room w)).
  - rewrite He. apply Hf. by apply push_wf.
  - destruct He as (w' & -> & Hw'). eauto.
Qed.

Lemma writes_iff_bind P Q m1 m2 a b : writes_iff P m1 a -> writes_iff Q m2 b ->
  writes_iff (P /\ Q) (m1 ≫= fun _ => m2) (a ++ b).
Proof.
  intros [[HP H1]|[HP H1]]; [|intros _; right; split; [tauto|by apply fails_bind]].
  intros [[HQ H2]|[HQ H2]]; [left; split; [done|by apply emits_bind]|right; split; [tauto|by eapply fails_after]].
Qed.

(** A step whose value is always valid. *)
Lemma writes_iff_then Q m1 m2 a b : emits m1 a -> writes_iff Q m2 b -> writes_iff Q (m1 ≫= fun _ => m2) (a ++ b).
Proof.
  intros H1 [[HQ H2]|[HQ H2]]; [left; split; [done|by apply emits_bind]|right; split; [done|by eapply fails_after]].
Qed.

Lemma fails_lift {A} (o : Err + A) e (k : A -> M FixedWriter unit) : o = inl e -> fails (lift o ≫= k).
Proof. intros -> w Hw. eexists _, _. by split. Qed.

(** *** Parameters as byte strings *)

Definition item (id : Z) (value : list byte) : list byte := varint_bytes id ++ varint_bytes (zlen value) ++ value.

Lemma idValue_range id : (forall v, id <> unknown_parameter v) -> 0 <= idValue id <= 17.
Proof. destruct id; cbn; try lia. intros H. by destruct (H value). Qed.

Lemma emits_bytes_value id v : (forall x, id <> unknown_parameter x) -> zlen v <= max_quic_varint ->
  emits (encodeBytesValue id v) (item (idValue id) v).
Proof.
  intros Hid Hv. pose proof (idValue_range id Hid). pose proof (zlen_nonneg v). unfold encodeBytesValue.
  eapply emits_lift; [unfold validateParameterIdVarInt, fail_if; rewrite gtb_false; [done|unfold max_quic_varint; lia]|].
  eapply (emits_lift _ (zlen v)); [unfold validateParameterValueLen, fail_if; rewrite gtb_false by done; done|].
  unfold item. apply emits_bind; [apply emits_varint; unfold max_quic_varint; lia|].
  apply emits_bind; [by apply emits_varint|]. apply emits_all.
Qed.

(** The local writer holds what was written to it. *)
Lemma with_scratch_ok raw m bs : emits m bs -> zlen bs <= zlen raw -> forall (k : list byte -> M FixedWriter unit) out,
  emits (k bs) out -> emits (with_scratch raw m ≫= k) out.
Proof.
  intros Hm Hfit k out Hk w Hw. assert (Hw0 : wf_writer (Writer raw 0)) by (unfold wf_writer; cbn; pose proof (zlen_nonneg raw); lia).
  specialize (Hm _ Hw0). unfold room in Hm. cbn [buffer wpos] in Hm. rewrite Z.sub_0_r, (proj2 (Z.leb_le _ _)) in Hm by done.
  rewrite (bind_ok _ _ w bs w); [by apply Hk|]. unfold with_scratch. rewrite Hm, getWritten_push by done. done.
Qed.

Lemma varint_bytes_len v : 0 <= v <= max_quic_varint -> 1 <= zlen (varint_bytes v) <= 8.
Proof.
  intros. unfold varint_bytes. destruct (v <=? 63); [vm_compute; by split|]. destruct (v <=? 16383); [vm_compute; by split|].
  destruct (v <=? 1073741823); vm_compute; by split.
Qed.

(** [validateIntegerParameter] checks the bounds. *)
Lemma validate_integer id v : 0 <= v ->
  (int_valid id v /\ validateIntegerParameter id v = inr tt) \/ (~ int_valid id v /\ validateIntegerParameter id v = inl InvalidParameterValue).
Proof.
  intros Hv. unfold validateIntegerParameter, int_valid, max_quic_varint, fail_if. rewrite Z.gtb_ltb.
  destruct id; cbn [int_bounds fst snd]; unfold max_quic_varint, max_idle_timeout_ms_cap, max_udp_payload_size_default, max_stream_count;
    repeat match goal with |- context [Z.shiftl 1 ?n] => let x := eval vm_compute in (Z.shiftl 1 n) in change (Z.shiftl 1 n) with x end;
    destruct (Z.ltb_spec 4611686018427387903 v) as [Hbig|Hbig]; try (right; split; [lia|reflexivity]);
    cbn [mbind sum_bind]; rewrite ?Z.gtb_ltb, ?Z.geb_leb; try (left; split; [lia|reflexivity]);
    repeat match goal with
      | |- context [?a <? ?b] => destruct (Z.ltb_spec a b)
      | |- context [?a <=? ?b] => destruct (Z.leb_spec a b)
      end; cbn [orb]; first [left; split; [lia|reflexivity]|right; split; [lia|reflexivity]].
Qed.

(** An integer parameter, absent at its default. *)
Definition int_item (id : ParameterId) (d v : Z) : list byte := if v =? d then [] else item (idValue id) (varint_bytes v).
Definition opt_item {A} (id : ParameterId) (f : A -> list byte) (o : option A) : list byte :=
  match o with Some a => item (idValue id) (f a) | None => [] end.

Lemma emits_integer raw8 id v : zlen raw8 = 8 -> (forall x, id <> unknown_parameter x) -> 0 <= v <= max_quic_varint ->
  emits (encodeUncheckedIntegerValue raw8 id v) (item (idValue id) (varint_bytes v)).
Proof.
  intros Hraw Hid Hv. unfold encodeUncheckedIntegerValue. pose proof (idValue_range id Hid). pose proof (varint_bytes_len v Hv).
  eapply emits_lift; [unfold validateParameterIdVarInt, fail_if; rewrite gtb_false; [done|unfold max_quic_varint; lia]|].
  apply emits_guard; [apply gtb_false; lia|]. eapply with_scratch_ok; [by apply emits_varint|lia|].
  apply emits_bytes_value; [done|]. unfold max_quic_varint. lia.
Qed.

Lemma writes_int raw8 id d v : zlen raw8 = 8 -> (forall x, id <> unknown_parameter x) -> 0 <= v -> int_valid id d ->
  writes_iff (int_valid id v) (when (negb (v =? d)) (encodeIntegerValue raw8 id v)) (int_item id d v).
Proof.
  intros Hraw Hid Hv Hd. unfold int_item. destruct (Z.eqb_spec v d) as [->|_]; cbn [negb when].
  { left. split; [done|]. apply emits_nil. }
  unfold encodeIntegerValue. destruct (validate_integer id v Hv) as [[Hok E]|[Hbad E]].
  - left. split; [done|]. eapply emits_lift; [exact E|]. apply emits_integer; [done|done|].
    destruct id; unfold int_valid in Hok; cbn in Hok; unfold max_quic_varint in *; lia.
  - right. split; [done|]. by eapply fails_lift.
Qed.

Lemma writes_cid id o : (forall x, id <> unknown_parameter x) ->
  writes_iff (opt_ok cid_ok o) (when_some o (encodeConnectionIdValue id)) (opt_item id (fun c => c) o).
Proof.
  intros Hid. destruct o as [c|]; cbn [when_some opt_ok opt_item]; [|left; split; [done|apply emits_nil]].
  unfold encodeConnectionIdValue, cid_ok. destruct (Z.leb_spec (zlen c) 20).
  - left. split; [done|]. eapply emits_lift.
    { unfold validateConnectionIdLen, fail_if, max_connection_id_len. rewrite gtb_false by done. done. }
    apply emits_bytes_value; [done|]. unfold max_quic_varint. lia.
  - right. split; [lia|]. eapply (fails_lift _ InvalidParameterValue). unfold validateConnectionIdLen, fail_if, max_connection_id_len.
    rewrite Z.gtb_ltb, (proj2 (Z.ltb_lt _ _)) by done. done.
Qed.

Definition preferred_bytes (a : PreferredAddress) : list byte :=
  ipv4_address a ++ writeInt16 (ipv4_port a) ++ ipv6_address a ++ writeInt16 (ipv6_port a) ++
    Zbyte (zlen (pa_connection_id a)) :: pa_connection_id a ++ pa_stateless_reset_token a.

Lemma preferred_len a : preferred_typed a -> zlen (preferred_bytes a) = 41 + zlen (pa_connection_id a).
Proof.
  intros (H4 & _ & H6 & _ & Ht). unfold preferred_bytes. rewrite !zlen_app, zlen_cons, !zlen_app, H4, H6, Ht.
  change (zlen (writeInt16 (ipv4_port a))) with 2. change (zlen (writeInt16 (ipv6_port a))) with 2. lia.
Qed.

Lemma writes_preferred raw61 o : zlen raw61 = 61 -> opt_ok preferred_typed o ->
  writes_iff (opt_ok preferred_ok o) (when_some o (encodePreferredAddress raw61)) (opt_item preferred_address preferred_bytes o).
Proof.
  intros Hraw Ht. destruct o as [a|]; cbn [when_some opt_ok opt_item] in *; [|left; split; [done|apply emits_nil]].
  pose proof (zlen_nonneg (pa_connection_id a)). unfold encodePreferredAddress, preferred_ok.
  destruct (decide (1 <= zlen (pa_connection_id a) <= 20)) as [Hok|Hbad].
  - left. split; [done|]. eapply emits_lift.
    { unfold validatePreferredAddressConnectionIdLen, fail_if, max_connection_id_len.
      rewrite gtb_false, (proj2 (Z.eqb_neq _ _)) by lia. done. }
    pose proof (preferred_len a Ht) as Hlen. apply (with_scratch_ok raw61 _ (preferred_bytes a)); [|lia|].
    + unfold preferred_bytes. do 4 (apply emits_bind; [apply emits_all|]). eapply emits_legal; [apply u8_ok; lia|].
      apply emits_cons. apply emits_bind; apply emits_all.
    + apply emits_bytes_value; [done|]. unfold max_quic_varint. lia.
  - right. split; [done|]. eapply (fails_lift _ InvalidParameterValue).
    unfold validatePreferredAddressConnectionIdLen, fail_if, max_connection_id_len. rewrite Z.gtb_ltb.
    destruct (Z.eqb_spec (zlen (pa_connection_id a)) 0); [done|]. rewrite (proj2 (Z.ltb_lt _ _)) by lia. done.
Qed.

Definition versions_bytes (vi : VersionInformation) : list byte :=
  writeInt32 (chosen_version vi) ++ version_bytes (available_versions vi).

Lemma versions_bytes_len vi : zlen (versions_bytes vi) = 4 + 4 * zlen (available_versions vi).
Proof. unfold versions_bytes. rewrite zlen_app, version_bytes_len. done. Qed.

Lemma validate_available_ok vs :
  (Forall (fun v => v <> 0) vs /\ validate_available vs = inr tt) \/
  (~ Forall (fun v => v <> 0) vs /\ validate_available vs = inl InvalidParameterValue).
Proof.
  induction vs as [|v vs IH]; [by left|]. cbn. unfold validateVersion at 1 2, fail_if. destruct (Z.eqb_spec v 0) as [->|Hv]; cbn.
  - right. split; [|done]. intros Hf. by inversion_clear Hf.
  - destruct IH as [[Hf ->]|[Hf ->]]; [left|right]; (split; [|done]); [by constructor|]. intros Hf'. by inversion_clear Hf'.
Qed.

Lemma value_len_ok n : 0 <= n ->
  (4 + 4 * n <= max_quic_varint /\ versionInformationValueLen n = inr (4 + 4 * n)) \/
  (max_quic_varint < 4 + 4 * n /\ versionInformationValueLen n = inl InvalidParameterLength).
Proof.
  intros Hn. unfold versionInformationValueLen, fail_if, max_quic_varint, U64_MAX. cbv zeta. rewrite !Z.gtb_ltb.
  destruct (Z.ltb_spec 18446744073709551615 (4 * n)); [right; split; [lia|done]|].
  destruct (Z.ltb_spec 18446744073709551615 (4 + 4 * n)); [right; split; [lia|done]|].
  destruct (Z.ltb_spec 4611686018427387903 (4 + 4 * n)); [right|left]; split; done || lia.
Qed.

Lemma writes_versions o :
  writes_iff (opt_ok versions_ok o) (when_some o encodeVersionInformation) (opt_item version_information versions_bytes o).
Proof.
  destruct o as [vi|]; cbn [when_some opt_ok opt_item]; [|left; split; [done|apply emits_nil]].
  unfold encodeVersionInformation, versions_ok. pose proof (zlen_nonneg (available_versions vi)).
  assert (Hchosen : validateChosenVersion (chosen_version vi) =
    if (chosen_version vi =? 0) || isReservedVersion (chosen_version vi) then inl InvalidParameterValue else inr tt).
  { unfold validateChosenVersion, validateVersion, fail_if. by destruct (chosen_version vi =? 0), (isReservedVersion (chosen_version vi)). }
  destruct (Z.eqb_spec (chosen_version vi) 0) as [Hz|Hz]; cbn [orb] in Hchosen; [right; split; [naive_solver|by eapply fails_lift]|].
  destruct (isReservedVersion (chosen_version vi)); [right; split; [naive_solver|by eapply fails_lift]|].
  rewrite Hchosen.
  destruct (value_len_ok (zlen (available_versions vi))) as [[Hl ->]|[Hl ->]]; [done| |right; split; [lia|intros w Hw; by exists InvalidParameterLength, w]].
  destruct (validate_available_ok (available_versions vi)) as [[Hf ->]|[Hf ->]]; [left|right; split; [tauto|intros w Hw; by exists InvalidParameterValue, w]].
  split; [done|]. unfold item. rewrite versions_bytes_len. do 3 (eapply emits_lift; [done|]).
  apply emits_bind; [apply emits_varint; vm_compute; by split|]. apply emits_bind; [apply emits_varint; lia|].
  unfold versions_bytes. apply emits_bind; [apply emits_all|apply emits_versions].
Qed.

Lemma writes_token o : opt_ok token_ok o ->
  emits (when_some o encodeStatelessResetToken) (opt_item stateless_reset_token (fun t => t) o).
Proof.
  intros Ht. destruct o as [t|]; [|apply emits_nil]. apply (emits_bytes_value stateless_reset_token); [done|].
  cbn in Ht. unfold token_ok, max_quic_varint in *. lia.
Qed.

Definition flag_item (b : bool) : list byte := if b then item (idValue disable_active_migration) [] else [].

Lemma writes_flag b : emits (when b (encodeZeroLengthValue disable_active_migration)) (flag_item b).
Proof.
  destruct b; [|apply emits_nil]. unfold encodeZeroLengthValue, flag_item, item. cbn [when]. rewrite app_nil_r.
  apply emits_bind; apply emits_varint; vm_compute; by split.
Qed.

(** The extension a set of parameters is written as. *)
Definition params_bytes (p : TransportParameters) : list byte :=
  opt_item original_destination_connection_id (fun c => c) (tp_original_destination_connection_id p) ++
  int_item max_idle_timeout 0 (tp_max_idle_timeout p) ++
  opt_item stateless_reset_token (fun t => t) (tp_stateless_reset_token p) ++
  int_item max_udp_payload_size max_udp_payload_size_default (tp_max_udp_payload_size p) ++
  int_item initial_max_data 0 (tp_initial_max_data p) ++
  int_item initial_max_stream_data_bidi_local 0 (tp_initial_max_stream_data_bidi_local p) ++
  int_item initial_max_stream_data_bidi_remote 0 (tp_initial_max_stream_data_bidi_remote p) ++
  int_item initial_max_stream_data_uni 0 (tp_initial_max_stream_data_uni p) ++
  int_item initial_max_streams_bidi 0 (tp_initial_max_streams_bidi p) ++
  int_item initial_max_streams_uni 0 (tp_initial_max_streams_uni p) ++
  int_item ack_delay_exponent 3 (tp_ack_delay_exponent p) ++
  int_item max_ack_delay 25 (tp_max_ack_delay p) ++
  flag_item (tp_disable_active_migration p) ++
  opt_item preferred_address preferred_bytes (tp_preferred_address p) ++
  int_item active_connection_id_limit 2 (tp_active_connection_id_limit p) ++
  opt_item initial_source_connection_id (fun c => c) (tp_initial_source_connection_id p) ++
  opt_item retry_source_connection_id (fun c => c) (tp_retry_source_connection_id p) ++
  opt_item version_information versions_bytes (tp_version_information p).

Lemma encode_iff raw8 raw61 p : zlen raw8 = 8 -> zlen raw61 = 61 -> params_typed p ->
  writes_iff (params_ok p) (encode raw8 raw61 p) (params_bytes p).
Proof.
  intros H8 H61 Ht. unfold encode, params_bytes, params_ok. cbv zeta.
  apply writes_iff_bind; [by apply writes_cid|].
  apply writes_iff_bind; [apply writes_int; try done; apply Ht|].
  apply writes_iff_then; [apply writes_token, Ht|].
  do 9 (apply writes_iff_bind; [apply writes_int; try done; apply Ht|]).
  apply writes_iff_then; [apply writes_flag|].
  apply writes_iff_bind; [apply writes_preferred; [done|apply Ht]|].
  apply writes_iff_bind; [apply writes_int; try done; apply Ht|].
  do 2 (apply writes_iff_bind; [by apply writes_cid|]). apply writes_versions.
Qed.

(** ** The parser on what the encoder wrote *)

Lemma parses_nil_r {A} (p : M FixedReader A) bs a k : parses p (bs ++ []) a k -> parses p bs a k.
Proof. by rewrite app_nil_r. Qed.

(** A local reader over the whole value. *)
Lemma parses_on_value {A} value (p : M FixedReader A) a k : consumes p value a k -> parses (on_value value p) [] a k.
Proof.
  intros Hp r rest Hr _ Ha. unfold on_value. pose proof (zlen_nonneg value). rewrite (Hp (Reader value 0 (answers r) (live r))).
  - destruct r. unfold advance, set_field. cbn. by rewrite Z.add_0_r.
  - unfold wf_reader. cbn. lia.
  - done.
  - exact Ha.
Qed.

Lemma validate_integer_ok id v : int_valid id v -> 0 <= v -> validateIntegerParameter id v = inr tt.
Proof. intros Hv H0. by destruct (validate_integer id v H0) as [[_ ?]|[? _]]. Qed.

Lemma int_valid_range id v : int_valid id v -> 0 <= v <= max_quic_varint.
Proof. unfold int_valid, max_quic_varint. destruct id; cbn; unfold max_quic_varint; lia. Qed.

Lemma parses_integer id v : int_valid id v -> parses (parseIntegerValue id (varint_bytes v)) [] v 0.
Proof.
  intros Hv. pose proof (int_valid_range id v Hv) as Hr. unfold parseIntegerValue.
  apply (parses_app _ _ [] [] (v, zlen (varint_bytes v))); [by apply parses_on_value, consumes_parses, parses_varint|].
  apply parses_guard; [by rewrite Z.eqb_refl|]. eapply parses_lift; [apply validate_integer_ok; [done|lia]|]. apply parses_ret.
Qed.

Lemma parses_clone bs : parses (cloneBytes bs) [] bs (allocs (zlen bs)).
Proof. unfold cloneBytes. rewrite <-(Z.add_0_r (allocs _)). apply parses_alloc, parses_ret. Qed.

Lemma parses_cid (f : list byte -> TransportParameters) cid : cid_ok cid ->
  parses (_ ← lift (validateConnectionIdLen cid); c ← cloneBytes cid; mret (f c)) [] (f cid) (allocs (zlen cid)).
Proof.
  intros Hc. unfold cid_ok in Hc. eapply parses_lift.
  { unfold validateConnectionIdLen, fail_if, max_connection_id_len. by rewrite gtb_false. }
  rewrite <-(Z.add_0_r (allocs _)). apply (parses_bind _ _ [] [] cid); [apply parses_clone|apply parses_ret].
Qed.

Lemma readInt16_writeInt16 v : 0 <= v < 65536 -> readInt16 (writeInt16 v) = v.
Proof.
  intros Hv. unfold readInt16, writeInt16. rewrite readInt_be by lia. cbn [Z.mul Z.add]. apply Z.mod_small.
  change (256 ^ Z.of_nat 2) with 65536. lia.
Qed.

Lemma parses_preferred a : preferred_typed a -> preferred_ok a ->
  parses (parsePreferredAddress (preferred_bytes a)) [] a (allocs (zlen (pa_connection_id a))).
Proof.
  intros Ht Hok. pose proof (preferred_len a Ht) as Hlen. destruct Ht as (H4 & Hp4 & H6 & Hp6 & Htok). unfold preferred_ok in Hok.
  unfold parsePreferredAddress. apply parses_guard; [rewrite Hlen; apply Z.ltb_ge; lia|]. apply parses_on_value.
  unfold preferred_bytes. eapply consumes_app0; [by apply parses_no_eof|]. eapply consumes_app0; [by apply parses_no_eof|]. cbv zeta.
  eapply consumes_app0; [by apply parses_no_eof|]. eapply consumes_app0; [by apply parses_no_eof|].
  rewrite !readInt16_writeInt16 by done. apply consumes_byte. rewrite byteZ_Zbyte by lia. apply consumes_guard.
  { unfold max_connection_id_len. rewrite gtb_false, (proj2 (Z.eqb_neq _ _)) by lia. done. }
  apply consumes_remaining. rewrite zlen_app, Htok. apply consumes_guard; [by rewrite Z.eqb_refl|].
  rewrite <-(Z.add_0_r (allocs _)). eapply consumes_app; [by apply parses_owned|]. apply consumes_errdefer, consumes_parses.
  apply parses_nil_r. eapply parses_app; [by apply parses_no_eof|]. destruct a. apply parses_ret.
Qed.

Lemma version_at_ok pre v rest : 0 <= v <= U32_MAX -> version_at (pre ++ writeInt32 v ++ rest) (zlen pre) = Some v.
Proof.
  intros Hv. unfold version_at. pose proof (zlen_nonneg pre). pose proof (zlen_nonneg rest).
  rewrite !zlen_app. change (zlen (writeInt32 v)) with 4. rewrite !(proj2 (Z.leb_le _ _)) by lia. cbn [andb].
  rewrite zdrop_app_exact, (ztake_app_exact (writeInt32 v)) by done. by rewrite readInt32_writeInt32.
Qed.

Lemma parses_available vs : forall pre, Forall (fun v => 0 <= v <= U32_MAX) vs -> Forall (fun v => v <> 0) vs ->
  parses (read_available (length vs) (pre ++ version_bytes vs) (zlen pre)) [] vs 0.
Proof.
  induction vs as [|v vs IH]; intros pre Ht Hnz; cbn [length read_available]; [apply parses_ret|].
  inversion_clear Ht as [|? ? Hv Ht']. inversion_clear Hnz as [|? ? Hv0 Hnz']. unfold version_bytes. cbn [map List.concat].
  eapply parses_legal; [by apply version_at_ok|]. eapply parses_lift.
  { unfold validateVersion, fail_if. by rewrite (proj2 (Z.eqb_neq _ _)). }
  specialize (IH (pre ++ writeInt32 v) Ht' Hnz'). rewrite zlen_app, <-app_assoc in IH. change (zlen (writeInt32 v)) with 4 in IH.
  apply (parses_app _ _ [] [] vs); [exact IH|apply parses_ret].
Qed.

Lemma parses_version_info vi : versions_typed vi -> versions_ok vi ->
  parses (parseVersionInformation (versions_bytes vi)) [] vi (allocs (zlen (available_versions vi))).
Proof.
  intros [Hc Ha] (Hc0 & Hres & Ha0 & _). unfold parseVersionInformation. rewrite versions_bytes_len.
  pose proof (zlen_nonneg (available_versions vi)). set (n := zlen (available_versions vi)) in *.
  replace (4 + 4 * n) with ((n + 1) * 4) by lia. rewrite Z.mod_mul, Z.div_mul by lia.
  apply parses_guard; [rewrite (proj2 (Z.ltb_ge _ _)) by lia; done|].
  eapply parses_legal; [by apply (version_at_ok [])|]. eapply parses_lift.
  { unfold validateChosenVersion, validateVersion, fail_if. by rewrite (proj2 (Z.eqb_neq _ _)), Hres. }
  apply (parses_legal _ n); [unfold sub64; rewrite (proj2 (Z.ltb_ge _ _)) by lia; f_equal; lia|].
  rewrite <-(Z.add_0_r (allocs n)). apply parses_alloc, parses_errdefer.
  apply (parses_app _ _ [] [] (available_versions vi)); [|destruct vi; apply parses_ret].
  unfold n, zlen at 1. rewrite Nat2Z.id. by apply (parses_available _ (writeInt32 (chosen_version vi))).
Qed.

(** *** One parameter *)

Lemma parses_slice v : parses (readValueSlice (zlen v)) v v 0.
Proof.
  intros r rest Hr Hrem Ha. pose proof (remaining_len r Hr) as Hl. pose proof (zlen_nonneg rest). unfold readValueSlice.
  rewrite (bind_ok _ _ _ _ _ (remainingLen_ok r Hr)). rewrite Hrem, zlen_app in *. rewrite gtb_false by lia.
  unfold guard_not, take_slice. unfold mbind, M_bind. cbn. unfold remaining in Hrem. rewrite Hrem, ztake_app_all.
  destruct r. unfold advance, set_field. cbn. by rewrite Z.add_0_r.
Qed.

(** The identifiers seen so far are below [lo]; the list is within its buffer. *)
Record ids_ok (seen : IdList) (lo : Z) : Prop := {
  ids_below : Forall (fun i => i < lo) (items seen);
  ids_fit : zlen (items seen) <= capacity seen;
}.

Lemma growCapacity_lt n : 0 < n -> n < growCapacity n.
Proof. intros. unfold growCapacity. pose proof (Z.div_pos n 2). lia. Qed.

Lemma append_fit seen : zlen (items seen) <= capacity seen ->
  let n := zlen (items seen) + 1 in 0 <= capacity seen /\ ((n <=? capacity seen) = false -> n < growCapacity n /\ allocs (growCapacity n) = 1).
Proof.
  intros Hfit n. pose proof (zlen_nonneg (items seen)). split; [lia|]. intros _.
  pose proof (growCapacity_lt n ltac:(subst n; lia)). split; [done|]. unfold allocs. by rewrite (proj2 (Z.eqb_neq _ _)) by (subst n; lia).
Qed.

Lemma parses_remember seen lo id : ids_ok seen lo -> lo <= id ->
  exists seen', ids_ok seen' (id + 1) /\
    parses (rememberParameterId seen id) [] seen' (allocs (capacity seen') - allocs (capacity seen)).
Proof.
  intros [Hb Hf] Hid. unfold rememberParameterId.
  destruct (existsb (Z.eqb id) (items seen)) eqn:He.
  { apply existsb_exists in He as (i & Hi%list_elem_of_In & E%Z.eqb_eq). rewrite list.Forall_forall in Hb. specialize (Hb i Hi). lia. }
  assert (Hb' : Forall (fun i => i < id + 1) (items seen ++ [id])).
  { apply Forall_app. split; [|constructor; [lia|done]]. eapply Forall_impl; [|exact Hb]. cbn. lia. }
  destruct (append_fit seen Hf) as [Hc0 Hg]. unfold append_id. destruct (Z.leb_spec (zlen (items seen) + 1) (capacity seen)) as [Hn|Hn].
  - exists (MkIds (items seen ++ [id]) (capacity seen)). split; [|cbn [capacity]; rewrite Z.sub_diag; apply parses_ret]. split; [done|]. cbn. rewrite zlen_app. change (zlen [id]) with 1. lia.
  - destruct (Hg eq_refl) as [Hlt H1]. exists (MkIds (items seen ++ [id]) (growCapacity (zlen (items seen) + 1))). split; [split; [exact Hb'|]|].
    { cbn. rewrite zlen_app. change (zlen [id]) with 1. lia. }
    cbn [capacity]. apply parses_alloc. intros r rest _ _ _. unfold ret_after, free_len, allocs.
    destruct (capacity seen =? 0); destruct r; unfold advance, set_field; cbn; rewrite ?Z.add_0_r; done.
Qed.

(** A bind whose first part is known. *)
Lemma run_bind {A B} (p : M FixedReader A) (f : A -> M FixedReader B) bs a k r rest :
  parses p bs a k -> wf_reader r -> remaining r = bs ++ rest -> answers r = [] -> (p ≫= f) r = f a (advance r (zlen bs) k).
Proof. intros Hp Hr Hrem Ha. apply bind_ok. by apply (Hp r rest). Qed.

(** The loop reads [bs], going from the result [q] to [q'] and keeping [k] buffers. *)
Definition absorbs (lo hi : Z) (bs : list byte) (q q' : TransportParameters) (k : Z) : Prop :=
  forall fuel seen r rest, wf_reader r -> remaining r = bs ++ rest -> answers r = [] -> ids_ok seen lo ->
    zlen (bs ++ rest) <= Z.of_nat fuel ->
    exists fuel' seen', ids_ok seen' hi /\ zlen rest <= Z.of_nat fuel' /\
      parse_loop fuel q seen r =
        parse_loop fuel' q' seen' (advance r (zlen bs) (k + (allocs (capacity seen') - allocs (capacity seen)))).

Lemma absorbs_skip lo hi q : lo <= hi -> absorbs lo hi [] q q 0.
Proof.
  intros Hle fuel seen r rest _ _ _ [Hb Hf] Hfuel. exists fuel, seen. split; [|split; [done|]].
  - split; [|done]. eapply Forall_impl; [|exact Hb]. cbn. lia.
  - by rewrite Z.sub_diag, advance_0.
Qed.

Lemma absorbs_app lo mid hi a b q q1 q2 k1 k2 :
  absorbs lo mid a q q1 k1 -> absorbs mid hi b q1 q2 k2 -> absorbs lo hi (a ++ b) q q2 (k1 + k2).
Proof.
  intros H1 H2 fuel seen r rest Hr Hrem Ha Hids Hfuel. rewrite <-app_assoc in *.
  destruct (H1 fuel seen r (b ++ rest) Hr Hrem Ha Hids Hfuel) as (f1 & s1 & Hs1 & Hf1 & ->).
  destruct (advance_wf r a (b ++ rest) (k1 + (allocs (capacity s1) - allocs (capacity seen))) Hr Hrem) as [Hw1 Hrem1].
  destruct (H2 f1 s1 _ rest Hw1 Hrem1 Ha Hs1 Hf1) as (f2 & s2 & Hs2 & Hf2 & ->).
  exists f2, s2. split; [done|]. split; [done|]. rewrite advance_advance, zlen_app. do 2 f_equal. lia.
Qed.

Lemma absorbs_item lo id v q q' k : 0 <= id <= max_quic_varint -> lo <= id -> zlen v <= max_quic_varint ->
  parses (parse_value (parameterId id) v q) [] q' k -> absorbs lo (id + 1) (item id v) q q' k.
Proof.
  intros Hid Hlo Hv Hp fuel seen r rest Hr Hrem Ha Hids Hfuel. pose proof (zlen_nonneg v). pose proof (zlen_nonneg rest).
  pose proof (varint_bytes_len id Hid). pose proof (varint_bytes_len (zlen v) ltac:(lia)).
  destruct (parses_remember seen lo id Hids Hlo) as (seen' & Hids' & Hrec).
  assert (Hlen : 0 < zlen (item id v ++ rest) /\ zlen (item id v ++ rest) = zlen (item id v) + zlen rest /\ 0 < zlen (item id v)).
  { unfold item. rewrite !zlen_app. lia. }
  destruct fuel as [|fuel]; [lia|]. exists fuel, seen'. split; [done|]. split; [lia|]. cbn [parse_loop].
  rewrite (bind_ok _ _ _ _ _ (remainingLen_ok r Hr)), Hrem, (proj2 (Z.eqb_neq _ _)) by lia.
  unfold item in Hrem. rewrite <-!app_assoc, app_assoc in Hrem.
  set (da := allocs (capacity seen') - allocs (capacity seen)) in *.
  rewrite (run_bind _ _ (varint_bytes id ++ varint_bytes (zlen v)) (id, zlen v, seen') da r (v ++ rest)); [|
    |exact Hr|exact Hrem|exact Ha].
  2:{ apply parses_errdefer. eapply parses_app; [by apply parses_varint|]. cbn [fst]. apply parses_nil_r.
      eapply parses_app; [apply parses_varint; lia|]. cbn [fst].
      rewrite <-(Z.add_0_r da). apply (parses_bind _ _ [] [] seen'); [exact Hrec|apply parses_ret]. }
  destruct (advance_wf _ _ _ da Hr Hrem) as [Hw Hrem'].
  rewrite (run_bind _ _ v q' k _ rest); [| |exact Hw|exact Hrem'|exact Ha].
  2:{ apply parses_errdefer, parses_nil_r. eapply parses_app; [apply parses_slice|exact Hp]. }
  unfold item. rewrite advance_advance, !zlen_app. f_equal. f_equal; lia.
Qed.

(** *** All parameters *)

(** An identifier with a name. *)
Definition named (id : ParameterId) : Prop := parameterId (idValue id) = id /\ forall v, id <> unknown_parameter v.

Lemma absorbs_opt {A} id (g : A -> list byte) (cost : A -> Z) (f : option A -> TransportParameters) (o : option A) lo q :
  named id -> lo <= idValue id -> f None = q ->
  (forall a, o = Some a -> zlen (g a) <= max_quic_varint /\ parses (parse_value id (g a) q) [] (f (Some a)) (cost a)) ->
  absorbs lo (idValue id + 1) (opt_item id g o) q (f o) (from_option cost 0 o).
Proof.
  intros [Hn Hu] Hlo Hf Hp. destruct o as [a|]; cbn [opt_item from_option].
  - destruct (Hp a eq_refl) as [Hl Ha]. apply absorbs_item; [|done|done|by rewrite Hn].
    pose proof (idValue_range id Hu). unfold max_quic_varint. lia.
  - rewrite Hf. apply absorbs_skip. lia.
Qed.

Lemma absorbs_int id d v (f : Z -> TransportParameters) lo q :
  named id -> lo <= idValue id -> f d = q -> int_valid id v ->
  (forall bs, parse_value id bs q = (v ← parseIntegerValue id bs; mret (f v))) ->
  absorbs lo (idValue id + 1) (int_item id d v) q (f v) 0.
Proof.
  intros [Hn Hu] Hlo Hf Hv Hp. unfold int_item. destruct (Z.eqb_spec v d) as [->|_]; [rewrite Hf; apply absorbs_skip; lia|].
  pose proof (idValue_range id Hu). pose proof (varint_bytes_len v (int_valid_range id v Hv)).
  apply absorbs_item; [unfold max_quic_varint; lia|done|unfold max_quic_varint; lia|]. rewrite Hn, Hp.
  apply (parses_app _ _ [] [] v); [by apply parses_integer|apply parses_ret].
Qed.

Definition opt_len (o : option (list byte)) : Z := from_option (fun c => allocs (zlen c)) 0 o.

(** The buffers decoded parameters own. *)
Definition owned (p : TransportParameters) : Z :=
  opt_len (tp_original_destination_connection_id p) + opt_len (tp_initial_source_connection_id p) +
  opt_len (tp_retry_source_connection_id p) +
  from_option (fun a => allocs (zlen (pa_connection_id a))) 0 (tp_preferred_address p) +
  from_option (fun vi => allocs (zlen (available_versions vi))) 0 (tp_version_information p).

Lemma absorbs_eq lo hi bs q q' k k' : absorbs lo hi bs q q' k' -> k' = k -> absorbs lo hi bs q q' k.
Proof. by intros H <-. Qed.

(** The next parameter of the extension, decoded into its field. *)
Tactic Notation "int_step" constr(id) constr(d) constr(f) :=
  eapply absorbs_app; [apply (absorbs_int id d _ f); [by split|cbn; lia|reflexivity|assumption|intros; reflexivity]|].
Tactic Notation "opt_step" constr(id) constr(cost) constr(f) :=
  eapply absorbs_app; [eapply (absorbs_opt id _ cost f); [by split|cbn; lia|reflexivity|]|].

Lemma absorbs_flag b lo q : lo <= 12 -> tp_disable_active_migration q = false ->
  absorbs lo 13 (flag_item b) q (q <| tp_disable_active_migration := b |>) 0.
Proof.
  intros Hlo Hq. destruct b; cbn [flag_item].
  - apply (absorbs_item lo 12 []); [vm_compute; by split|done|vm_compute; congruence|]. apply parses_guard; [done|]. apply parses_ret.
  - replace (q <| tp_disable_active_migration := false |>) with q by (destruct q; cbn in *; by subst). apply absorbs_skip. lia.
Qed.

(** The nine limits between the reset token and the migration flag, in front of the rest of the extension. *)
Lemma absorbs_limits f0 f1 f2 f3 f4 f5 f6 f7 f8 f9 f10 f11 rest p k hi :
  int_valid max_udp_payload_size f3 -> int_valid initial_max_data f4 -> int_valid initial_max_stream_data_bidi_local f5 ->
  int_valid initial_max_stream_data_bidi_remote f6 -> int_valid initial_max_stream_data_uni f7 ->
  int_valid initial_max_streams_bidi f8 -> int_valid initial_max_streams_uni f9 -> int_valid ack_delay_exponent f10 ->
  int_valid max_ack_delay f11 ->
  absorbs 12 hi rest (MkParams f0 f1 f2 f3 f4 f5 f6 f7 f8 f9 f10 f11 false None 2 None None None) p k ->
  absorbs 3 hi (int_item max_udp_payload_size max_udp_payload_size_default f3 ++ int_item initial_max_data 0 f4 ++
    int_item initial_max_stream_data_bidi_local 0 f5 ++ int_item initial_max_stream_data_bidi_remote 0 f6 ++
    int_item initial_max_stream_data_uni 0 f7 ++ int_item initial_max_streams_bidi 0 f8 ++
    int_item initial_max_streams_uni 0 f9 ++ int_item ack_delay_exponent 3 f10 ++ int_item max_ack_delay 25 f11 ++ rest)
    (MkParams f0 f1 f2 65527 0 0 0 0 0 0 3 25 false None 2 None None None) p k.
Proof.
  intros. eapply absorbs_eq.
  {
    int_step max_udp_payload_size 65527 (fun v => MkParams f0 f1 f2 v 0 0 0 0 0 0 3 25 false None 2 None None None).
    int_step initial_max_data 0 (fun v => MkParams f0 f1 f2 f3 v 0 0 0 0 0 3 25 false None 2 None None None).
    int_step initial_max_stream_data_bidi_local 0 (fun v => MkParams f0 f1 f2 f3 f4 v 0 0 0 0 3 25 false None 2 None None None).
    int_step initial_max_stream_data_bidi_remote 0 (fun v => MkParams f0 f1 f2 f3 f4 f5 v 0 0 0 3 25 false None 2 None None None).
    int_step initial_max_stream_data_uni 0 (fun v => MkParams f0 f1 f2 f3 f4 f5 f6 v 0 0 3 25 false None 2 None None None).
    int_step initial_max_streams_bidi 0 (fun v => MkParams f0 f1 f2 f3 f4 f5 f6 f7 v 0 3 25 false None 2 None None None).
    int_step initial_max_streams_uni 0 (fun v => MkParams f0 f1 f2 f3 f4 f5 f6 f7 f8 v 3 25 false None 2 None None None).
    int_step ack_delay_exponent 3 (fun v => MkParams f0 f1 f2 f3 f4 f5 f6 f7 f8 f9 v 25 false None 2 None None None).
    int_step max_ack_delay 25 (fun v => MkParams f0 f1 f2 f3 f4 f5 f6 f7 f8 f9 f10 v false None 2 None None None).
    eassumption. }
  lia.
Qed.

Lemma absorbs_params p : params_typed p -> params_ok p -> absorbs 0 18 (params_bytes p) default_params p (owned p).
Proof.
  intros Ht (H0 & H1 & H3 & H4 & H5 & H6 & H7 & H8 & H9 & H10 & H11 & H13 & H14 & H15 & H16 & H17).
  pose proof (ty_token p Ht) as H2. pose proof (ty_preferred p Ht) as T13. pose proof (ty_versions p Ht) as T17. clear Ht.
  destruct p as [f0 f1 f2 f3 f4 f5 f6 f7 f8 f9 f10 f11 f12 f13 f14 f15 f16 f17]. cbn in *.
  unfold params_bytes. cbn [tp_original_destination_connection_id tp_max_idle_timeout tp_stateless_reset_token tp_max_udp_payload_size
    tp_initial_max_data tp_initial_max_stream_data_bidi_local tp_initial_max_stream_data_bidi_remote tp_initial_max_stream_data_uni
    tp_initial_max_streams_bidi tp_initial_max_streams_uni tp_ack_delay_exponent tp_max_ack_delay tp_disable_active_migration
    tp_preferred_address tp_active_connection_id_limit tp_initial_source_connection_id tp_retry_source_connection_id tp_version_information].
  eapply absorbs_eq.
  { opt_step original_destination_connection_id (fun c : list byte => allocs (zlen c))
      (fun o => MkParams o 0 None 65527 0 0 0 0 0 0 3 25 false None 2 None None None).
    { intros c ->. cbn in *. split; [unfold cid_ok, max_quic_varint in *; lia|]. by apply parses_cid. }
    int_step max_idle_timeout 0 (fun v => MkParams f0 v None 65527 0 0 0 0 0 0 3 25 false None 2 None None None).
    opt_step stateless_reset_token (fun _ : list byte => 0)
      (fun o => MkParams f0 f1 o 65527 0 0 0 0 0 0 3 25 false None 2 None None None).
    { intros t ->. cbn in *. unfold token_ok in *. split; [unfold max_quic_varint; lia|]. apply parses_guard; [by rewrite H2|apply parses_ret]. }
    apply absorbs_limits; try assumption.
    eapply absorbs_app; [apply absorbs_flag; [cbn; lia|done]|].
    opt_step preferred_address (fun a => allocs (zlen (pa_connection_id a)))
      (fun o => MkParams f0 f1 f2 f3 f4 f5 f6 f7 f8 f9 f10 f11 f12 o 2 None None None).
    { intros a ->. cbn in *. rewrite preferred_len by done. unfold preferred_ok, max_quic_varint in *. split; [lia|].
      rewrite <-(Z.add_0_r (allocs _)). apply (parses_bind _ _ [] [] a); [by apply parses_preferred|apply parses_ret]. }
    int_step active_connection_id_limit 2 (fun v => MkParams f0 f1 f2 f3 f4 f5 f6 f7 f8 f9 f10 f11 f12 f13 v None None None).
    opt_step initial_source_connection_id (fun c : list byte => allocs (zlen c))
      (fun o => MkParams f0 f1 f2 f3 f4 f5 f6 f7 f8 f9 f10 f11 f12 f13 f14 o None None).
    { intros c ->. cbn in *. split; [unfold cid_ok, max_quic_varint in *; lia|]. by apply parses_cid. }
    opt_step retry_source_connection_id (fun c : list byte => allocs (zlen c))
      (fun o => MkParams f0 f1 f2 f3 f4 f5 f6 f7 f8 f9 f10 f11 f12 f13 f14 f15 o None).
    { intros c ->. cbn in *. split; [unfold cid_ok, max_quic_varint in *; lia|]. by apply parses_cid. }
    apply (absorbs_opt version_information _ (fun vi => allocs (zlen (available_versions vi)))
      (fun o => MkParams f0 f1 f2 f3 f4 f5 f6 f7 f8 f9 f10 f11 f12 f13 f14 f15 f16 o)); [by split|cbn; lia|reflexivity|].
    intros vi ->. rewrite versions_bytes_len. split; [apply H17|].
    rewrite <-(Z.add_0_r (allocs _)). apply (parses_bind _ _ [] [] vi); [by apply parses_version_info|apply parses_ret]. }
  unfold owned, opt_len. cbn. destruct f2; cbn; lia.
Qed.

(** A reserved parameter has no name. *)
Lemma reserved_unknown id : 0 <= id -> isReservedParameterId id = true -> 18 <= id /\ parameterId id = unknown_parameter id.
Proof.
  intros H0 Hr. unfold isReservedParameterId in Hr. apply Z.eqb_eq in Hr.
  assert (18 <= id) as Hid.
  { destruct (Z.leb_spec 18 id); [done|]. rewrite Z.mod_small in Hr by lia. lia. }
  split; [done|]. unfold parameterId. destruct id as [|q|q]; try lia.
  repeat (destruct q as [q|q|]; try reflexivity; try lia).
Qed.

Lemma absorbs_reserved id v lo q : 18 = lo -> 0 <= id <= max_quic_varint -> isReservedParameterId id = true ->
  zlen v <= max_quic_varint -> absorbs lo (id + 1) (item id v) q q 0.
Proof.
  intros <- Hid Hr Hv. destruct (reserved_unknown id ltac:(lia) Hr) as [Hlo Hu].
  apply absorbs_item; [done|done|done|]. rewrite Hu. apply parses_ret.
Qed.

Lemma emits_reserved id v : 0 <= id <= max_quic_varint -> isReservedParameterId id = true -> zlen v <= max_quic_varint ->
  emits (encodeReservedParameter id v) (item id v).
Proof.
  intros Hid Hr Hv. pose proof (zlen_nonneg v). unfold encodeReservedParameter, item.
  eapply emits_lift; [unfold validateParameterIdVarInt, fail_if; rewrite gtb_false by lia; done|].
  eapply (emits_lift _ (zlen v)); [unfold validateParameterValueLen, fail_if; rewrite gtb_false by done; done|].
  apply emits_guard; [by rewrite Hr|]. apply emits_bind; [by apply emits_varint|]. apply emits_bind; [apply emits_varint; lia|apply emits_all].
Qed.

Lemma releases_opt {A} (f : A -> FixedReader -> FixedReader) (cost : A -> Z) (o : option A) :
  (forall a, releases (f a) (cost a)) -> releases (fun r => match o with Some a => f a r | None => r end) (from_option cost 0 o).
Proof. intros Hf. destruct o as [a|]; [apply Hf|]. intros r. cbn. split_and!; try done. lia. Qed.

Lemma releases_params p : releases (fun r => (deinit p r).2) (owned p).
Proof.
  assert (Hc : forall o, releases (free_optional o) (opt_len o)).
  { intros o. apply (releases_opt free (fun c => allocs (zlen c)) o). intros c. apply releases_len. }
  pose proof (releases_opt (fun a => free (pa_connection_id a)) (fun a => allocs (zlen (pa_connection_id a))) (tp_preferred_address p)
    (fun a => releases_len _)) as Ha.
  pose proof (releases_opt (fun vi => free_len (zlen (available_versions vi))) (fun vi => allocs (zlen (available_versions vi)))
    (tp_version_information p) (fun vi => releases_len _)) as Hv.
  pose proof (releases_comp _ _ _ _ Hv (releases_comp _ _ _ _ Ha (releases_comp _ _ _ _ (Hc (tp_retry_source_connection_id p))
    (releases_comp _ _ _ _ (Hc (tp_initial_source_connection_id p)) (Hc (tp_original_destination_connection_id p)))))) as H.
  intros r. destruct (H r) as (Hd & Hp & Hl). split; [exact Hd|]. split; [exact Hp|]. unfold deinit, owned. cbn [snd]. rewrite Hl. lia.
Qed.

Lemma parse_absorbed bs q k hi l : absorbs 0 hi bs default_params q k ->
  wp (parse bs [] l) (fun '(res, r) => res = inr q /\ live r = l + k).
Proof.
  intros Ha. unfold parse. destruct (at_start_ok bs l) as (Hw & Hrem & Han). change (Reader bs 0 [] l) with (at_start bs l).
  rewrite <-(app_nil_r bs) in Hrem at 2.
  destruct (Ha (length bs) no_ids (at_start bs l) [] Hw Hrem Han) as (fuel & seen & Hids & Hf & ->); [by split|by rewrite app_nil_r|].
  destruct (advance_wf (at_start bs l) bs [] (k + (allocs (capacity seen) - allocs (capacity no_ids))) Hw Hrem) as [Hw' Hrem'].
  set (r' := advance _ _ _) in *.
  assert (E : parse_loop fuel q seen r' = Some (inr q, deinit_ids seen r')).
  { destruct fuel; cbn [parse_loop]; rewrite (bind_ok _ _ _ _ _ (remainingLen_ok r' Hw')), Hrem'; done. }
  rewrite E. apply wp_ret. split; [done|]. unfold deinit_ids. destruct (releases_len (capacity seen) r') as (_ & _ & ->).
  subst r'. cbn. change (allocs 0) with 0. lia.
Qed.

(** C18: transport parameters round trip. [encode] never succeeds on values
    outside the bounds of RFC 9000 and RFC 9368 or outside the library's own
    limits (an idle timeout of at most 2^32 ms, a UDP payload size of at most
    65527, no reserved chosen version); it writes any other value as one byte
    string, or reports that it does not fit. [parse] of that string, with or
    without a reserved parameter after it, gives the value back, and [deinit]
    releases every buffer it allocated. *)
Theorem transport_params_roundtrip (raw8 raw61 : list byte) (p : TransportParameters)
    (H8 : zlen raw8 = 8) (H61 : zlen raw61 = 61) (Ht : params_typed p) :
  (~ (rfc_params_ok p /\ library_limits p) /\
     forall w, wf_writer w -> exists e w', encode raw8 raw61 p w = Some (inl e, w')) \/
  (rfc_params_ok p /\ library_limits p /\ exists bs, emits (encode raw8 raw61 p) bs /\
    (forall l, wp (parse bs [] l) (fun '(res, r) => res = inr p /\ live (deinit p r).2 = l)) /\
    forall id value, 0 <= id <= max_quic_varint -> isReservedParameterId id = true -> zlen value <= max_quic_varint ->
      exists grease, emits (encodeReservedParameter id value) grease /\ forall l,
        wp (parse (bs ++ grease) [] l) (fun '(res, r) => res = inr p /\ live (deinit p r).2 = l)).
Proof.
  destruct (encode_iff raw8 raw61 p H8 H61 Ht) as [[Hok He]|[Hbad Hf]]; [right|left].
  - destruct (proj1 (params_ok_iff p Ht) Hok) as [? ?]. split; [done|]. split; [done|]. exists (params_bytes p). split; [done|].
    assert (Hlive : forall bs hi, absorbs 0 hi bs default_params p (owned p) -> forall l,
      wp (parse bs [] l) (fun '(res, r) => res = inr p /\ live (deinit p r).2 = l)).
    { intros bs hi Ha l. eapply wp_mono; [by eapply parse_absorbed|]. intros [res r] [-> Hl]. split; [done|].
      destruct (releases_params p r) as (_ & _ & ->). lia. }
    pose proof (absorbs_params p Ht Hok) as Ha. split; [by eapply Hlive|]. intros id value Hid Hr Hv.
    exists (item id value). split; [by apply emits_reserved|]. apply (Hlive _ (id + 1)).
    eapply absorbs_eq; [eapply absorbs_app; [exact Ha|by apply absorbs_reserved]|lia].
  - split; [by rewrite <- (params_ok_iff p Ht)|]. intros w Hw. destruct (Hf w Hw) as (e & w' & E & _). eauto.
Qed.

Definition sample_params : TransportParameters :=
  default_params <| tp_original_destination_connection_id := Some [x83; x94] |> <| tp_max_idle_timeout := 30000 |>
    <| tp_stateless_reset_token := Some (replicate 16 xab) |> <| tp_initial_max_data := 1048576 |>
    <| tp_initial_max_streams_bidi := 100 |> <| tp_disable_active_migration := true |>
    <| tp_preferred_address := Some (MkPreferred [x7f; x00; x00; x01] 443 (replicate 16 x00) 8443 [x01; x02; x03] (replicate 16 xcd)) |>
    <| tp_initial_source_connection_id := Some [] |> <| tp_version_information := Some (MkVersionInfo 1 [1; 1798521807]) |>.

Lemma sample_typed : params_typed sample_params.
Proof.
  split; cbn; unfold max_udp_payload_size_default; try lia.
  - reflexivity.
  - unfold preferred_typed. cbn. split_and!; reflexivity || lia.
  - unfold versions_typed, U32_MAX. cbn. split; [lia|]. repeat (constructor; [lia|]). constructor.
Qed.

Lemma sample_ok : params_ok sample_params.
Proof.
  unfold params_ok, int_valid, max_quic_varint. cbn. unfold max_udp_payload_size_default, cid_ok, preferred_ok, versions_ok, zlen, max_quic_varint. cbn.
  repeat match goal with |- _ /\ _ => split end; try lia; [reflexivity|]. repeat (constructor; [lia|]). constructor.
Qed.

Lemma transport_params_roundtrip_witness : exists bs,
  emits (encode (replicate 8 x00) (replicate 61 x00) sample_params) bs /\
  forall l, wp (parse bs [] l) (fun '(res, r) => res = inr sample_params /\ live (deinit sample_params r).2 = l).
Proof.
  destruct (transport_params_roundtrip (replicate 8 x00) (replicate 61 x00) sample_params) as [[Hbad _]|(_ & _ & bs & He & Hp & _)].
  - reflexivity.
  - reflexivity.
  - apply sample_typed.
  - destruct (Hbad (proj1 (params_ok_iff _ sample_typed) sample_ok)).
  - exists bs. by split.
Defined.

(** ** The parser on arbitrary bytes *)

Lemma safe_on_value {A} value (p : M FixedReader A) ce Q : safe p ce Q -> safe (on_value value p) ce Q.
Proof.
  intros Hp r Hr. unfold on_value. pose proof (zlen_nonneg value).
  specialize (Hp (Reader value 0 (answers r) (live r)) ltac:(unfold wf_reader; cbn; lia)).
  destruct (p _) as [[res r']|]; [|done]. destruct Hp as (_ & _ & _ & Hl). destruct r. cbn in *. unfold wf_reader in *. cbn in *.
  split_and!; try done; try lia.
Qed.

Lemma safe_integer id value : safe (parseIntegerValue id value) 0 (fun v k => k = 0 /\ int_valid id v).
Proof.
  unfold parseIntegerValue. eapply safe_bind0; [apply safe_on_value, safe_varint|]. intros [v n] Hv. cbn in Hv.
  eapply safe_bind0; [apply safe_guard|intros _ _]. eapply safe_bind0; [apply safe_lift|]. intros [] Hok. cbn beta in Hok. apply safe_ret.
  split; [done|]. destruct (validate_integer id v ltac:(lia)) as [[? _]|[_ E]]; [done|congruence].
Qed.

Lemma safe_clone bs : safe (cloneBytes bs) 0 (fun c k => k = allocs (zlen c) /\ c = bs).
Proof. unfold cloneBytes. eapply safe_bind; [apply safe_alloc|]. intros _ k ->. apply safe_ret. split; [lia|done]. Qed.

Lemma readInt_range bs : 0 <= fold_left (fun a b => a * 256 + byteZ b) bs 0 < 256 ^ zlen bs.
Proof.
  induction bs as [|b bs IH] using rev_ind; [vm_compute; split; congruence|]. rewrite fold_left_app, zlen_app. cbn [fold_left].
  change (zlen [b]) with 1. rewrite Z.pow_add_r by (pose proof (zlen_nonneg bs); lia). pose proof (byteZ_range b). lia.
Qed.

Lemma readInt16_range bs : zlen bs = 2 -> 0 <= readInt16 bs < 65536.
Proof. intros H. pose proof (readInt_range bs) as Hr. rewrite H in Hr. exact Hr. Qed.

Lemma safe_preferred value : safe (parsePreferredAddress value) 0 (fun a k =>
  k = allocs (zlen (pa_connection_id a)) /\ preferred_ok a /\ preferred_typed a).
Proof.
  unfold parsePreferredAddress. eapply safe_bind0; [apply safe_guard|intros _ _]. apply safe_on_value.
  eapply safe_bind0; [apply safe_no_eof; lia|]. intros a4 H4. eapply safe_bind0; [apply safe_no_eof; lia|]. intros p4 Hp4.
  eapply safe_bind0; [apply safe_no_eof; lia|]. intros a6 H6. eapply safe_bind0; [apply safe_no_eof; lia|]. intros p6 Hp6.
  cbv zeta. eapply safe_bind0; [apply safe_any, safe_byte|]. intros cl _. pose proof (byteZ_range cl).
  eapply safe_bind0; [apply safe_guard|]. intros u Hc. cbn beta in *. unfold max_connection_id_len in Hc. rewrite Z.gtb_ltb in Hc.
  apply orb_false_iff in Hc as [Hc1%Z.eqb_neq Hc2%Z.ltb_ge].
  eapply safe_bind0; [apply safe_remaining|]. intros left _. eapply safe_bind0; [apply safe_guard|intros _ _].
  eapply (safe_owning_P _ free _ (fun bs => allocs (zlen bs)) (fun bs => zlen bs = byteZ cl));
    [apply safe_owned_len; lia|intros; apply releases_len|intros cid Hcid].
  eapply safe_bind0; [apply safe_no_eof; lia|]. intros token Htok. cbn beta in *. apply safe_ret.
  unfold preferred_ok, preferred_typed. cbn. pose proof (readInt16_range p4 Hp4). pose proof (readInt16_range p6 Hp6).
  split_and!; lia.
Qed.

Lemma version_at_in value off : 0 <= off -> off + 4 <= zlen value -> exists v, version_at value off = Some v /\ 0 <= v <= U32_MAX.
Proof.
  intros H0 H4. unfold version_at. rewrite !(proj2 (Z.leb_le _ _)) by lia. cbn [andb]. eexists. split; [done|].
  pose proof (readInt_range (ztake 4 (zdrop off value))) as Hr. rewrite zlen_ztake in Hr by (rewrite zlen_zdrop by lia; lia).
  unfold readInt32, U32_MAX. lia.
Qed.

Lemma safe_available n value : forall off, 0 <= off -> off + 4 * Z.of_nat n <= zlen value ->
  safe (read_available n value off) 0 (fun vs k => k = 0 /\ length vs = n /\ Forall (fun v => 0 <= v <= U32_MAX) vs /\ Forall (fun v => v <> 0) vs).
Proof.
  induction n as [|n IH]; intros off H0 Hl; cbn [read_available]; [by apply safe_ret|].
  destruct (version_at_in value off H0 ltac:(lia)) as (v & -> & Hv). rewrite (legal_Some _ v) by done.
  eapply safe_bind0; [apply safe_lift|]. intros [] Hz. cbn beta in Hz.
  eapply safe_bind0; [apply (IH (off + 4)); lia|]. intros vs (Hn & Ht & Hnz). apply safe_ret. cbn. rewrite Hn.
  unfold validateVersion, fail_if in Hz. destruct (Z.eqb_spec v 0); [done|]. split_and!; try done; by constructor.
Qed.

Lemma safe_version_info value : zlen value <= max_quic_varint -> safe (parseVersionInformation value) 0 (fun vi k =>
  k = allocs (zlen (available_versions vi)) /\ versions_ok vi /\ versions_typed vi).
Proof.
  intros Hmax. unfold parseVersionInformation. eapply safe_bind0; [apply safe_guard|]. intros u Hg. cbn beta in Hg.
  apply orb_false_iff in Hg as [Hlen%Z.ltb_ge Hmod]. apply negb_false_iff, Z.eqb_eq in Hmod.
  pose proof (Z.div_mod (zlen value) 4). destruct (version_at_in value 0) as (c & -> & Hc); [lia|lia|]. rewrite (legal_Some _ c) by done.
  eapply safe_bind0; [apply safe_lift|]. intros [] Hch. cbn beta in Hch. set (n := zlen value / 4) in *.
  rewrite (legal_Some _ (n - 1)) by (unfold sub64; rewrite (proj2 (Z.ltb_ge _ _)) by lia; done).
  eapply (safe_owning (alloc (n - 1)) (fun _ => free_len (n - 1)) _ (fun _ => allocs (n - 1)));
    [apply safe_alloc|intros; apply releases_len|intros _].
  eapply safe_bind0; [apply (safe_available (Z.to_nat (n - 1)) value 4); lia|]. intros vs (Hn & Ht & Hnz). apply safe_ret.
  unfold versions_ok, versions_typed. cbn. assert (zlen vs = n - 1) as -> by (unfold zlen; lia).
  unfold validateChosenVersion, validateVersion, fail_if in Hch. destruct (Z.eqb_spec c 0); [done|]. cbn in Hch.
  destruct (isReservedVersion c); [done|]. split_and!; done || lia.
Qed.

(** An owned field was decoded from a parameter that has been seen. *)
Record owns_seen (p : TransportParameters) (ids : list Z) : Prop := {
  os_odcid : tp_original_destination_connection_id p <> None -> 0 ∈ ids;
  os_preferred : tp_preferred_address p <> None -> 13 ∈ ids;
  os_iscid : tp_initial_source_connection_id p <> None -> 15 ∈ ids;
  os_rscid : tp_retry_source_connection_id p <> None -> 16 ∈ ids;
  os_versions : tp_version_information p <> None -> 17 ∈ ids;
}.

(** The local variables of [parse] between two parameters. *)
Record parsing (p : TransportParameters) (seen : IdList) : Prop := {
  pg_ok : params_ok p;
  pg_typed : params_typed p;
  pg_seen : owns_seen p (items seen);
  pg_fit : zlen (items seen) <= capacity seen;
}.

Lemma parsing_start : parsing default_params no_ids.
Proof.
  split; [| | |done]; [|split; cbn; done|split; done].
  unfold params_ok, int_valid, max_quic_varint. cbn. unfold max_udp_payload_size_default, max_quic_varint. split_and!; done || lia.
Qed.

Lemma parameterId_value v : idValue (parameterId v) = v.
Proof. unfold parameterId. destruct v as [|q|q]; try reflexivity. repeat (destruct q as [q|q|]; try reflexivity). Qed.

(** What one parameter does to the result. *)
Definition value_post (ids : list Z) (q0 : TransportParameters) (q : TransportParameters) (k : Z) : Prop :=
  k = owned q - owned q0 /\ params_ok q /\ params_typed q /\ owns_seen q ids.

Lemma opt_none {A} (o : option A) (ids : list Z) i : (o <> None -> i ∈ ids) -> i ∉ ids -> o = None.
Proof. destruct o; [|done]. intros H Hi. destruct Hi. by apply H. Qed.

(** The new result, field by field; [Hn]: the field that is set owned nothing. *)
Ltac field_post Hty Hos tac := destruct Hty, Hos; unfold value_post, params_ok in *; cbn;
  split; [unfold owned, opt_len; tac; cbn; lia|]; split; [tauto|]; split; split; cbn; tauto.

Lemma safe_cid value q0 (f : list byte -> TransportParameters) ids :
  (cid_ok value -> value_post ids q0 (f value) (allocs (zlen value))) ->
  safe (_ ← lift (validateConnectionIdLen value); c ← cloneBytes value; mret (f c)) 0 (value_post ids q0).
Proof.
  intros Hf. eapply safe_bind0; [apply safe_lift|]. intros [] Hv. cbn beta in Hv. eapply safe_bind; [apply safe_clone|].
  intros c k [-> ->]. apply safe_ret. rewrite Z.add_0_r. apply Hf. unfold validateConnectionIdLen, fail_if, max_connection_id_len in Hv.
  unfold cid_ok. rewrite Z.gtb_ltb in Hv. by destruct (Z.ltb_spec 20 (zlen value)).
Qed.

Lemma safe_int_field id value q0 (f : Z -> TransportParameters) ids :
  (forall v, int_valid id v -> value_post ids q0 (f v) 0) ->
  safe (v ← parseIntegerValue id value; mret (f v)) 0 (value_post ids q0).
Proof. intros Hf. eapply safe_bind0; [apply safe_integer|]. intros v Hv. apply safe_ret. by apply Hf. Qed.

Lemma owns_seen_more p ids id : owns_seen p ids -> owns_seen p (ids ++ [id]).
Proof. intros []. split; intros ?; apply elem_of_app; left; auto. Qed.

Lemma safe_value id_raw value q ids : params_ok q -> params_typed q -> owns_seen q ids -> id_raw ∉ ids ->
  zlen value <= max_quic_varint ->
  safe (parse_value (parameterId id_raw) value q) 0 (value_post (ids ++ [id_raw]) q).
Proof.
  intros Hok Hty Hos Hfresh Hmax. pose proof (parameterId_value id_raw) as Hid.
  pose proof (owns_seen_more q ids id_raw Hos) as Hos'.
  assert (Hlast : id_raw ∈ ids ++ [id_raw]) by (apply elem_of_app; right; constructor).
  destruct (parameterId id_raw) eqn:Epid; cbn in Hid; cbn [parse_value];
    try (apply safe_int_field; intros v Hv; pose proof (int_valid_range _ _ Hv); field_post Hty Hos' idtac).
  all: pose proof Hos as [O0 O13 O15 O16 O17].
  - apply safe_cid. intros Hc. rewrite <-Hid in *. pose proof (opt_none _ _ _ O0 Hfresh) as Hn.
    field_post Hty Hos' ltac:(rewrite Hn).
  - eapply safe_bind0; [apply safe_guard|]. intros u Hl. cbn beta in Hl. apply negb_false_iff, Z.eqb_eq in Hl. apply safe_ret.
    field_post Hty Hos' idtac.
  - eapply safe_bind0; [apply safe_guard|]. intros u _. apply safe_ret.
    field_post Hty Hos' idtac.
  - eapply safe_bind; [apply safe_preferred|]. intros a k (-> & Ha & Hta). apply safe_ret. rewrite <-Hid in *.
    pose proof (opt_none _ _ _ O13 Hfresh) as Hn.
    field_post Hty Hos' ltac:(rewrite Hn).
  - apply safe_cid. intros Hc. rewrite <-Hid in *. pose proof (opt_none _ _ _ O15 Hfresh) as Hn.
    field_post Hty Hos' ltac:(rewrite Hn).
  - apply safe_cid. intros Hc. rewrite <-Hid in *. pose proof (opt_none _ _ _ O16 Hfresh) as Hn.
    field_post Hty Hos' ltac:(rewrite Hn).
  - eapply safe_bind; [by apply safe_version_info|]. intros a k (-> & Ha & Hta). apply safe_ret. rewrite <-Hid in *.
    pose proof (opt_none _ _ _ O17 Hfresh) as Hn.
    field_post Hty Hos' ltac:(rewrite Hn).
  - apply safe_ret. unfold value_post. split; [lia|]. done.
Qed.

Lemma releases_abandon p seen : releases (abandon p seen) (owned p + allocs (capacity seen)).
Proof. apply (releases_comp (fun r => (deinit p r).2)); [apply releases_params|apply releases_len]. Qed.

Lemma safe_abandon {A} p seen (m : M FixedReader A) Q : safe m 0 Q ->
  safe (errdefer (abandon p seen) m) (- (owned p + allocs (capacity seen))) Q.
Proof.
  intros Hm. apply (safe_errdefer _ (owned p + allocs (capacity seen))); [apply releases_abandon|].
  by rewrite Z.add_opp_diag_l.
Qed.

Lemma safe_remember seen id : zlen (items seen) <= capacity seen ->
  safe (rememberParameterId seen id) 0 (fun seen' k => k = allocs (capacity seen') - allocs (capacity seen) /\
    (id ∉ items seen) /\ items seen' = items seen ++ [id] /\ zlen (items seen') <= capacity seen').
Proof.
  intros Hf. unfold rememberParameterId. destruct (existsb (Z.eqb id) (items seen)) eqn:He; [apply safe_throw|].
  assert (Hn : id ∉ items seen).
  { intros Hi%list_elem_of_In. apply (not_true_iff_false (existsb (Z.eqb id) (items seen))); [done|].
    apply existsb_exists. exists id. split; [done|apply Z.eqb_refl]. }
  destruct (append_fit seen Hf) as [Hc0 Hg]. unfold append_id. cbv zeta.
  destruct (Z.leb_spec (zlen (items seen) + 1) (capacity seen)) as [Hle|Hle].
  - apply safe_ret. cbn. split_and!; [lia|done|done|]. rewrite zlen_app. change (zlen [id]) with 1. lia.
  - destruct (Hg eq_refl) as [Hlt H1]. eapply safe_bind; [apply safe_alloc|]. intros _ k ->. rewrite H1.
    intros r Hr. unfold ret_after. destruct (releases_len (capacity seen) r) as (D & P & L). cbn. unfold wf_reader in *. rewrite D, P, L.
    split_and!; try done; try lia. rewrite zlen_app. change (zlen [id]) with 1. lia.
Qed.

Lemma safe_slice_value n : 0 <= n -> safe (readValueSlice n) 0 (fun v k => k = 0 /\ zlen v = n).
Proof.
  intros Hn r Hr. unfold readValueSlice. rewrite (bind_ok _ _ _ _ _ (remainingLen_ok r Hr)). rewrite (remaining_len r Hr).
  rewrite Z.gtb_ltb. unfold wf_reader, guard_not, take_slice, mbind, M_bind in *.
  destruct (Z.ltb_spec (zlen (data r) - rpos r) n); cbn -[zlen ztake zdrop]; unfold wf_reader; cbn -[zlen ztake zdrop].
  - split_and!; try done; lia.
  - rewrite zlen_ztake by (rewrite zlen_zdrop by lia; lia). split_and!; try done; lia.
Qed.

(** The identifier, the length and the duplicate check. *)
Lemma safe_header p seen : zlen (items seen) <= capacity seen ->
  let m := (id ← decodeVarInt; len ← decodeVarInt; seen' ← rememberParameterId seen id.1; mret (id.1, len.1, seen')) in
  safe m 0 (fun '(id, len, seen') k => k = allocs (capacity seen') - allocs (capacity seen) /\
    0 <= len <= max_quic_varint /\ (id ∉ items seen) /\ items seen' = items seen ++ [id] /\ zlen (items seen') <= capacity seen') /\
  moves (errdefer (abandon p seen) m).
Proof.
  intros Hf m. assert (Hs : forall id, safe (len ← decodeVarInt; seen' ← rememberParameterId seen id; mret (id, len.1, seen')) 0
    (fun '(id', len, seen') k => k = allocs (capacity seen') - allocs (capacity seen) /\
      0 <= len <= max_quic_varint /\ (id' ∉ items seen) /\ items seen' = items seen ++ [id'] /\ zlen (items seen') <= capacity seen')).
  { intros id. eapply safe_bind0; [apply safe_varint|]. intros len Hlen. eapply safe_bind; [by apply safe_remember|].
    intros seen' k (-> & ? & ? & ?). apply safe_ret. cbn in *. split_and!; done || lia. }
  split.
  - eapply safe_bind0; [apply safe_varint|]. intros id _. apply Hs.
  - assert (moves m) as Hm by (eapply moves_bind; [apply varint_safe_moves|apply safe_varint|intros id; apply Hs]).
    intros r Hr. specialize (Hm r Hr). unfold errdefer. by destruct (m r) as [[[e|a] r']|].
Qed.

(** Enough fuel, no illegal behaviour, every buffer accounted for. *)
Lemma parse_loop_safe fuel : forall p seen r, parsing p seen -> wf_reader r -> zlen (remaining r) <= Z.of_nat fuel ->
  wp (parse_loop fuel p seen r) (fun '(res, r') => match res with
    | inl _ => live r' = live r - (owned p + allocs (capacity seen))
    | inr q => live r' - live r = owned q - (owned p + allocs (capacity seen)) /\ params_ok q /\ params_typed q
    end).
Proof.
  induction fuel as [|fuel IH]; intros p seen r Hp Hr Hfuel; cbn [parse_loop];
    rewrite (bind_ok _ _ _ _ _ (remainingLen_ok r Hr)); pose proof (zlen_nonneg (remaining r));
    destruct (Z.eqb_spec (zlen (remaining r)) 0) as [Hz|Hz]; try lia.
  1, 2: unfold ret_after, deinit_ids; destruct (releases_len (capacity seen) r) as (_ & _ & L); cbn; rewrite L;
    split; [lia|]; split; apply Hp.
  destruct (safe_header p seen (pg_fit _ _ Hp)) as [Hhs Hhm].
  pose proof (safe_abandon p seen _ _ Hhs) as Hh. specialize (Hh r Hr). specialize (Hhm r Hr). set (m := errdefer (abandon p seen) _) in *. unfold mbind at 1, M_bind at 1.
  destruct (m r) as [[[e|[[id len] seen']] r1]|]; cbn [wp] in Hh, Hhm; [cbn; lia| |done].
  destruct Hh as (Hr1 & Hd1 & _ & Hk & Hlen & Hfresh & Hit & Hfit).
  assert (Hval : safe (errdefer (abandon p seen') (value ← readValueSlice len; parse_value (parameterId id) value p))
    (-(owned p + allocs (capacity seen'))) (value_post (items seen') p)).
  { apply safe_abandon. eapply safe_bind0; [apply safe_slice_value; lia|]. intros v Hv. cbn beta in Hv. rewrite Hit.
    apply safe_value; try apply Hp; [done|lia]. }
  specialize (Hval r1 Hr1). set (m2 := errdefer (abandon p seen') _) in *. unfold mbind at 1, M_bind at 1.
  destruct (m2 r1) as [[[e|q] r2]|]; cbn [wp] in Hval; [cbn; lia| |done].
  destruct Hval as (Hr2 & Hd2 & Hm2 & Hk2 & Hok & Hty & Hos).
  eapply wp_mono; [apply (IH q seen' r2)|].
  - by split.
  - done.
  - rewrite remaining_len in Hfuel |- * by done. rewrite Hd2, Hd1. lia.
  - intros [[e|q'] r3]; [lia|]. intros (Hl & ? & ?). split; [lia|done].
Qed.

(** ** What a failed parse is answered with *)

(** Errors the peer is blamed for, and a local lack of memory. *)
Definition blamed (e : Err) : Prop := transportParameterErrorCode e = Some transport_parameter_error \/ e = OutOfMemory.

Definition blames {A} (p : M FixedReader A) : Prop := forall r, match p r with Some (inl e, _) => blamed e | _ => True end.

Create HintDb blame.

Lemma blames_ret {A} (a : A) : blames (mret a).
Proof. by intros r. Qed.
Lemma blames_bind {A B} (p : M FixedReader A) (f : A -> M FixedReader B) : blames p -> (forall a, blames (f a)) -> blames (p ≫= f).
Proof. intros Hp Hf r. unfold mbind, M_bind. specialize (Hp r). destruct (p r) as [[[e|a] r']|]; [done|apply Hf|done]. Qed.
Lemma blames_throw {A} e : blamed e -> blames (throw e : M FixedReader A).
Proof. by intros He r. Qed.
Lemma blames_guard c e : blamed e -> blames (guard_not c e : M FixedReader unit).
Proof. intros He. by destruct c; intros r. Qed.
Lemma blames_lift {A} (o : Err + A) : (forall e, o = inl e -> blamed e) -> blames (lift o : M FixedReader A).
Proof. intros Ho r. destruct o; cbn; auto. Qed.
Lemma blames_legal {A} (o : option A) : blames (legal o : M FixedReader A).
Proof. intros r. unfold legal. by destruct o. Qed.
Lemma blames_errdefer {A} cl (p : M FixedReader A) : blames p -> blames (errdefer cl p).
Proof. intros Hp r. unfold errdefer. specialize (Hp r). by destruct (p r) as [[[e|a] r']|]. Qed.
Lemma blames_on_value {A} v (p : M FixedReader A) : blames p -> blames (on_value v p).
Proof. intros Hp r. unfold on_value. specialize (Hp (Reader v 0 (answers r) (live r))). by destruct (p _) as [[[e|a] r']|]. Qed.
Lemma blamed_eof : blamed EndOfStream.
Proof. by left. Qed.
Lemma blamed_value : blamed InvalidParameterValue.
Proof. by left. Qed.
Lemma blamed_length : blamed InvalidParameterLength.
Proof. by left. Qed.
Lemma blames_byte : blames readByte.
Proof. intros r. unfold readByte. destruct (zget _ _); [done|apply blamed_eof]. Qed.
Lemma blames_no_eof n : blames (readNoEof n).
Proof. intros r. unfold readNoEof. repeat case_match; simplify_eq; done || apply blamed_eof. Qed.
Lemma blames_remaining : blames remainingLen.
Proof. intros r. unfold remainingLen. by repeat case_match; simplify_eq. Qed.
Lemma blames_alloc n : blames (alloc n).
Proof. intros r. unfold alloc. repeat case_match; simplify_eq; done || by right. Qed.
Lemma blames_after {A} cl (a : A) : blames (ret_after cl a).
Proof. by intros r. Qed.
Lemma blames_take n : blames (take_slice n).
Proof. by intros r. Qed.

#[local] Hint Resolve blames_ret blames_bind blames_guard blames_legal blames_errdefer blames_on_value blamed_eof blamed_value
  blamed_length blames_byte blames_no_eof blames_remaining blames_alloc blames_after blames_take : blame.

Lemma blames_varint : blames decodeVarInt.
Proof.
  unfold decodeVarInt, at_. apply blames_bind; [apply blames_byte|]. intros b. cbv zeta.
  repeat case_match; auto 30 with blame; by intros r.
Qed.

Lemma blamed_fail_if c e e' : blamed e -> fail_if c e = inl e' -> blamed e'.
Proof. unfold fail_if. destruct c; naive_solver. Qed.

Lemma blames_validate_int id v : blames (lift (validateIntegerParameter id v) : M FixedReader unit).
Proof.
  apply blames_lift. intros e. unfold validateIntegerParameter. destruct (fail_if (v >? max_quic_varint) InvalidParameterValue) eqn:E; cbn.
  - intros [= <-]. by eapply blamed_fail_if; [apply blamed_value|].
  - destruct id; try done; apply blamed_fail_if, blamed_value.
Qed.

Lemma blames_validate_cid v : blames (lift (validateConnectionIdLen v) : M FixedReader unit).
Proof. apply blames_lift. intros e. apply blamed_fail_if, blamed_value. Qed.

Lemma blames_validate_version v : blames (lift (validateVersion v) : M FixedReader unit).
Proof. apply blames_lift. intros e. apply blamed_fail_if, blamed_value. Qed.

Lemma blames_validate_chosen v : blames (lift (validateChosenVersion v) : M FixedReader unit).
Proof.
  apply blames_lift. intros e. unfold validateChosenVersion. destruct (validateVersion v) eqn:E; cbn.
  - intros [= <-]. by eapply blamed_fail_if; [apply blamed_value|].
  - apply blamed_fail_if, blamed_value.
Qed.

Lemma blames_integer id v : blames (parseIntegerValue id v).
Proof. unfold parseIntegerValue. apply blames_bind; [apply blames_on_value, blames_varint|]. intros []. eauto 10 using blames_validate_int with blame. Qed.

Lemma blames_available n v : forall off, blames (read_available n v off).
Proof. induction n; intros off; cbn [read_available]; eauto 10 using blames_validate_version with blame. Qed.

Lemma blames_parse_value id v q : blames (parse_value id v q).
Proof.
  assert (Hint : forall i (f : Z -> TransportParameters), blames (x ← parseIntegerValue i v; mret (f x))) by eauto using blames_integer with blame.
  assert (Hcid : forall (f : list byte -> TransportParameters),
    blames (_ ← lift (validateConnectionIdLen v); c ← cloneBytes v; mret (f c))).
  { intros f. apply blames_bind; [apply blames_validate_cid|]. intros _. unfold cloneBytes. eauto 10 with blame. }
  destruct id; cbn [parse_value]; auto 10 with blame.
  - apply blames_bind; [|auto with blame]. unfold parsePreferredAddress, readOwnedBytes. eauto 40 with blame.
  - apply blames_bind; [|auto with blame]. unfold parseVersionInformation.
    eauto 20 using blames_validate_chosen, blames_available with blame.
Qed.

Lemma blames_remember seen id : blames (rememberParameterId seen id).
Proof.
  unfold rememberParameterId, append_id. destruct (existsb _ _); [apply blames_throw; by left|]. cbv zeta.
  destruct (_ <=? _); eauto with blame.
Qed.

Lemma blames_parse_loop fuel : forall p seen, blames (parse_loop fuel p seen).
Proof.
  induction fuel as [|fuel IH]; intros p seen; cbn [parse_loop]; (apply blames_bind; [apply blames_remaining|]); intros left;
    destruct (left =? 0); try apply blames_after; [by intros r|].
  apply blames_bind.
  - apply blames_errdefer. apply blames_bind; [apply blames_varint|]. intros id. apply blames_bind; [apply blames_varint|]. intros len.
    eauto using blames_remember with blame.
  - intros [[id len] seen']. apply blames_bind; [|auto]. apply blames_errdefer. unfold readValueSlice.
    apply blames_bind; [eauto 10 with blame|]. intros v. apply blames_parse_value.
Qed.

(** C19: parsing transport parameters is safe on every extension and with every
    allocator: nothing illegal happens and the loop ends; a failed parse
    releases all it allocated and is either out of memory or answered with
    TRANSPORT_PARAMETER_ERROR; a successful one yields only values within the
    bounds of RFC 9000 and RFC 9368 and the library's own limits, owning what [deinit] releases, since no
    parameter is taken twice. *)
Theorem transport_params_parse_safe (d : list byte) (allocator : list bool) (l : Z) :
  wp (parse d allocator l) (fun '(res, r) => match res with
    | inl e => live r = l /\ (transportParameterErrorCode e = Some transport_parameter_error \/ e = OutOfMemory)
    | inr p => live (deinit p r).2 = l /\ params_ok p /\ params_typed p
    end).
Proof.
  unfold parse. set (r0 := Reader d 0 allocator l).
  assert (wf_reader r0) as Hw by (unfold wf_reader; cbn; pose proof (zlen_nonneg d); lia).
  pose proof (blames_parse_loop (length d) default_params no_ids r0) as Hb.
  pose proof (parse_loop_safe (length d) default_params no_ids r0 parsing_start Hw) as Hs.
  specialize (Hs ltac:(rewrite remaining_len by done; cbn; unfold zlen; lia)).
  assert (owned default_params + allocs (capacity no_ids) = 0) as E0 by reflexivity. rewrite E0 in Hs.
  change (live r0) with l in Hs. destruct (parse_loop _ _ _ r0) as [[[e|p] r]|]; cbn [wp] in *; [|destruct Hs as (Hl & ? & ?)|done].
  - split; [lia|exact Hb].
  - destruct (releases_params p r) as (_ & _ & ->). split; [lia|done].
Qed.

End TransportParamsProps.
