(* ===== verification/Pacer.v ===== *)
(** * The pacer (src/quic/pacer.zig)

    The token bucket that spreads transmission over time: its budget, the rate
    it admits and the wait after which a packet is admitted. *)
From S2P Require Import Prelude Codec.
Import Codec.
Local Open Scope Z_scope.

Module Pacer.

Definition max_burst_packets : Z := 10.
Definition U128_MAX : Z := 340282366920938463463374607431768211455.

Record Pacer : Type := MkPacer { budget : Z; last_sent_ns : option Z; max_datagram_size : Z }.

#[export] Instance eta_pacer : Eta Pacer := fun p => MkPacer (budget p) (last_sent_ns p) (max_datagram_size p).

(** [None] is an overflow, here and below. *)
Definition maxBurstSize (self : Pacer) : option Z := intCast U64_MAX (max_burst_packets * max_datagram_size self).

Definition init (max_datagram_size : Z) : option Pacer :=
  let p := MkPacer 0 None max_datagram_size in
  burst ← maxBurstSize p;
  Some (p <| budget := burst |>).

Definition budgetAt (self : Pacer) (now_ns cwnd smoothed_rtt_ns : Z) : option Z :=
  if smoothed_rtt_ns =? 0 then maxBurstSize self else
  match last_sent_ns self with
  | None => maxBurstSize self
  | Some last =>
      delta_ns ← (if now_ns >? last then d ← i64 (now_ns - last); intCast U64_MAX d else Some 0);
      if delta_ns =? 0 then Some (budget self) else
      scaled ← intCast U128_MAX (cwnd * 5);
      numerator ← intCast U128_MAX (scaled * delta_ns);
      denominator ← intCast U128_MAX (smoothed_rtt_ns * 4);
      added ← intCast U64_MAX (Z.min (numerator / denominator) U64_MAX);
      let new_budget := match add64 (budget self) added with Some b => b | None => U64_MAX end in
      burst ← maxBurstSize self;
      Some (Z.min burst new_budget)
  end.

Definition canSend (self : Pacer) (now_ns packet_size cwnd smoothed_rtt_ns : Z) : option bool :=
  b ← budgetAt self now_ns cwnd smoothed_rtt_ns; Some (b >=? packet_size).

Definition onPacketSent (self : Pacer) (now_ns packet_size cwnd smoothed_rtt_ns : Z) : option Pacer :=
  current_budget ← budgetAt self now_ns cwnd smoothed_rtt_ns;
  Some (self <| budget := if packet_size >=? current_budget then 0 else current_budget - packet_size |>
             <| last_sent_ns := Some now_ns |>).

Definition reset (self : Pacer) : option Pacer :=
  burst ← maxBurstSize self; Some (self <| budget := burst |> <| last_sent_ns := None |>).

(** ** The gate of a connection

    [pollProtectedShortDatagramWithKeyPhaseAndEgressPath] sends a packet at a
    time, with the congestion window and the smoothed round-trip time of that
    moment.  When data is queued and there is an RTT sample the packet is
    [gated]: it is built only if the pacer [canSend] the largest datagram.  Every
    ack-eliciting packet, gated or not, charges the pacer with its size. *)
Record Offer : Type := MkOffer { gated : bool; at_ns : Z; largest : Z; size : Z; cwnd : Z; srtt : Z }.

Definition offer (self : Pacer) (o : Offer) : option (bool * Pacer) :=
  ok ← (if gated o then canSend self (at_ns o) (largest o) (cwnd o) (srtt o) else Some true);
  if ok : bool then p ← onPacketSent self (at_ns o) (size o) (cwnd o) (srtt o); Some (gated o, p) else Some (false, self).

(** The bytes of the packets the gate admits, and the state after the last offer. *)
Fixpoint offers (self : Pacer) (os : list Offer) : option (Z * Pacer) :=
  match os with
  | [] => Some (0, self)
  | o :: os =>
      '(sent, p) ← offer self o;
      '(total, p) ← offers p os;
      Some ((if sent : bool then size o else 0) + total, p)
  end.

(** ** Correctness *)

Definition burst (p : Pacer) : Z := 10 * max_datagram_size p.

(** Times are nanoseconds since an origin, so not negative. *)
Definition time_ok (t : Z) : Prop := 0 <= t <= I64_MAX.

Record pacer_ok (p : Pacer) : Prop := {
  po_size : 0 <= max_datagram_size p;
  po_burst : burst p <= U64_MAX;
  po_budget : 0 <= budget p <= burst p;
  po_last : forall t, last_sent_ns p = Some t -> time_ok t;
}.

Record offer_ok (o : Offer) : Prop := {
  oo_time : time_ok (at_ns o);
  oo_size : 0 <= size o <= largest o;
  oo_cwnd : 0 <= cwnd o <= 4611686018427387904;
  oo_srtt : 0 < srtt o <= U64_MAX;
}.

Lemma intCast_in max z : 0 <= z <= max -> intCast max z = Some z.
Proof. intros. unfold intCast. by rewrite !(proj2 (Z.leb_le _ _)) by lia. Qed.

Lemma maxBurst_ok p : pacer_ok p -> maxBurstSize p = Some (burst p).
Proof. intros [? ? _ _]. unfold maxBurstSize, max_burst_packets, burst in *. apply intCast_in. lia. Qed.

(** The budget at a later time: what is left and what was added, up to a burst. *)
Definition added (last now cwnd srtt : Z) : Z := cwnd * 5 * (now - last) / (srtt * 4).

Definition budget_spec (p : Pacer) (o : Offer) : Z :=
  match last_sent_ns p with
  | None => burst p
  | Some last => if last <? at_ns o then Z.min (burst p) (budget p + added last (at_ns o) (cwnd o) (srtt o)) else budget p
  end.

Lemma div_u128 cwnd delta srtt : 0 <= cwnd <= 4611686018427387904 -> 0 <= delta <= I64_MAX -> 0 < srtt ->
  0 <= cwnd * 5 * delta <= U128_MAX /\ 0 <= cwnd * 5 * delta / (srtt * 4).
Proof.
  intros Hc Hd Hs. assert (0 <= cwnd * 5 * delta) by (apply Z.mul_nonneg_nonneg; lia). split; [split; [done|]|apply Z.div_pos; lia].
  pose proof (Z.mul_le_mono_nonneg (cwnd * 5) (4611686018427387904 * 5) delta I64_MAX) as Hm. unfold U128_MAX, I64_MAX in *. lia.
Qed.

Lemma budgetAt_ok p o : pacer_ok p -> offer_ok o -> budgetAt p (at_ns o) (cwnd o) (srtt o) = Some (budget_spec p o).
Proof.
  intros Hp [Ht _ Hc Hs]. unfold budgetAt, budget_spec. rewrite (maxBurst_ok p Hp). destruct (Z.eqb_spec (srtt o) 0); [lia|].
  destruct (last_sent_ns p) as [last|] eqn:El; [|done]. pose proof (po_last p Hp last El) as Hl. unfold time_ok in *.
  rewrite Z.gtb_ltb. destruct (Z.ltb_spec last (at_ns o)); [|done].
  assert (0 <= at_ns o - last <= I64_MAX) as Hd by lia. unfold i64. unfold I64_MIN in *. rewrite !(proj2 (Z.leb_le _ _)) by (unfold I64_MAX in *; lia).
  cbn [andb mbind option_bind]. rewrite (intCast_in U64_MAX (at_ns o - last)) by (unfold U64_MAX, I64_MAX in *; lia). cbn [mbind option_bind].
  destruct (Z.eqb_spec (at_ns o - last) 0); [lia|]. destruct (div_u128 (cwnd o) (at_ns o - last) (srtt o)) as [Hn Hq]; [done..|lia|].
  rewrite (intCast_in U128_MAX (cwnd o * 5)) by (unfold U128_MAX; lia). cbn [mbind option_bind].
  rewrite (intCast_in U128_MAX (cwnd o * 5 * _)) by done. cbn [mbind option_bind].
  rewrite (intCast_in U128_MAX (srtt o * 4)) by (unfold U128_MAX, U64_MAX in *; lia). cbn [mbind option_bind].
  fold (added last (at_ns o) (cwnd o) (srtt o)) in *. set (q := added _ _ _ _) in *.
  rewrite intCast_in by (unfold U64_MAX; lia). cbn [mbind option_bind]. destruct Hp as [_ Hb Hbud _]. f_equal.
  unfold add64. destruct (Z.leb_spec (budget p + Z.min q U64_MAX) U64_MAX); lia.
Qed.

Lemma budget_spec_range p o : pacer_ok p -> offer_ok o -> 0 <= budget_spec p o <= burst p.
Proof.
  intros Hp [Ht _ Hc Hs]. unfold budget_spec. pose proof (po_budget p Hp).
  destruct (last_sent_ns p) as [last|] eqn:El; [|lia]. destruct (Z.ltb_spec last (at_ns o)); [|lia].
  pose proof (po_last p Hp last El). unfold time_ok, added in *. destruct (div_u128 (cwnd o) (at_ns o - last) (srtt o)); lia.
Qed.

Lemma canSend_ok p o : pacer_ok p -> offer_ok o ->
  canSend p (at_ns o) (largest o) (cwnd o) (srtt o) = Some (budget_spec p o >=? largest o).
Proof. intros. unfold canSend. by rewrite budgetAt_ok. Qed.

(** The bytes of an offer that the gate lets through. *)
Definition gated_size (o : Offer) : Z := if gated o then size o else 0.

(** A packet sent charges the budget; a gated one fits it. *)
Lemma charge_step p o : pacer_ok p -> offer_ok o -> (gated o = true -> size o <= budget_spec p o) ->
  exists p', onPacketSent p (at_ns o) (size o) (cwnd o) (srtt o) = Some p' /\ pacer_ok p' /\ burst p' = burst p /\
     budget p' <= budget_spec p o - gated_size o /\ last_sent_ns p' = Some (at_ns o).
Proof.
  intros Hp Ho Hfit. pose proof (oo_size o Ho). unfold onPacketSent, gated_size. rewrite budgetAt_ok by done. cbn. eexists. split; [done|].
  pose proof (budget_spec_range p o Hp Ho). rewrite Z.geb_leb. destruct Hp as [Hs Hb Hbud _]. unfold burst in *.
  destruct (Z.leb_spec (budget_spec p o) (size o)); destruct (gated o); try specialize (Hfit eq_refl);
    (split; [split; unfold burst; cbn; [lia|lia|lia|intros t [= <-]; apply Ho]|split_and!; cbn; done || lia]).
Qed.

(** One offer: sent, or nothing changes. *)
Lemma offer_step p o : pacer_ok p -> offer_ok o ->
  (gated o = true /\ budget_spec p o < largest o /\ offer p o = Some (false, p)) \/
  (exists p', offer p o = Some (gated o, p') /\ pacer_ok p' /\ burst p' = burst p /\
     budget p' <= budget_spec p o - gated_size o /\ last_sent_ns p' = Some (at_ns o)).
Proof.
  intros Hp Ho. unfold offer. destruct (gated o) eqn:Eg.
  - rewrite canSend_ok by done. cbn [mbind option_bind]. rewrite Z.geb_leb. pose proof (oo_size o Ho).
    destruct (Z.leb_spec (largest o) (budget_spec p o)); [right|by left].
    destruct (charge_step p o Hp Ho ltac:(lia)) as (p' & -> & ?). cbn. by exists p'.
  - right. destruct (charge_step p o Hp Ho) as (p' & -> & ?); [by rewrite Eg|]. cbn. by exists p'.
Qed.

(** ** The rate *)

(** Times do not go back. *)
Fixpoint ordered (t : Z) (os : list Offer) : Prop :=
  match os with [] => True | o :: os => t <= at_ns o /\ ordered (at_ns o) os end.

Fixpoint end_time (t : Z) (os : list Offer) : Z := match os with [] => t | o :: os => end_time (at_ns o) os end.

Lemma end_time_ge os : forall t, ordered t os -> t <= end_time t os.
Proof. induction os as [|o os IH]; intros t; cbn; [lia|]. intros [? ?%IH]. lia. Qed.

(** What may be sent at once, and since when more has been added. *)
Definition credit (p : Pacer) : Z := match last_sent_ns p with None => burst p | Some _ => budget p end.
Definition since (p : Pacer) (t : Z) : Z := default t (last_sent_ns p).

Section Rate.
(** An upper bound [R / D], in bytes per nanosecond, of the pacing rate. *)
Context (R D : Z) (HR : 0 <= R) (HD : 0 < D).
Definition slower (o : Offer) : Prop := 5 * cwnd o * D <= R * (4 * srtt o).

Lemma added_rate o last : slower o -> offer_ok o -> last <= at_ns o ->
  D * added last (at_ns o) (cwnd o) (srtt o) <= R * (at_ns o - last).
Proof.
  intros Hs [_ _ Hc Hr] Hl. unfold slower, added in *. set (d := at_ns o - last) in *. assert (0 <= d) by lia.
  pose proof (Z.mul_div_le (cwnd o * 5 * d) (srtt o * 4) ltac:(lia)) as Hq. set (q := cwnd o * 5 * d / (srtt o * 4)) in *.
  apply (Z.mul_le_mono_pos_r _ _ (srtt o * 4)); [lia|].
  transitivity (D * (cwnd o * 5 * d)); [nia|]. transitivity (d * (R * (4 * srtt o))); [|lia].
  replace (D * (cwnd o * 5 * d)) with (d * (5 * cwnd o * D)) by lia. by apply Z.mul_le_mono_nonneg_l.
Qed.

Lemma budget_rate p o t : pacer_ok p -> slower o -> offer_ok o -> t <= at_ns o -> since p t <= at_ns o ->
  D * budget_spec p o <= D * credit p + R * (at_ns o - since p t).
Proof.
  intros Hp Hs Ho Ht. unfold budget_spec, credit, since. destruct (last_sent_ns p) as [last|]; cbn; intros Hl; [|nia].
  pose proof (added_rate o last Hs Ho Hl). destruct (Z.ltb_spec last (at_ns o)); nia.
Qed.

Lemma offers_rate os : forall p t, pacer_ok p -> Forall offer_ok os -> Forall slower os -> ordered t os -> since p t <= t ->
  exists total p', offers p os = Some (total, p') /\ pacer_ok p' /\ D * total <= D * credit p + R * (end_time t os - since p t).
Proof.
  induction os as [|o os IH]; intros p t Hp Hok Hsl Hord Hsince; cbn [offers end_time].
  { eexists _, _. split; [done|]. split; [done|]. unfold credit. destruct Hp as [? _ ? _].
    unfold burst in *. destruct (last_sent_ns p); cbn; nia. }
  inversion_clear Hok as [|? ? Ho Hok']. inversion_clear Hsl as [|? ? Hs Hsl']. destruct Hord as [Hle Hord].
  pose proof (end_time_ge os _ Hord).
  destruct (offer_step p o Hp Ho) as [(_ & _ & ->)|(p1 & -> & Hp1 & Hb1 & Hbud1 & Hl1)]; cbn [mbind option_bind].
  - destruct (IH p (at_ns o) Hp Hok' Hsl' Hord) as (total & p' & -> & Hp' & Hb).
    { unfold since in *. destruct (last_sent_ns p); cbn in *; lia. }
    eexists _, _. split; [done|]. split; [done|]. unfold since in *. destruct (last_sent_ns p); cbn in *; nia.
  - destruct (IH p1 (at_ns o) Hp1 Hok' Hsl' Hord) as (total & p' & -> & Hp' & Hb).
    { unfold since. rewrite Hl1. cbn. lia. }
    eexists _, _. split; [done|]. split; [done|].
    pose proof (budget_rate p o t Hp Hs Ho Hle ltac:(lia)) as Hr. unfold since in Hb. unfold credit in Hb at 1. rewrite Hl1 in Hb. cbn in Hb.
    fold (gated_size o). assert (D * budget p1 <= D * budget_spec p o - D * gated_size o) by nia. nia.
Qed.

End Rate.

(** Every state a pacer reaches. *)
Lemma offers_reach os : forall p t, pacer_ok p -> Forall offer_ok os -> ordered t os -> since p t <= t ->
  exists total p', offers p os = Some (total, p') /\ pacer_ok p' /\ burst p' = burst p /\ since p' (end_time t os) <= end_time t os.
Proof.
  induction os as [|o l IH]; intros p t Hp Hok Hord Hs; cbn; [eauto 10|].
  inversion_clear Hok as [|? ? Ho Hok']. destruct Hord as [Hle Hord].
  destruct (offer_step p o Hp Ho) as [(_ & _ & ->)|(p1 & -> & Hp1 & Hb1 & _ & Hl1)]; cbn [mbind option_bind].
  - destruct (IH p (at_ns o) Hp Hok' Hord) as (total & p' & -> & ?); [|cbn; eauto].
    unfold since in *. destruct (last_sent_ns p); cbn in *; lia.
  - destruct (IH p1 (at_ns o) Hp1 Hok' Hord) as (total & p' & -> & ? & Hb & ?); [unfold since; rewrite Hl1; cbn; lia|].
    cbn. eexists _, _. split; [done|]. by rewrite Hb, Hb1.
Qed.

Lemma init_ok mds : 0 <= mds -> 10 * mds <= U64_MAX -> exists p, init mds = Some p /\ pacer_ok p /\ burst p = 10 * mds /\ last_sent_ns p = None.
Proof.
  intros. unfold init, maxBurstSize, max_burst_packets. cbn [max_datagram_size]. rewrite intCast_in by lia. cbn.
  eexists. split; [done|]. split; [|done]. split; unfold burst; cbn; lia || done.
Qed.


(** the pacer never blocks a connection for good. In every state it
    reaches, a datagram that fits a burst is admitted once the pacing rate
    has had time to add its size since the last packet was sent. *)
Theorem pacer_admits_after_wait (mds : Z) (before : list Offer) (o : Offer)
    (Hmds : 0 <= mds <= 65527) (Hok : Forall offer_ok before) (Hord : ordered 0 before) (Ho : offer_ok o)
    (Hsize : largest o <= 10 * mds) :
  wp (p ← init mds; offers p before) (fun '(_, p) =>
    4 * srtt o * largest o <= 5 * cwnd o * (at_ns o - since p (at_ns o)) \/ last_sent_ns p = None ->
    canSend p (at_ns o) (largest o) (cwnd o) (srtt o) = Some true).
Proof.
  destruct (init_ok mds) as (p0 & -> & Hp0 & Hb0 & Hl0); [lia|unfold U64_MAX; lia|]. cbn [mbind option_bind].
  destruct (offers_reach before p0 0 Hp0 Hok Hord) as (tot & p & -> & Hp & Hb & _); [unfold since; rewrite Hl0; cbn; lia|].
  rewrite Hb0 in Hb. apply wp_ret. intros Hwait. rewrite canSend_ok by done. f_equal. rewrite Z.geb_leb. apply Z.leb_le.
  destruct Ho as [_ Hsz Hc Hr]. unfold budget_spec, since in *. destruct (last_sent_ns p) as [last|]; cbn in Hwait; [|lia].
  destruct Hwait as [Hwait|]; [|done]. pose proof (po_budget p Hp). destruct (Z.ltb_spec last (at_ns o)).
  - assert (largest o <= added last (at_ns o) (cwnd o) (srtt o)); [|lia]. unfold added. apply Z.div_le_lower_bound; lia.
  - assert (largest o = 0); [|lia]. assert (4 * srtt o * largest o <= 0) by nia. nia.
Qed.

(** A window of 43200 bytes and a round trip of 100 ms: 540 bytes per millisecond. *)
Definition sample_offer (ms size : Z) : Offer := MkOffer true (ms * 1000000) 1200 size 43200 100000000.
Definition sample_offers : list Offer := map (fun ms => sample_offer ms 1200) [0; 0; 0; 0; 0; 0; 0; 0; 0; 0; 0; 1; 3].

Lemma sample_offer_ok ms size : 0 <= ms <= 1000 -> 0 <= size <= 1200 -> offer_ok (sample_offer ms size).
Proof. intros. split; cbn; unfold time_ok, I64_MAX, U64_MAX; cbn; lia. Qed.

Lemma sample_offers_ok : Forall offer_ok sample_offers.
Proof. repeat (constructor; [apply sample_offer_ok; lia|]). constructor. Qed.


Lemma pacer_admits_after_wait_witness :
  wp (p ← init 1200; offers p sample_offers) (fun '(_, p) =>
    canSend p 3000000 1200 43200 100000000 = Some false /\ canSend p 6000000 1200 43200 100000000 = Some true).
Proof.
  pose proof (pacer_admits_after_wait 1200 sample_offers (sample_offer 6 1200) ltac:(lia) sample_offers_ok) as H.
  specialize (H ltac:(cbn; lia) (sample_offer_ok 6 1200 ltac:(lia) ltac:(lia)) ltac:(cbn; lia)).
  destruct (init 1200 ≫= _) as [[total p]|] eqn:E; [|done]. vm_compute in E. inversion E. subst. split; [vm_compute; reflexivity|].
  apply H. left. vm_compute. congruence.
Defined.

End Pacer.
