(* ===== verification/Paths.v ===== *)
(** * Paths: MTU discovery, amplification limits and migration

    src/quic/pmtu.zig (module [Pmtu]), the peer-address accounting of
    src/quic/connection.zig (module [PeerAddress]) and src/quic/migration.zig
    (module [Migration]). *)
From S2P Require Import Prelude Codec.
Import Codec.
Local Open Scope Z_scope.

(** ** Path MTU discovery *)

Module Pmtu.

Definition QUIC_MIN_MTU : Z := 1200.
Definition DEFAULT_PROBE_SIZES : list Z := [1200; 1350; 1500; 2000; 4000; 8000].

Record PmtuProbe : Type := MkProbe {
  effective_mtu : Z;
  probe_index : Z;
  probe_in_flight : bool;
  probe_failures : Z;      (* u8 *)
  max_probe_failures : Z;  (* u8 *)
  probe_sizes : list Z;
  discovery_complete : bool;
}.

#[export] Instance eta_probe : Eta PmtuProbe := fun p =>
  MkProbe (effective_mtu p) (probe_index p) (probe_in_flight p) (probe_failures p) (max_probe_failures p) (probe_sizes p)
    (discovery_complete p).

(** The defaults, with the retries and sizes a caller may choose. *)
Definition new_probe (max_failures : Z) (sizes : list Z) : PmtuProbe := MkProbe QUIC_MIN_MTU 0 false 0 max_failures sizes false.

(** The loop that skips sizes not above the effective MTU, over [probe_sizes[probe_index..]]. *)
Fixpoint skip_small (sizes : list Z) (mtu index : Z) : Z :=
  match sizes with [] => index | s :: sizes => if s <=? mtu then skip_small sizes mtu (index + 1) else index end.

Definition nextProbeSize (self : PmtuProbe) : option Z * PmtuProbe :=
  if discovery_complete self then (None, self) else
  let self := self <| probe_index := skip_small (zdrop (probe_index self) (probe_sizes self)) (effective_mtu self) (probe_index self) |> in
  match zget (probe_sizes self) (probe_index self) with
  | None => (None, self <| discovery_complete := true |>)
  | Some size => (Some size, self)
  end.

Definition startProbe (self : PmtuProbe) : option Z * PmtuProbe :=
  match nextProbeSize self with
  | (None, self) => (None, self <| discovery_complete := true |>)
  | (Some size, self) => (Some size, self <| probe_in_flight := true |>)
  end.

Definition onProbeAcked (self : PmtuProbe) : PmtuProbe :=
  if negb (probe_in_flight self) then self else
  let self := match zget (probe_sizes self) (probe_index self) with
              | Some size => self <| effective_mtu := size |>
              | None => self
              end in
  let self := self <| probe_in_flight := false |> <| probe_failures := 0 |> <| probe_index := probe_index self + 1 |> in
  if probe_index self >=? zlen (probe_sizes self) then self <| discovery_complete := true |> else self.

(** [None]: the [u8] counter overflows. *)
Definition onProbeLost (self : PmtuProbe) : option PmtuProbe :=
  if negb (probe_in_flight self) then Some self else
  failures ← intCast 255 (probe_failures self + 1);
  let self := self <| probe_failures := failures |> in
  Some (if probe_failures self >=? max_probe_failures self
        then self <| probe_in_flight := false |> <| discovery_complete := true |> else self).

Definition reset (self : PmtuProbe) : PmtuProbe :=
  self <| effective_mtu := QUIC_MIN_MTU |> <| probe_index := 0 |> <| probe_in_flight := false |>
       <| probe_failures := 0 |> <| discovery_complete := false |>.

(** *** A path

    A path that carries datagrams of at most [path_mtu] bytes: probes that fit are
    acknowledged, others are lost. *)
Definition probe_round (path_mtu : Z) (self : PmtuProbe) : option PmtuProbe :=
  match startProbe self with
  | (None, self) => Some self
  | (Some size, self) => if size <=? path_mtu then Some (onProbeAcked self) else onProbeLost self
  end.

Fixpoint discover (rounds : nat) (path_mtu : Z) (self : PmtuProbe) : option PmtuProbe :=
  match rounds with
  | 0%nat => Some self
  | S rounds => if discovery_complete self then Some self else self ← probe_round path_mtu self; discover rounds path_mtu self
  end.

(** The largest of [sizes] the path carries, if it is above [mtu]. *)
Definition best (path_mtu mtu : Z) (sizes : list Z) : Z :=
  fold_left (fun m s => if s <=? path_mtu then Z.max m s else m) sizes mtu.

End Pmtu.

(** ** The anti-amplification limit of a connection *)

Module PeerAddress.

Definition anti_amplification_multiplier : Z := 3.

Inductive Side : Type := client | server.

(** The fields of [Connection] these functions use. *)
Record Peer : Type := MkPeer {
  side : Side;
  closing_or_closed : bool;
  peer_address_validated : bool;
  peer_address_bytes_received : Z;
  peer_address_bytes_sent : Z;
  retry_issued : bool;   (* [retry_source_connection_id != null] *)
}.

#[export] Instance eta_peer : Eta Peer := fun p =>
  MkPeer (side p) (closing_or_closed p) (peer_address_validated p) (peer_address_bytes_received p) (peer_address_bytes_sent p)
    (retry_issued p).

Definition init (s : Side) : Peer := MkPeer s false (match s with client => true | server => false end) 0 0 false.

Definition isAntiAmplificationLimited (self : Peer) : bool :=
  match side self with server => negb (peer_address_validated self) | client => false end.

(** [std.math.add(...) catch maxInt] and [std.math.mul(...) catch maxInt]. *)
Definition add_sat (a b : Z) : Z := if a + b <=? U64_MAX then a + b else U64_MAX.
Definition mul_sat (a b : Z) : Z := if a * b <=? U64_MAX then a * b else U64_MAX.

(** [inl]: [error.ConnectionClosed]. *)
Definition recordPeerAddressBytesReceived (self : Peer) (bytes : Z) : unit + Peer :=
  if closing_or_closed self then inl tt else
  if negb (isAntiAmplificationLimited self) then inr self else
  inr (self <| peer_address_bytes_received := add_sat (peer_address_bytes_received self) bytes |>).

Definition validatePeerAddress (self : Peer) : unit + Peer :=
  if closing_or_closed self then inl tt else inr (self <| peer_address_validated := true |>).

(** [None]: unrestricted. *)
Definition antiAmplificationLimitRemaining (self : Peer) : option Z :=
  if negb (isAntiAmplificationLimited self) then None else
  let limit := mul_sat (peer_address_bytes_received self) anti_amplification_multiplier in
  if peer_address_bytes_sent self >=? limit then Some 0 else Some (limit - peer_address_bytes_sent self).

Definition canSendToPeerAddress (self : Peer) (bytes : Z) : bool :=
  match antiAmplificationLimitRemaining self with None => true | Some remaining => bytes <=? remaining end.

Definition serverAtAntiAmplificationLimit (self : Peer) : bool :=
  match antiAmplificationLimitRemaining self with None => false | Some remaining => remaining =? 0 end.

Definition recordPeerAddressBytesSent (self : Peer) (bytes : Z) : Peer :=
  if negb (isAntiAmplificationLimited self) then self else
  self <| peer_address_bytes_sent := add_sat (peer_address_bytes_sent self) bytes |>.

(** What [issueRetryDatagram] does to these fields: a connection that is not a
    server, is closing or has issued a Retry before refuses; otherwise the
    datagram of [bytes] bytes is recorded as sent, without asking
    [canSendToPeerAddress]. The checks of its other arguments come before and
    change nothing. *)
Definition recordRetryDatagramSent (self : Peer) (bytes : Z) : unit + Peer :=
  if closing_or_closed self then inl tt else
  match side self with client => inl tt | server =>
    if retry_issued self then inl tt else
    inr (recordPeerAddressBytesSent (self <| retry_issued := true |>) bytes)
  end.

End PeerAddress.

(** ** The migration manager *)

Module Migration.

Record AntiAmplification : Type := MkAmp { bytes_received : Z; bytes_sent : Z; limit_factor : Z }.
#[export] Instance eta_amp : Eta AntiAmplification := fun a => MkAmp (bytes_received a) (bytes_sent a) (limit_factor a).

(** [usize] arithmetic: [None] is an overflow. *)
Definition addu (a b : Z) : option Z := intCast U64_MAX (a + b).
Definition mulu (a b : Z) : option Z := intCast U64_MAX (a * b).

Definition onReceived (self : AntiAmplification) (bytes : Z) : option AntiAmplification :=
  n ← addu (bytes_received self) bytes; Some (self <| bytes_received := n |>).

Definition onSent (self : AntiAmplification) (bytes : Z) : option AntiAmplification :=
  n ← addu (bytes_sent self) bytes; Some (self <| bytes_sent := n |>).

Definition sendBudget (self : AntiAmplification) : option Z :=
  limit ← mulu (bytes_received self) (limit_factor self);
  Some (if bytes_sent self >=? limit then 0 else limit - bytes_sent self).

Definition isLimited (self : AntiAmplification) : option bool :=
  if bytes_received self =? 0 then Some false else b ← sendBudget self; Some (b =? 0).

Definition isPathValidated (self : AntiAmplification) : bool :=
  (bytes_received self >? 0) && (bytes_sent self <=? bytes_received self).

Definition amp_reset (self : AntiAmplification) : AntiAmplification := self <| bytes_received := 0 |> <| bytes_sent := 0 |>.

(** The detector keeps the caller's slice; [mem] gives the contents of a
    buffer at the time of the call. *)
Record NatRebindingDetector : Type := MkNat { last_peer_addr : option Z; rebinding_count : Z }.
#[export] Instance eta_nat : Eta NatRebindingDetector := fun d => MkNat (last_peer_addr d) (rebinding_count d).

Definition checkPeerAddress (mem : Z -> list byte) (self : NatRebindingDetector) (new_addr : Z) : option (bool * NatRebindingDetector) :=
  match last_peer_addr self with
  | Some last =>
      if bool_decide (mem last = mem new_addr) then Some (false, self) else
      n ← addu (rebinding_count self) 1;
      Some (true, self <| rebinding_count := n |> <| last_peer_addr := Some new_addr |>)
  | None => Some (false, self <| last_peer_addr := Some new_addr |>)
  end.

Inductive PathValidation : Type := idle | challenge_sent | validated | failed.

Record MigrationManager : Type := MkManager {
  anti_amplification : AntiAmplification;
  nat_detector : NatRebindingDetector;
  validation_state : PathValidation;
  challenge_retries : Z;       (* u8 *)
  max_challenge_retries : Z;   (* u8 *)
}.
#[export] Instance eta_manager : Eta MigrationManager := fun m =>
  MkManager (anti_amplification m) (nat_detector m) (validation_state m) (challenge_retries m) (max_challenge_retries m).

Definition new_manager : MigrationManager := MkManager (MkAmp 0 0 3) (MkNat None 0) idle 0 3.

Definition onDatagramReceived (mem : Z -> list byte) (self : MigrationManager) (peer_addr bytes : Z) : option (bool * MigrationManager) :=
  '(rebound, d) ← checkPeerAddress mem (nat_detector self) peer_addr;
  let self := self <| nat_detector := d |> in
  let self := if rebound : bool then self <| anti_amplification := amp_reset (anti_amplification self) |> else self in
  a ← onReceived (anti_amplification self) bytes;
  Some (rebound, self <| anti_amplification := a |>).

Definition onDatagramSent (self : MigrationManager) (bytes : Z) : option MigrationManager :=
  a ← onSent (anti_amplification self) bytes; Some (self <| anti_amplification := a |>).

Definition startValidation (self : MigrationManager) : MigrationManager :=
  self <| validation_state := challenge_sent |> <| challenge_retries := 0 |>
       <| anti_amplification := (anti_amplification self) <| bytes_sent := 0 |> |>.

Definition onPathResponse (self : MigrationManager) : MigrationManager :=
  match validation_state self with challenge_sent => self <| validation_state := validated |> | _ => self end.

(** [None]: the [u8] counter overflows. *)
Definition onChallengeTimeout (self : MigrationManager) : option MigrationManager :=
  n ← intCast 255 (challenge_retries self + 1);
  let self := self <| challenge_retries := n |> in
  Some (if challenge_retries self >=? max_challenge_retries self then self <| validation_state := failed |> else self).

Definition canSend (self : MigrationManager) : option bool :=
  match validation_state self with
  | idle | validated => Some true
  | challenge_sent => b ← isLimited (anti_amplification self); Some (negb b)
  | failed => Some false
  end.

End Migration.
