(* ===== verification/PathsProps.v ===== *)
(** * Paths: correctness

    Path MTU discovery ends and finds the largest size the path carries; the
    amplification limit of a connection holds exactly, that of the migration
    manager within one datagram of each validation. *)
From Stdlib Require Import Sorting.Sorted.
From S2P Require Import Prelude Codec Paths.
Import Codec.
Local Open Scope Z_scope.

Module PmtuProps.
Import Pmtu.

Section Discovery.
Context (F M : Z) (HF : 1 <= F <= 255).

(** Between two rounds: the sizes before the index are done with. *)
Definition st (pre rest : list Z) (mtu f : Z) (g : bool) : PmtuProbe := MkProbe mtu (zlen pre) g f F (pre ++ rest) false.

Lemma zdrop_pre {A} (pre rest : list A) : zdrop (zlen pre) (pre ++ rest) = rest.
Proof. by apply zdrop_app_exact. Qed.

Lemma next_at_end pre mtu f g : startProbe (st pre [] mtu f g) = (None, (st pre [] mtu f g) <| discovery_complete := true |>).
Proof.
  unfold startProbe, nextProbeSize. cbn [st discovery_complete probe_index probe_sizes effective_mtu]. rewrite zdrop_pre. cbn [skip_small].
  cbn. rewrite app_nil_r. unfold zget, zlen. destruct (Z.ltb_spec (Z.of_nat (length pre)) 0); [lia|]. rewrite Nat2Z.id.
  by rewrite lookup_ge_None_2.
Qed.

Lemma next_small pre s rest mtu f g : s <= mtu -> startProbe (st pre (s :: rest) mtu f g) = startProbe (st (pre ++ [s]) rest mtu f g).
Proof.
  intros Hs. unfold startProbe, nextProbeSize. cbn [st discovery_complete probe_index probe_sizes effective_mtu]. rewrite !zdrop_pre.
  cbn [skip_small]. rewrite (proj2 (Z.leb_le _ _)), zlen_app by done. change (zlen [s]) with 1. unfold st. rewrite <-app_assoc. done.
Qed.

Lemma zget_at {A} (pre : list A) s rest : zget (pre ++ s :: rest) (zlen pre) = Some s.
Proof.
  unfold zget, zlen. destruct (Z.ltb_spec (Z.of_nat (length pre)) 0); [lia|]. rewrite Nat2Z.id. by apply list_lookup_middle.
Qed.

Lemma next_large pre s rest mtu f g : mtu < s -> startProbe (st pre (s :: rest) mtu f g) = (Some s, st pre (s :: rest) mtu f true).
Proof.
  intros Hs. unfold startProbe, nextProbeSize. cbn [st discovery_complete probe_index probe_sizes effective_mtu]. rewrite zdrop_pre.
  cbn [skip_small]. rewrite (proj2 (Z.leb_gt _ _)) by done. cbn. by rewrite zget_at.
Qed.

Lemma acked pre s rest mtu f :
  onProbeAcked (st pre (s :: rest) mtu f true) =
    let p := st (pre ++ [s]) rest s 0 false in if bool_decide (rest = []) then p <| discovery_complete := true |> else p.
Proof.
  unfold onProbeAcked. cbn. rewrite zget_at. cbn. unfold st. rewrite <-app_assoc. cbn [app].
  rewrite !zlen_app, zlen_cons. change (zlen [s]) with 1. rewrite Z.geb_leb. pose proof (zlen_nonneg rest).
  destruct (Z.leb_spec (zlen pre + (zlen rest + 1)) (zlen pre + 1)) as [Hl|Hl].
  - assert (rest = []) as -> by (apply zlen_nil_inv; lia). done.
  - rewrite bool_decide_eq_false_2; [done|]. intros ->. rewrite zlen_nil in Hl. lia.
Qed.

Definition finished (p : PmtuProbe) (mtu : Z) : Prop := discovery_complete p = true /\ effective_mtu p = mtu.

Lemma discover_done n p mtu : finished p mtu -> discover n M p = Some p.
Proof. intros [Hc _]. destruct n; [done|]. cbn. by rewrite Hc. Qed.

(** A size above the path MTU is given up after [F] losses. *)
Lemma discover_lost k : forall n pre s rest mtu f g, M < s -> mtu < s -> 0 <= f < F -> F - f = Z.of_nat k -> (k <= n)%nat ->
  exists p, discover n M (st pre (s :: rest) mtu f g) = Some p /\ finished p mtu.
Proof.
  induction k as [|k IH]; intros n pre s rest mtu f g HM Hs Hf Hk Hn; [lia|]. destruct n as [|n]; [lia|].
  cbn [discover]. cbn [st discovery_complete]. unfold probe_round. change (MkProbe mtu (zlen pre) g f F (pre ++ s :: rest) false) with (st pre (s :: rest) mtu f g).
  rewrite next_large, (proj2 (Z.leb_gt _ _)) by lia. unfold onProbeLost. cbn [st probe_in_flight negb probe_failures].
  unfold intCast. rewrite !(proj2 (Z.leb_le _ _)) by lia. cbn [andb mbind option_bind]. cbn -[discover].
  rewrite Z.geb_leb. destruct (Z.leb_spec F (f + 1)).
  - eexists. split; [by eapply discover_done|done].
  - apply (IH n pre s rest mtu (f + 1) true); lia.
Qed.

Lemma best_above mtu sizes : Forall (fun s => M < s) sizes -> best M mtu sizes = mtu.
Proof.
  unfold best. induction sizes as [|s sizes IH]; intros Hs; [done|]. inversion_clear Hs. cbn.
  rewrite (proj2 (Z.leb_gt _ _)) by done. by apply IH.
Qed.

Lemma discover_ok rest : forall n pre mtu g, StronglySorted Z.le rest -> mtu <= M ->
  (Z.to_nat F * length rest + 1 <= n)%nat -> exists p, discover n M (st pre rest mtu 0 g) = Some p /\ finished p (best M mtu rest).
Proof.
  induction rest as [|s rest IH]; intros n pre mtu g Hsort Hmtu Hn.
  { destruct n as [|n]; [cbn in Hn; lia|]. cbn [discover]. cbn [st discovery_complete]. unfold probe_round.
    change (MkProbe mtu (zlen pre) g 0 F (pre ++ []) false) with (st pre [] mtu 0 g). rewrite next_at_end. cbn -[discover].
    eexists. split; [by eapply discover_done|done]. }
  inversion_clear Hsort as [|? ? Hsort' Hle]. cbn [length] in Hn. destruct n as [|n]; [lia|].
  destruct (Z.leb_spec s mtu) as [Hs|Hs].
  - destruct (IH (S n) (pre ++ [s]) mtu g Hsort' Hmtu ltac:(lia)) as (p & Hd & Hfin). exists p. split.
    + rewrite <-Hd. cbn [discover]. cbn [st discovery_complete]. unfold probe_round.
      change (MkProbe mtu (zlen pre) g 0 F (pre ++ s :: rest) false) with (st pre (s :: rest) mtu 0 g).
      rewrite next_small by done. done.
    + unfold best in *. cbn. rewrite (proj2 (Z.leb_le s M)), Z.max_l by lia. done.
  - destruct (Z.leb_spec s M) as [HsM|HsM].
    + cbn [discover]. cbn [st discovery_complete]. unfold probe_round.
      change (MkProbe mtu (zlen pre) g 0 F (pre ++ s :: rest) false) with (st pre (s :: rest) mtu 0 g).
      rewrite next_large, (proj2 (Z.leb_le s M)), acked by lia. cbn [mbind option_bind]. cbv zeta.
      unfold best. cbn [fold_left]. rewrite (proj2 (Z.leb_le s M)), Z.max_r by lia. fold (best M s rest).
      case_bool_decide as Hr; [subst; eexists; split; [by eapply discover_done|done]|].
      apply IH; [done|lia|lia].
    + destruct (discover_lost (Z.to_nat F) (S n) pre s rest mtu 0 g) as (p & Hd & Hfin); [lia..|].
      exists p. split; [done|]. rewrite best_above; [done|]. constructor; [done|].
      apply list.Forall_forall. intros x Hx%list_elem_of_In. rewrite List.Forall_forall in Hle. specialize (Hle x Hx). lia.
Qed.

End Discovery.

(** C27: path MTU discovery ends and finds the path's MTU. On a path that
    carries datagrams of up to [path_mtu] bytes, at least the QUIC minimum,
    with ascending probe sizes, at most [max_failures] rounds per size complete
    the discovery, no counter overflows, and the effective MTU is the largest
    probe size that the path carries, or the minimum of 1200 bytes. *)
Theorem pmtu_discovery_exact (max_failures path_mtu : Z) (sizes : list Z)
    (Hf : 1 <= max_failures <= 255) (Hpath : QUIC_MIN_MTU <= path_mtu) (Hsort : StronglySorted Z.le sizes) :
  wp (discover (Z.to_nat max_failures * length sizes + 1) path_mtu (new_probe max_failures sizes)) (fun p =>
    discovery_complete p = true /\ effective_mtu p = best path_mtu QUIC_MIN_MTU sizes).
Proof.
  destruct (discover_ok max_failures path_mtu Hf sizes (Z.to_nat max_failures * length sizes + 1) [] QUIC_MIN_MTU false Hsort Hpath ltac:(lia))
    as (p & Hd & Hfin).
  change (new_probe max_failures sizes) with (st max_failures [] sizes QUIC_MIN_MTU 0 false). rewrite Hd. exact Hfin.
Qed.

Lemma pmtu_discovery_exact_witness :
  wp (discover 19 1500 (new_probe 3 DEFAULT_PROBE_SIZES)) (fun p => discovery_complete p = true /\ effective_mtu p = 1500).
Proof.
  apply (pmtu_discovery_exact 3 1500 DEFAULT_PROBE_SIZES); [lia|vm_compute; congruence|].
  repeat (constructor; [|repeat (constructor; [lia|]); constructor]). constructor.
Defined.

End PmtuProps.

Module PeerAddressProps.
Import PeerAddress.

(** What happens on an address: a datagram arrives; one is sent if the limit
    admits it; a Retry is issued; the address is validated; the connection
    starts closing. *)
Inductive Event : Type := ev_received (n : Z) | ev_send (n : Z) | ev_retry (n : Z) | ev_validate | ev_close.

Definition event_ok (e : Event) : Prop := match e with ev_received n | ev_send n | ev_retry n => 0 <= n | _ => True end.

(** The state, the bytes recorded as received, all bytes sent, and how many of
    them were a Retry. *)
Record Totals : Type := MkTotals { peer : Peer; received : Z; sent : Z; retried : Z }.

Definition peer_event (t : Totals) (e : Event) : Totals :=
  match e with
  | ev_received n =>
      match recordPeerAddressBytesReceived (peer t) n with
      | inl _ => t
      | inr p => MkTotals p (received t + n) (sent t) (retried t)
      end
  | ev_send n =>
      if canSendToPeerAddress (peer t) n
      then MkTotals (recordPeerAddressBytesSent (peer t) n) (received t) (sent t + n) (retried t) else t
  | ev_retry n =>
      match recordRetryDatagramSent (peer t) n with
      | inl _ => t
      | inr p => MkTotals p (received t) (sent t + n) (retried t + n)
      end
  | ev_validate =>
      match validatePeerAddress (peer t) with inl _ => t | inr p => MkTotals p (received t) (sent t) (retried t) end
  | ev_close => MkTotals ((peer t) <| closing_or_closed := true |>) (received t) (sent t) (retried t)
  end.

Definition run_peer (s : Side) (es : list Event) : Totals := foldl peer_event (MkTotals (init s) 0 0 0) es.

Record peer_inv (t : Totals) : Prop := {
  pi_nonneg : 0 <= received t /\ 0 <= sent t /\ 0 <= retried t;
  pi_retry : retry_issued (peer t) = false -> retried t = 0;
  pi_limited : isAntiAmplificationLimited (peer t) = true ->
    peer_address_bytes_received (peer t) = Z.min (received t) U64_MAX /\
    peer_address_bytes_sent (peer t) = Z.min (sent t) U64_MAX /\
    sent t <= Z.min (3 * Z.min (received t) U64_MAX) U64_MAX + retried t;
}.

Lemma add_sat_min a b : add_sat a b = Z.min (a + b) U64_MAX.
Proof. unfold add_sat. destruct (Z.leb_spec (a + b) U64_MAX); lia. Qed.

(** The budget left: nothing once the total is at the limit. *)
Lemma remaining_ok t : peer_inv t -> isAntiAmplificationLimited (peer t) = true ->
  antiAmplificationLimitRemaining (peer t) =
    Some (Z.max 0 (Z.min (3 * Z.min (received t) U64_MAX) U64_MAX - Z.min (sent t) U64_MAX)).
Proof.
  intros [? _ Hl] Hlim. destruct (Hl Hlim) as (Hr & Hs & Hb). unfold antiAmplificationLimitRemaining. rewrite Hlim, Hr, Hs. cbn [negb].
  unfold mul_sat, anti_amplification_multiplier. cbv zeta. rewrite Z.geb_leb. set (r := Z.min (received t) U64_MAX) in *.
  destruct (Z.leb_spec (r * 3) U64_MAX);
    match goal with |- context [?limit <=? Z.min (sent t) U64_MAX] => destruct (Z.leb_spec limit (Z.min (sent t) U64_MAX)) end; f_equal; lia.
Qed.

Lemma limited_after p (f : bool) : isAntiAmplificationLimited (p <| retry_issued := f |>) = isAntiAmplificationLimited p.
Proof. done. Qed.

Lemma peer_event_inv t e : peer_inv t -> event_ok e -> peer_inv (peer_event t e).
Proof.
  intros Hp He. pose proof Hp as [(Hr0 & Hs0 & Ht0) Hretry Hl]. pose proof (remaining_ok t Hp) as Hrem. destruct t as [p rcv snt rtr].
  cbn [peer received sent retried] in *. destruct e as [n|n|n| |]; cbn [peer_event event_ok peer received sent retried] in *.
  - unfold recordPeerAddressBytesReceived. destruct (closing_or_closed p); [done|].
    destruct (isAntiAmplificationLimited p) eqn:Hlim; cbn [negb]; (split; cbn [peer received sent retried]; [lia|done|]); [|by rewrite Hlim].
    destruct (Hl eq_refl) as (Hr & Hs & Hb). intros _. cbn. rewrite add_sat_min, Hr. split; [lia|]. split; [done|lia].
  - unfold canSendToPeerAddress, recordPeerAddressBytesSent. destruct (isAntiAmplificationLimited p) eqn:Hlim; cbn [negb].
    + rewrite Hrem by done. destruct (Z.leb_spec n (Z.max 0 (Z.min (3 * Z.min rcv U64_MAX) U64_MAX - Z.min snt U64_MAX))); [|done].
      destruct (Hl eq_refl) as (Hr & Hs & Hb). split; cbn [peer received sent retried]; [lia|done|]. intros _. cbn.
      rewrite add_sat_min, Hs. split; [done|]. split; [lia|].
      destruct (Z.le_gt_cases (Z.min (3 * Z.min rcv U64_MAX) U64_MAX) (Z.min snt U64_MAX)); [assert (n = 0) as -> by lia; lia|lia].
    + unfold antiAmplificationLimitRemaining. rewrite Hlim. cbn [negb]. split; cbn [peer received sent retried]; [lia|done|by rewrite Hlim].
  - unfold recordRetryDatagramSent, recordPeerAddressBytesSent. destruct (closing_or_closed p); [done|]. destruct (side p); [done|].
    destruct (retry_issued p) eqn:Hi; [done|]. rewrite limited_after.
    destruct (isAntiAmplificationLimited p) eqn:Hlim; cbn [negb]; (split; cbn [peer received sent retried]; [lia|done|]).
    + destruct (Hl eq_refl) as (Hr & Hs & Hb). intros _. cbn. rewrite add_sat_min, Hs. split; [done|]. split; lia.
    + by rewrite limited_after, Hlim.
  - unfold validatePeerAddress. destruct (closing_or_closed p); [done|]. split; cbn [peer received sent retried]; [done|done|].
    unfold isAntiAmplificationLimited. cbn. by destruct (side p).
  - by split.
Qed.

Lemma run_peer_inv s es : Forall event_ok es -> peer_inv (run_peer s es).
Proof.
  unfold run_peer. assert (H0 : peer_inv (MkTotals (init s) 0 0 0)) by (split; cbn; unfold U64_MAX; done || lia).
  revert H0. generalize (MkTotals (init s) 0 0 0). induction es as [|e es IH]; intros t Ht Hes; [done|].
  inversion_clear Hes. cbn [foldl]. apply IH; [by apply peer_event_inv|done].
Qed.

Lemma peer_event_side t e : side (peer (peer_event t e)) = side (peer t).
Proof.
  destruct e; cbn [peer_event]; unfold recordPeerAddressBytesReceived, recordRetryDatagramSent, recordPeerAddressBytesSent, validatePeerAddress;
    repeat case_match; simplify_eq; done.
Qed.

Lemma run_peer_side s es : side (peer (run_peer s es)) = s.
Proof.
  unfold run_peer. assert (H0 : side (peer (MkTotals (init s) 0 0 0)) = s) by done. revert H0.
  generalize (MkTotals (init s) 0 0 0). induction es as [|e es IH]; intros t Ht; [done|]. cbn [foldl]. apply IH. by rewrite peer_event_side.
Qed.

(** The Retry bytes are those of one event. *)
Lemma peer_event_retried t e : (retry_issued (peer t) = false -> retried t = 0) ->
  (retry_issued (peer (peer_event t e)) = false -> retried (peer_event t e) = 0) /\
  (retried (peer_event t e) = retried t \/ e = ev_retry (retried (peer_event t e))).
Proof.
  destruct t as [p rcv snt rtr]. cbn [peer retried]. intros Ht. destruct e as [n|n|n| |]; cbn [peer_event peer received sent retried];
    unfold recordPeerAddressBytesReceived, recordRetryDatagramSent, recordPeerAddressBytesSent, validatePeerAddress;
    repeat case_match; simplify_eq; cbn [peer retried set_field]; auto.
  all: first [rewrite Ht by done; by split; [|right] | by split; [congruence|left]].
Qed.

Lemma run_peer_retried s es : retried (run_peer s es) = 0 \/ ev_retry (retried (run_peer s es)) ∈ es.
Proof.
  unfold run_peer. assert (H0 : retry_issued (peer (MkTotals (init s) 0 0 0)) = false -> retried (MkTotals (init s) 0 0 0) = 0) by done.
  enough (retried (foldl peer_event (MkTotals (init s) 0 0 0) es) = retried (MkTotals (init s) 0 0 0) \/
    ev_retry (retried (foldl peer_event (MkTotals (init s) 0 0 0) es)) ∈ es) by done.
  revert H0. generalize (MkTotals (init s) 0 0 0). induction es as [|e es IH]; intros t Ht; [by left|]. cbn [foldl].
  destruct (peer_event_retried t e Ht) as [Ht' Hor]. rewrite elem_of_cons. destruct (IH _ Ht') as [E|E]; [|by right; right].
  rewrite E. destruct Hor as [->|Hor]; [by left|right; left; by rewrite <- Hor].
Qed.

(** C21: a server's amplification, exactly. Whatever datagrams arrive, are
    sent, whenever a Retry is issued and the connection closes: as long as the
    client's address is not validated, a server has sent at most three times
    the bytes it recorded as received plus the bytes of at most one Retry
    datagram, which [issueRetryDatagram] sends without asking; so it never
    amplifies unless it issues a Retry. The limit is not stricter than that: a
    datagram is admitted exactly when the total, the Retry included, stays
    within three times the bytes received. Saturation of the counters is on the
    safe side. A client is never limited. *)
Theorem anti_amplification_exact (es : list Event) (Hes : Forall event_ok es) :
  (let t := run_peer server es in
   peer_address_validated (peer t) = false ->
   sent t <= 3 * received t + retried t /\ (retried t = 0 \/ ev_retry (retried t) ∈ es) /\
   (3 * received t <= U64_MAX -> forall n, 0 < n -> canSendToPeerAddress (peer t) n = true <-> sent t + n <= 3 * received t)) /\
  (forall n, canSendToPeerAddress (peer (run_peer client es)) n = true).
Proof.
  split.
  - cbv zeta. pose proof (run_peer_inv server es Hes) as Hinv. pose proof (run_peer_side server es) as Hside.
    pose proof (run_peer_retried server es) as Hone. set (t := run_peer server es) in *.
    intros Hv. assert (Hlim : isAntiAmplificationLimited (peer t) = true) by (unfold isAntiAmplificationLimited; by rewrite Hside, Hv).
    destruct (pi_limited _ Hinv Hlim) as (_ & _ & Hb). destruct (pi_nonneg _ Hinv) as (? & ? & ?). split; [lia|]. split; [done|]. intros Hsmall n Hn.
    unfold canSendToPeerAddress. rewrite (remaining_ok t Hinv Hlim), Z.leb_le. lia.
  - intros n. unfold canSendToPeerAddress, antiAmplificationLimitRemaining, isAntiAmplificationLimited. by rewrite run_peer_side.
Qed.

Lemma anti_amplification_exact_witness :
  let t := run_peer server [ev_retry 60; ev_received 1200; ev_send 1200; ev_send 2000; ev_send 1000; ev_send 340] in
  received t = 1200 /\ sent t = 3600 /\ retried t = 60 /\
  forall n, 0 < n -> canSendToPeerAddress (peer t) n = true <-> sent t + n <= 3 * received t.
Proof.
  cbv zeta. pose proof (anti_amplification_exact [ev_retry 60; ev_received 1200; ev_send 1200; ev_send 2000; ev_send 1000; ev_send 340]) as [H _].
  { repeat (constructor; [cbn; lia|]). constructor. }
  split_and!; [reflexivity..|]. apply H; [reflexivity|vm_compute; congruence].
Defined.

(** A Retry before any byte was recorded: 60 bytes sent for none received. *)
Lemma retry_exceeds_limit :
  let t := run_peer server [ev_retry 60] in peer_address_validated (peer t) = false /\ sent t = 60 /\ received t = 0.
Proof. by vm_compute. Qed.

End PeerAddressProps.

Module MigrationProps.
Import Migration.

(** The calls on a manager; a datagram is sent only if [canSend]. *)
Inductive Move : Type :=
  | mv_receive (mem : Z -> list byte) (addr n : Z)
  | mv_send (n : Z)
  | mv_start
  | mv_response
  | mv_timeout.

Definition move (m : MigrationManager) (v : Move) : option MigrationManager :=
  match v with
  | mv_receive mem addr n => '(_, m) ← onDatagramReceived mem m addr n; Some m
  | mv_send n => ok ← canSend m; if ok : bool then onDatagramSent m n else Some m
  | mv_start => Some (startValidation m)
  | mv_response => Some (onPathResponse m)
  | mv_timeout => onChallengeTimeout m
  end.

Fixpoint moves (m : MigrationManager) (vs : list Move) : option MigrationManager :=
  match vs with [] => Some m | v :: vs => m ← move m v; moves m vs end.

(** Datagrams are not empty and at most [mtu] long. *)
Definition move_ok (mtu : Z) (v : Move) : Prop := match v with mv_receive _ _ n | mv_send n => 0 < n <= mtu | _ => True end.

(** What a sequence adds to the counters at most. *)
Definition bytes_of (v : Move) : Z := match v with mv_receive _ _ n | mv_send n => n | _ => 0 end.
Definition timeouts_of (v : Move) : Z := match v with mv_timeout => 1 | _ => 0 end.
Fixpoint volume (vs : list Move) : Z := match vs with [] => 0 | v :: vs => bytes_of v + volume vs end.
Fixpoint timeouts (vs : list Move) : Z := match vs with [] => 0 | v :: vs => timeouts_of v + timeouts vs end.

(** The counters leave room for the sequence; once a datagram has arrived, a path under validation is limited. *)
Record manager_inv (mtu : Z) (m : MigrationManager) (vs : list Move) : Prop := {
  mi_factor : limit_factor (anti_amplification m) = 3;
  mi_received : 0 < bytes_received (anti_amplification m);
  mi_received_room : 3 * (bytes_received (anti_amplification m) + volume vs) <= U64_MAX;
  mi_sent : 0 <= bytes_sent (anti_amplification m) /\ bytes_sent (anti_amplification m) + volume vs <= U64_MAX;
  mi_count : 0 <= rebinding_count (nat_detector m) /\ rebinding_count (nat_detector m) + zlen vs <= U64_MAX;
  mi_retries : 0 <= challenge_retries m /\ challenge_retries m + timeouts vs <= 255;
  mi_limit : validation_state m = challenge_sent ->
    bytes_sent (anti_amplification m) < 3 * bytes_received (anti_amplification m) + mtu;
}.

Lemma addu_ok a b : 0 <= a + b <= U64_MAX -> addu a b = Some (a + b).
Proof. intros. unfold addu, intCast. by rewrite !(proj2 (Z.leb_le _ _)) by lia. Qed.

Lemma volume_nonneg mtu vs : Forall (move_ok mtu) vs -> 0 <= volume vs.
Proof. induction 1 as [|v vs Hv _ IH]; cbn; [lia|]. destruct v; cbn in *; lia. Qed.

Lemma timeouts_nonneg vs : 0 <= timeouts vs.
Proof. induction vs as [|v vs IH]; cbn; [lia|]. destruct v; cbn; lia. Qed.

(** [canSend] on a path under validation. *)
Lemma canSend_challenge m mtu v vs : manager_inv mtu m (v :: vs) -> 0 <= bytes_of v -> 0 <= volume vs -> validation_state m = challenge_sent ->
  canSend m = Some (bytes_sent (anti_amplification m) <? 3 * bytes_received (anti_amplification m)).
Proof.
  intros [Hf Hr Hroom Hs _ _ _] Hv Hvs Hst. unfold canSend. rewrite Hst. unfold isLimited, sendBudget, mulu. rewrite Hf.
  destruct (Z.eqb_spec (bytes_received (anti_amplification m)) 0); [lia|]. cbn [volume] in *.
  unfold intCast. rewrite !(proj2 (Z.leb_le _ _)) by lia. cbn [andb mbind option_bind]. f_equal. rewrite Z.geb_leb.
  destruct (Z.leb_spec (bytes_received (anti_amplification m) * 3) (bytes_sent (anti_amplification m))); cbn.
  - symmetry. apply Z.ltb_ge. lia.
  - rewrite (proj2 (Z.eqb_neq _ _)) by lia. symmetry. apply Z.ltb_lt. lia.
Qed.

Lemma onSent_ok m n : 0 <= bytes_sent (anti_amplification m) + n <= U64_MAX ->
  onDatagramSent m n = Some (m <| anti_amplification := (anti_amplification m) <| bytes_sent := bytes_sent (anti_amplification m) + n |> |>).
Proof. intros. unfold onDatagramSent, onSent. by rewrite addu_ok. Qed.

Lemma move_step mtu m v vs : manager_inv mtu m (v :: vs) -> move_ok mtu v -> 0 < mtu -> 0 <= volume vs ->
  exists m', move m v = Some m' /\ manager_inv mtu m' vs.
Proof.
  intros Hinv Hv Hmtu Hvol. pose proof (timeouts_nonneg vs) as Hto. pose proof (zlen_nonneg vs).
  pose proof Hinv as [Hf Hr Hroom Hs Hc Hre Hl]. cbn [volume timeouts] in *. rewrite zlen_cons in Hc.
  destruct v as [mem addr n|n| | |]; cbn [move bytes_of timeouts_of move_ok] in *.
  - unfold onDatagramReceived, checkPeerAddress. destruct (last_peer_addr (nat_detector m)) as [last|].
    + case_bool_decide; cbn.
      * unfold onReceived. rewrite addu_ok by lia. cbn. eexists. split; [done|]. split; cbn; try done; try lia. intros Hst%Hl. lia.
      * rewrite addu_ok by lia. cbn. unfold onReceived. cbn. rewrite addu_ok by lia. cbn. eexists. split; [done|].
        split; cbn; try done; lia.
    + cbn. unfold onReceived. rewrite addu_ok by lia. cbn. eexists. split; [done|]. split; cbn; try done; try lia. intros Hst%Hl. lia.
  - assert (Hsent : (validation_state m = challenge_sent -> bytes_sent (anti_amplification m) < 3 * bytes_received (anti_amplification m)) ->
      exists m', onDatagramSent m n = Some m' /\ manager_inv mtu m' vs).
    { intros Hlt. rewrite onSent_ok by lia. eexists. split; [done|]. split; cbn; try done; try lia. intros Hst%Hlt. lia. }
    destruct (validation_state m) eqn:Hst.
    + unfold canSend. rewrite Hst. by apply Hsent.
    + rewrite (canSend_challenge m mtu (mv_send n) vs Hinv) by (cbn; lia || done). cbn [mbind option_bind].
      destruct (Z.ltb_spec (bytes_sent (anti_amplification m)) (3 * bytes_received (anti_amplification m))); [by apply Hsent|].
      eexists. split; [done|]. split; try done; try lia. by rewrite Hst.
    + unfold canSend. rewrite Hst. by apply Hsent.
    + unfold canSend. rewrite Hst. eexists. split; [done|]. split; try done; try lia. by rewrite Hst.
  - eexists. split; [done|]. split; cbn; try done; lia.
  - eexists. split; [done|]. unfold onPathResponse. destruct (validation_state m) eqn:Hst; split; cbn; try done; try lia; by rewrite Hst.
  - unfold onChallengeTimeout, intCast. rewrite !(proj2 (Z.leb_le _ _)) by lia. cbn [andb mbind option_bind]. eexists. split; [done|].
    cbv zeta. match goal with |- context [if ?b then _ else _] => destruct b end; split; cbn; try done; lia.
Qed.

Lemma moves_inv mtu vs : forall m, manager_inv mtu m vs -> Forall (move_ok mtu) vs -> 0 < mtu ->
  exists m', moves m vs = Some m' /\ manager_inv mtu m' [].
Proof.
  induction vs as [|v vs IH]; intros m Hinv Hok Hmtu; cbn [moves]; [eauto|]. inversion_clear Hok as [|? ? Hv Hok'].
  destruct (move_step mtu m v vs Hinv Hv Hmtu (volume_nonneg mtu vs Hok')) as (m1 & -> & Hinv1). by apply IH.
Qed.

(** the migration manager limits amplification only up to a datagram, and
    per validation. From the first datagram received on, in any sequence of
    datagrams, validations, responses and at most 255 timeouts that does not
    exhaust the counters, no counter overflows, and on a path under validation
    fewer bytes than three times those received and one datagram are sent since
    the validation was started. Three times is not the limit: [canSend] does
    not look at the size of the datagram, and starting a validation forgets
    what was sent. *)
Theorem migration_amplification_slack :
  (forall mtu mem addr n vs, 0 < mtu -> 0 < n <= mtu -> Forall (move_ok mtu) vs ->
    3 * (n + volume vs) <= U64_MAX -> timeouts vs <= 255 -> zlen vs < U64_MAX ->
    wp (moves new_manager (mv_receive mem addr n :: vs)) (fun m => validation_state m = challenge_sent ->
      bytes_sent (anti_amplification m) < 3 * bytes_received (anti_amplification m) + mtu)) /\
  (exists mem, wp (moves new_manager [mv_receive mem 0 1200; mv_start; mv_send 1100; mv_send 1100; mv_send 1100; mv_send 1100])
    (fun m => bytes_received (anti_amplification m) = 1200 /\ bytes_sent (anti_amplification m) = 4400)) /\
  (exists mem, wp (moves new_manager [mv_receive mem 0 1200; mv_start; mv_send 1200; mv_send 1200; mv_send 1200])
    (fun m => canSend m = Some false /\ canSend (startValidation m) = Some true)).
Proof.
  split; [|split; exists (fun _ => []); vm_compute; done].
  intros mtu mem addr n vs Hmtu Hn Hok Hvol Hto Hlen. pose proof (volume_nonneg mtu vs Hok). cbn [moves].
  assert (E : move new_manager (mv_receive mem addr n) = Some (MkManager (MkAmp n 0 3) (MkNat (Some addr) 0) idle 0 3)).
  { cbn. unfold onReceived, addu. cbn. unfold intCast. rewrite !(proj2 (Z.leb_le _ _)) by (unfold U64_MAX in *; lia). done. }
  rewrite E. cbn [mbind option_bind].
  destruct (moves_inv mtu vs (MkManager (MkAmp n 0 3) (MkNat (Some addr) 0) idle 0 3)) as (m & -> & Hinv); [|done|done|exact (mi_limit _ _ _ Hinv)].
  split; cbn; try done; unfold U64_MAX in *; lia.
Qed.

(** The detector keeps the caller's slice: an address read into the same buffer
    is compared with itself. *)
Lemma reused_buffer_hides_rebinding mem d addr : last_peer_addr d = Some addr -> checkPeerAddress mem d addr = Some (false, d).
Proof. intros H. unfold checkPeerAddress. rewrite H. by rewrite bool_decide_eq_true_2. Qed.

(** A timeout that fires after the response fails a validated path. *)
Lemma late_timeout_fails_path :
  wp (moves new_manager [mv_start; mv_timeout; mv_timeout; mv_response; mv_timeout]) (fun m => validation_state m = failed /\ canSend m = Some false).
Proof. vm_compute. done. Qed.

End MigrationProps.
