(* ===== verification/WireLen.v ===== *)
(** * Wire lengths (src/quic/wire_len.zig)

    The lengths the packetizer computes before it encodes: of frames, of
    protected datagrams, the padding up to a minimum datagram, and the largest
    chunk of data that fits a datagram. *)
From S2P Require Import Prelude Codec Packet Headers Frame.
Import Codec Packet Headers Frame.
Local Open Scope Z_scope.

Module WireLen.

Definition max_connection_id_len : Z := 20.

(** [protection.aead_tag_len]: the tag of AES-128-GCM. *)
Definition aead_tag_len : Z := 16.

(** [quicVarIntWireLen] as an error union. *)
Definition varIntWireLen (value : Z) : Err + Z :=
  match quicVarIntWireLen value with Some n => inr n | None => inl InvalidPacket end.

Definition quicFrameVarIntWireLen (value : Z) : Err + Z :=
  if value >? max_quic_varint then inl InvalidPacket else varIntWireLen value.

(** [std.math.add(usize, a, b) catch return e]. *)
Definition add_or (e : Err) (a b : Z) : Err + Z := match add64 a b with Some c => inr c | None => inl e end.

Definition addWireLen (current extra : Z) : Err + Z := add_or Internal current extra.
Definition addDatagramWireLen (current extra : Z) : Err + Z := add_or BufferTooSmall current extra.

(** ** Datagrams *)

Definition protectedLongDatagramWireLen (header : LongHeader) (packet_number_len plaintext_len : Z) : Err + Z :=
  _ ← fail_if ((packet_number_len =? 0) || (packet_number_len >? 4)) InvalidPacket;
  _ ← fail_if ((zlen (dcid header) >? max_connection_id_len) || (zlen (scid header) >? max_connection_id_len)) InvalidPacket;
  _ ← fail_if (version header =? 0) InvalidPacket;
  _ ← fail_if (bool_decide (packet_type header = retry)) InvalidPacket;
  _ ← fail_if (bool_decide (packet_type header ≠ initial) && negb (zlen (token header) =? 0)) InvalidPacket;
  protected_payload_len ← add_or BufferTooSmall plaintext_len aead_tag_len;
  wire_length ← add_or BufferTooSmall protected_payload_len packet_number_len;
  _ ← fail_if (wire_length >? max_quic_varint) BufferTooSmall;
  let header_len := 1 + 4 + 1 + zlen (dcid header) + 1 + zlen (scid header) in
  header_len ← (if bool_decide (packet_type header = initial) then
      _ ← fail_if (zlen (token header) >? max_quic_varint) InvalidPacket;
      n ← varIntWireLen (zlen (token header));
      header_len ← addDatagramWireLen header_len n;
      addDatagramWireLen header_len (zlen (token header))
    else inr header_len);
  n ← varIntWireLen wire_length;
  header_len ← addDatagramWireLen header_len n;
  header_len ← addDatagramWireLen header_len packet_number_len;
  addDatagramWireLen header_len protected_payload_len.

(** The loop that pads up to [min_datagram_len]; [None]: out of fuel. *)
Fixpoint pad_loop (fuel : nat) (wire_len : Z -> Err + Z) (min_datagram_len expanded_len : Z) : option (Err + Z) :=
  match wire_len expanded_len with
  | inl e => Some (inl e)
  | inr current_len =>
      if negb (current_len <? min_datagram_len) then Some (inr expanded_len) else
      match fuel with
      | 0%nat => None
      | S fuel =>
          match addDatagramWireLen expanded_len (min_datagram_len - current_len) with
          | inl e => Some (inl e)
          | inr expanded_len => pad_loop fuel wire_len min_datagram_len expanded_len
          end
      end
  end.

(** One round is enough ([pad_loop_eq]). *)
Definition protectedLongPlaintextLenForMinDatagram (header : LongHeader) (packet_number_len plaintext_len min_datagram_len : Z)
    : option (Err + Z) :=
  if min_datagram_len =? 0 then Some (inr plaintext_len) else
  pad_loop 1 (protectedLongDatagramWireLen header packet_number_len) min_datagram_len plaintext_len.

Definition protectedShortDatagramWireLen (dcid_len packet_number_len plaintext_len : Z) : Err + Z :=
  _ ← fail_if ((packet_number_len =? 0) || (packet_number_len >? 4)) InvalidPacket;
  _ ← fail_if (dcid_len >? max_connection_id_len) InvalidPacket;
  protected_payload_len ← add_or BufferTooSmall plaintext_len aead_tag_len;
  len ← addDatagramWireLen 1 dcid_len;
  len ← addDatagramWireLen len packet_number_len;
  addDatagramWireLen len protected_payload_len.

Definition protectedShortPlaintextLenForMinDatagram (dcid_len packet_number_len plaintext_len min_datagram_len : Z)
    : option (Err + Z) :=
  if min_datagram_len =? 0 then Some (inr plaintext_len) else
  pad_loop 1 (protectedShortDatagramWireLen dcid_len packet_number_len) min_datagram_len plaintext_len.

(** ** Frames *)

Definition validateFrameDataRange (offset data_len : Z) : Err + unit :=
  _ ← fail_if (offset >? max_quic_varint) InvalidPacket;
  _ ← fail_if (data_len >? max_quic_varint) InvalidPacket;
  end_offset ← add_or InvalidPacket offset data_len;
  fail_if (end_offset >? max_quic_varint) InvalidPacket.

Definition streamFrameWireLen (stream_id offset data_len : Z) : Err + Z :=
  _ ← fail_if (stream_id >? max_quic_varint) InvalidPacket;
  _ ← validateFrameDataRange offset data_len;
  n ← varIntWireLen stream_id;
  len ← addWireLen 1 n;
  len ← (if negb (offset =? 0) then n ← varIntWireLen offset; addWireLen len n else inr len);
  n ← varIntWireLen data_len;
  len ← addWireLen len n;
  addWireLen len data_len.

Definition cryptoFrameWireLen (offset data_len : Z) : Err + Z :=
  _ ← validateFrameDataRange offset data_len;
  n ← varIntWireLen offset;
  len ← addWireLen 1 n;
  n ← varIntWireLen data_len;
  len ← addWireLen len n;
  addWireLen len data_len.

(** The binary search of [maxStreamFrameDataLen] and [maxCryptoFrameDataLen];
    [None]: out of fuel. *)
Fixpoint search_loop (fuel : nat) (wire_len : Z -> Err + Z) (max_datagram_size low high best : Z) : option (Err + Z) :=
  if negb (low <=? high) then Some (inr best) else
  match fuel with
  | 0%nat => None
  | S fuel =>
      let mid := low + (high - low) / 2 in
      match wire_len mid with
      | inl e => Some (inl e)
      | inr encoded_len =>
          if encoded_len <=? max_datagram_size then
            if mid =? U64_MAX then Some (inr mid) else
            search_loop fuel wire_len max_datagram_size (mid + 1) high mid
          else
            if mid =? 0 then Some (inr best) else
            search_loop fuel wire_len max_datagram_size low (mid - 1) best
      end
  end.

(** The body the two functions share; an interval of [usize] values is halved
    at most 64 times ([search_eq]). *)
Definition max_data_len (wire_len : Z -> Err + Z) (offset remaining max_datagram_size : Z) : option (Err + Z) :=
  match wire_len 0 with
  | inl e => Some (inl e)
  | inr n =>
      if n >? max_datagram_size then Some (inl BufferTooSmall) else
      if remaining =? 0 then Some (inr 0) else
      let end_offset_budget := max_quic_varint - offset in
      let high := Z.min (Z.min remaining max_datagram_size) end_offset_budget in
      match search_loop 64 wire_len max_datagram_size 1 high 0 with
      | None => None
      | Some (inl e) => Some (inl e)
      | Some (inr best) => Some (if best =? 0 then inl BufferTooSmall else inr best)
      end
  end.

Definition maxStreamFrameDataLen (stream_id offset remaining max_datagram_size : Z) : option (Err + Z) :=
  max_data_len (streamFrameWireLen stream_id offset) offset remaining max_datagram_size.

Definition maxCryptoFrameDataLen (offset remaining max_datagram_size : Z) : option (Err + Z) :=
  max_data_len (cryptoFrameWireLen offset) offset remaining max_datagram_size.

(** The sum is not checked: past [usize] it is illegal. *)
Definition datagramFrameWireLen (data_len : Z) : option (Err + Z) :=
  match varIntWireLen data_len with
  | inl e => Some (inl e)
  | inr len_field => s ← add64 1 len_field; n ← add64 s data_len; Some (inr n)
  end.

Fixpoint validate_wire_ranges (smallest : Z) (rs : list AckRange) : Err + unit :=
  match rs with
  | [] => inr tt
  | range :: rs =>
      skipped ← add_or InvalidPacket (gap range) 2;
      if smallest <? skipped then inl InvalidPacket else
      let range_largest := smallest - skipped in
      if ack_range range >? range_largest then inl InvalidPacket else
      validate_wire_ranges (range_largest - ack_range range) rs
  end.

Definition validateAckFrameWireRange (a : AckFrame) : Err + unit :=
  _ ← fail_if (first_ack_range a >? largest_acknowledged a) InvalidPacket;
  validate_wire_ranges (largest_acknowledged a - first_ack_range a) (ranges a).

Definition add_varint (len value : Z) : Err + Z := n ← quicFrameVarIntWireLen value; addWireLen len n.

Fixpoint add_ranges (len : Z) (rs : list AckRange) : Err + Z :=
  match rs with
  | [] => inr len
  | range :: rs => len ← add_varint len (gap range); len ← add_varint len (ack_range range); add_ranges len rs
  end.

Definition ackFrameWireLen (a : AckFrame) : Err + Z :=
  _ ← validateAckFrameWireRange a;
  len ← add_varint 1 (largest_acknowledged a);
  len ← add_varint len (ack_delay a);
  len ← add_varint len (zlen (ranges a));
  len ← add_varint len (first_ack_range a);
  add_ranges len (ranges a).

Definition pathResponseFrameWireLen : Z := 9.
Definition pathChallengeFrameWireLen : Z := 9.
Definition pingFrameWireLen : Z := 1.

Definition resetStreamFrameWireLen (f : ResetStreamFrame) : Err + Z :=
  _ ← fail_if ((rs_stream_id f >? max_quic_varint) || (rs_application_error_code f >? max_quic_varint) ||
               (final_size f >? max_quic_varint)) InvalidPacket;
  n ← varIntWireLen (rs_stream_id f);
  len ← addWireLen 1 n;
  n ← varIntWireLen (rs_application_error_code f);
  len ← addWireLen len n;
  n ← varIntWireLen (final_size f);
  addWireLen len n.

Definition stopSendingFrameWireLen (f : StopSendingFrame) : Err + Z :=
  _ ← fail_if ((ss_stream_id f >? max_quic_varint) || (ss_application_error_code f >? max_quic_varint)) InvalidPacket;
  n ← varIntWireLen (ss_stream_id f);
  len ← addWireLen 1 n;
  n ← varIntWireLen (ss_application_error_code f);
  addWireLen len n.

Definition retireConnectionIdFrameWireLen (sequence_number : Z) : Err + Z := add_varint 1 sequence_number.

Record LocalConnectionId : Type := MkLocalCid {
  lc_sequence_number : Z;
  lc_retire_prior_to : Z;
  lc_connection_id : list byte;
  lc_stateless_reset_token : list byte;   (* [16]u8 *)
  sent : bool;
  retired : bool;
}.

Definition newConnectionIdFrameWireLen (local_id : LocalConnectionId) : Err + Z :=
  _ ← fail_if ((zlen (lc_connection_id local_id) =? 0) || (zlen (lc_connection_id local_id) >? max_connection_id_len)) InvalidPacket;
  _ ← fail_if ((lc_sequence_number local_id >? max_quic_varint) || (lc_retire_prior_to local_id >? max_quic_varint)) InvalidPacket;
  _ ← fail_if (lc_retire_prior_to local_id >? lc_sequence_number local_id) InvalidPacket;
  len ← add_varint 1 (lc_sequence_number local_id);
  len ← add_varint len (lc_retire_prior_to local_id);
  len ← addWireLen len 1;
  len ← addWireLen len (zlen (lc_connection_id local_id));
  addWireLen len (zlen (lc_stateless_reset_token local_id)).

Definition newTokenFrameWireLen (token : list byte) : Err + Z :=
  _ ← fail_if (zlen token =? 0) InvalidPacket;
  _ ← fail_if (zlen token >? max_quic_varint) InvalidPacket;
  n ← varIntWireLen (zlen token);
  len ← addWireLen 1 n;
  addWireLen len (zlen token).

Definition handshakeDoneFrameWireLen : Z := 1.

Definition closeReasonLenWireLen (reason_len : Z) : Err + Z :=
  _ ← fail_if (reason_len >? max_quic_varint) InvalidPacket;
  varIntWireLen reason_len.

Definition connectionCloseFrameWireLen (close : ConnectionCloseFrame) : Err + Z :=
  _ ← fail_if ((cc_error_code close >? max_quic_varint) || (cc_frame_type close >? max_quic_varint)) InvalidPacket;
  n ← varIntWireLen (cc_error_code close);
  len ← addWireLen 1 n;
  n ← varIntWireLen (cc_frame_type close);
  len ← addWireLen len n;
  n ← closeReasonLenWireLen (zlen (cc_reason_phrase close));
  len ← addWireLen len n;
  addWireLen len (zlen (cc_reason_phrase close)).

Definition applicationCloseFrameWireLen (close : ApplicationCloseFrame) : Err + Z :=
  _ ← fail_if (ac_error_code close >? max_quic_varint) InvalidPacket;
  n ← varIntWireLen (ac_error_code close);
  len ← addWireLen 1 n;
  n ← closeReasonLenWireLen (zlen (ac_reason_phrase close));
  len ← addWireLen len n;
  addWireLen len (zlen (ac_reason_phrase close)).

Inductive PendingCloseFrame : Type := close_connection (_ : ConnectionCloseFrame) | close_application (_ : ApplicationCloseFrame).

Definition closeFrameWireLen (close : PendingCloseFrame) : Err + Z :=
  match close with
  | close_connection c => connectionCloseFrameWireLen c
  | close_application a => applicationCloseFrameWireLen a
  end.

Definition validateStreamCountWireLen (maximum_streams : Z) : Err + unit :=
  fail_if (maximum_streams >? max_stream_count) InvalidPacket.

Inductive PendingBlockedFrame : Type :=
  | blocked_data (_ : DataBlockedFrame)
  | blocked_stream_data (_ : StreamDataBlockedFrame)
  | blocked_streams_bidi (_ : StreamsBlockedBidiFrame)
  | blocked_streams_uni (_ : StreamsBlockedUniFrame).

Definition blockedFrameWireLen (blocked : PendingBlockedFrame) : Err + Z :=
  match blocked with
  | blocked_data f => add_varint 1 (db_maximum_data f)
  | blocked_stream_data f => len ← add_varint 1 (sdb_stream_id f); add_varint len (sdb_maximum_stream_data f)
  | blocked_streams_bidi f => _ ← validateStreamCountWireLen (sbb_maximum_streams f); add_varint 1 (sbb_maximum_streams f)
  | blocked_streams_uni f => _ ← validateStreamCountWireLen (sbu_maximum_streams f); add_varint 1 (sbu_maximum_streams f)
  end.

Inductive PendingMaxFrame : Type :=
  | pending_max_data (_ : MaxDataFrame)
  | pending_max_stream_data (_ : MaxStreamDataFrame)
  | pending_max_streams_bidi (_ : MaxStreamsBidiFrame)
  | pending_max_streams_uni (_ : MaxStreamsUniFrame).

Definition maxFrameWireLen (max_frame : PendingMaxFrame) : Err + Z :=
  match max_frame with
  | pending_max_data f => add_varint 1 (md_maximum_data f)
  | pending_max_stream_data f => len ← add_varint 1 (msd_stream_id f); add_varint len (msd_maximum_stream_data f)
  | pending_max_streams_bidi f => _ ← validateStreamCountWireLen (msb_maximum_streams f); add_varint 1 (msb_maximum_streams f)
  | pending_max_streams_uni f => _ ← validateStreamCountWireLen (msu_maximum_streams f); add_varint 1 (msu_maximum_streams f)
  end.

End WireLen.
