(* ===== verification/WireLenProps.v ===== *)
(** * Properties of the wire lengths (src/quic/wire_len.zig)

    The lengths are those of the bytes the encoders write; padding reaches its
    target in one round; the binary search finds the largest chunk that fits. *)
From S2P Require Import Prelude Codec CodecSafe Packet Headers Frame FrameProps WireLen.
Import Codec Safe Packet Headers Frame FrameProps WireLen.
Local Open Scope Z_scope.

Module WireLenProps.

(** ** Lengths of varints and sums *)

Lemma vi_wire v : varint_ok v -> varIntWireLen v = inr (zlen (vi v)).
Proof.
  unfold varint_ok, varIntWireLen, quicVarIntWireLen, varint_bytes. intros Hv.
  destruct (v <=? 63); [done|]. destruct (v <=? 16383); [done|]. destruct (v <=? 1073741823); [done|].
  by destruct (Z.leb_spec v max_quic_varint); [|lia].
Qed.

Lemma vi_wire_inr v n : 0 <= v -> varIntWireLen v = inr n -> varint_ok v.
Proof.
  unfold varint_ok, varIntWireLen, quicVarIntWireLen, max_quic_varint. intros Hv.
  destruct (Z.leb_spec v 63); [lia|]. destruct (Z.leb_spec v 16383); [lia|]. destruct (Z.leb_spec v 1073741823); [lia|].
  by destruct (Z.leb_spec v 4611686018427387903); [lia|].
Qed.

Lemma vi_len_eq v : zlen (vi v) = if v <=? 63 then 1 else if v <=? 16383 then 2 else if v <=? 1073741823 then 4 else 8.
Proof.
  unfold varint_bytes. destruct (v <=? 63); [done|]. destruct (v <=? 16383); [done|]. by destruct (v <=? 1073741823).
Qed.

Ltac vi_cases := rewrite !vi_len_eq; repeat match goal with |- context [?v <=? ?n] => destruct (Z.leb_spec v n) end; lia.

Lemma vi_len_le v : zlen (vi v) <= 8.
Proof. vi_cases. Qed.

(** A varint is at most as long as its value, plus one. *)
Lemma vi_len_value v : 0 <= v -> zlen (vi v) <= v + 1.
Proof. intros. vi_cases. Qed.

Lemma vi_len_mono v w : v <= w -> zlen (vi v) <= zlen (vi w).
Proof. intros. vi_cases. Qed.

Section Steps.
Context {B : Type} (k : Z -> Err + B) (ku : unit -> Err + B).

Lemma bind_fail c e : c = false -> (fail_if c e ≫= ku) = ku tt.
Proof. by intros ->. Qed.

Lemma bind_vi v : varint_ok v -> (varIntWireLen v ≫= k) = k (zlen (vi v)).
Proof. intros Hv. by rewrite vi_wire. Qed.

Lemma add_or_ok e a b : a + b <= U64_MAX -> add_or e a b = inr (a + b).
Proof. intros. unfold add_or, add64. by destruct (Z.leb_spec (a + b) U64_MAX); [|lia]. Qed.

Lemma bind_add e a b : a + b <= U64_MAX -> (add_or e a b ≫= k) = k (a + b).
Proof. intros. by rewrite add_or_ok. Qed.

Lemma add_varint_ok len v : varint_ok v -> len + zlen (vi v) <= U64_MAX -> add_varint len v = inr (len + zlen (vi v)).
Proof.
  intros Hv Hl. unfold add_varint, quicFrameVarIntWireLen. rewrite gtb_false by apply Hv. rewrite vi_wire by done.
  by apply add_or_ok.
Qed.

Lemma bind_addv len v : varint_ok v -> len + zlen (vi v) <= U64_MAX -> (add_varint len v ≫= k) = k (len + zlen (vi v)).
Proof. intros. by rewrite add_varint_ok. Qed.

End Steps.

Lemma add_or_inr e a b n : add_or e a b = inr n -> a + b <= U64_MAX /\ n = a + b.
Proof. unfold add_or, add64. destruct (Z.leb_spec (a + b) U64_MAX); [|done]. by intros [= <-]. Qed.

Lemma add_varint_inr len v n : 0 <= v -> add_varint len v = inr n -> varint_ok v.
Proof.
  intros Hv. unfold add_varint, quicFrameVarIntWireLen. destruct (v >? max_quic_varint); [done|].
  intros (m & Hm & _)%bind_inr. by eapply vi_wire_inr.
Qed.

(** The lengths of the varints in the goal lie between 1 and 8. *)
Ltac vis := repeat match goal with
  | |- context [vi ?v] => lazymatch goal with _ : zlen (vi v) <= 8 |- _ => fail
      | _ => pose proof (vi_len_le v); pose proof (vi_len v) end
  end.

Ltac small := unfold varint_ok, max_quic_varint, U64_MAX, max_connection_id_len, max_stream_count in *; lia.

(** Evaluates a length whose checks all succeed. *)
Ltac run_len := unfold addWireLen, addDatagramWireLen; repeat first
  [ rewrite bind_fail by (rewrite ?gtb_false by small; try done; by apply Z.eqb_neq; small)
  | rewrite bind_vi by small
  | rewrite bind_addv by (vis; small)
  | rewrite bind_add by (vis; small)
  | rewrite add_or_ok by (vis; small)
  | rewrite add_varint_ok by (vis; small) ].

Lemma range_valid_ok o n : 0 <= o -> 0 <= n -> o + n <= max_quic_varint -> validateFrameDataRange o n = inr tt.
Proof. intros. unfold validateFrameDataRange. run_len. by rewrite gtb_false. Qed.

Lemma range_valid_inr o n u : validateFrameDataRange o n = inr u -> o + n <= max_quic_varint.
Proof.
  unfold validateFrameDataRange. intros Hv. validated. by destruct (add_or_inr _ _ _ _ H1) as [_ ->] || lia.
Qed.

(** ** Lengths of frames *)

(** The length the packetizer computes for a frame; PADDING and ACK_ECN have none. *)
Definition wire_len_of (f : Frame) : option (Err + Z) :=
  match f with
  | padding _ | ack_ecn _ => None
  | ping => Some (inr pingFrameWireLen)
  | ack a => Some (ackFrameWireLen a)
  | reset_stream f => Some (resetStreamFrameWireLen f)
  | stop_sending f => Some (stopSendingFrameWireLen f)
  | new_token f => Some (newTokenFrameWireLen (nt_token f))
  | stream f => Some (streamFrameWireLen (st_stream_id f) (st_offset f) (zlen (st_data f)))
  | crypto f => Some (cryptoFrameWireLen (cr_offset f) (zlen (cr_data f)))
  | max_data f => Some (maxFrameWireLen (pending_max_data f))
  | max_stream_data f => Some (maxFrameWireLen (pending_max_stream_data f))
  | max_streams_bidi f => Some (maxFrameWireLen (pending_max_streams_bidi f))
  | max_streams_uni f => Some (maxFrameWireLen (pending_max_streams_uni f))
  | data_blocked f => Some (blockedFrameWireLen (blocked_data f))
  | stream_data_blocked f => Some (blockedFrameWireLen (blocked_stream_data f))
  | streams_blocked_bidi f => Some (blockedFrameWireLen (blocked_streams_bidi f))
  | streams_blocked_uni f => Some (blockedFrameWireLen (blocked_streams_uni f))
  | new_connection_id f => Some (newConnectionIdFrameWireLen (MkLocalCid (nci_sequence_number f) (retire_prior_to f)
                                   (connection_id f) (stateless_reset_token f) false false))
  | retire_connection_id f => Some (retireConnectionIdFrameWireLen (rci_sequence_number f))
  | path_challenge _ => Some (inr pathChallengeFrameWireLen)
  | path_response _ => Some (inr pathResponseFrameWireLen)
  | connection_close f => Some (closeFrameWireLen (close_connection f))
  | application_close f => Some (closeFrameWireLen (close_application f))
  | handshake_done => Some (inr handshakeDoneFrameWireLen)
  | datagram f => datagramFrameWireLen (zlen (dg_data f))
  end.

(** *** ACK frames *)

Lemma wire_ranges_ok rs : forall s u, validate_ranges s rs = inr u -> validate_wire_ranges s rs = inr tt.
Proof.
  induction rs as [|r rs IH]; intros s u Hv; [done|]. cbn in *. validated. unfold add_or.
  destruct (add64 (gap r) 2) as [k|]; [|done]. cbn. destruct (s <? k); [done|]. destruct (ack_range r >? s - k); [done|].
  by eapply IH.
Qed.

Lemma wire_ranges_inr rs : Forall range_ok rs -> forall s u, validate_wire_ranges s rs = inr u -> validate_ranges s rs = inr tt.
Proof.
  induction 1 as [|r rs [Hg Ha] _ IH]; intros s u Hv; [done|]. cbn in *. unfold validateFrameVarInt.
  rewrite (gtb_false (gap r)), (gtb_false (ack_range r)) by small. cbn. unfold add_or in Hv.
  destruct (add64 (gap r) 2) as [k|]; [|done]. cbn in Hv. destruct (s <? k); [done|].
  destruct (ack_range r >? s - k); [done|]. by eapply IH.
Qed.

(** Each range takes at least as many packet numbers as bytes. *)
Lemma ranges_bytes_le rs : Forall range_ok rs -> forall s u, 0 <= s -> validate_wire_ranges s rs = inr u ->
  zlen (ranges_bytes rs) <= s.
Proof.
  induction 1 as [|r rs [Hg Ha] _ IH]; intros s u Hs Hv; [done|]. cbn in Hv.
  apply bind_inr in Hv as (k & Hk & Hv). apply add_or_inr in Hk as [_ ->].
  destruct (Z.ltb_spec s (gap r + 2)); [done|]. destruct (Z.gtb_spec (ack_range r) (s - (gap r + 2))); [done|].
  apply IH in Hv; [|lia]. unfold ranges_bytes in *. cbn [map concat]. rewrite !zlen_app.
  pose proof (vi_len_value (gap r)). pose proof (vi_len_value (ack_range r)). unfold varint_ok in *. lia.
Qed.

Lemma add_ranges_ok rs : Forall range_ok rs -> forall len, len + zlen (ranges_bytes rs) <= U64_MAX ->
  add_ranges len rs = inr (len + zlen (ranges_bytes rs)).
Proof.
  induction 1 as [|r rs [Hg Ha] _ IH]; intros len Hl; cbn [add_ranges]; [change (zlen (ranges_bytes [])) with 0; f_equal; lia|].
  unfold ranges_bytes in *. cbn [map concat] in *. rewrite !zlen_app in *. pose proof (zlen_nonneg (ranges_bytes rs)).
  pose proof (vi_len (gap r)). pose proof (vi_len (ack_range r)).
  unfold ranges_bytes in *. rewrite !bind_addv by (done || lia). rewrite IH by lia. f_equal. lia.
Qed.

Lemma add_ranges_inr rs : Forall (fun r => u64 (gap r) /\ u64 (ack_range r)) rs -> forall len n, add_ranges len rs = inr n ->
  Forall range_ok rs.
Proof.
  induction 1 as [|r rs [[Hg _] [Ha _]] _ IH]; intros len n Hn; constructor; cbn in Hn; validated.
  - split; by eapply add_varint_inr.
  - by eapply IH.
Qed.

Lemma ack_len_ok a : ack_ok a -> ackFrameWireLen a = inr (1 + zlen (ack_bytes a)).
Proof.
  intros [Hv H1 H2 H3 H4 H5]. unfold validateAckFrame in Hv. validated. unfold ackFrameWireLen, validateAckFrameWireRange.
  rewrite gtb_false by done. assert (validate_wire_ranges (largest_acknowledged a - first_ack_range a) (ranges a) = inr tt) as Hw
    by (by eapply wire_ranges_ok). cbn [fail_if mbind sum_bind]. rewrite Hw. cbn [mbind sum_bind].
  apply (ranges_bytes_le _ H5) in Hw; [|lia]. run_len.
  rewrite add_ranges_ok by (done || (vis; small)). unfold ack_bytes. rewrite !zlen_app. f_equal. lia.
Qed.

Lemma ack_len_inr a n : ack_typed a -> ackFrameWireLen a = inr n -> validateAckFrame a = inr tt.
Proof.
  intros (H1 & H2 & H3 & H4) Hn. unfold ackFrameWireLen, validateAckFrameWireRange in Hn. validated.
  unfold u64 in *. unfold validateAckFrame, validateFrameVarInt.
  repeat match goal with H : add_varint _ ?v = inr _ |- _ =>
    apply add_varint_inr in H; [|lia || apply zlen_nonneg] end. unfold varint_ok in *.
  rewrite !gtb_false by lia. cbn. eapply wire_ranges_inr; [by eapply add_ranges_inr|done].
Qed.

(** *** STREAM and CRYPTO frames *)

Lemma stream_len_ok id o n : varint_ok id -> 0 <= o -> 0 <= n -> o + n <= max_quic_varint ->
  streamFrameWireLen id o n = inr (1 + zlen (vi id) + (if o =? 0 then 0 else zlen (vi o)) + zlen (vi n) + n).
Proof.
  intros. unfold streamFrameWireLen. rewrite range_valid_ok by done. run_len. cbn [mbind sum_bind]. run_len.
  destruct (o =? 0); cbn [negb mbind sum_bind]; run_len; f_equal; lia.
Qed.

Lemma crypto_len_ok o n : 0 <= o -> 0 <= n -> o + n <= max_quic_varint ->
  cryptoFrameWireLen o n = inr (1 + zlen (vi o) + zlen (vi n) + n).
Proof. intros. unfold cryptoFrameWireLen. rewrite range_valid_ok by done. cbn [mbind sum_bind]. run_len. f_equal; lia. Qed.

Lemma stream_len_inr id o n k : streamFrameWireLen id o n = inr k -> id <= max_quic_varint /\ o + n <= max_quic_varint.
Proof. unfold streamFrameWireLen. intros Hk. validated. split; [done|]. by eapply range_valid_inr. Qed.

Lemma crypto_len_inr o n k : cryptoFrameWireLen o n = inr k -> o + n <= max_quic_varint.
Proof. unfold cryptoFrameWireLen. intros Hk. validated. by eapply range_valid_inr. Qed.

(** *** The other frames *)

Ltac open_lengths := unfold resetStreamFrameWireLen, stopSendingFrameWireLen, newTokenFrameWireLen, streamFrameWireLen,
  cryptoFrameWireLen, maxFrameWireLen, blockedFrameWireLen, newConnectionIdFrameWireLen, retireConnectionIdFrameWireLen,
  closeFrameWireLen, connectionCloseFrameWireLen, applicationCloseFrameWireLen, closeReasonLenWireLen,
  validateStreamCountWireLen in *;
  cbn [lc_sequence_number lc_retire_prior_to lc_connection_id lc_stateless_reset_token] in *.

Lemma len_ok f : frame_ok f -> (forall p, f <> padding p) -> (forall a, f <> ack_ecn a) ->
  wire_len_of f = Some (inr (zlen (frame_bytes f))).
Proof.
  intros Hok Hp He. destruct f; try (by destruct (Hp p)); try (by destruct (He a)); cbn [wire_len_of frame_ok frame_bytes] in *;
    try done; try (rewrite ack_len_ok by done; rewrite zlen_cons; do 2 f_equal; lia);
    repeat match goal with H : _ /\ _ |- _ => destruct H end;
    open_lengths; zlens; unfold counted;
    try (f_equal; run_len; rewrite ?zlen_cons, ?zlen_app, ?zlen_cons, ?zlen_app; f_equal; lia).
  - fold (streamFrameWireLen (st_stream_id s) (st_offset s) (zlen (st_data s))). rewrite stream_len_ok by done.
    rewrite zlen_cons, !zlen_app. do 2 f_equal. destruct (st_offset s =? 0); change (zlen (@nil byte)) with 0; lia.
  - fold (cryptoFrameWireLen (cr_offset c) (zlen (cr_data c))). rewrite crypto_len_ok by done.
    rewrite zlen_cons, !zlen_app. do 2 f_equal. lia.
  - rewrite bind_fail by (rewrite gtb_false by small; by rewrite (proj2 (Z.eqb_neq _ 0)) by lia). f_equal. run_len.
    rewrite zlen_cons, !zlen_app, zlen_cons, zlen_app. f_equal. lia.
  - by rewrite zlen_cons, Hok.
  - by rewrite zlen_cons, Hok.
  - unfold datagramFrameWireLen. rewrite vi_wire by small. rewrite zlen_cons, zlen_app. unfold add64.
    vis. destruct (Z.leb_spec (1 + zlen (vi (zlen (dg_data d)))) U64_MAX); [|small]. cbn [mbind option_bind].
    destruct (Z.leb_spec (1 + zlen (vi (zlen (dg_data d))) + zlen (dg_data d)) U64_MAX); [|small]. cbn. do 2 f_equal. lia.
Qed.

(** A length is only computed for a frame the encoder accepts. *)
Lemma len_inr f n : frame_typed f -> wire_len_of f = Some (inr n) -> validateFrame f = inr tt.
Proof.
  intros Ht Hn. destruct f; try done; cbn [wire_len_of frame_typed validateFrame] in *;
    try (injection Hn as Hn); try (by eapply ack_len_inr);
    try (apply stream_len_inr in Hn as [? ?]); try (apply crypto_len_inr in Hn);
    open_lengths; validated; open_validators; unfold u64 in *; validated;
    repeat match goal with H : add_varint _ _ = inr _ |- _ => apply add_varint_inr in H; [|lia] end;
    unfold varint_ok, max_connection_id_len in *; rewrite ?gtb_false by lia; rewrite ?end_offset_ok by done; try done;
    by rewrite (proj2 (Z.eqb_neq _ 0)) by lia.
Qed.

(** C28: the lengths the packetizer computes are exact. For every frame type it
    has a length function for, the function returns [n] exactly when
    [encodeFrame] writes the frame in [n] bytes, and reports an error exactly
    when [encodeFrame] refuses the frame; no intermediate sum overflows. *)
Theorem frame_wire_len_exact (f : Frame) (Ht : frame_typed f) :
  match wire_len_of f with
  | Some (inr n) => exists bs, emits (encodeFrame f) bs /\ zlen bs = n
  | Some (inl _) => exists e, forall w, encodeFrame f w = Some (inl e, w)
  | None => (exists p, f = padding p) \/ (exists a, f = ack_ecn a)
  end.
Proof.
  assert ((exists p, f = padding p) \/ (exists a, f = ack_ecn a) \/
    (forall p, f <> padding p) /\ (forall a, f <> ack_ecn a)) as [[p ->]|[[a ->]|[Hp He]]] by (destruct f; (by eauto) || (right; right; done)); [cbn; eauto..|].
  destruct (validateFrame f) as [e|[]] eqn:Hv.
  - destruct (wire_len_of f) as [[?|n]|] eqn:Hw.
    + exists e. intros w. by apply refuses_frame.
    + by rewrite (len_inr f n Ht Hw) in Hv.
    + destruct f; try done; [by destruct (Hp p)|by destruct (He a)].
  - pose proof (validate_ok f Ht Hv) as Hok. rewrite len_ok by done. exists (frame_bytes f). split; [by apply emits_frame|done].
Qed.

(** ** Padding a datagram *)

Section Pad.
Context (w : Z -> Err + Z).

(** Each byte of plaintext adds at least one byte to the datagram. *)
Definition grows (n : Z) : Prop := forall m k k', n <= m -> w n = inr k -> w m = inr k' -> k + (m - n) <= k'.

(** One round of the loop reaches the target. *)
Lemma pad_loop_eq minimum n : grows n ->
  pad_loop 1 w minimum n = Some (
    match w n with
    | inl e => inl e
    | inr k =>
        if minimum <=? k then inr n else
        match addDatagramWireLen n (minimum - k) with
        | inl e => inl e
        | inr m => match w m with inl e => inl e | inr _ => inr m end
        end
    end).
Proof.
  intros Hg. cbn [pad_loop]. destruct (w n) as [e|k] eqn:En; [done|].
  destruct (Z.ltb_spec k minimum), (Z.leb_spec minimum k); try lia; cbn [negb]; [|done].
  destruct (addDatagramWireLen n (minimum - k)) as [e|m] eqn:Ea; [done|]. apply add_or_inr in Ea as [_ ->].
  destruct (w (n + (minimum - k))) as [e|k'] eqn:Em; [done|].
  pose proof (Hg (n + (minimum - k)) k k' ltac:(lia) En Em). by destruct (Z.ltb_spec k' minimum); [lia|].
Qed.

End Pad.

(** *** Long headers *)

Definition token_len (h : LongHeader) : Z :=
  if bool_decide (packet_type h = initial) then zlen (vi (zlen (token h))) + zlen (token h) else 0.

Definition long_len (h : LongHeader) (pnl n : Z) : Z :=
  7 + zlen (dcid h) + zlen (scid h) + token_len h + zlen (vi (n + aead_tag_len + pnl)) + pnl + (n + aead_tag_len).

(** What the length function checks of a header. *)
Record long_fits (h : LongHeader) (pnl : Z) : Prop := {
  lf_pn : 1 <= pnl <= 4;
  lf_dcid : zlen (dcid h) <= 20;
  lf_scid : zlen (scid h) <= 20;
  lf_version : version h <> 0;
  lf_type : packet_type h <> retry;
  lf_token : packet_type h <> initial -> token h = [];
  lf_token_len : zlen (token h) <= max_quic_varint;
}.

Lemma long_len_ok h pnl n : long_fits h pnl -> 0 <= n -> n + aead_tag_len + pnl <= max_quic_varint ->
  protectedLongDatagramWireLen h pnl n = inr (long_len h pnl n).
Proof.
  intros [Hp Hd Hs Hv Ht Htok Htl] Hn Hl. unfold protectedLongDatagramWireLen, long_len, token_len, aead_tag_len in *.
  pose proof (zlen_nonneg (dcid h)). pose proof (zlen_nonneg (scid h)). pose proof (zlen_nonneg (token h)).
  rewrite bind_fail by (rewrite gtb_false by lia; by rewrite (proj2 (Z.eqb_neq pnl 0)) by lia).
  rewrite bind_fail by (by rewrite !gtb_false by done). rewrite bind_fail by (by apply Z.eqb_neq).
  rewrite bind_fail by (by apply bool_decide_eq_false_2).
  rewrite bind_fail by (case_bool_decide as Hi; [by rewrite (Htok Hi)|done]).
  run_len. cbv zeta. case_bool_decide; cbn [mbind sum_bind]; run_len; cbn [mbind sum_bind]; run_len; f_equal; lia.
Qed.

Lemma long_len_inr h pnl n k : 0 <= pnl -> 0 <= n -> protectedLongDatagramWireLen h pnl n = inr k ->
  long_fits h pnl /\ n + aead_tag_len + pnl <= max_quic_varint /\ k = long_len h pnl n.
Proof.
  intros Hp Hn Hk. assert (long_fits h pnl /\ n + aead_tag_len + pnl <= max_quic_varint) as [Hf Hl].
  { unfold protectedLongDatagramWireLen in Hk. pose proof (zlen_nonneg (token h)).
    apply bind_inr in Hk as (? & Hpn & Hk). apply bind_inr in Hk as (? & Hcid & Hk). apply bind_inr in Hk as (? & Hver & Hk).
    apply bind_inr in Hk as (? & Hretry & Hk). apply bind_inr in Hk as (? & Htok & Hk).
    apply bind_inr in Hk as (pl & Hpl & Hk). apply bind_inr in Hk as (wl & Hwl & Hk). apply bind_inr in Hk as (? & Hmax & Hk).
    apply bind_inr in Hk as (hl & Hhl & _). apply add_or_inr in Hpl as [_ ->]. apply add_or_inr in Hwl as [_ ->].
    validated. apply bool_decide_eq_false in Hretry. split; [|done].
    assert (packet_type h <> initial -> token h = []) as Ht0.
    { intros Hi. apply andb_false_iff in Htok as [Hb|Hb]; [by apply bool_decide_eq_false in Hb|].
      apply negb_false_iff, Z.eqb_eq in Hb. by apply zlen_nil_inv. }
    split; try done; [unfold max_connection_id_len in *; lia..|]. destruct (decide (packet_type h = initial)) as [Hi|Hi].
    - rewrite bool_decide_eq_true_2 in Hhl by done. validated. done.
    - rewrite Ht0 by done. by vm_compute. }
  split; [done|]. split; [done|]. rewrite long_len_ok in Hk by done. by injection Hk.
Qed.

Lemma long_grows h pnl n : 0 <= pnl -> 0 <= n -> grows (protectedLongDatagramWireLen h pnl) n.
Proof.
  intros Hp Hn m k k' Hnm Hk Hk'. apply long_len_inr in Hk as (_ & _ & ->); [|done..].
  apply long_len_inr in Hk' as (_ & _ & ->); [|lia..]. unfold long_len.
  pose proof (vi_len_mono (n + aead_tag_len + pnl) (m + aead_tag_len + pnl) ltac:(lia)). lia.
Qed.

(** The bytes of a packet whose payload is the protected plaintext. *)
Lemma long_bytes_len h enc n : 1 <= pn_len enc <= 4 ->
  zlen (long_bytes (with_payload_length h (n + aead_tag_len)) enc) + (n + aead_tag_len) = long_len h (pn_len enc) n.
Proof.
  intros Hp. unfold long_bytes, long_len, token_bytes, token_len, with_payload_length.
  cbn [version dcid scid packet_type token payload_length]. repeat rewrite ?zlen_cons, ?zlen_app.
  rewrite be_len. change (zlen (writeInt32 (version h))) with 4.
  case_bool_decide; rewrite ?zlen_app; change (zlen (@nil byte)) with 0; lia.
Qed.

Lemma emits_protected undef h enc pl n : zlen undef = 4 -> long_fits h (pn_len enc) -> 0 < version h <= U32_MAX ->
  number_ok (packet_number h) enc -> zlen pl = n + aead_tag_len -> n + aead_tag_len + pn_len enc <= max_quic_varint ->
  exists bs, emits (encodeLongPacketWithPacketNumberEncoding undef (LongPkt h pl) enc) bs /\ zlen bs = long_len h (pn_len enc) n.
Proof.
  intros Hu [Hp Hd Hs Hv Ht Htok Htl] Hver Hno Hpl Hl.
  exists (long_bytes (with_payload_length h (zlen pl)) enc ++ pl). split.
  - apply emits_bind; [apply emits_long|apply emits_all]; [done|]. pose proof (zlen_nonneg pl). by split; cbn; try done; lia.
  - rewrite zlen_app, Hpl. by apply long_bytes_len.
Qed.

(** padding reaches the minimum datagram size. When the unpadded packet can
    be sent, [protectedLongPlaintextLenForMinDatagram] returns after one round
    with a plaintext length for which the encoded packet, header, packet number
    and AEAD tag included, has at least [minimum] bytes and at most 7 more
    (the Length field may grow); a packet that is already long enough is not
    padded. When it cannot be sent, the error is passed on. *)
Theorem min_datagram_padding (h : LongHeader) (enc : PacketNumberEncoding) (n minimum : Z)
    (Hver : 0 <= version h <= U32_MAX) (Hno : number_ok (packet_number h) enc) (Hn : 0 <= n <= U64_MAX)
    (Hmin : 1 <= minimum <= max_quic_varint) :
  let res := protectedLongPlaintextLenForMinDatagram h (pn_len enc) n minimum in
  match protectedLongDatagramWireLen h (pn_len enc) n with
  | inl e => res = Some (inl e)
  | inr k => exists m, res = Some (inr m) /\ n <= m /\ (minimum <= k -> m = n) /\
      forall undef pl, zlen undef = 4 -> zlen pl = m + aead_tag_len ->
        exists bs, emits (encodeLongPacketWithPacketNumberEncoding undef (LongPkt h pl) enc) bs /\
          minimum <= zlen bs <= Z.max k (minimum + 7)
  end.
Proof.
  cbv zeta. pose proof (no_len _ _ Hno) as Hp. unfold protectedLongPlaintextLenForMinDatagram.
  rewrite (proj2 (Z.eqb_neq minimum 0)), pad_loop_eq by (lia || (apply long_grows; lia)).
  destruct (protectedLongDatagramWireLen h (pn_len enc) n) as [e|k] eqn:Ek; [done|].
  apply long_len_inr in Ek as (Hf & Hl & ->); [|lia..].
  assert (0 < version h <= U32_MAX) as Hver' by (pose proof (lf_version _ _ Hf); lia).
  destruct (Z.leb_spec minimum (long_len h (pn_len enc) n)) as [Hge|Hlt].
  { exists n. split_and!; try done. intros undef pl Hu Hpl.
    destruct (emits_protected undef h enc pl n Hu Hf Hver' Hno Hpl Hl) as (bs & He & Hbs). exists bs. split; [done|]. lia. }
  set (m := n + (minimum - long_len h (pn_len enc) n)).
  assert (m + aead_tag_len + pn_len enc <= max_quic_varint) as Hm.
  { unfold m, long_len, token_len, aead_tag_len. zlens. vis. case_bool_decide; zlens; vis; lia. }
  unfold addDatagramWireLen. rewrite add_or_ok by (fold m; unfold aead_tag_len in *; small). fold m.
  rewrite long_len_ok by (done || lia). exists m. split_and!; [done|lia|lia|]. intros undef pl Hu Hpl.
  destruct (emits_protected undef h enc pl m Hu Hf Hver' Hno Hpl Hm) as (bs & He & Hbs). exists bs. split; [done|].
  rewrite Hbs. unfold long_len in *.
  pose proof (vi_len_mono (n + aead_tag_len + pn_len enc) (m + aead_tag_len + pn_len enc) ltac:(lia)).
  pose proof (vi_len_le (m + aead_tag_len + pn_len enc)). pose proof (vi_len (n + aead_tag_len + pn_len enc)). lia.
Qed.

(** ** The largest chunk that fits *)

Section Search.
Context (w : Z -> Err + Z) (g : Z -> Z) (offset size : Z).
Context (w_ok : forall n, 0 <= n -> offset + n <= max_quic_varint -> w n = inr (g n))
        (w_inr : forall n k, w n = inr k -> offset + n <= max_quic_varint)
        (g_mono : forall n m, 0 <= n <= m -> g n <= g m)
        (g_large : forall n, 0 <= n -> n < g n).

(** A frame with [n] bytes of data can be encoded and fits the datagram. *)
Definition fits (n : Z) : Prop := exists k, w n = inr k /\ k <= size.

Lemma fits_iff n : 0 <= n -> offset + n <= max_quic_varint -> fits n <-> g n <= size.
Proof.
  intros Hn Ho. split.
  - intros (k & Hk & Hle). rewrite w_ok in Hk by done. injection Hk as <-. done.
  - intros Hle. exists (g n). by rewrite w_ok.
Qed.

Lemma search_eq top : top <= U64_MAX -> offset + top <= max_quic_varint -> forall fuel low high,
  1 <= low <= high + 1 -> high <= top -> high - low + 1 < 2 ^ Z.of_nat fuel ->
  (low = 1 \/ g (low - 1) <= size) -> (forall m, high < m <= top -> size < g m) ->
  exists b, search_loop fuel w size low high (low - 1) = Some (inr b) /\ 0 <= b <= top /\ (b = 0 \/ g b <= size) /\
    forall m, b < m <= top -> size < g m.
Proof.
  intros Htop Hoff. induction fuel as [|fuel IH]; intros low high Hlow Hhigh Hsize Hbest Hnone; cbn [search_loop];
    destruct (Z.leb_spec low high) as [Hle|Hgt]; cbn [negb];
    try (exists (low - 1); split_and!; [done|lia|lia|destruct Hbest; [left; lia|by right]|intros m Hm; apply Hnone; lia]).
  { change (2 ^ Z.of_nat 0) with 1 in Hsize. lia. }
  cbv zeta. set (mid := low + (high - low) / 2).
  pose proof (Z.div_pos (high - low) 2 ltac:(lia) ltac:(lia)). pose proof (Z.mul_div_le (high - low) 2 ltac:(lia)).
  pose proof (Z.mul_succ_div_gt (high - low) 2 ltac:(lia)).
  rewrite Nat2Z.inj_succ, Z.pow_succ_r in Hsize by lia. assert (low <= mid <= high) as Hmid by (unfold mid; lia).
  rewrite w_ok by lia. destruct (Z.leb_spec (g mid) size) as [Hfit|Hbig].
  - destruct (Z.eqb_spec mid U64_MAX) as [Hmax|Hmax].
    { exists mid. split_and!; [done|lia|lia|by right|lia]. }
    destruct (IH (mid + 1) high) as (b & E & Hb); [lia|done|unfold mid in *; lia|right; by rewrite Z.add_simpl_r|done|].
    exists b. by rewrite Z.add_simpl_r in E.
  - rewrite (proj2 (Z.eqb_neq mid 0)) by lia. apply IH; [lia|lia|unfold mid in *; lia|done|].
    intros m Hm. destruct (Z.le_gt_cases m high); [|apply Hnone; lia]. pose proof (g_mono mid m ltac:(lia)). lia.
Qed.

(** A length worth sending: within the bytes left, and not empty unless there
    is nothing left to send. *)
Definition useful (left n : Z) : Prop := 0 <= n <= left /\ (n = 0 -> left = 0).

(** What [maxStreamFrameDataLen] and [maxCryptoFrameDataLen] promise: the
    largest useful length that fits, and an error exactly when no useful length
    fits: the header's own error if the header is invalid, [BufferTooSmall]
    otherwise. *)
Definition optimal (left : Z) (res : option (Err + Z)) : Prop :=
  match res with
  | None => False
  | Some (inr n) => useful left n /\ fits n /\ forall m, n < m <= left -> ~ fits m
  | Some (inl e) => (forall n, useful left n -> ~ fits n) /\ e = match w 0 with inl e0 => e0 | inr _ => BufferTooSmall end
  end.

Lemma fits_nothing left : (forall m, (if left =? 0 then 0 else 1) <= m <= left -> ~ fits m) ->
  forall n, useful left n -> ~ fits n.
Proof. intros Hn n [Hle Hz]. apply Hn. destruct (Z.eqb_spec left 0); [lia|]. destruct (Z.eqb_spec n 0); lia. Qed.

Lemma max_data_len_optimal left : 0 <= offset -> 0 <= left <= U64_MAX -> size <= U64_MAX ->
  optimal left (max_data_len w offset left size).
Proof.
  intros Hoff Hleft Hsz. unfold max_data_len. destruct (w 0) as [e|k0] eqn:E0.
  { cbn. rewrite E0. split; [|done]. intros n [Hn _] (k & Hk & _). pose proof (w_inr _ _ Hk). rewrite w_ok in E0 by lia. done. }
  pose proof (w_inr _ _ E0) as Ho. destruct (Z.gtb_spec k0 size) as [Hbig|Hsmall].
  { cbn. rewrite E0. split; [|done]. intros n [Hn _] (k & Hk & ?). pose proof (w_inr _ _ Hk).
    rewrite w_ok in E0, Hk by lia. injection E0 as <-. injection Hk as <-. pose proof (g_mono 0 n ltac:(lia)). lia. }
  destruct (Z.eqb_spec left 0) as [->|Hl]. { split; [by split|]. split; [by exists k0|intros; lia]. }
  cbv zeta. set (top := Z.min (Z.min left size) (max_quic_varint - offset)).
  assert (0 <= size) by (rewrite w_ok in E0 by lia; injection E0 as <-; pose proof (g_large 0); lia).
  assert (forall m, top < m <= left -> ~ fits m) as Habove.
  { intros m Hm (k & Hk & Hle). pose proof (w_inr _ _ Hk). rewrite w_ok in Hk by lia. injection Hk as <-.
    pose proof (g_large m ltac:(lia)). lia. }
  destruct (search_eq top ltac:(lia) ltac:(lia) 64 1 top) as (b & E & Hb & Hfit & Hnone); [lia|lia| |by left|lia|].
  { change (2 ^ Z.of_nat 64) with (U64_MAX + 1). lia. }
  change (1 - 1) with 0 in E. rewrite E.
  assert (forall m, b < m <= left -> ~ fits m) as Hopt.
  { intros m Hm. destruct (Z.le_gt_cases m top); [|apply Habove; lia]. rewrite fits_iff by lia.
    pose proof (Hnone m ltac:(lia)). lia. }
  destruct (Z.eqb_spec b 0) as [->|Hb0].
  - cbn. rewrite E0. split; [|done]. apply fits_nothing. intros m Hm. apply Hopt.
    destruct (Z.eqb_spec left 0); lia.
  - split; [split; [lia|done]|]. split; [|done]. apply fits_iff; [lia|lia|]. by destruct Hfit.
Qed.

End Search.

Lemma crypto_chunk_optimal offset left size : 0 <= offset -> 0 <= left <= U64_MAX -> size <= U64_MAX ->
  optimal (cryptoFrameWireLen offset) size left (maxCryptoFrameDataLen offset left size).
Proof.
  intros. apply (max_data_len_optimal _ (fun n => 1 + zlen (vi offset) + zlen (vi n) + n)); try lia.
  - intros. apply crypto_len_ok; lia.
  - intros n k Hk. apply (crypto_len_inr _ _ _ Hk).
  - intros n m Hnm. pose proof (vi_len_mono n m). lia.
  - intros n Hn. pose proof (vi_len n). pose proof (vi_len offset). lia.
Qed.

(** C22: the chunk search terminates and is optimal. [maxStreamFrameDataLen] and
    [maxCryptoFrameDataLen] end within 64 rounds. They return the largest
    number of bytes, up to the bytes left to send, whose frame fits the
    datagram, and 0 only when nothing is left to send; they return an error
    exactly when no such length fits, [BufferTooSmall] unless the frame header
    itself is invalid. *)
Theorem max_frame_data_optimal (id offset left size : Z) (Hid : 0 <= id) (Hoff : 0 <= offset)
    (Hleft : 0 <= left <= U64_MAX) (Hsize : 0 <= size <= U64_MAX) :
  optimal (streamFrameWireLen id offset) size left (maxStreamFrameDataLen id offset left size) /\
  optimal (cryptoFrameWireLen offset) size left (maxCryptoFrameDataLen offset left size).
Proof.
  split.
  - destruct (Z.le_gt_cases id max_quic_varint) as [Hv|Hv].
    + apply (max_data_len_optimal _ (fun n => 1 + zlen (vi id) + (if offset =? 0 then 0 else zlen (vi offset)) + zlen (vi n) + n));
        try lia.
      * intros. apply stream_len_ok; unfold varint_ok; lia.
      * intros n k Hk. apply (stream_len_inr _ _ _ _ Hk).
      * intros n m Hnm. pose proof (vi_len_mono n m). lia.
      * intros n Hn. pose proof (vi_len id). pose proof (vi_len n). pose proof (vi_len offset). destruct (offset =? 0); lia.
    + unfold maxStreamFrameDataLen, max_data_len. assert (streamFrameWireLen id offset 0 = inl InvalidPacket) as E.
      { unfold streamFrameWireLen. by destruct (Z.gtb_spec id max_quic_varint); [|lia]. }
      rewrite E. cbn. rewrite E. split; [|done]. intros n _ (k & Hk & _). unfold streamFrameWireLen in Hk.
      by destruct (Z.gtb_spec id max_quic_varint); [|lia].
  - apply crypto_chunk_optimal; lia.
Qed.

(** ** Concrete lengths *)

Lemma frame_wire_len_exact_witness :
  exists bs, emits (encodeFrame (max_data (MkMaxData 70000))) bs /\ zlen bs = 5.
Proof. refine (frame_wire_len_exact (max_data (MkMaxData 70000)) _). vm_compute. split; congruence. Defined.

Lemma min_datagram_padding_witness :
  let h := Long v1 [x83; x94] [] initial [] 2 0 in let enc := PnEncoding 1 2 in
  exists m, protectedLongPlaintextLenForMinDatagram h 1 10 1200 = Some (inr m) /\ 10 <= m /\ (1200 <= 38 -> m = 10) /\
    forall undef pl, zlen undef = 4 -> zlen pl = m + aead_tag_len ->
      exists bs, emits (encodeLongPacketWithPacketNumberEncoding undef (LongPkt h pl) enc) bs /\
        1200 <= zlen bs <= Z.max 38 (1200 + 7).
Proof.
  cbv zeta. refine (min_datagram_padding (Long v1 [x83; x94] [] initial [] 2 0) (PnEncoding 1 2) 10 1200 _ _ _ _).
  - vm_compute. split; congruence.
  - repeat constructor; vm_compute; congruence.
  - vm_compute. split; congruence.
  - vm_compute. split; congruence.
Defined.

Lemma max_frame_data_optimal_witness :
  optimal (streamFrameWireLen 4 1000) 1200 5000 (maxStreamFrameDataLen 4 1000 5000 1200) /\
  optimal (cryptoFrameWireLen 1000) 1200 5000 (maxCryptoFrameDataLen 1000 5000 1200).
Proof. apply (max_frame_data_optimal 4 1000 5000 1200); vm_compute; try split; congruence. Defined.

End WireLenProps.
