(* ===== verification/HyStart.v ===== *)
(** * Hybrid slow start (src/quic/hybrid_slow_start.zig)

    The f32 arithmetic of the controller as IEEE 754 binary32, its state and
    operations, and the exact window increment for packet-sized byte counts. *)
From Stdlib Require Import SpecFloat.
From S2P Require Import Prelude Codec.
Import Codec.
Local Open Scope Z_scope.

Module HyStart.

(** ** f32 *)

Definition f32 : Type := spec_float.

(** [@floatFromInt], rounding to nearest even. *)
Definition f32_of_int (z : Z) : f32 := binary_normalize 24 128 z 0 false.
Definition f32_div : f32 -> f32 -> f32 := SFdiv 24 128.
Definition f32_mul : f32 -> f32 -> f32 := SFmul 24 128.
Definition f32_lt (a b : f32) : bool := SFltb a b.
Definition f32_ge (a b : f32) : bool := SFleb b a.

(** [std.math.floatMax(f32)]. *)
Definition f32_max_value : f32 := S754_finite false 16777215 104.

(** [@min] and [@max]: an operand that is not a number loses. *)
Definition is_nan (a : f32) : bool := match a with S754_nan => true | _ => false end.
Definition f32_min (a b : f32) : f32 := if is_nan a then b else if is_nan b then a else if f32_lt b a then b else a.
Definition f32_max (a b : f32) : f32 := if is_nan a then b else if is_nan b then a else if f32_lt a b then b else a.

(** [@ceil] of a non-negative number. *)
Definition f32_ceil (a : f32) : f32 :=
  match a with
  | S754_finite false m e => if 0 <=? e then a else f32_of_int ((Z.pos m + (2 ^ (- e) - 1)) / 2 ^ (- e))
  | _ => a
  end.

(** [@intFromFloat] to [usize]: truncation; out of range is illegal. *)
Definition usize_of_f32 (a : f32) : option Z :=
  match a with
  | S754_zero _ => Some 0
  | S754_finite false m e => intCast U64_MAX (if 0 <=? e then Z.pos m * 2 ^ e else Z.pos m / 2 ^ (- e))
  | S754_finite true m e => if (if 0 <=? e then Z.pos m * 2 ^ e else Z.pos m / 2 ^ (- e)) =? 0 then Some 0 else None
  | _ => None
  end.

(** ** State and operations *)

Definition one : f32 := f32_of_int 1.
Definition LOW_SSTHRESH : f32 := f32_of_int 16.
Definition THRESHOLD_DIVIDEND : Z := 8.
Definition N_SAMPLING : Z := 8.
Definition MIN_DELAY_THRESHOLD_NS : Z := 4000000.
Definition MAX_DELAY_THRESHOLD_NS : Z := 16000000.
Definition CSS_GROWTH_DIVISOR : f32 := f32_of_int 4.
Definition CSS_ROUNDS : Z := 5.

Record HybridSlowStart : Type := MkHss {
  sample_count : Z;
  last_min_rtt_ns : option Z;
  cur_min_rtt_ns : option Z;
  threshold : f32;
  hss_max_datagram_size : Z;
  rtt_round_end_time : option Z;
  use_hystart_plus_plus : bool;
  ss_growth_divisor : f32;
  css_count : Z;
  css_baseline_min_rtt_ns : Z;
  css_threshold : f32;
}.

#[export] Instance eta_hss : Eta HybridSlowStart := fun h =>
  MkHss (sample_count h) (last_min_rtt_ns h) (cur_min_rtt_ns h) (threshold h) (hss_max_datagram_size h)
    (rtt_round_end_time h) (use_hystart_plus_plus h) (ss_growth_divisor h) (css_count h) (css_baseline_min_rtt_ns h)
    (css_threshold h).

Definition init (max_datagram_size : Z) : HybridSlowStart :=
  MkHss 0 None None f32_max_value max_datagram_size None true one 0 0 f32_max_value.

Definition thresholdFound (h : HybridSlowStart) : bool := f32_lt (threshold h) f32_max_value.

Definition lowSsthresh (h : HybridSlowStart) : f32 := f32_mul LOW_SSTHRESH (f32_of_int (hss_max_datagram_size h)).

(** The CSS phase of [onRttUpdate]: count rounds, check for recovery. *)
Definition css_phase (h : HybridSlowStart) (congestion_window : f32) (cur_min : Z) : option HybridSlowStart :=
  count ← add64 (css_count h) 1;
  let h := h <| css_count := count |> in
  let h := if cur_min <? css_baseline_min_rtt_ns h
    then h <| css_threshold := threshold h |> <| ss_growth_divisor := one |> <| css_count := 0 |> else h in
  Some (if css_count h >=? CSS_ROUNDS
    then h <| threshold := congestion_window |> <| css_threshold := f32_max_value |> <| ss_growth_divisor := one |>
    else h).

(** The detection phase of [onRttUpdate]. *)
Definition detection_phase (h : HybridSlowStart) (congestion_window : f32) (last_min cur_min : Z) : option HybridSlowStart :=
  let delay_threshold := last_min / THRESHOLD_DIVIDEND in
  let delay_threshold := Z.min delay_threshold MAX_DELAY_THRESHOLD_NS in
  let delay_threshold := Z.max delay_threshold MIN_DELAY_THRESHOLD_NS in
  limit ← add64 last_min delay_threshold;
  let delay_over := cur_min >=? limit in
  let cwnd_above_min := f32_ge congestion_window (lowSsthresh h) in
  Some (if use_hystart_plus_plus h then
      if delay_over then
        h <| css_threshold := congestion_window |> <| css_baseline_min_rtt_ns := cur_min |>
          <| ss_growth_divisor := CSS_GROWTH_DIVISOR |> <| css_count := 0 |>
      else h
    else if delay_over && cwnd_above_min then h <| threshold := congestion_window |> else h).

(** [None]: a counter or a sum past its type. *)
Definition onRttUpdate (h : HybridSlowStart) (congestion_window : f32) (time_sent_nanos last_sent_time_nanos rtt_ns : Z)
    : option HybridSlowStart :=
  let ss_found := thresholdFound h in
  if f32_ge congestion_window (threshold h) || (use_hystart_plus_plus h && ss_found) then Some h else
  let round_over := match rtt_round_end_time h with Some end_time => time_sent_nanos >=? end_time | None => true end in
  let h := if round_over
    then h <| last_min_rtt_ns := cur_min_rtt_ns h |> <| cur_min_rtt_ns := None |> <| sample_count := 0 |>
           <| rtt_round_end_time := Some last_sent_time_nanos |> else h in
  let h := if sample_count h <? N_SAMPLING
    then h <| cur_min_rtt_ns := Some (Z.min rtt_ns (default rtt_ns (cur_min_rtt_ns h))) |> else h in
  count ← add64 (sample_count h) 1;
  let h := h <| sample_count := count |> in
  if negb (sample_count h =? N_SAMPLING) then Some h else
  match last_min_rtt_ns h, cur_min_rtt_ns h with
  | Some last_min, Some cur_min =>
      if f32_ge congestion_window (css_threshold h) then css_phase h congestion_window cur_min
      else detection_phase h congestion_window last_min cur_min
  | _, _ => Some h
  end.

Definition cwndIncrement (h : HybridSlowStart) (sent_bytes : Z) : f32 :=
  f32_div (f32_of_int sent_bytes) (ss_growth_divisor h).

Definition onCongestionEvent (h : HybridSlowStart) (ssthresh : f32) : HybridSlowStart :=
  h <| threshold := f32_max (f32_min (threshold h) ssthresh) (lowSsthresh h) |>
    <| ss_growth_divisor := one |> <| css_threshold := f32_max_value |>.

(** [@intFromFloat(@ceil(cwndIncrement(bytes)))], the growth of the window in slow start. *)
Definition increment (h : HybridSlowStart) (bytes : Z) : option Z := usize_of_f32 (f32_ceil (cwndIncrement h bytes)).

(** ** The window increment is exact *)

(** [p] shifted left by [k] bits. *)
Fixpoint shifted (p : positive) (k : nat) : positive := match k with 0%nat => p | S k => xO (shifted p k) end.

Lemma shifted_value p k : Z.pos (shifted p k) = Z.pos p * 2 ^ Z.of_nat k.
Proof.
  induction k as [|k IH]; [cbn; lia|]. cbn [shifted]. rewrite Pos2Z.inj_xO, IH, Nat2Z.inj_succ, Z.pow_succ_r by lia. lia.
Qed.

Lemma shifted_digits p k : Z.pos (digits2_pos (shifted p k)) = Z.pos (digits2_pos p) + Z.of_nat k.
Proof. induction k as [|k IH]; [cbn; lia|]. cbn [shifted digits2_pos]. rewrite Pos2Z.inj_succ, IH. lia. Qed.

Lemma iter_shifted p k : Pos.iter xO p k = shifted p (Pos.to_nat k).
Proof.
  induction k as [|k IH] using Pos.peano_ind; [done|]. by rewrite Pos.iter_succ, IH, Pos2Nat.inj_succ.
Qed.

Lemma fexp_eq x : fexp 24 128 x = Z.max (x - 24) (-149).
Proof. reflexivity. Qed.

(** A 24-bit significand needs no rounding. *)
Lemma round_exact p e : Z.pos (digits2_pos p) = 24 -> -149 <= e <= 104 ->
  binary_round_aux 24 128 false (Z.pos p) e loc_Exact = S754_finite false p e.
Proof.
  intros Hd He. unfold binary_round_aux, shr_fexp, Zdigits2. rewrite Hd.
  assert (fexp 24 128 (24 + e) - e = 0) as E by (rewrite fexp_eq; lia).
  change (Z.sub (fexp 24 128 (Z.add 24 e)) e) with (fexp 24 128 (24 + e) - e). rewrite E. cbn [shr shr_record_of_loc shr_m].
  cbn [loc_of_shr_record round_nearest_even]. rewrite Hd.
  change (Z.sub (fexp 24 128 (Z.add 24 e)) e) with (fexp 24 128 (24 + e) - e). rewrite E. cbn [shr shr_record_of_loc shr_m].
  change (Z.sub 128 24) with 104. by destruct (Z.leb_spec e 104); [|lia].
Qed.

Lemma digits_bound p : Z.pos p < 2 ^ 24 -> Z.pos (digits2_pos p) <= 24.
Proof.
  assert (2 ^ (Z.pos (digits2_pos p) - 1) <= Z.pos p) as Hlow.
  { induction p as [p IH|p IH|]; [..|done]; cbn [digits2_pos]; rewrite Pos2Z.inj_succ, Z.sub_1_r, Z.pred_succ;
      replace (Z.pos (digits2_pos p)) with (Z.succ (Z.pos (digits2_pos p) - 1)) by lia; rewrite Z.pow_succ_r by lia; lia. }
  intros Hp. destruct (Z.le_gt_cases (Z.pos (digits2_pos p)) 24); [done|].
  pose proof (Z.pow_le_mono_r 2 24 (Z.pos (digits2_pos p) - 1)). lia.
Qed.

Lemma of_int_exact p : Z.pos p < 2 ^ 24 -> exists k,
  Z.of_nat k <= 23 /\ f32_of_int (Z.pos p) = S754_finite false (shifted p k) (- Z.of_nat k) /\
  Z.pos (digits2_pos (shifted p k)) = 24.
Proof.
  intros Hp. pose proof (digits_bound p Hp) as Hd. set (d := Z.pos (digits2_pos p)) in *.
  exists (Z.to_nat (24 - d)). rewrite shifted_digits. fold d. split; [lia|]. split; [|lia].
  unfold f32_of_int, binary_normalize, binary_round, shl_align. change (Z.pos (digits2_pos p)) with d.
  assert (Z.sub (fexp 24 128 (Z.add d 0)) 0 = d - 24) as -> by (rewrite fexp_eq; lia).
  destruct (d - 24) as [|q|q] eqn:Eq; [|lia|].
  - assert (d = 24) as Hd24 by lia. rewrite Hd24. apply round_exact; [exact Hd24|lia].
  - rewrite iter_shifted. assert (24 - d = Z.pos q) as -> by lia.
    change (Z.to_nat (Z.pos q)) with (Pos.to_nat q). rewrite positive_nat_Z.
    assert (fexp 24 128 (Z.add d 0) = - Z.pos q) as -> by (rewrite fexp_eq; lia).
    apply round_exact; [rewrite shifted_digits, positive_nat_Z; fold d; lia|lia].
Qed.

(** Division of a 24-bit significand by 1 or 4, powers of two, is exact. *)
Lemma div_pow2 p e ey : Z.pos (digits2_pos p) = 24 -> -23 <= e <= 0 -> ey = -23 \/ ey = -21 ->
  f32_div (S754_finite false p e) (S754_finite false 8388608 ey) = S754_finite false p (e - (ey + 23)).
Proof.
  intros Hd He Hey. unfold f32_div, SFdiv, SFdiv_core_binary, Zdigits2. rewrite Hd.
  change (Z.pos (digits2_pos 8388608)) with 24. rewrite !fexp_eq.
  assert (Z.min (Z.max (24 + e - (24 + ey) - 24) (-149)) (e - ey) = e - ey - 24) as -> by lia.
  assert (e - ey - (e - ey - 24) = 24) as -> by lia. cbv iota zeta.
  assert (Z.div_eucl (Z.shiftl (Z.pos p) 24) (Z.pos 8388608) = (Z.pos (xO p), 0)) as ->.
  { pose proof (Z_div_mod (Z.shiftl (Z.pos p) 24) 8388608 ltac:(lia)) as Hdm.
    rewrite Z.shiftl_mul_pow2 in * by lia. change (2 ^ 24) with 16777216 in *.
    destruct (Z.div_eucl (Z.pos p * 16777216) 8388608) as [q r]. destruct Hdm as [Hq Hr]. f_equal; lia. }
  change (new_location (Z.pos 8388608) 0) with loc_Exact. cbv iota beta.
  unfold binary_round_aux at 1, shr_fexp, Zdigits2. cbn [digits2_pos]. rewrite Pos2Z.inj_succ, Hd, !fexp_eq.
  assert (Z.max (Z.succ 24 + (e - ey - 24) - 24) (-149) - (e - ey - 24) = 1) as -> by lia.
  cbn [shr shr_record_of_loc SpecFloat.iter_pos shr_1 orb shr_m loc_of_shr_record round_nearest_even]. rewrite Hd, !fexp_eq.
  assert (Z.max (24 + (e - ey - 24 + 1) - 24) (-149) - (e - ey - 24 + 1) = 0) as -> by lia.
  cbn [shr shr_m]. change (128 - 24) with 104. replace (e - ey - 24 + 1) with (e - (ey + 23)) by lia.
  by destruct (Z.leb_spec (e - (ey + 23)) 104); [|lia].
Qed.

(** The divisor is 1, or 4 in the conservative phase. *)
Definition divisor_ok (h : HybridSlowStart) : Prop := ss_growth_divisor h = one \/ ss_growth_divisor h = CSS_GROWTH_DIVISOR.

(** The growth divisor as an integer. *)
Definition divisor (h : HybridSlowStart) : Z := if SFeqb (ss_growth_divisor h) one then 1 else 4.

Lemma ceil_trunc p k j : Z.of_nat k <= 23 -> Z.pos p < 2 ^ 24 -> 0 <= j <= 2 ->
  usize_of_f32 (f32_ceil (S754_finite false (shifted p k) (- Z.of_nat k - j))) = Some ((Z.pos p + (2 ^ j - 1)) / 2 ^ j).
Proof.
  intros Hk Hp Hj. unfold f32_ceil. assert (0 < 2 ^ j) by (apply Z.pow_pos_nonneg; lia).
  assert (2 ^ j <= 4) by (apply (Z.pow_le_mono_r 2 j 2); lia).
  destruct (Z.leb_spec 0 (- Z.of_nat k - j)) as [He|He].
  - assert (k = 0%nat) as -> by lia. assert (j = 0) as -> by lia. cbn [shifted].
    unfold usize_of_f32. change (0 <=? - Z.of_nat 0 - 0) with true. cbv iota. change (2 ^ 0) with 1. change (2 ^ (- Z.of_nat 0 - 0)) with 1.
    rewrite Z.mul_1_r, Z.div_1_r. unfold intCast, U64_MAX.
    destruct (Z.leb_spec 0 (Z.pos p)), (Z.leb_spec (Z.pos p) 18446744073709551615); try lia. done.
  - replace (- (- Z.of_nat k - j)) with (Z.of_nat k + j) by lia. rewrite shifted_value, Z.pow_add_r by lia.
    set (w := 2 ^ Z.of_nat k). assert (0 < w) by (apply Z.pow_pos_nonneg; lia).
    assert ((Z.pos p * w + (w * 2 ^ j - 1)) / (w * 2 ^ j) = (Z.pos p + (2 ^ j - 1)) / 2 ^ j) as ->.
    { symmetry. apply Z.div_unique with (r := Z.pos p * w + (w * 2 ^ j - 1) - w * 2 ^ j * ((Z.pos p + (2 ^ j - 1)) / 2 ^ j)); [|lia].
      left. pose proof (Z.div_mod (Z.pos p + (2 ^ j - 1)) (2 ^ j) ltac:(lia)) as Hdm.
      pose proof (Z.mod_pos_bound (Z.pos p + (2 ^ j - 1)) (2 ^ j) ltac:(lia)).
      set (q := (Z.pos p + (2 ^ j - 1)) / 2 ^ j) in *. set (r := (Z.pos p + (2 ^ j - 1)) mod 2 ^ j) in *.
      replace (Z.pos p * w) with ((2 ^ j * q + r - (2 ^ j - 1)) * w) by (rewrite <- Hdm; lia). nia. }
    set (q := (Z.pos p + (2 ^ j - 1)) / 2 ^ j).
    assert (1 <= q) by (apply Z.div_le_lower_bound; lia).
    assert (q <= Z.pos p) by (apply Z.div_le_upper_bound; nia).
    destruct q as [|q|q]; [lia| |lia]. destruct (of_int_exact q ltac:(lia)) as (k' & Hk' & -> & _).
    unfold usize_of_f32. rewrite shifted_value. set (w' := 2 ^ Z.of_nat k'). assert (0 < w') by (apply Z.pow_pos_nonneg; lia).
    assert ((if 0 <=? - Z.of_nat k' then Z.pos q * w' * 2 ^ (- Z.of_nat k') else Z.pos q * w' / 2 ^ (- - Z.of_nat k')) = Z.pos q) as ->.
    { rewrite Z.opp_involutive. fold w'. destruct (Z.leb_spec 0 (- Z.of_nat k')); [|apply Z.div_mul; lia].
      assert (k' = 0%nat) as -> by lia. unfold w'. cbn. lia. }
    unfold intCast, U64_MAX. destruct (Z.leb_spec 0 (Z.pos q)), (Z.leb_spec (Z.pos q) 18446744073709551615); try lia. done.
Qed.

(** The increment is the byte count, or a quarter of it rounded up. *)
Lemma increment_exact h n : divisor_ok h -> 0 <= n < 2 ^ 24 -> increment h n = Some ((n + (divisor h - 1)) / divisor h).
Proof.
  intros Hd Hn. unfold increment, cwndIncrement, divisor. destruct n as [|p|p]; [by destruct Hd as [-> | ->]| |lia].
  destruct (of_int_exact p ltac:(lia)) as (k & Hk & -> & Hdig).
  destruct Hd as [-> | ->].
  - change one with (S754_finite false 8388608 (-23)). rewrite div_pow2 by (done || lia).
    replace (- Z.of_nat k - (-23 + 23)) with (- Z.of_nat k - 0) by lia. rewrite (ceil_trunc p k 0) by lia. done.
  - change CSS_GROWTH_DIVISOR with (S754_finite false 8388608 (-21)). rewrite div_pow2 by (done || lia).
    replace (- Z.of_nat k - (-21 + 23)) with (- Z.of_nat k - 2) by lia. rewrite (ceil_trunc p k 2) by lia. done.
Qed.

(** ** Safety of the controller *)

(** Round-trip times are differences of [i64] nanosecond clocks. *)
Definition rtt_ok (o : option Z) : Prop := match o with Some r => 0 <= r <= I64_MAX | None => True end.

(** After at most [n] samples. *)
Record hss_ok (n : Z) (h : HybridSlowStart) : Prop := {
  ho_divisor : divisor_ok h;
  ho_samples : 0 <= sample_count h <= n;
  ho_css : 0 <= css_count h <= n;
  ho_last : rtt_ok (last_min_rtt_ns h);
  ho_cur : rtt_ok (cur_min_rtt_ns h);
}.

Lemma hss_init mds : hss_ok 0 (init mds).
Proof. split; cbn; try done. by left. Qed.

Lemma hss_mono n m h : n <= m -> hss_ok n h -> hss_ok m h.
Proof. intros Hnm []. split; try done; lia. Qed.

Lemma add64_ok a b : a + b <= U64_MAX -> add64 a b = Some (a + b).
Proof. intros. unfold add64. by destruct (Z.leb_spec (a + b) U64_MAX); [|lia]. Qed.

Lemma css_phase_ok n h w cur : hss_ok (n + 1) h -> css_count h <= n -> n < U64_MAX -> wp (css_phase h w cur) (hss_ok (n + 1)).
Proof.
  intros [Hd Hs Hc Hl Hcur] Hc' Hn. unfold css_phase. rewrite add64_ok by lia. cbn [mbind option_bind].
  destruct (cur <? _), (_ >=? CSS_ROUNDS); split; cbn; try done; try lia; by left.
Qed.

Lemma detection_phase_ok n h w last cur : hss_ok n h -> 0 <= last <= I64_MAX -> wp (detection_phase h w last cur) (hss_ok n).
Proof.
  intros [Hd Hs Hc Hl Hcur] Hlast. unfold detection_phase, MAX_DELAY_THRESHOLD_NS, MIN_DELAY_THRESHOLD_NS in *. cbv zeta.
  rewrite add64_ok by (unfold I64_MAX, U64_MAX in *; lia). cbn [mbind option_bind].
  repeat case_match; split; cbn; try done; try lia; by right.
Qed.

Lemma hss_update n h w t l rtt : hss_ok n h -> n < U64_MAX -> 0 <= rtt <= I64_MAX -> wp (onRttUpdate h w t l rtt) (hss_ok (n + 1)).
Proof.
  intros Hok Hn Hr. unfold onRttUpdate. cbv zeta. destruct (_ || _); [apply wp_ret; eapply hss_mono; [|done]; lia|].
  match goal with |- context [if ?b then ?x else h] => set (h1 := if b then x else h) end.
  assert (hss_ok n h1) as H1 by (destruct Hok; subst h1; case_match; split; cbn; try done; lia). clearbody h1.
  match goal with |- context [if ?b then ?x else h1] => set (h2 := if b then x else h1) end.
  assert (hss_ok n h2) as H2.
  { destruct H1 as [? ? ? ? Hc]. subst h2. case_match; split; cbn; try done.
    unfold rtt_ok in Hc. destruct (cur_min_rtt_ns h1); cbn; lia. }
  clearbody h2. destruct H2 as [Hd Hs Hc Hl Hcur]. rewrite add64_ok by lia. cbn [mbind option_bind].
  set (h3 := h2 <| sample_count := sample_count h2 + 1 |>).
  assert (hss_ok (n + 1) h3) as H3 by (split; cbn; try done; lia).
  destruct (negb _); [by apply wp_ret|]. change (last_min_rtt_ns h3) with (last_min_rtt_ns h2).
  change (cur_min_rtt_ns h3) with (cur_min_rtt_ns h2).
  destruct (last_min_rtt_ns h2) as [last|] eqn:El; [|by apply wp_ret]. destruct (cur_min_rtt_ns h2) as [cur|] eqn:Ec; [|by apply wp_ret].
  destruct (f32_ge w (css_threshold h3)); [apply css_phase_ok; [done|cbn; lia|done]|by apply detection_phase_ok].
Qed.

Lemma hss_event n h x : hss_ok n h -> hss_ok n (onCongestionEvent h x).
Proof. intros []. split; cbn; try done. by left. Qed.

End HyStart.
