(* ===== verification/Cubic.v ===== *)
(** * CUBIC (src/quic/cubic.zig)

    The f64 arithmetic of the controller as IEEE 754 binary64, its state and
    operations. *)
From Stdlib Require Import SpecFloat.
From S2P Require Import Prelude Codec.
Import Codec.
Local Open Scope Z_scope.

Module Cubic.

(** ** f64 *)

Definition f64 : Type := spec_float.

Definition f64_of_int (z : Z) : f64 := binary_normalize 53 1024 z 0 false.
Definition f64_add : f64 -> f64 -> f64 := SFadd 53 1024.
Definition f64_sub : f64 -> f64 -> f64 := SFsub 53 1024.
Definition f64_mul : f64 -> f64 -> f64 := SFmul 53 1024.
Definition f64_div : f64 -> f64 -> f64 := SFdiv 53 1024.
Definition f64_lt (a b : f64) : bool := SFltb a b.
Definition f64_le (a b : f64) : bool := SFleb a b.
Definition f64_eq (a b : f64) : bool := SFeqb a b.
Definition f64_max (a b : f64) : f64 :=
  match a, b with S754_nan, _ => b | _, S754_nan => a | _, _ => if f64_lt a b then b else a end.

(** [@intFromFloat] to [usize]: truncation; out of range is illegal. *)
Definition usize_of_f64 (a : f64) : option Z :=
  match a with
  | S754_zero _ => Some 0
  | S754_finite false m e => intCast U64_MAX (if 0 <=? e then Z.pos m * 2 ^ e else Z.pos m / 2 ^ (- e))
  | S754_finite true m e => if (if 0 <=? e then Z.pos m * 2 ^ e else Z.pos m / 2 ^ (- e)) =? 0 then Some 0 else None
  | _ => None
  end.

Definition zero : f64 := f64_of_int 0.
Definition one : f64 := f64_of_int 1.

(** 0.4 and 0.7, the nearest doubles. *)
Definition C : f64 := S754_finite false 7205759403792794 (-54).
Definition beta : f64 := S754_finite false 6305039478318694 (-53).

Definition ns_per_s : Z := 1000000000.

(** ** State and operations *)

Record CubicState : Type := MkCubic {
  w_max : f64;
  k : f64;
  epoch_start_nanos : option Z;
  tcp_cwnd : f64;
  last_ack_nanos : option Z;
  app_limited_start_nanos : option Z;
  window_increase_nanos : option Z;
}.

#[export] Instance eta_cubic : Eta CubicState := fun c =>
  MkCubic (w_max c) (k c) (epoch_start_nanos c) (tcp_cwnd c) (last_ack_nanos c) (app_limited_start_nanos c)
    (window_increase_nanos c).

Definition initial_cubic : CubicState := MkCubic zero zero None zero None None None.

(** Newton's method, [n] rounds to go. *)
Fixpoint cbrt_loop (n : nat) (x guess : f64) : f64 :=
  match n with
  | 0%nat => guess
  | S n =>
      let guess_sq := f64_mul guess guess in
      if f64_eq guess_sq zero then guess else
      cbrt_loop n x (f64_div (f64_add (f64_mul (f64_of_int 2) guess) (f64_div x guess_sq)) (f64_of_int 3))
  end.

Definition cbrt (x : f64) : f64 :=
  if f64_le x zero then zero else
  let guess := f64_div x (f64_of_int 3) in
  let guess := if f64_eq guess zero then one else guess in
  cbrt_loop 20 x guess.

(** The new window, and the new state; [None]: a conversion or a product out of range. *)
Definition onCongestionEvent (c : CubicState) (cwnd max_datagram_size now_nanos : Z) : option (Z * CubicState) :=
  let cwnd_f := f64_of_int cwnd in
  let mds_f := f64_of_int max_datagram_size in
  let c := c <| w_max := f64_div cwnd_f mds_f |> <| epoch_start_nanos := Some now_nanos |> in
  let c := c <| tcp_cwnd := w_max c |> <| last_ack_nanos := Some now_nanos |> in
  let w_max_reduction := f64_div (f64_mul (w_max c) (f64_sub one beta)) C in
  let c := c <| k := if f64_lt zero w_max_reduction then cbrt w_max_reduction else zero |> in
  let new_cwnd_segments := f64_mul (w_max c) beta in
  new_cwnd ← usize_of_f64 (f64_mul new_cwnd_segments mds_f);
  floor ← intCast U64_MAX (2 * max_datagram_size);
  Some (Z.max new_cwnd floor, c).

Definition onAppLimited (c : CubicState) (now_nanos : Z) : CubicState :=
  match app_limited_start_nanos c with None => c <| app_limited_start_nanos := Some now_nanos |> | Some _ => c end.

Definition nanosToSecsF (ns : Z) : f64 := f64_div (f64_of_int ns) (f64_of_int ns_per_s).

Definition cubicWindow (c : CubicState) (cwnd max_datagram_size now_nanos : Z) : option (Z * CubicState) :=
  match epoch_start_nanos c with
  | None => Some (cwnd, c)
  | Some epoch_start =>
      c ← match app_limited_start_nanos c with
          | None => Some c
          | Some al_start =>
              al_duration ← i64 (now_nanos - al_start);
              c ← (if al_duration >? 0
                   then adjusted ← i64 (epoch_start + al_duration); Some (c <| epoch_start_nanos := Some adjusted |>)
                   else Some c);
              Some (c <| app_limited_start_nanos := None |> <| window_increase_nanos := Some now_nanos |>)
          end;
      match epoch_start_nanos c with
      | None => Some (cwnd, c)
      | Some adjusted_epoch =>
          elapsed ← i64 (now_nanos - adjusted_epoch);
          let t_sec := nanosToSecsF elapsed in
          let diff := f64_sub t_sec (k c) in
          let w_cubic := f64_add (f64_mul (f64_mul (f64_mul C diff) diff) diff) (w_max c) in
          w_cubic_bytes ← usize_of_f64 (f64_mul w_cubic (f64_of_int max_datagram_size));
          Some (if w_cubic_bytes <? cwnd then cwnd else w_cubic_bytes, c)
      end
  end.

Definition wCubicSegments (c : CubicState) (t_sec : f64) : f64 :=
  let diff := f64_sub t_sec (k c) in
  f64_add (f64_mul (f64_mul (f64_mul C diff) diff) diff) (w_max c).

Definition wEst (c : CubicState) (t_sec rtt_sec : f64) : f64 :=
  if f64_le rtt_sec zero then f64_mul (w_max c) beta else
  f64_add (f64_mul (w_max c) beta)
    (f64_mul (f64_div (f64_mul (f64_of_int 3) (f64_sub one beta)) (f64_add one beta)) (f64_div t_sec rtt_sec)).

Definition reset (c : CubicState) : CubicState := initial_cubic.

(** *** The examples of the unit tests *)

(** A loss at a window of ten segments of 1200 bytes leaves seven. *)
Lemma cubic_beta : exists c, onCongestionEvent initial_cubic 12000 1200 1000000000 = Some (8400, c).
Proof. vm_compute. eexists. reflexivity. Qed.

End Cubic.
