(* ===== verification/Recovery.v ===== *)
(** * Recovery state and congestion window (src/quic/recovery.zig)

    RTT estimation, PTO, bytes in flight and the congestion window, one
    definition per function of the [Recovery] struct.  [None] is illegal
    behaviour: checked arithmetic, [@intCast] or [@intFromFloat] out of range. *)
From S2P Require Import Prelude Codec HyStart Cubic.
Import Codec.
Local Open Scope Z_scope.

Module Recovery.

(** ** Saturating arithmetic *)

Definition timer_granularity_ns : Z := 1000000.
Definition time_threshold_numerator : Z := 9.
Definition time_threshold_denominator : Z := 8.
Definition persistent_congestion_threshold : Z := 3.

Definition saturatingAddU64 (a b : Z) : Z := if a + b <=? U64_MAX then a + b else U64_MAX.
Definition saturatingMulU64 (a b : Z) : Z := if a * b <=? U64_MAX then a * b else U64_MAX.
Definition saturatingMulUsize (a b : Z) : Z := if a * b <=? U64_MAX then a * b else U64_MAX.
Definition saturatingCeilMulDivU64 (value numerator denominator : Z) : Z :=
  let product := saturatingMulU64 value numerator in
  if product =? U64_MAX then product else
  let rounded := saturatingAddU64 product (denominator - 1) in
  rounded / denominator.

(** Checked [u64] product. *)
Definition mul64 (a b : Z) : option Z := if a * b <=? U64_MAX then Some (a * b) else None.

Definition initialCongestionWindow (max_datagram_size : Z) : Z :=
  Z.min (saturatingMulUsize 10 max_datagram_size) (Z.max (saturatingMulUsize 2 max_datagram_size) 14720).

Definition minimumCongestionWindow (max_datagram_size : Z) : Z := saturatingMulUsize 2 max_datagram_size.

Definition timeThresholdLossDelayNs (latest_rtt_ns : option Z) (smoothed_rtt_ns : Z) : Z :=
  let rtt_basis := match latest_rtt_ns with Some latest_rtt => Z.max latest_rtt smoothed_rtt_ns | None => smoothed_rtt_ns end in
  let loss_delay := saturatingCeilMulDivU64 rtt_basis time_threshold_numerator time_threshold_denominator in
  Z.max loss_delay timer_granularity_ns.

(** ** State *)

Inductive CongestionAlgorithm : Type := new_reno | cubic_algorithm.

Record Config : Type := MkConfig {
  cfg_max_datagram_size : Z;
  cfg_initial_rtt_ns : Z;
  cfg_max_ack_delay_ns : Z;
  cfg_congestion_algorithm : CongestionAlgorithm;
  cfg_pto_jitter_percentage : Z;
}.

Inductive CongestionState : Type := slow_start | recovery | congestion_avoidance.

#[export] Instance congestion_state_eq_dec : EqDecision CongestionState.
Proof. solve_decision. Defined.

(** The generator [prng] is not a field: a draw is an argument of the operations that make one. *)
Record Recovery : Type := MkRecovery {
  max_datagram_size : Z;
  max_ack_delay_ns : Z;
  latest_rtt_ns : option Z;
  min_rtt_ns : option Z;
  smoothed_rtt_ns : Z;
  rttvar_ns : Z;
  pto_count : Z;
  bytes_in_flight : Z;
  congestion_window : Z;
  congestion_avoidance_bytes_acked : Z;
  congestion_state : CongestionState;
  congestion_recovery_start_time_nanos : option Z;
  fast_retransmission_required : bool;
  largest_sent_packet_number : Z;
  largest_sent_at_last_cutback : option Z;
  largest_acked_packet_number : option Z;
  packets_lost : Z;
  packets_retransmitted : Z;
  ssthresh : Z;
  congestion_algorithm : CongestionAlgorithm;
  cubic : Cubic.CubicState;
  hystart : HyStart.HybridSlowStart;
  last_sent_time_nanos : Z;
  pto_jitter_percentage : Z;
}.

#[export] Instance eta_recovery : Eta Recovery := fun r =>
  MkRecovery (max_datagram_size r) (max_ack_delay_ns r) (latest_rtt_ns r) (min_rtt_ns r) (smoothed_rtt_ns r)
    (rttvar_ns r) (pto_count r) (bytes_in_flight r) (congestion_window r) (congestion_avoidance_bytes_acked r)
    (congestion_state r) (congestion_recovery_start_time_nanos r) (fast_retransmission_required r)
    (largest_sent_packet_number r) (largest_sent_at_last_cutback r) (largest_acked_packet_number r) (packets_lost r)
    (packets_retransmitted r) (ssthresh r) (congestion_algorithm r) (cubic r) (hystart r) (last_sent_time_nanos r)
    (pto_jitter_percentage r).

Definition init (config : Config) : Recovery :=
  let initial_rtt := cfg_initial_rtt_ns config in
  let mds := cfg_max_datagram_size config in
  MkRecovery mds (cfg_max_ack_delay_ns config) None None initial_rtt (initial_rtt / 2) 0 0 (initialCongestionWindow mds) 0
    slow_start None false 0 None None 0 0 U64_MAX (cfg_congestion_algorithm config) Cubic.initial_cubic (HyStart.init mds)
    0 (cfg_pto_jitter_percentage config).

(** ** Queries *)

Definition canSend (r : Recovery) (bytes : Z) : bool :=
  match add64 (bytes_in_flight r) bytes with None => false | Some after_send => after_send <=? congestion_window r end.

Definition availableCongestionWindow (r : Recovery) : Z :=
  if bytes_in_flight r >=? congestion_window r then 0 else congestion_window r - bytes_in_flight r.

Definition inSlowStart (r : Recovery) : bool :=
  match congestion_state r with
  | slow_start =>
      if congestion_window r >=? ssthresh r then false
      else if HyStart.thresholdFound (hystart r)
      then HyStart.f32_lt (HyStart.f32_of_int (congestion_window r)) (HyStart.threshold (hystart r))
      else true
  | _ => false
  end.

Definition isCongestionWindowUtilized (r : Recovery) : option bool :=
  if bytes_in_flight r >=? congestion_window r then Some true
  else if inSlowStart r then Some (bytes_in_flight r >=? congestion_window r / 2)
  else
    let available := congestion_window r - bytes_in_flight r in
    burst ← mul64 (max_datagram_size r) 3;
    Some (available <=? burst).

Definition inRecoveryByPacketNumber (r : Recovery) : bool :=
  match largest_acked_packet_number r, largest_sent_at_last_cutback r with
  | Some acked, Some cutback => acked <=? cutback
  | _, _ => false
  end.

Definition inCongestionRecovery (r : Recovery) (sent_time_nanos : Z) : bool :=
  match congestion_recovery_start_time_nanos r with
  | None => false
  | Some recovery_start => sent_time_nanos <=? recovery_start
  end.

Definition wouldStartCongestionRecovery (r : Recovery) (sent_time_nanos : Z) : bool :=
  negb (inCongestionRecovery r sent_time_nanos).

(** ** Bytes in flight and RTT *)

Definition onPacketSent (r : Recovery) (bytes : Z) : Recovery :=
  r <| bytes_in_flight := match add64 (bytes_in_flight r) bytes with Some n => n | None => U64_MAX end |>.

Definition removeBytesInFlight (r : Recovery) (bytes : Z) : Recovery :=
  r <| bytes_in_flight := if bytes >=? bytes_in_flight r then 0 else bytes_in_flight r - bytes |>.

Definition notifyLargestAcked (r : Recovery) (pn : Z) : Recovery :=
  let largest := match largest_acked_packet_number r with Some cur => if pn >? cur then pn else cur | None => pn end in
  let r := r <| largest_acked_packet_number := Some largest |> in
  match congestion_state r with
  | recovery =>
      match largest_sent_at_last_cutback r with
      | Some cutback => if largest >? cutback then r <| congestion_state := congestion_avoidance |> else r
      | None => r
      end
  | _ => r
  end.

Definition min_trackable_rtt_ns : Z := 1000.

Definition updateRtt (r : Recovery) (latest ack_delay_ns : Z) : Recovery :=
  let clamped_rtt := Z.max latest min_trackable_rtt_ns in
  let had_rtt_sample := bool_decide (is_Some (latest_rtt_ns r)) in
  let min_rtt := match min_rtt_ns r with Some min_rtt => Z.min min_rtt clamped_rtt | None => clamped_rtt end in
  let r := r <| latest_rtt_ns := Some clamped_rtt |> <| min_rtt_ns := Some min_rtt |> in
  let adjusted_rtt := if clamped_rtt >? saturatingAddU64 min_rtt ack_delay_ns then clamped_rtt - ack_delay_ns else clamped_rtt in
  if negb had_rtt_sample then r <| smoothed_rtt_ns := adjusted_rtt |> <| rttvar_ns := adjusted_rtt / 2 |> else
  let rtt_delta := if smoothed_rtt_ns r >? adjusted_rtt then smoothed_rtt_ns r - adjusted_rtt
    else adjusted_rtt - smoothed_rtt_ns r in
  r <| rttvar_ns := saturatingAddU64 (saturatingMulU64 3 (rttvar_ns r)) rtt_delta / 4 |>
    <| smoothed_rtt_ns := saturatingAddU64 (saturatingMulU64 7 (smoothed_rtt_ns r)) adjusted_rtt / 8 |>.

(** ** Window growth *)

(** The loop of [growCongestionAvoidanceNewReno]; [None]: out of fuel. *)
Fixpoint new_reno_loop (fuel : nat) (r : Recovery) : option Recovery :=
  if congestion_avoidance_bytes_acked r >=? congestion_window r then
    match fuel with
    | 0%nat => None
    | S fuel =>
        let window_before_growth := congestion_window r in
        let r := r <| congestion_avoidance_bytes_acked := congestion_avoidance_bytes_acked r - window_before_growth |> in
        let r := r <| congestion_window := saturatingAddU64 (congestion_window r) (max_datagram_size r) |> in
        if congestion_window r =? U64_MAX then Some (r <| congestion_avoidance_bytes_acked := 0 |>)
        else new_reno_loop fuel r
    end
  else Some r.

Definition growCongestionAvoidanceNewReno (r : Recovery) (bytes : Z) : option Recovery :=
  let r := r <| congestion_avoidance_bytes_acked := saturatingAddU64 (congestion_avoidance_bytes_acked r) bytes |> in
  new_reno_loop (Z.to_nat (congestion_avoidance_bytes_acked r / congestion_window r)) r.

Definition growCongestionAvoidanceCubic (r : Recovery) (bytes now_nanos : Z) : option Recovery :=
  match congestion_recovery_start_time_nanos r with
  | None => Some r
  | Some epoch_start =>
      let mds_f := Cubic.f64_of_int (max_datagram_size r) in
      let cwnd_f := Cubic.f64_of_int (congestion_window r) in
      let rtt_sec := Cubic.f64_div (Cubic.f64_of_int (smoothed_rtt_ns r)) (Cubic.f64_of_int Cubic.ns_per_s) in
      elapsed ← i64 (now_nanos - epoch_start);
      let t_sec := Cubic.f64_div (Cubic.f64_of_int elapsed) (Cubic.f64_of_int Cubic.ns_per_s) in
      let max_cwnd := Cubic.f64_add cwnd_f (Cubic.f64_div (Cubic.f64_of_int bytes) (Cubic.f64_of_int 2)) in
      let w_cubic := Cubic.wCubicSegments (cubic r) t_sec in
      let w_est := Cubic.wEst (cubic r) t_sec rtt_sec in
      if Cubic.f64_lt w_cubic w_est then
        w_est_bytes ← Cubic.usize_of_f64 (Cubic.f64_mul w_est mds_f);
        limit ← Cubic.usize_of_f64 max_cwnd;
        Some (r <| congestion_window := Z.min w_est_bytes limit |>)
      else
        let w_cubic_target := Cubic.wCubicSegments (cubic r) (Cubic.f64_add t_sec rtt_sec) in
        let target_bytes := Cubic.f64_mul w_cubic_target mds_f in
        if Cubic.f64_le target_bytes cwnd_f then Some r else
        let rate := Cubic.f64_div (Cubic.f64_sub target_bytes cwnd_f) cwnd_f in
        let increment := Cubic.f64_mul rate mds_f in
        inc_usize ← Cubic.usize_of_f64 (Cubic.f64_max increment Cubic.one);
        grown ← add64 (congestion_window r) inc_usize;
        limit ← Cubic.usize_of_f64 max_cwnd;
        Some (r <| congestion_window := Z.min grown limit |>)
  end.

Definition growCongestionAvoidance (r : Recovery) (bytes now_nanos : Z) : option Recovery :=
  match congestion_algorithm r with
  | new_reno => growCongestionAvoidanceNewReno r bytes
  | cubic_algorithm => growCongestionAvoidanceCubic r bytes now_nanos
  end.

(** ** Acknowledgements *)

Definition onAckedBytesForCongestion (r : Recovery) (bytes sent_time_nanos : Z) (congestion_window_utilized : bool)
    : option Recovery :=
  let r := r <| pto_count := 0 |> in
  let r := if congestion_window_utilized then r else
    match congestion_algorithm r with
    | cubic_algorithm => r <| cubic := Cubic.onAppLimited (cubic r) sent_time_nanos |>
    | new_reno => r
    end in
  if negb congestion_window_utilized && negb (bool_decide (congestion_state r = congestion_avoidance)) then Some r else
  if bool_decide (congestion_state r = recovery) && inCongestionRecovery r sent_time_nanos then Some r else
  let r := if bool_decide (congestion_state r = recovery) then r <| congestion_state := congestion_avoidance |> else r in
  if inSlowStart r then
    inc_usize ← HyStart.increment (hystart r) bytes;
    Some (r <| congestion_window := saturatingAddU64 (congestion_window r) inc_usize |>
            <| congestion_avoidance_bytes_acked := 0 |>)
  else if congestion_window r =? 0 then
    Some (r <| congestion_window := Z.max bytes (minimumCongestionWindow (max_datagram_size r)) |>
            <| congestion_avoidance_bytes_acked := 0 |>)
  else growCongestionAvoidance r bytes sent_time_nanos.

Definition onPacketAckedWithUtilization (r : Recovery) (bytes sent_time_nanos latest ack_delay_ns : Z)
    (congestion_window_utilized : bool) : option Recovery :=
  let r := removeBytesInFlight r bytes in
  let r := updateRtt r latest ack_delay_ns in
  r ← (if inSlowStart r then
         h ← HyStart.onRttUpdate (hystart r) (HyStart.f32_of_int (congestion_window r)) sent_time_nanos
               (last_sent_time_nanos r) latest;
         Some (r <| hystart := h |>)
       else Some r);
  onAckedBytesForCongestion r bytes sent_time_nanos congestion_window_utilized.

Definition onPacketAcked (r : Recovery) (bytes sent_time_nanos latest ack_delay_ns : Z) : option Recovery :=
  onPacketAckedWithUtilization r bytes sent_time_nanos latest ack_delay_ns true.

Definition onPacketAckedWithoutRttSample (r : Recovery) (bytes sent_time_nanos : Z) (congestion_window_utilized : bool)
    : option Recovery :=
  onAckedBytesForCongestion (removeBytesInFlight r bytes) bytes sent_time_nanos congestion_window_utilized.

(** ** Congestion events *)

Definition onCongestionEventWithPacketNumber (r : Recovery) (sent_time_nanos now_nanos : Z) (lost_packet_number : option Z)
    : option Recovery :=
  if bool_decide (congestion_state r = recovery) then Some r else
  let suppressed := match lost_packet_number with
    | Some pn => match largest_sent_at_last_cutback r with Some last_cut => pn <=? last_cut | None => false end
    | None => inCongestionRecovery r sent_time_nanos
    end in
  if suppressed then Some r else
  let r := r <| congestion_state := recovery |> <| congestion_recovery_start_time_nanos := Some now_nanos |>
             <| fast_retransmission_required := true |>
             <| largest_sent_at_last_cutback := Some (largest_sent_packet_number r) |>
             <| congestion_avoidance_bytes_acked := 0 |> in
  match congestion_algorithm r with
  | new_reno =>
      let r := r <| ssthresh := congestion_window r / 2 |> in
      let r := r <| congestion_window := Z.max (ssthresh r) (minimumCongestionWindow (max_datagram_size r)) |> in
      Some (r <| hystart := HyStart.onCongestionEvent (hystart r) (HyStart.f32_of_int (ssthresh r)) |>)
  | cubic_algorithm =>
      '(w, c) ← Cubic.onCongestionEvent (cubic r) (congestion_window r) (max_datagram_size r) now_nanos;
      let r := r <| congestion_window := w |> <| cubic := c |> in
      let r := r <| ssthresh := congestion_window r |> in
      Some (r <| hystart := HyStart.onCongestionEvent (hystart r) (HyStart.f32_of_int (ssthresh r)) |>)
  end.

Definition onCongestionEvent (r : Recovery) (sent_time_nanos now_nanos : Z) : option Recovery :=
  onCongestionEventWithPacketNumber r sent_time_nanos now_nanos None.

Definition onPacketLostWithNumber (r : Recovery) (bytes lost_packet_sent_time_nanos now_nanos : Z) (lost_pn : option Z)
    : option Recovery :=
  let r := r <| packets_lost := uadd64 (packets_lost r) 1 |> in
  let r := removeBytesInFlight r bytes in
  onCongestionEventWithPacketNumber r lost_packet_sent_time_nanos now_nanos lost_pn.

Definition onPacketLost (r : Recovery) (bytes lost_packet_sent_time_nanos now_nanos : Z) : option Recovery :=
  onPacketLostWithNumber r bytes lost_packet_sent_time_nanos now_nanos None.

Definition recordRetransmission (r : Recovery) : Recovery :=
  r <| packets_retransmitted := uadd64 (packets_retransmitted r) 1 |>.

Definition onPersistentCongestion (r : Recovery) : Recovery :=
  r <| congestion_window := minimumCongestionWindow (max_datagram_size r) |> <| congestion_state := slow_start |>
    <| congestion_avoidance_bytes_acked := 0 |> <| congestion_recovery_start_time_nanos := None |>
    <| fast_retransmission_required := false |>.

Definition onPersistentCongestionWithRttSample (r : Recovery) (latest : option Z) : Recovery :=
  let r := onPersistentCongestion r in
  match latest with Some latest => r <| min_rtt_ns := Some latest |> | None => r end.

Definition updateMaxDatagramSize (r : Recovery) (new_max_datagram_size : Z) : Recovery :=
  let previous := max_datagram_size r in
  if previous =? new_max_datagram_size then r else
  let r := r <| max_datagram_size := new_max_datagram_size |> in
  if new_max_datagram_size <? previous
  then r <| congestion_window := initialCongestionWindow new_max_datagram_size |> <| congestion_avoidance_bytes_acked := 0 |>
  else
    let minimum_window := minimumCongestionWindow new_max_datagram_size in
    if congestion_window r <? minimum_window
    then r <| congestion_window := minimum_window |> <| congestion_avoidance_bytes_acked := 0 |>
    else r.

(** ** Probe timeout *)

Definition onPtoExpired (r : Recovery) : Recovery :=
  if negb (pto_count r =? 255) then r <| pto_count := pto_count r + 1 |> else r.

Definition basePtoNs (r : Recovery) (include_max_ack_delay : bool) : Z :=
  let variance_delay := Z.max (saturatingMulU64 4 (rttvar_ns r)) timer_granularity_ns in
  let ack_delay := if include_max_ack_delay then max_ack_delay_ns r else 0 in
  saturatingAddU64 (saturatingAddU64 (smoothed_rtt_ns r) variance_delay) ack_delay.

(** [@intCast] from [u64] to [i64]. *)
Definition i64_of_u64 (z : Z) : option Z := intCast I64_MAX z.

(** [intRangeAtMost range] is the next number of the generator in [0, range]. *)
Definition basePtoWithJitterNs (intRangeAtMost : Z -> Z) (r : Recovery) (include_max_ack_delay : bool) : option Z :=
  let base := basePtoNs r include_max_ack_delay in
  let pct := pto_jitter_percentage r in
  if pct =? 0 then Some base else
  scaled ← mul64 base (Z.min pct 50);
  let max_jitter := scaled / 100 in
  if max_jitter =? 0 then Some base else
  range ← mul64 2 max_jitter;
  let rand_val := intRangeAtMost range in
  rand_signed ← i64_of_u64 rand_val;
  max_signed ← i64_of_u64 max_jitter;
  jitter ← i64 (rand_signed - max_signed);
  base_signed ← i64_of_u64 base;
  result ← i64 (base_signed + jitter);
  if result <? timer_granularity_ns then Some timer_granularity_ns else intCast U64_MAX result.

(** The loop of [backedOffPtoNs], [count] rounds. *)
Fixpoint back_off (count : nat) (timeout : Z) : Z :=
  match count with 0%nat => timeout | S count => back_off count (saturatingMulU64 timeout 2) end.

Definition backedOffPtoNs (intRangeAtMost : Z -> Z) (r : Recovery) (include_max_ack_delay : bool) : option Z :=
  timeout ← basePtoWithJitterNs intRangeAtMost r include_max_ack_delay;
  Some (back_off (Z.to_nat (pto_count r)) timeout).

Definition ptoNs (intRangeAtMost : Z -> Z) (r : Recovery) : option Z := backedOffPtoNs intRangeAtMost r true.
Definition ptoNsWithoutMaxAckDelay (intRangeAtMost : Z -> Z) (r : Recovery) : option Z := backedOffPtoNs intRangeAtMost r false.

Definition persistentCongestionDuration (r : Recovery) : Z :=
  saturatingMulU64 (basePtoNs r true) persistent_congestion_threshold.
Definition persistentCongestionDurationWithoutMaxAckDelay (r : Recovery) : Z :=
  saturatingMulU64 (basePtoNs r false) persistent_congestion_threshold.

(** ** Histories *)

(** The calls a connection makes.  [Sent] is [recordAckElicitingSendInSpace] of src/quic/connection.zig. *)
Inductive event : Type :=
  | Sent (bytes next_packet_number now : Z)
  | LargestAcked (pn : Z)
  | Acked (bytes sent_time rtt ack_delay : Z) (utilized : bool)
  | AckedNoSample (bytes sent_time : Z) (utilized : bool)
  | Lost (bytes sent_time now : Z) (pn : option Z)
  | Retransmitted
  | CongestionEvent (sent_time now : Z)
  | PtoExpired
  | PersistentCongestion (rtt : option Z)
  | MaxDatagramSize (n : Z).

(** The part of [recordAckElicitingSendInSpace] that writes the recovery state. *)
Definition recordAckElicitingSend (r : Recovery) (bytes next_packet_number now : Z) : Recovery :=
  let r := r <| largest_sent_packet_number := next_packet_number |> in
  let r := onPacketSent r bytes in
  r <| fast_retransmission_required := false |> <| last_sent_time_nanos := now |>.

Definition apply_event (r : Recovery) (e : event) : option Recovery :=
  match e with
  | Sent bytes pn now => Some (recordAckElicitingSend r bytes pn now)
  | LargestAcked pn => Some (notifyLargestAcked r pn)
  | Acked bytes t rtt delay u => onPacketAckedWithUtilization r bytes t rtt delay u
  | AckedNoSample bytes t u => onPacketAckedWithoutRttSample r bytes t u
  | Lost bytes t now pn => onPacketLostWithNumber r bytes t now pn
  | Retransmitted => Some (recordRetransmission r)
  | CongestionEvent t now => onCongestionEvent r t now
  | PtoExpired => Some (onPtoExpired r)
  | PersistentCongestion rtt => Some (onPersistentCongestionWithRttSample r rtt)
  | MaxDatagramSize n => Some (updateMaxDatagramSize r n)
  end.

Fixpoint run (r : Recovery) (es : list event) : option Recovery :=
  match es with [] => Some r | e :: es => r ← apply_event r e; run r es end.

End Recovery.
