(* ===== verification/RecoveryProps.v ===== *)
(** * Recovery: theorems

    The invariant of NewReno over every history, one window cut per recovery
    period, exact growth in congestion avoidance, the RTT estimator, the probe
    timeout, and what CUBIC does to the window. *)
From S2P Require Import Prelude Codec HyStart Cubic Recovery.
Import Codec Recovery.
Local Open Scope Z_scope.

Module RecoveryProps.

Lemma sat_add a b : saturatingAddU64 a b = Z.min (a + b) U64_MAX.
Proof. unfold saturatingAddU64. destruct (Z.leb_spec (a + b) U64_MAX); lia. Qed.

Lemma sat_mul a b : saturatingMulU64 a b = Z.min (a * b) U64_MAX.
Proof. unfold saturatingMulU64. destruct (Z.leb_spec (a * b) U64_MAX); lia. Qed.

Lemma min_window m : m <= 65535 -> minimumCongestionWindow m = 2 * m.
Proof. intros. unfold minimumCongestionWindow, saturatingMulUsize, U64_MAX. by destruct (Z.leb_spec (2 * m) 18446744073709551615); [|lia]. Qed.

Lemma initial_window m : m <= 65535 -> initialCongestionWindow m = Z.min (10 * m) (Z.max (2 * m) 14720).
Proof.
  intros. unfold initialCongestionWindow, saturatingMulUsize, U64_MAX.
  destruct (Z.leb_spec (10 * m) 18446744073709551615), (Z.leb_spec (2 * m) 18446744073709551615); lia.
Qed.

(** ** The growth loop *)

Section Growth.
Context (r : Recovery).
Context (Hm : 1 <= max_datagram_size r <= congestion_window r).

(** [r] with another window and another count of acknowledged bytes. *)
Definition grown (w a : Z) : Recovery := r <| congestion_avoidance_bytes_acked := a |> <| congestion_window := w |>.

Lemma grow_loop_total fuel w a : congestion_window r <= w <= U64_MAX -> 0 <= a -> a / w <= Z.of_nat fuel ->
  wp (new_reno_loop fuel (grown w a)) (fun r' => exists w' a', r' = grown w' a' /\ w <= w' <= U64_MAX /\ 0 <= a' < w').
Proof.
  revert w a. induction fuel as [|fuel IH]; intros w a Hww Ha Hf; cbn [new_reno_loop].
  - cbn. destruct (Z.geb_spec a w) as [Hge|Hlt].
    + pose proof (Z.div_le_lower_bound a w 1). lia.
    + exists w, a. split; [done|]. lia.
  - cbn. destruct (Z.geb_spec a w) as [Hge|Hlt]; [|exists w, a; split; [done|lia]].
    rewrite sat_add. set (w1 := Z.min (w + max_datagram_size r) U64_MAX).
    destruct (Z.eqb_spec w1 U64_MAX) as [E|E].
    + exists w1, 0. split; [done|]. unfold U64_MAX in *. lia.
    + eapply wp_mono; [apply (IH w1 (a - w)); [unfold w1; lia|lia|]|].
      * assert ((a - w) / w1 <= (a - w) / w) by (apply Z.div_le_compat_l; unfold w1; lia).
        replace (a - w) with (a + (-1) * w) in * by lia. rewrite Z.div_add in * by lia. lia.
      * intros r' (w' & a' & -> & ? & ?). exists w', a'. split; [done|]. unfold w1 in *. lia.
Qed.

(** Bytes that buy [n] increments of the window [w]. *)
Fixpoint spent (m w : Z) (n : nat) : Z := match n with 0%nat => 0 | S n => w + spent m (w + m) n end.

Lemma grow_loop_exact fuel w a : congestion_window r <= w -> 0 <= a -> w + a < U64_MAX -> a / w <= Z.of_nat fuel ->
  wp (new_reno_loop fuel (grown w a)) (fun r' => exists n a', r' = grown (w + Z.of_nat n * max_datagram_size r) a' /\
    0 <= a' < w + Z.of_nat n * max_datagram_size r /\ a = a' + spent (max_datagram_size r) w n /\
    w + Z.of_nat n * max_datagram_size r + a' <= w + a).
Proof.
  revert w a. induction fuel as [|fuel IH]; intros w a Hww Ha Hs Hf; cbn [new_reno_loop].
  - cbn. destruct (Z.geb_spec a w) as [Hge|Hlt]; [pose proof (Z.div_le_lower_bound a w 1); lia|].
    exists 0%nat, a. cbn. rewrite Z.add_0_r. split; [done|]. lia.
  - cbn. destruct (Z.geb_spec a w) as [Hge|Hlt].
    + rewrite sat_add, Z.min_l by lia. set (w1 := w + max_datagram_size r).
      destruct (Z.eqb_spec w1 U64_MAX) as [E|E]; [unfold w1 in *; lia|].
      eapply wp_mono; [apply (IH w1 (a - w)); [unfold w1; lia|lia|unfold w1; lia|]|].
      * assert ((a - w) / w1 <= (a - w) / w) by (apply Z.div_le_compat_l; unfold w1; lia).
        replace (a - w) with (a + (-1) * w) in * by lia. rewrite Z.div_add in * by lia. lia.
      * intros r' (n & a' & -> & ? & ? & ?). exists (S n), a'. cbn [spent].
        replace (w + Z.of_nat (S n) * max_datagram_size r) with (w1 + Z.of_nat n * max_datagram_size r)
          by (unfold w1; lia). split; [done|]. fold w1. unfold w1 in *. lia.
    + exists 0%nat, a. cbn. rewrite Z.add_0_r. split; [done|]. lia.
Qed.
End Growth.

Lemma grown_self r : grown r (congestion_window r) (congestion_avoidance_bytes_acked r) = r.
Proof. by destruct r. Qed.

Lemma spent_add m w n1 n2 : spent m w (n1 + n2) = spent m w n1 + spent m (w + Z.of_nat n1 * m) n2.
Proof.
  revert w. induction n1 as [|n1 IH]; intros w; cbn [spent Nat.add]; [by rewrite Z.add_0_r|].
  rewrite IH. replace (w + m + Z.of_nat n1 * m) with (w + Z.of_nat (S n1) * m) by lia. lia.
Qed.

Lemma new_reno_total r bytes : 1 <= max_datagram_size r <= congestion_window r -> congestion_window r <= U64_MAX ->
  0 <= congestion_avoidance_bytes_acked r -> 0 <= bytes ->
  wp (growCongestionAvoidanceNewReno r bytes) (fun r' => exists w a, r' = grown r w a /\
    congestion_window r <= w <= U64_MAX /\ 0 <= a < w).
Proof.
  intros Hm Hw Ha Hb. unfold growCongestionAvoidanceNewReno. cbv zeta. rewrite sat_add.
  match goal with |- wp (new_reno_loop ?f ?x) _ => set (f0 := f) end.
  pose proof (grow_loop_total r Hm f0 (congestion_window r) (Z.min (congestion_avoidance_bytes_acked r + bytes) U64_MAX)) as L.
  unfold grown in L at 1. cbn in L. apply L; [lia|unfold U64_MAX; lia|]. unfold f0. cbn.
  rewrite Z2Nat.id; [lia|]. apply Z.div_pos; [unfold U64_MAX; lia|lia].
Qed.

Lemma new_reno_exact r bytes : 1 <= max_datagram_size r <= congestion_window r ->
  0 <= congestion_avoidance_bytes_acked r -> 0 <= bytes ->
  congestion_window r + congestion_avoidance_bytes_acked r + bytes < U64_MAX ->
  wp (growCongestionAvoidanceNewReno r bytes) (fun r' => exists n a,
    r' = grown r (congestion_window r + Z.of_nat n * max_datagram_size r) a /\
    0 <= a < congestion_window r' /\
    congestion_avoidance_bytes_acked r + bytes = a + spent (max_datagram_size r) (congestion_window r) n /\
    congestion_window r' + a <= congestion_window r + congestion_avoidance_bytes_acked r + bytes).
Proof.
  intros Hm Ha Hb Hs. unfold growCongestionAvoidanceNewReno. cbv zeta. rewrite sat_add, Z.min_l by lia.
  match goal with |- wp (new_reno_loop ?f ?x) _ => set (f0 := f) end.
  pose proof (grow_loop_exact r Hm f0 (congestion_window r) (congestion_avoidance_bytes_acked r + bytes)) as L.
  unfold grown in L at 1. cbn in L. eapply wp_mono; [apply L; [lia|lia|lia|]|].
  - unfold f0. cbn. rewrite Z2Nat.id; [lia|]. apply Z.div_pos; lia.
  - intros r' (n & a & -> & ? & ? & ?). exists n, a. split; [done|]. cbn. lia.
Qed.

(** ** The invariant of NewReno *)

Definition u64_ok (z : Z) : Prop := 0 <= z <= U64_MAX.
Definition opt_u64_ok (o : option Z) : Prop := match o with Some z => u64_ok z | None => True end.

(** After at most [n] events. *)
Record rec_ok (n : Z) (r : Recovery) : Prop := {
  ro_algorithm : congestion_algorithm r = new_reno;
  ro_mds : 1 <= max_datagram_size r <= 65535;
  ro_window : 2 * max_datagram_size r <= congestion_window r <= U64_MAX;
  ro_flight : u64_ok (bytes_in_flight r);
  ro_acked : 0 <= congestion_avoidance_bytes_acked r < congestion_window r;
  ro_pto : 0 <= pto_count r <= 255;
  ro_recovery : congestion_state r = recovery ->
    is_Some (congestion_recovery_start_time_nanos r) /\ is_Some (largest_sent_at_last_cutback r);
  ro_ssthresh : u64_ok (ssthresh r);
  ro_latest : opt_u64_ok (latest_rtt_ns r);
  ro_min : opt_u64_ok (min_rtt_ns r);
  ro_smoothed : u64_ok (smoothed_rtt_ns r);
  ro_rttvar : u64_ok (rttvar_ns r);
  ro_lost : u64_ok (packets_lost r);
  ro_retransmitted : u64_ok (packets_retransmitted r);
  ro_hystart : HyStart.hss_ok n (hystart r);
}.

(** Arguments of their types; an ACK frame acknowledges less than 16 MiB. *)
Definition event_ok (e : event) : Prop :=
  match e with
  | Sent bytes _ _ | Lost bytes _ _ _ => u64_ok bytes
  | Acked bytes _ rtt delay _ => 0 <= bytes < 2 ^ 24 /\ 0 <= rtt <= I64_MAX /\ u64_ok delay
  | AckedNoSample bytes _ _ => 0 <= bytes < 2 ^ 24
  | PersistentCongestion rtt => opt_u64_ok rtt
  | MaxDatagramSize n => 1 <= n <= 65535
  | LargestAcked _ | Retransmitted | CongestionEvent _ _ | PtoExpired => True
  end.

Definition config_ok (c : Config) : Prop :=
  cfg_congestion_algorithm c = new_reno /\ 1 <= cfg_max_datagram_size c <= 65535 /\ u64_ok (cfg_initial_rtt_ns c).

Lemma u64_div a d : u64_ok a -> 1 <= d -> u64_ok (a / d).
Proof. unfold u64_ok. intros. split; [apply Z.div_pos; lia|apply Z.div_le_upper_bound; nia]. Qed.

Ltac rec_split := split; cbn; unfold u64_ok, opt_u64_ok, U64_MAX in *; try done; try lia.

Lemma rec_mono n m r : n <= m -> rec_ok n r -> rec_ok m r.
Proof. intros Hnm []. split; try done. by eapply HyStart.hss_mono. Qed.

Lemma rec_init c : config_ok c -> rec_ok 0 (init c).
Proof.
  intros (Halg & Hm & Hr). unfold init. rewrite initial_window by lia. rec_split; [by apply u64_div|apply HyStart.hss_init].
Qed.

Lemma rec_grown n r w a : rec_ok n r -> 2 * max_datagram_size r <= w <= U64_MAX -> 0 <= a < w -> rec_ok n (grown r w a).
Proof. intros [] ? ?. split; done. Qed.

Lemma rec_remove n r bytes : rec_ok n r -> 0 <= bytes -> rec_ok n (removeBytesInFlight r bytes).
Proof. intros [] ?. unfold removeBytesInFlight. rec_split. destruct (Z.geb_spec bytes (bytes_in_flight r)); lia. Qed.

Lemma rec_rtt n r rtt delay : rec_ok n r -> 0 <= rtt <= I64_MAX -> u64_ok delay -> rec_ok n (updateRtt r rtt delay).
Proof.
  intros [] Hr Hd. unfold updateRtt. cbv zeta. rewrite !sat_add, !sat_mul. unfold min_trackable_rtt_ns, u64_ok, I64_MAX, U64_MAX in *.
  set (c := Z.max rtt 1000). set (m := match min_rtt_ns r with Some x => Z.min x c | None => c end).
  assert (0 <= m <= 18446744073709551615) as Hm by (unfold opt_u64_ok, u64_ok, U64_MAX in *; subst m; destruct (min_rtt_ns r); lia).
  set (adj := if c >? _ then c - delay else c).
  assert (0 <= adj <= 18446744073709551615) as Ha.
  { subst adj. destruct (Z.gtb_spec c (Z.min (m + delay) 18446744073709551615)); lia. }
  destruct (negb _); rec_split.
  - apply u64_div; unfold u64_ok, U64_MAX; lia.
  - apply u64_div; unfold u64_ok, U64_MAX; lia.
  - set (d := if smoothed_rtt_ns r >? adj then smoothed_rtt_ns r - adj else adj - smoothed_rtt_ns r).
    assert (0 <= d) by (subst d; destruct (Z.gtb_spec (smoothed_rtt_ns r) adj); lia).
    apply u64_div; unfold u64_ok, U64_MAX; lia.
Qed.

Lemma rec_sent n r bytes pn now : rec_ok n r -> u64_ok bytes -> rec_ok n (recordAckElicitingSend r bytes pn now).
Proof.
  intros [] ?. unfold recordAckElicitingSend, onPacketSent, add64. rec_split.
  destruct (Z.leb_spec (bytes_in_flight r + bytes) 18446744073709551615); lia.
Qed.

Lemma rec_largest_acked n r pn : rec_ok n r -> rec_ok n (notifyLargestAcked r pn).
Proof. intros Hok. unfold notifyLargestAcked. cbv zeta. repeat case_match; destruct Hok; rec_split. Qed.

(** Acknowledged bytes: no window growth, slow start, or congestion avoidance. *)
Lemma rec_acked_bytes n r bytes t u : rec_ok n r -> 0 <= bytes < 2 ^ 24 -> wp (onAckedBytesForCongestion r bytes t u) (rec_ok n).
Proof.
  intros Hok Hb. unfold onAckedBytesForCongestion. cbn [congestion_algorithm]. cbv zeta.
  set (r1 := r <| pto_count := 0 |>). assert (rec_ok n r1) as H1 by (destruct Hok; rec_split).
  match goal with |- context [if u then r1 else ?x] => replace (if u then r1 else x) with r1
    by (change (congestion_algorithm r1) with (congestion_algorithm r); by rewrite (ro_algorithm _ _ Hok); destruct u) end.
  clearbody r1. clear Hok r. destruct (negb u && _); [by apply wp_ret|]. destruct (_ && _); [by apply wp_ret|].
  match goal with |- context [inSlowStart ?x] => set (r2 := x) end.
  assert (rec_ok n r2) as H2 by (destruct H1; subst r2; case_match; rec_split). clearbody r2. clear H1 r1.
  pose proof (ro_hystart _ _ H2) as Hh. destruct H2 as [] eqn:E. clear E.
  destruct (inSlowStart r2).
  - rewrite HyStart.increment_exact by (apply Hh || lia). cbn [mbind option_bind]. apply wp_ret. rewrite sat_add.
    set (i := (bytes + _) / _). assert (0 <= i).
    { subst i. unfold HyStart.divisor. destruct (SpecFloat.SFeqb _ _); apply Z.div_pos; lia. }
    rec_split.
  - destruct (Z.eqb_spec (congestion_window r2) 0); [lia|]. unfold growCongestionAvoidance. rewrite ro_algorithm0.
    eapply wp_mono; [apply new_reno_total; lia|]. intros r' (w & a & -> & ? & ?). apply rec_grown; [done|lia|done].
Qed.

Lemma rec_congestion n r t now pn : rec_ok n r -> wp (onCongestionEventWithPacketNumber r t now pn) (rec_ok n).
Proof.
  intros Hok. unfold onCongestionEventWithPacketNumber. destruct (bool_decide _); [by apply wp_ret|]. cbv zeta.
  match goal with |- context [if ?b then Some r else _] => destruct b end; [by apply wp_ret|]. cbn [congestion_algorithm].
  destruct Hok. cbn. rewrite ro_algorithm0, min_window by lia. apply wp_ret.
  assert (0 <= congestion_window r / 2 <= congestion_window r).
  { split; [apply Z.div_pos; lia|apply Z.div_le_upper_bound; lia]. }
  rec_split. by apply HyStart.hss_event.
Qed.

Lemma rec_datagram n r m : rec_ok n r -> 1 <= m <= 65535 -> rec_ok n (updateMaxDatagramSize r m).
Proof.
  intros Hok Hm. unfold updateMaxDatagramSize. cbv zeta. rewrite initial_window, min_window by lia.
  destruct (Z.eqb_spec (max_datagram_size r) m); [done|]. destruct Hok.
  destruct (Z.ltb_spec m (max_datagram_size r)); [rec_split|]. cbn.
  destruct (Z.ltb_spec (congestion_window r) (2 * m)); rec_split.
Qed.

Lemma uadd64_range a b : u64_ok (uadd64 a b).
Proof. unfold u64_ok, uadd64, U64_MAX. pose proof (Z.mod_pos_bound (a + b) 18446744073709551616). lia. Qed.

Lemma rec_event n r e : rec_ok n r -> n < U64_MAX -> event_ok e -> wp (apply_event r e) (rec_ok (n + 1)).
Proof.
  intros Hok Hn He. destruct e as [b pn now|pn|b t rtt d u|b t u|b t now pn| |t now| |rtt|m]; cbn [apply_event event_ok] in *.
  all: try (apply wp_ret; apply (rec_mono n); [lia|]).
  - by apply rec_sent.
  - by apply rec_largest_acked.
  - destruct He as (Hb & Hr & Hd). unfold onPacketAckedWithUtilization. cbv zeta.
    set (r1 := updateRtt (removeBytesInFlight r b) rtt d).
    assert (rec_ok n r1) as H1 by (apply rec_rtt, Hd; [apply rec_remove; [done|lia]|done]). clearbody r1.
    apply wp_bind. eapply wp_mono; [|intros r2 H2; by apply rec_acked_bytes].
    destruct (inSlowStart r1); [|apply wp_ret, (rec_mono n); [lia|done]]. apply wp_bind.
    eapply wp_mono; [apply (HyStart.hss_update n); [apply H1|done|done]|]. intros h Hh. apply wp_ret.
    apply (rec_mono n (n + 1)) in H1; [|lia]. destruct H1. by rec_split.
  - apply rec_acked_bytes; [|done]. apply (rec_mono n); [lia|]. apply rec_remove; [done|lia].
  - apply rec_congestion. apply (rec_mono n); [lia|]. apply rec_remove; [|unfold u64_ok in He; lia].
    destruct Hok. rec_split. apply uadd64_range.
  - destruct Hok. unfold recordRetransmission. rec_split. apply uadd64_range.
  - apply rec_congestion. apply (rec_mono n); [lia|done].
  - destruct Hok. unfold onPtoExpired. destruct (Z.eqb_spec (pto_count r) 255); rec_split.
  - destruct Hok. unfold onPersistentCongestionWithRttSample, onPersistentCongestion. rewrite min_window by lia.
    destruct rtt; rec_split.
  - by apply rec_datagram.
Qed.

Lemma rec_run n r es : rec_ok n r -> Forall event_ok es -> n + zlen es <= U64_MAX -> wp (run r es) (rec_ok (n + zlen es)).
Proof.
  revert n r. induction es as [|e es IH]; intros n r Hok Hes Hn; cbn [run].
  - rewrite zlen_nil, Z.add_0_r. by apply wp_ret.
  - inversion_clear Hes as [|? ? He Hes']. rewrite zlen_cons in *. pose proof (zlen_nonneg es). apply wp_bind.
    eapply wp_mono; [apply (rec_event n); [done|lia|done]|]. intros r' Hr'.
    replace (n + (zlen es + 1)) with (n + 1 + zlen es) by lia. apply IH; [done|done|lia].
Qed.

(** C12: With NewReno, every history of fewer than 2^64 calls with arguments in range runs without illegal behaviour: no
    float conversion, addition or subtraction is out of range and the growth loop ends.  In every state it reaches the
    window is at least two datagrams, the bytes counted towards the next increment are below the window, a recovery period
    has its start time and cutback packet number, and every field is in the range of its type. *)
Theorem recovery_invariant (config : Config) (es : list event)
    (Hc : config_ok config) (Hes : Forall event_ok es) (Hn : zlen es <= U64_MAX) :
  wp (run (init config) es) (rec_ok (zlen es)).
Proof. apply (rec_run 0); [by apply rec_init|done|done]. Qed.

(** ** One cut per recovery period *)

(** Events of a recovery period that started at time [t0] with cutback [c]: packets of the period are not acknowledged. *)
Definition quiet (t0 c : Z) (e : event) : Prop :=
  match e with
  | LargestAcked pn => pn <= c
  | Acked _ t _ _ _ | AckedNoSample _ t _ => t <= t0
  | PersistentCongestion _ | MaxDatagramSize _ => False
  | Sent _ _ _ | Lost _ _ _ _ | Retransmitted | CongestionEvent _ _ | PtoExpired => True
  end.

Record in_period (t0 c w s : Z) (r : Recovery) : Prop := {
  ip_state : congestion_state r = recovery;
  ip_start : congestion_recovery_start_time_nanos r = Some t0;
  ip_cutback : largest_sent_at_last_cutback r = Some c;
  ip_acked : forall a, largest_acked_packet_number r = Some a -> a <= c;
  ip_window : congestion_window r = w;
  ip_ssthresh : ssthresh r = s;
}.

Lemma period_rtt t0 c w s r rtt d : in_period t0 c w s r -> in_period t0 c w s (updateRtt r rtt d).
Proof. intros []. unfold updateRtt. cbv zeta. case_match; split; done. Qed.

Lemma period_remove t0 c w s r b : in_period t0 c w s r -> in_period t0 c w s (removeBytesInFlight r b).
Proof. intros []. split; done. Qed.

Lemma period_acked t0 c w s r b t u : in_period t0 c w s r -> t <= t0 ->
  wp (onAckedBytesForCongestion r b t u) (in_period t0 c w s).
Proof.
  intros Hp Ht. unfold onAckedBytesForCongestion. cbv zeta.
  match goal with |- context [if u then _ else ?x] => set (r1 := if u then r <| pto_count := 0 |> else x) end.
  assert (in_period t0 c w s r1) as H1 by (subst r1; destruct Hp, u; [split; done|]; case_match; split; done).
  clearbody r1. destruct (negb u && _); [by apply wp_ret|]. pose proof H1 as []. rewrite ip_state0. cbn [bool_decide].
  unfold inCongestionRecovery. rewrite ip_start0, bool_decide_true by done. cbn [andb].
  by destruct (Z.leb_spec t t0); [|lia].
Qed.

Lemma period_congestion t0 c w s r t now pn : in_period t0 c w s r ->
  wp (onCongestionEventWithPacketNumber r t now pn) (in_period t0 c w s).
Proof. intros Hp. unfold onCongestionEventWithPacketNumber. by rewrite bool_decide_true by apply Hp. Qed.

Lemma period_largest t0 c w s r pn : in_period t0 c w s r -> pn <= c -> in_period t0 c w s (notifyLargestAcked r pn).
Proof.
  intros [] Hpn. unfold notifyLargestAcked. cbn. rewrite ip_state0, ip_cutback0.
  set (l := match largest_acked_packet_number r with Some cur => if pn >? cur then pn else cur | None => pn end).
  assert (l <= c) as Hl by (subst l; destruct (largest_acked_packet_number r); [case_match; auto|done]).
  destruct (Z.gtb_spec l c); [lia|]. split; cbn; try done. by intros a [= <-].
Qed.

Lemma period_event t0 c w s r e : in_period t0 c w s r -> quiet t0 c e -> wp (apply_event r e) (in_period t0 c w s).
Proof.
  intros Hp Hq. destruct e; cbn [apply_event quiet] in *; try done.
  - destruct Hp. split; done.
  - by apply period_largest.
  - unfold onPacketAckedWithUtilization. cbv zeta. set (r1 := updateRtt _ _ _).
    assert (in_period t0 c w s r1) as H1 by (by apply period_rtt, period_remove). clearbody r1.
    unfold inSlowStart. rewrite (ip_state _ _ _ _ _ H1). by apply period_acked.
  - by apply period_acked, Hq; apply period_remove.
  - apply period_congestion, period_remove. destruct Hp. split; done.
  - destruct Hp. split; done.
  - by apply period_congestion.
  - destruct Hp. unfold onPtoExpired. case_match; split; done.
Qed.

Lemma period_run t0 c w s r es : in_period t0 c w s r -> Forall (quiet t0 c) es -> wp (run r es) (in_period t0 c w s).
Proof.
  revert r. induction es as [|e es IH]; intros r Hp Hq; cbn [run]; [done|]. inversion_clear Hq.
  apply wp_bind. eapply wp_mono; [by apply period_event|]. intros r' Hr'. by apply IH.
Qed.



Lemma recovery_invariant_witness :
  wp (run (init (MkConfig 1200 333000000 25000000 new_reno 0)) [Sent 1200 1 10; Acked 1200 10 50000000 0 true; Lost 1200 11 20 None])
     (rec_ok 3).
Proof.
  refine (recovery_invariant (MkConfig 1200 333000000 25000000 new_reno 0)
    [Sent 1200 1 10; Acked 1200 10 50000000 0 true; Lost 1200 11 20 None] _ _ _).
  - repeat split; done.
  - repeat constructor; done.
  - done.
Defined.

(** ** Growth in congestion avoidance *)

(** The bytes an acknowledgement removes from flight. *)
Definition ack_bytes (e : event) : option Z :=
  match e with Acked b _ _ _ _ | AckedNoSample b _ _ => Some b | _ => None end.

Definition is_ack (e : event) : Prop := match ack_bytes e with Some b => 0 <= b | None => False end.

Definition total_acked (es : list event) : Z := foldr (fun e acc => default 0 (ack_bytes e) + acc) 0 es.

Lemma total_acked_cons e es : total_acked (e :: es) = default 0 (ack_bytes e) + total_acked es.
Proof. done. Qed.

Lemma total_acked_nonneg es : Forall is_ack es -> 0 <= total_acked es.
Proof.
  induction 1 as [|e es He _ IH]; [done|]. rewrite total_acked_cons. unfold is_ack in He.
  destruct (ack_bytes e); cbn [default]; [|done]. change (0 <= z + total_acked es). lia.
Qed.

Record avoiding (r : Recovery) : Prop := {
  av_algorithm : congestion_algorithm r = new_reno;
  av_state : congestion_state r = congestion_avoidance;
  av_mds : 1 <= max_datagram_size r <= congestion_window r;
  av_acked : 0 <= congestion_avoidance_bytes_acked r < congestion_window r;
}.

(** [r'] is [r] after acknowledgements of [b] bytes, [n] increments of the window. *)
Definition bought (r r' : Recovery) (b : Z) (n : nat) : Prop :=
  max_datagram_size r' = max_datagram_size r /\
  congestion_window r' = congestion_window r + Z.of_nat n * max_datagram_size r /\
  congestion_avoidance_bytes_acked r + b =
    congestion_avoidance_bytes_acked r' + spent (max_datagram_size r) (congestion_window r) n /\
  congestion_window r' + congestion_avoidance_bytes_acked r' <= congestion_window r + congestion_avoidance_bytes_acked r + b.

Lemma bought_trans r1 r2 r3 b1 b2 n1 n2 : bought r1 r2 b1 n1 -> bought r2 r3 b2 n2 -> bought r1 r3 (b1 + b2) (n1 + n2).
Proof.
  intros (Em & Ew & Ea & El) (Em' & Ew' & Ea' & El'). rewrite Em in *. rewrite Ew in Ea'.
  split; [congruence|]. rewrite spent_add. lia.
Qed.

Lemma avoiding_bytes r b t u : avoiding r -> 0 <= b -> congestion_window r + congestion_avoidance_bytes_acked r + b < U64_MAX ->
  wp (onAckedBytesForCongestion r b t u) (fun r' => avoiding r' /\ exists n, bought r r' b n).
Proof.
  intros [Halg Hst Hm Ha] Hb Hs. unfold onAckedBytesForCongestion. cbv zeta. set (r1 := r <| pto_count := 0 |>).
  change (congestion_algorithm r1) with (congestion_algorithm r). rewrite Halg.
  match goal with |- context [if u then r1 else r1] => replace (if u then r1 else r1) with r1 by (by destruct u) end.
  unfold inSlowStart. change (congestion_state r1) with (congestion_state r). rewrite Hst, bool_decide_true, bool_decide_false by done.
  rewrite andb_false_r. cbn [andb]. change (congestion_state r1) with (congestion_state r). rewrite Hst.
  change (congestion_window r1) with (congestion_window r). destruct (Z.eqb_spec (congestion_window r) 0) as [|_]; [lia|].
  unfold growCongestionAvoidance. change (congestion_algorithm r1) with (congestion_algorithm r). rewrite Halg.
  eapply wp_mono; [apply new_reno_exact; cbn; lia|]. intros r' (n & a & -> & Ha' & Hsp & Hle). cbn in *. split.
  - split; cbn; try done. nia.
  - exists n. by repeat split.
Qed.

Lemma avoiding_ack r e b : avoiding r -> ack_bytes e = Some b -> 0 <= b ->
  congestion_window r + congestion_avoidance_bytes_acked r + b < U64_MAX ->
  wp (apply_event r e) (fun r' => avoiding r' /\ exists n, bought r r' b n).
Proof.
  intros Hav He Hb Hs. destruct e as [| |b' t rtt d u|b' t u| | | | | |]; try done; cbn in He; injection He as ->; cbn [apply_event].
  - unfold onPacketAckedWithUtilization. cbv zeta. set (r1 := updateRtt _ _ _).
    assert (avoiding r1 /\ bought r r1 0 0) as [H1 (Em & Ew & Ea & _)].
    { subst r1. destruct Hav. unfold updateRtt, removeBytesInFlight. cbv zeta. case_match; split; [by split| |by split|];
        repeat split; cbn; lia. }
    cbn in Ew, Ea. unfold inSlowStart. rewrite (av_state _ H1). cbn [mbind option_bind].
    eapply wp_mono; [apply avoiding_bytes; [done|done|lia]|]. intros r' [? [n Hn]]. split; [done|]. exists n.
    change n with (0 + n)%nat. change b with (0 + b). eapply bought_trans; [|exact Hn]. repeat split; cbn; lia.
  - eapply wp_mono; [apply avoiding_bytes; [destruct Hav; by split|done|done]|]. done.
Qed.

Lemma avoiding_run r es : avoiding r -> Forall is_ack es ->
  congestion_window r + congestion_avoidance_bytes_acked r + total_acked es < U64_MAX ->
  wp (run r es) (fun r' => avoiding r' /\ exists n, bought r r' (total_acked es) n).
Proof.
  revert r. induction es as [|e es IH]; intros r Hav Hes Hs; cbn [run].
  - split; [done|]. exists 0%nat. repeat split; cbn; lia.
  - inversion_clear Hes as [|? ? He Hes']. unfold is_ack in He. rewrite total_acked_cons in *.
    destruct (ack_bytes e) as [b|] eqn:Eb; [|done]. change (default 0 (Some b)) with b in *.
    pose proof (total_acked_nonneg es Hes') as Ht.
    apply wp_bind. eapply wp_mono; [apply avoiding_ack; [done..|lia]|]. intros r1 [H1 [n Hn]].
    eapply wp_mono; [apply IH; [done|done|]|].
    + destruct Hn as (_ & _ & _ & Hle). lia.
    + intros r2 [H2 [n2 Hn2]]. split; [done|]. exists (n + n2)%nat. by eapply bought_trans.
Qed.

(** An acknowledgement that found the window fully used. *)
Definition full_ack (e : event) : Prop :=
  is_ack e /\ match e with Acked _ _ _ _ u => u = true | AckedNoSample _ _ u => u = true | _ => False end.

Lemma full_acks es : Forall full_ack es -> Forall is_ack es.
Proof. induction 1 as [|e es [He _] _ IH]; by constructor. Qed.

(** C31: In congestion avoidance NewReno spends exactly the acknowledged bytes: after any sequence of acknowledgements that
    found the window fully used, it has grown by [n] datagrams, the [i]-th of which cost a full window of
    [congestion_window + i * mds] bytes, and the bytes left over are fewer than the new window, so no byte is lost between
    acknowledgements or counted twice. *)
Theorem new_reno_growth_exact (r : Recovery) (es : list event) (Hav : avoiding r) (Hes : Forall full_ack es)
    (Hs : congestion_window r + congestion_avoidance_bytes_acked r + total_acked es < U64_MAX) :
  wp (run r es) (fun r' => exists n,
    congestion_window r' = congestion_window r + Z.of_nat n * max_datagram_size r /\
    congestion_avoidance_bytes_acked r + total_acked es =
      congestion_avoidance_bytes_acked r' + spent (max_datagram_size r) (congestion_window r) n /\
    0 <= congestion_avoidance_bytes_acked r' < congestion_window r').
Proof.
  eapply wp_mono; [apply avoiding_run; [done|by apply full_acks|done]|].
  intros r' [[] (n & _ & Ew & Ea & _)]. by exists n.
Qed.

(** C29: Recovery ends and the window grows again: once a packet sent after the cut is acknowledged, acknowledgements of a
    window's worth of bytes, with the window fully used, leave NewReno in congestion avoidance with a window at least one
    datagram larger. *)
Theorem recovery_exit_growth (n c pn : Z) (r : Recovery) (es : list event) (Hok : rec_ok n r)
    (Hst : congestion_state r = recovery) (Hcut : largest_sent_at_last_cutback r = Some c) (Hpn : c < pn)
    (Hes : Forall full_ack es) (Hfull : congestion_window r <= total_acked es)
    (Hs : congestion_window r + congestion_avoidance_bytes_acked r + total_acked es < U64_MAX) :
  wp (run r (LargestAcked pn :: es)) (fun r' =>
    congestion_state r' = congestion_avoidance /\ congestion_window r + max_datagram_size r <= congestion_window r').
Proof.
  cbn [run apply_event mbind option_bind]. unfold notifyLargestAcked. cbn. rewrite Hst, Hcut.
  set (l := match largest_acked_packet_number r with Some cur => if pn >? cur then pn else cur | None => pn end).
  assert (c < l) as Hl.
  { subst l. destruct (largest_acked_packet_number r) as [cur|]; [|done]. destruct (Z.gtb_spec pn cur); lia. }
  destruct (Z.gtb_spec l c); [|lia]. apply full_acks in Hes. destruct Hok. cbn.
  eapply wp_mono; [apply avoiding_run; [split; cbn; try done; lia|done|done]|].
  intros r' [[_ Hst' _ Hacc] (k & _ & Ew & Ea & _)]. split; [done|]. cbn in Ew, Ea. destruct k as [|k]; [cbn in Ea, Ew; lia|nia].
Qed.

Definition after_loss : Recovery :=
  default (init (MkConfig 1200 333000000 25000000 new_reno 0))
    (run (init (MkConfig 1200 333000000 25000000 new_reno 0)) [Sent 1200 7 10; Lost 1200 10 20 (Some 6)]).

Lemma after_loss_ok : rec_ok 2 after_loss.
Proof.
  refine (wp_use (run (init (MkConfig 1200 333000000 25000000 new_reno 0)) [Sent 1200 7 10; Lost 1200 10 20 (Some 6)]) (rec_ok 2)
    after_loss (rec_run 0 _ _ _ _ _) _).
  - apply rec_init. repeat split; done.
  - repeat constructor; done.
  - done.
  - by vm_compute.
Qed.

Lemma new_reno_growth_exact_witness :
  wp (run (after_loss <| congestion_state := congestion_avoidance |>) [AckedNoSample 4000 30 true; Acked 9000 31 50000000 0 true])
    (fun r' => exists n, congestion_window r' = 6000 + Z.of_nat n * 1200 /\
      0 + 13000 = congestion_avoidance_bytes_acked r' + spent 1200 6000 n /\
      0 <= congestion_avoidance_bytes_acked r' < congestion_window r').
Proof.
  refine (new_reno_growth_exact (after_loss <| congestion_state := congestion_avoidance |>)
    [AckedNoSample 4000 30 true; Acked 9000 31 50000000 0 true] _ _ _).
  - split; vm_compute; (done || by split).
  - repeat constructor; done.
  - done.
Defined.

Lemma recovery_exit_growth_witness :
  wp (run after_loss [LargestAcked 8; AckedNoSample 4000 30 true; AckedNoSample 2000 31 true])
    (fun r' => congestion_state r' = congestion_avoidance /\ 6000 + 1200 <= congestion_window r').
Proof.
  refine (recovery_exit_growth 2 7 8 after_loss [AckedNoSample 4000 30 true; AckedNoSample 2000 31 true] after_loss_ok _ _ _ _ _ _);
    try (vm_compute; done).
  repeat constructor; done.
Defined.

(** Acknowledgements that did not find the window used grow it all the same in congestion avoidance, though the comment on
    [onPacketAckedWithUtilization] says they do not. *)
Lemma underutilized_ack_grows :
  congestion_window <$> run (after_loss <| congestion_state := congestion_avoidance |>) [AckedNoSample 6000 30 false] =
  Some (congestion_window after_loss + max_datagram_size after_loss).
Proof. by vm_compute. Qed.

(** ** Probe timeout *)

Lemma back_off_exact k t : 0 <= t <= U64_MAX -> back_off k t = Z.min U64_MAX (t * 2 ^ Z.of_nat k).
Proof.
  revert t. induction k as [|k IH]; intros t Ht; cbn [back_off]; [cbn; lia|]. rewrite sat_mul, IH by (unfold U64_MAX in *; lia).
  rewrite Nat2Z.inj_succ, Z.pow_succ_r by lia. assert (1 <= 2 ^ Z.of_nat k) by (pose proof (Z.pow_pos_nonneg 2 (Z.of_nat k)); lia).
  destruct (Z.le_gt_cases (t * 2) U64_MAX); [rewrite (Z.min_l (t * 2)) by lia; f_equal; lia|].
  rewrite (Z.min_r (t * 2)) by lia. unfold U64_MAX in *. nia.
Qed.

Definition base_pto (r : Recovery) (delay : bool) : Z :=
  Z.min U64_MAX (smoothed_rtt_ns r + Z.max (4 * rttvar_ns r) timer_granularity_ns + if delay then max_ack_delay_ns r else 0).

Lemma base_pto_exact r delay : u64_ok (smoothed_rtt_ns r) -> u64_ok (rttvar_ns r) -> u64_ok (max_ack_delay_ns r) ->
  basePtoNs r delay = base_pto r delay.
Proof.
  intros. unfold basePtoNs, base_pto. rewrite !sat_add, sat_mul. unfold u64_ok, U64_MAX, timer_granularity_ns in *.
  destruct delay; lia.
Qed.

Lemma i64_ok z : 0 <= z <= I64_MAX -> i64_of_u64 z = Some z.
Proof. intros. unfold i64_of_u64, intCast. destruct (Z.leb_spec 0 z), (Z.leb_spec z I64_MAX); done || lia. Qed.

Lemma i64_in z : I64_MIN <= z <= I64_MAX -> i64 z = Some z.
Proof. intros. unfold i64. destruct (Z.leb_spec I64_MIN z), (Z.leb_spec z I64_MAX); done || lia. Qed.

Lemma mul64_ok a b : a * b <= U64_MAX -> mul64 a b = Some (a * b).
Proof. intros. unfold mul64. by destruct (Z.leb_spec (a * b) U64_MAX); [|lia]. Qed.

(** The largest deviation from the base, in either direction. *)
Definition max_jitter (r : Recovery) (delay : bool) : Z := base_pto r delay * Z.min (pto_jitter_percentage r) 50 / 100.

(** The jittered timeout fits the integers of [basePtoWithJitterNs]: the
    product its [u64], the base and the sum their [i64]. *)
Definition jitter_fits (draw : Z -> Z) (r : Recovery) (delay : bool) : bool :=
  (pto_jitter_percentage r =? 0) ||
  (base_pto r delay * Z.min (pto_jitter_percentage r) 50 <=? U64_MAX) && (base_pto r delay <=? I64_MAX) &&
  (base_pto r delay + (draw (2 * max_jitter r delay) - max_jitter r delay) <=? I64_MAX).

Section Jitter.
Context (draw : Z -> Z) (r : Recovery) (delay : bool).
Context (Hd : forall range, 0 <= range -> 0 <= draw range <= range) (Hp : 0 <= pto_jitter_percentage r).
Context (Eb : basePtoNs r delay = base_pto r delay) (Hg : timer_granularity_ns <= base_pto r delay <= U64_MAX).

Lemma max_jitter_range : 0 <= max_jitter r delay /\ 2 * max_jitter r delay <= base_pto r delay.
Proof.
  unfold max_jitter, timer_granularity_ns in *. set (base := base_pto r delay) in *. split; [apply Z.div_pos; nia|].
  assert (base * Z.min (pto_jitter_percentage r) 50 / 100 <= base / 2); [|pose proof (Z.mul_div_le base 2); lia].
  replace (base / 2) with (base * 50 / 100) by (change 100 with (2 * 50); apply Z.div_mul_cancel_r; lia).
  apply Z.div_le_mono; nia.
Qed.

Lemma max_jitter_pos : pto_jitter_percentage r <> 0 -> 0 < max_jitter r delay.
Proof. intros. unfold max_jitter, timer_granularity_ns in *. apply Z.div_str_pos. nia. Qed.

Lemma jitter_exact : if jitter_fits draw r delay
  then exists t, basePtoWithJitterNs draw r delay = Some t /\ timer_granularity_ns <= t <= U64_MAX /\
    Z.abs (t - base_pto r delay) <= max_jitter r delay
  else basePtoWithJitterNs draw r delay = None.
Proof.
  pose proof max_jitter_range as [Hj0 Hj]. pose proof max_jitter_pos as Hpos.
  unfold basePtoWithJitterNs, jitter_fits. rewrite Eb. cbv zeta.
  destruct (Z.eqb_spec (pto_jitter_percentage r) 0) as [E|E]; cbn [orb].
  { exists (base_pto r delay). split; [done|]. split; [lia|]. rewrite Z.sub_diag. cbn. lia. }
  specialize (Hpos E). set (base := base_pto r delay) in *.
  destruct (Z.leb_spec (base * Z.min (pto_jitter_percentage r) 50) U64_MAX) as [Hm|Hm]; cbn [andb].
  2:{ unfold mul64. by destruct (Z.leb_spec (base * Z.min (pto_jitter_percentage r) 50) U64_MAX); [lia|]. }
  rewrite mul64_ok by done. cbn [mbind option_bind]. change (base * Z.min (pto_jitter_percentage r) 50 / 100) with (max_jitter r delay).
  set (j := max_jitter r delay) in *. rewrite (proj2 (Z.eqb_neq j 0)) by lia. rewrite mul64_ok by lia. cbn [mbind option_bind].
  specialize (Hd (2 * j) ltac:(lia)). assert (2 * j <= I64_MAX) as Hji.
  { assert (100 * j <= base * Z.min (pto_jitter_percentage r) 50) by (apply Z.mul_div_le; lia). unfold I64_MAX, U64_MAX in *. lia. }
  rewrite (i64_ok (draw (2 * j))), (i64_ok j) by lia. cbn [mbind option_bind].
  rewrite (i64_in (draw (2 * j) - j)) by (unfold I64_MAX, I64_MIN in *; lia). cbn [mbind option_bind].
  destruct (Z.leb_spec base I64_MAX) as [Hb|Hb]; cbn [andb].
  2:{ unfold i64_of_u64, intCast. destruct (Z.leb_spec base I64_MAX); [lia|]. by rewrite andb_false_r. }
  rewrite (i64_ok base) by (unfold timer_granularity_ns in *; lia). cbn [mbind option_bind]. set (res := base + (draw (2 * j) - j)).
  destruct (Z.leb_spec res I64_MAX) as [Hr|Hr].
  2:{ unfold i64. destruct (Z.leb_spec res I64_MAX); [lia|]. by rewrite andb_false_r. }
  rewrite (i64_in res) by (unfold I64_MIN, timer_granularity_ns in *; lia). cbn [mbind option_bind].
  unfold timer_granularity_ns in *. destruct (Z.ltb_spec res 1000000); [exists 1000000; split; [done|unfold U64_MAX in *; lia]|].
  exists res. unfold intCast, U64_MAX, I64_MAX in *. destruct (Z.leb_spec 0 res), (Z.leb_spec res 18446744073709551615); try lia.
  split; [done|lia].
Qed.

(** Any base up to [U64_MAX / 50], more than eleven years, fits. *)
Lemma small_base_fits : base_pto r delay * 50 <= U64_MAX -> jitter_fits draw r delay = true.
Proof.
  intros Hs. pose proof max_jitter_range as [Hj0 Hj]. specialize (Hd (2 * max_jitter r delay) ltac:(lia)).
  unfold jitter_fits, timer_granularity_ns, U64_MAX, I64_MAX in *.
  destruct (Z.eqb_spec (pto_jitter_percentage r) 0); [done|]. cbn [orb]. rewrite !andb_true_iff, !Z.leb_le. nia.
Qed.

End Jitter.

(** C30: The probe timeout is the closed form of RFC 9002 wherever the jitter's integers hold it, and illegal elsewhere.
    When [jitter_fits], then for some [t] within the configured percentage (at most half) of
    [smoothed_rtt + max(4 * rttvar, granularity) + max_ack_delay] and at least the granularity, the timeout is
    [t * 2^pto_count], saturated at the largest [u64]; without jitter [t] is that base itself. When it does not, an unchecked
    multiplication, cast or addition overflows. Without jitter, and with any base up to [U64_MAX / 50], it fits. *)
Theorem pto_closed_form (n : Z) (draw : Z -> Z) (r : Recovery) (delay : bool) (Hok : rec_ok n r)
    (Hd : forall range, 0 <= range -> 0 <= draw range <= range)
    (Hdelay : u64_ok (max_ack_delay_ns r)) (Hp : 0 <= pto_jitter_percentage r) :
  (if jitter_fits draw r delay
   then exists t, backedOffPtoNs draw r delay = Some (Z.min U64_MAX (t * 2 ^ pto_count r)) /\ timer_granularity_ns <= t /\
     Z.abs (t - base_pto r delay) <= base_pto r delay * Z.min (pto_jitter_percentage r) 50 / 100
   else backedOffPtoNs draw r delay = None) /\
  (pto_jitter_percentage r = 0 \/ base_pto r delay * 50 <= U64_MAX -> jitter_fits draw r delay = true).
Proof.
  assert (basePtoNs r delay = base_pto r delay) as Eb by (destruct Hok; by apply base_pto_exact).
  assert (timer_granularity_ns <= base_pto r delay <= U64_MAX) as Hb.
  { destruct Hok. unfold base_pto, u64_ok, timer_granularity_ns, U64_MAX in *. destruct delay; lia. }
  split; [|intros [E|Hs]; [unfold jitter_fits; by rewrite E|by apply small_base_fits]].
  pose proof (jitter_exact draw r delay Hd Hp Eb Hb) as Hj. unfold backedOffPtoNs.
  destruct (jitter_fits draw r delay); [|by rewrite Hj]. destruct Hj as (t & Ht & Htg & Hta). exists t. split; [|split; [lia|done]].
  rewrite Ht. cbn [mbind option_bind]. destruct Hok. unfold timer_granularity_ns in *.
  by rewrite back_off_exact, Z2Nat.id by lia.
Qed.

Lemma pto_closed_form_witness : exists t,
  backedOffPtoNs (fun range => range / 3) (init (MkConfig 1200 333000000 25000000 new_reno 20)) true = Some (Z.min U64_MAX (t * 2 ^ 0)) /\
  timer_granularity_ns <= t /\ Z.abs (t - 1024000000) <= 1024000000 * Z.min 20 50 / 100.
Proof.
  refine (proj1 (pto_closed_form 0 (fun range => range / 3) (init (MkConfig 1200 333000000 25000000 new_reno 20)) true _ _ _ _)).
  - apply rec_init. repeat split; done.
  - intros range Hr. split; [by apply Z.div_pos|apply Z.div_le_upper_bound; lia].
  - done.
  - done.
Defined.

(** The largest initial RTT with a jitter of 20 percent overflows the multiplication. *)
Lemma pto_jitter_overflows (draw : Z -> Z) :
  backedOffPtoNs draw (init (MkConfig 1200 U64_MAX 25000000 new_reno 20)) true = None.
Proof. by vm_compute. Qed.

(** ** RTT estimator *)

(** Samples with their acknowledgement delays, oldest first. *)
Definition observe (r : Recovery) (samples : list (Z * Z)) : Recovery :=
  foldl (fun r '(rtt, delay) => updateRtt r rtt delay) r samples.

(** After samples of at most [M] with minimum [m]. *)
Record est_ok (M m : Z) (r : Recovery) : Prop := {
  eo_min : min_rtt_ns r = Some m;
  eo_latest : exists l, latest_rtt_ns r = Some l /\ m <= l <= M;
  eo_trackable : min_trackable_rtt_ns <= m;
  eo_smoothed : m <= smoothed_rtt_ns r <= M;
  eo_var : 0 <= rttvar_ns r <= M;
}.

Definition sample_ok (M : Z) (s : Z * Z) : Prop := 0 <= s.1 <= M /\ u64_ok s.2.

(** The delay is subtracted only from samples that stay above the minimum. *)
Lemma adjusted_range M m c delay : m <= c <= M -> M < U64_MAX -> 0 <= m -> 0 <= delay ->
  m <= (if c >? saturatingAddU64 m delay then c - delay else c) <= M.
Proof. intros. rewrite sat_add. destruct (Z.gtb_spec c (Z.min (m + delay) U64_MAX)); lia. Qed.

Lemma est_first M r s : latest_rtt_ns r = None -> min_rtt_ns r = None -> sample_ok M s -> min_trackable_rtt_ns <= M <= 2 ^ 60 ->
  est_ok M (Z.max s.1 min_trackable_rtt_ns) (updateRtt r s.1 s.2).
Proof.
  intros Hl Hm [Hs Hd] HM. unfold updateRtt. rewrite Hl, Hm. cbv zeta. rewrite bool_decide_false by (intros [? ?]; done). cbn [negb].
  set (c := Z.max s.1 min_trackable_rtt_ns). assert (min_trackable_rtt_ns <= c <= M) as Hc by lia.
  pose proof (adjusted_range M c c s.2) as Ha. unfold u64_ok, U64_MAX, min_trackable_rtt_ns in *.
  specialize (Ha ltac:(lia) ltac:(lia) ltac:(lia) ltac:(lia)). set (a := if _ >? _ then _ else _) in *.
  pose proof (Z.div_pos a 2). pose proof (Z.div_le_upper_bound a 2 M). split; cbn; unfold min_trackable_rtt_ns; try lia; [done|].
  exists c. split; [done|lia].
Qed.

Lemma est_next M m r s : est_ok M m r -> sample_ok M s -> min_trackable_rtt_ns <= M <= 2 ^ 60 ->
  est_ok M (Z.min m (Z.max s.1 min_trackable_rtt_ns)) (updateRtt r s.1 s.2).
Proof.
  intros [Hm [l [Hl Hml]] Ht Hsm Hv] [Hs Hd] HM. unfold updateRtt. rewrite Hl, Hm. cbv zeta. rewrite bool_decide_true by done. cbn.
  set (c := Z.max s.1 min_trackable_rtt_ns). assert (min_trackable_rtt_ns <= c <= M) as Hc by lia.
  set (m' := Z.min m c). pose proof (adjusted_range M m' c s.2) as Ha. unfold u64_ok, U64_MAX, min_trackable_rtt_ns in *.
  specialize (Ha ltac:(lia) ltac:(lia) ltac:(lia) ltac:(lia)). set (a := if c >? _ then _ else _) in *.
  set (d := if _ >? _ then _ else _). assert (0 <= d <= M) as Hdd by (subst d; destruct (Z.gtb_spec (smoothed_rtt_ns r) a); lia).
  rewrite !sat_add, !sat_mul. unfold U64_MAX. rewrite !Z.min_l by lia. split; cbn; unfold min_trackable_rtt_ns.
  - done.
  - exists c. split; [done|lia].
  - lia.
  - split; [apply Z.div_le_lower_bound; lia|apply Z.div_le_upper_bound; lia].
  - split; [apply Z.div_pos; lia|apply Z.div_le_upper_bound; lia].
Qed.

Lemma est_run M m r samples : est_ok M m r -> Forall (sample_ok M) samples -> min_trackable_rtt_ns <= M <= 2 ^ 60 ->
  exists m', est_ok M m' (observe r samples) /\ m' <= m /\ Forall (fun s => m' <= Z.max s.1 min_trackable_rtt_ns) samples /\
    (m' = m \/ Exists (fun s => m' = Z.max s.1 min_trackable_rtt_ns) samples).
Proof.
  revert m r. induction samples as [|s samples IH]; intros m r He Hs HM; [exists m; auto with lia|].
  inversion_clear Hs as [|? ? H1 H2]. destruct (IH _ _ (est_next M m r s He H1 HM) H2 HM) as (m' & He' & Hle & Hall & Hex).
  destruct s as [rtt delay]. cbn [fst snd] in *. exists m'. split; [done|]. split; [lia|].
  split; [constructor; [cbn; lia|done]|]. destruct Hex as [->|Hex]; [|right; by apply Exists_cons_tl].
  destruct (Z.min_spec m (Z.max rtt min_trackable_rtt_ns)) as [[_ ->]|[_ ->]]; [by left|right; by apply Exists_cons_hd].
Qed.

(** From its first sample on, the RTT estimator stays within the samples it has seen: [min_rtt] is the least of them
    (clamped at one microsecond), and the smoothed RTT lies between that minimum and the largest sample, whatever
    acknowledgement delays the peer reports; the variance never exceeds the largest sample. *)
Theorem rtt_estimator_bounds (M : Z) (r : Recovery) (s : Z * Z) (samples : list (Z * Z))
    (Hl : latest_rtt_ns r = None) (Hm : min_rtt_ns r = None) (HM : min_trackable_rtt_ns <= M <= 2 ^ 60)
    (Hs : Forall (sample_ok M) (s :: samples)) :
  exists m, min_rtt_ns (observe r (s :: samples)) = Some m /\
    Forall (fun x => m <= Z.max x.1 min_trackable_rtt_ns) (s :: samples) /\
    Exists (fun x => m = Z.max x.1 min_trackable_rtt_ns) (s :: samples) /\
    m <= smoothed_rtt_ns (observe r (s :: samples)) <= M /\ 0 <= rttvar_ns (observe r (s :: samples)) <= M.
Proof.
  inversion_clear Hs as [|? ? H1 H2].
  destruct (est_run M _ _ samples (est_first M r s Hl Hm H1 HM) H2 HM) as (m & [Em _ _ Hsm Hv] & Hle & Hall & Hex).
  assert (observe r (s :: samples) = observe (updateRtt r s.1 s.2) samples) as -> by (by destruct s).
  exists m. split; [done|]. split; [by constructor|]. split; [|done].
  destruct Hex as [->|Hex]; [by apply Exists_cons_hd|by apply Exists_cons_tl].
Qed.

Lemma rtt_estimator_bounds_witness : exists m,
  min_rtt_ns (observe (init (MkConfig 1200 333000000 25000000 new_reno 0)) [(50000000, 0); (80000000, 25000000); (0, 5)]) = Some m /\
  Forall (fun x => m <= Z.max x.1 min_trackable_rtt_ns) [(50000000, 0); (80000000, 25000000); (0, 5)] /\
  Exists (fun x => m = Z.max x.1 min_trackable_rtt_ns) [(50000000, 0); (80000000, 25000000); (0, 5)] /\
  m <= smoothed_rtt_ns (observe (init (MkConfig 1200 333000000 25000000 new_reno 0)) [(50000000, 0); (80000000, 25000000); (0, 5)]) <= 80000000 /\
  0 <= rttvar_ns (observe (init (MkConfig 1200 333000000 25000000 new_reno 0)) [(50000000, 0); (80000000, 25000000); (0, 5)]) <= 80000000.
Proof.
  refine (rtt_estimator_bounds 80000000 (init (MkConfig 1200 333000000 25000000 new_reno 0)) (50000000, 0) _ _ _ _ _); [done|done|by split|].
  repeat constructor; done.
Defined.

(** ** CUBIC *)

(** Outside slow start, before any recovery period, as after HyStart or persistent congestion. *)
Record frozen (w : Z) (r : Recovery) : Prop := {
  fz_algorithm : congestion_algorithm r = cubic_algorithm;
  fz_state : congestion_state r = slow_start;
  fz_slow_start : inSlowStart r = false;
  fz_start : congestion_recovery_start_time_nanos r = None;
  fz_window : congestion_window r = w;
}.

Lemma frozen_acked w r b t u : frozen w r -> w <> 0 -> wp (onAckedBytesForCongestion r b t u) (frozen w).
Proof.
  intros [Ha Hs Hi Hr Hwin] Hw. unfold onAckedBytesForCongestion. cbv zeta.
  change (congestion_algorithm (r <| pto_count := 0 |>)) with (congestion_algorithm r). rewrite Ha.
  match goal with |- context [if u then ?x else ?y] => set (r1 := if u then x else y) end.
  assert (frozen w r1) as H1 by (subst r1; destruct u; split; done). clearbody r1. destruct (_ && _); [done|].
  rewrite (fz_state _ _ H1), !bool_decide_false by done. cbn [andb]. rewrite (fz_slow_start _ _ H1).
  destruct (Z.eqb_spec (congestion_window r1) 0) as [E|_]; [rewrite (fz_window _ _ H1) in E; done|].
  unfold growCongestionAvoidance, growCongestionAvoidanceCubic. by rewrite (fz_algorithm _ _ H1), (fz_start _ _ H1).
Qed.

Lemma frozen_ack w r e : frozen w r -> w <> 0 -> is_ack e -> wp (apply_event r e) (frozen w).
Proof.
  intros Hf Hw He. destruct e as [| |b t rtt d u|b t u| | | | | |]; try done; cbn [apply_event].
  - unfold onPacketAckedWithUtilization. cbv zeta. set (r1 := updateRtt _ _ _).
    assert (frozen w r1) as H1 by (destruct Hf; subst r1; unfold updateRtt, removeBytesInFlight; cbv zeta; case_match; split; done).
    rewrite (fz_slow_start _ _ H1). by apply frozen_acked.
  - apply frozen_acked; [|done]. destruct Hf. split; done.
Qed.

(** Acknowledgements never change a frozen CUBIC window. *)
Lemma cubic_window_frozen w r es : frozen w r -> w <> 0 -> Forall is_ack es -> wp (run r es) (frozen w).
Proof.
  revert r. induction es as [|e es IH]; intros r Hf Hw Hes; [done|]. inversion_clear Hes as [|? ? He Hes'].
  cbn [run]. apply wp_bind. eapply wp_mono; [by apply frozen_ack|]. intros r1 H1. by apply IH.
Qed.

(** Persistent congestion, then slow start up to the threshold of the earlier loss, reaches such a state. *)
Lemma cubic_frozen_reached :
  wp (run (init (MkConfig 1200 333000000 25000000 cubic_algorithm 0))
    ([Sent 1200 1 1000; Lost 1200 1000 2000 (Some 1); PersistentCongestion None] ++ replicate 5 (AckedNoSample 1200 3000 true)))
    (frozen 8400).
Proof. vm_compute. split; reflexivity. Qed.

(** A loss at the minimum window and one acknowledgement after it: 1807 bytes with datagrams of 1200. *)
Lemma cubic_below_minimum_window :
  (fun r => (congestion_window r, minimumCongestionWindow (max_datagram_size r))) <$>
    run (init (MkConfig 1200 333000000 25000000 cubic_algorithm 0))
      [Sent 1200 1 1000; Acked 1200 1000 50000000 0 true; PersistentCongestion None; Sent 1200 2 2000;
       Lost 1200 2000 3000 (Some 1); Sent 1200 3 4000; LargestAcked 4; AckedNoSample 1200 10000000 true] = Some (1807, 2400).
Proof. by vm_compute. Qed.
End RecoveryProps.
