(* ===== verification/LossDetection.v ===== *)
(** * Sent packets: acknowledgement and loss detection (src/quic/connection.zig)

    The packets a connection has sent and not yet seen acknowledged, in its
    three packet number spaces: recording a sent packet and its admission, what
    an ACK frame removes, which packets it proves lost, the retransmission of
    their frames, the loss timer, the validation of ECN counts, and the calls of
    the recovery state these make. *)
From S2P Require Import Prelude Codec Frame FramePayload HyStart Cubic Recovery Paths.
Import Codec Frame FramePayload Recovery.
Local Open Scope Z_scope.

Module LossDetection.

(** ** Data (src/quic/connection_state.zig, packet_context.zig, packet_number_space.zig) *)

Definition packet_threshold_loss_gap : Z := 3.

Inductive EcnCodepoint : Type := not_ect | ect0 | ect1.
Inductive EcnValidationState : Type := ecn_unknown | ecn_capable | ecn_failed.
#[export] Instance ecn_codepoint_eq : EqDecision EcnCodepoint. Proof. solve_decision. Defined.
#[export] Instance ecn_state_eq : EqDecision EcnValidationState. Proof. solve_decision. Defined.
#[export] Instance space_eq : EqDecision PacketNumberSpace. Proof. solve_decision. Defined.

Record PendingStreamFrame : Type := MkPendingStream { ps_stream_id : Z; ps_offset : Z; ps_fin : bool; ps_data : list byte }.
Record PendingCryptoFrame : Type := MkPendingCrypto { pc_offset : Z; pc_data : list byte }.

Record SentPacket : Type := MkSent {
  packet_number : Z;
  sent_time_nanos : Z;
  bytes : Z;
  ecn_codepoint : EcnCodepoint;
  stream_frame : option PendingStreamFrame;
  crypto_frame : option PendingCryptoFrame;
  reset_stream_frame : option ResetStreamFrame;
  stop_sending_frame : option StopSendingFrame;
}.

Record SendStreamState : Type := MkSendStream {
  st_stream_id : Z;
  next_offset : Z;
  st_max_data : Z;
  fin_sent : bool;
  fin_acked : bool;
  data_acked : bool;
  reset_sent : bool;
  reset_acked : bool;
}.
#[export] Instance eta_stream : Eta SendStreamState := fun s =>
  MkSendStream (st_stream_id s) (next_offset s) (st_max_data s) (fin_sent s) (fin_acked s) (data_acked s) (reset_sent s)
    (reset_acked s).

(** A packet number space, less the fields on received packets. *)
Record State : Type := MkState {
  discarded : bool;
  next_packet_number : Z;
  space_largest_acknowledged : option Z;
  first_rtt_sample_sent_time_nanos : option Z;
  loss_deadline_nanos : option Z;
  recovery_state : Recovery;
  sent_packets : list SentPacket;
  pending_ping_count : Z;
  pto_probe_count : Z;
  congestion_probe_count : Z;
  crypto_send_offset : Z;
  crypto_recv_buffer : list byte;
  crypto_read_offset : Z;
  crypto_send_queue : list PendingCryptoFrame;
  crypto_recv_pending : list PendingCryptoFrame;
  ecn_sent_ect0 : Z;
  ecn_sent_ect1 : Z;
  ecn_largest_acknowledged : option Z;
  space_ecn_counts : EcnCounts;
  ecn_validation_state : EcnValidationState;
}.

#[export] Instance eta_state : Eta State := fun s =>
  MkState (discarded s) (next_packet_number s) (space_largest_acknowledged s) (first_rtt_sample_sent_time_nanos s)
    (loss_deadline_nanos s) (recovery_state s) (sent_packets s) (pending_ping_count s) (pto_probe_count s)
    (congestion_probe_count s) (crypto_send_offset s) (crypto_recv_buffer s) (crypto_read_offset s) (crypto_send_queue s)
    (crypto_recv_pending s) (ecn_sent_ect0 s) (ecn_sent_ect1 s) (ecn_largest_acknowledged s) (space_ecn_counts s)
    (ecn_validation_state s).

Definition zeroEcnCounts : EcnCounts := MkEcn 0 0 0.

(** [State.init]; [recovery] is [Recovery.init] of the configuration. *)
Definition init_state (recovery : Recovery) : State :=
  MkState false 0 None None None recovery [] 0 0 0 0 [] 0 [] [] 0 0 None zeroEcnCounts ecn_unknown.

(** [HandshakeState] of src/quic/transport_types.zig. *)
Inductive HandshakeState : Type := hs_initial | hs_handshake | hs_confirmed.

(** The fields of [Connection] these functions use.  Queues that are only asked
    whether they are empty are given by their lengths, [local_connection_ids] by
    the flags [sent] and [retired].  The allocator is its next answers (all
    succeed when the list is used up) and the number of live buffers of frame data. *)
Record Connection : Type := MkConnection {
  initial_packet_space : State;
  handshake_packet_space : State;
  application_packet_space : State;   (* fields of Connection itself in the code *)
  peer : PeerAddress.Peer;            (* side, closing or closed, anti-amplification *)
  handshake_confirmed : bool;
  has_local_handshake_keys : bool;
  anti_deadlock_pto_start_nanos : option Z;
  peer_ack_delay_exponent : Z;
  local_one_rtt_key_update_ack_threshold : option Z;
  config_max_idle_timeout_ms : Z;
  peer_max_idle_timeout_ms : Z;
  last_packet_activity_nanos : option Z;
  send_streams : list SendStreamState;
  send_queue : list PendingStreamFrame;
  pending_reset_streams : list ResetStreamFrame;
  pending_stop_sending : list StopSendingFrame;
  pending_path_responses : Z;
  pending_retire_connection_ids : Z;
  pending_handshake_done : bool;
  local_connection_ids : list (bool * bool);
  pending_new_tokens : Z;
  pending_path_challenges : Z;
  pending_max_frames : Z;
  pending_blocked_frames : Z;
  handshake_state : HandshakeState;
  config_max_datagram_size : Z;
  peer_max_udp_payload_size : Z;
  allocator : list bool;
  live_frames : Z;
}.

#[export] Instance eta_connection : Eta Connection := fun c =>
  MkConnection (initial_packet_space c) (handshake_packet_space c) (application_packet_space c) (peer c)
    (handshake_confirmed c) (has_local_handshake_keys c) (anti_deadlock_pto_start_nanos c) (peer_ack_delay_exponent c)
    (local_one_rtt_key_update_ack_threshold c) (config_max_idle_timeout_ms c) (peer_max_idle_timeout_ms c)
    (last_packet_activity_nanos c) (send_streams c) (send_queue c) (pending_reset_streams c) (pending_stop_sending c)
    (pending_path_responses c) (pending_retire_connection_ids c) (pending_handshake_done c) (local_connection_ids c)
    (pending_new_tokens c) (pending_path_challenges c) (pending_max_frames c) (pending_blocked_frames c) (handshake_state c)
    (config_max_datagram_size c) (peer_max_udp_payload_size c) (allocator c) (live_frames c).

(** The view of a space, and writing through it. *)
Definition packetNumberSpace (c : Connection) (space : PacketNumberSpace) : State :=
  match space with
  | sp_initial => initial_packet_space c
  | sp_handshake => handshake_packet_space c
  | sp_application => application_packet_space c
  end.

Definition set_space (space : PacketNumberSpace) (s : State) (c : Connection) : Connection :=
  match space with
  | sp_initial => c <| initial_packet_space := s |>
  | sp_handshake => c <| handshake_packet_space := s |>
  | sp_application => c <| application_packet_space := s |>
  end.

Definition upd_space (space : PacketNumberSpace) (f : State -> State) (c : Connection) : Connection :=
  set_space space (f (packetNumberSpace c space)) c.

(** ** Effects *)

Definition get {A} (f : Connection -> A) : M Connection A := fun c => Some (inr (f c), c).
Definition modify (f : Connection -> Connection) : M Connection unit := fun c => Some (inr tt, f c).

(** A call of the recovery state of a space; [None] is illegal behaviour in it. *)
Definition recover (space : PacketNumberSpace) (f : Recovery -> option Recovery) : M Connection unit := fun c =>
  match f (recovery_state (packetNumberSpace c space)) with
  | Some r => Some (inr tt, upd_space space (fun s => s <| recovery_state := r |>) c)
  | None => None
  end.

(** An append or reservation of a list: [error.OutOfMemory] if the allocator is asked and refuses. *)
Definition reserve : M Connection unit := fun c =>
  match allocator c with
  | false :: l => Some (inl OutOfMemory, c <| allocator := l |>)
  | l => Some (inr tt, c <| allocator := tail l |>)
  end.

(** [allocator.dupe(u8, data)]. *)
Definition dupe (data : list byte) : M Connection (list byte) := fun c =>
  if zlen data =? 0 then Some (inr data, c) else
  match allocator c with
  | false :: l => Some (inl OutOfMemory, c <| allocator := l |>)
  | l => Some (inr data, c <| allocator := tail l |> <| live_frames := live_frames c + 1 |>)
  end.

Definition free_data (data : list byte) (c : Connection) : Connection :=
  if zlen data =? 0 then c else c <| live_frames := live_frames c - 1 |>.

(** [SentPacket.deinit]. *)
Definition deinitSentPacket (p : SentPacket) (c : Connection) : Connection :=
  let c := match stream_frame p with Some pending => free_data (ps_data pending) c | None => c end in
  match crypto_frame p with Some pending => free_data (pc_data pending) c | None => c end.

(** ** Results of loss detection *)

Definition elapsed (sent_time_nanos now_nanos : Z) : Z :=
  if now_nanos <=? sent_time_nanos then 0 else
  match i64 (now_nanos - sent_time_nanos) with Some delta => delta | None => U64_MAX end.

Record LossDetectionResult : Type := MkLoss {
  lost_bytes : Z;
  pc_candidate_count : Z;
  pc_first_packet_number : Z;
  pc_last_packet_number : Z;
  pc_first_sent_time_nanos : Z;
  pc_last_sent_time_nanos : Z;
  pc_contiguous_packet_numbers : bool;
  largest_lost_sent_time_nanos : option Z;
  largest_lost_packet_number : option Z;
}.

#[export] Instance eta_loss : Eta LossDetectionResult := fun l =>
  MkLoss (lost_bytes l) (pc_candidate_count l) (pc_first_packet_number l) (pc_last_packet_number l)
    (pc_first_sent_time_nanos l) (pc_last_sent_time_nanos l) (pc_contiguous_packet_numbers l)
    (largest_lost_sent_time_nanos l) (largest_lost_packet_number l).

Definition no_loss : LossDetectionResult := MkLoss 0 0 0 0 0 0 true None None.

Definition max_option (o : option Z) (z : Z) : option Z := Some (match o with Some current => Z.max current z | None => z end).
Definition min_option (o : option Z) (z : Z) : option Z := Some (match o with Some current => Z.min current z | None => z end).

(** [None]: the counter of candidates overflows. *)
Definition recordLostPacket (self : LossDetectionResult) (p : SentPacket) (first_rtt_sample : option Z) : option LossDetectionResult :=
  let self := self <| lost_bytes := saturatingAddU64 (lost_bytes self) (bytes p) |>
                   <| largest_lost_sent_time_nanos := max_option (largest_lost_sent_time_nanos self) (sent_time_nanos p) |>
                   <| largest_lost_packet_number := max_option (largest_lost_packet_number self) (packet_number p) |> in
  match first_rtt_sample with
  | None => Some self
  | Some first_rtt_sent_time =>
      if sent_time_nanos p <=? first_rtt_sent_time then Some self else
      let self :=
        if pc_candidate_count self =? 0 then
          self <| pc_first_packet_number := packet_number p |> <| pc_last_packet_number := packet_number p |>
               <| pc_first_sent_time_nanos := sent_time_nanos p |> <| pc_last_sent_time_nanos := sent_time_nanos p |>
        else
          let self := if negb (packet_number p =? saturatingAddU64 (pc_last_packet_number self) 1)
                      then self <| pc_contiguous_packet_numbers := false |> else self in
          self <| pc_last_packet_number := packet_number p |> <| pc_last_sent_time_nanos := sent_time_nanos p |> in
      count ← add64 (pc_candidate_count self) 1;
      Some (self <| pc_candidate_count := count |>)
  end.

Definition persistentCongestionEstablished (self : LossDetectionResult) (space : PacketNumberSpace) (r : Recovery) : bool :=
  if (pc_candidate_count self <? 2) || negb (pc_contiguous_packet_numbers self) then false else
  let duration_ns := match space with
                     | sp_initial | sp_handshake => persistentCongestionDurationWithoutMaxAckDelay r
                     | sp_application => persistentCongestionDuration r
                     end in
  elapsed (pc_first_sent_time_nanos self) (pc_last_sent_time_nanos self) >=? duration_ns.

(** ** Send streams *)

Definition findSendStream (c : Connection) (stream_id : Z) : option SendStreamState :=
  List.find (fun s => st_stream_id s =? stream_id) (send_streams c).

(** Writing through the pointer [findSendStream] returns. *)
Fixpoint upd_found (stream_id : Z) (f : SendStreamState -> SendStreamState) (l : list SendStreamState) : list SendStreamState :=
  match l with
  | [] => []
  | s :: l => if st_stream_id s =? stream_id then f s :: l else s :: upd_found stream_id f l
  end.

Definition resetStreamFrameAlreadyAcked (c : Connection) (reset : ResetStreamFrame) : bool :=
  match findSendStream c (rs_stream_id reset) with Some s => reset_acked s | None => false end.

Definition markSentPacketAckedOnStreams (p : SentPacket) (c : Connection) : Connection :=
  let c := match stream_frame p with
           | Some pending =>
               if ps_fin pending
               then c <| send_streams := upd_found (ps_stream_id pending) (fun s => s <| fin_acked := true |>) (send_streams c) |>
               else c
           | None => c
           end in
  match reset_stream_frame p with
  | Some reset => c <| send_streams := upd_found (rs_stream_id reset) (fun s => s <| reset_acked := true |>) (send_streams c) |>
  | None => c
  end.

Definition streamHasQueuedSendData (c : Connection) (stream_id : Z) : bool :=
  existsb (fun pending => ps_stream_id pending =? stream_id) (send_queue c).

Definition streamHasOutstandingSendData (c : Connection) (stream_id : Z) : bool :=
  existsb (fun p => match stream_frame p with Some pending => ps_stream_id pending =? stream_id | None => false end)
    (sent_packets (application_packet_space c)).

Definition refreshSendDataAckedStates (c : Connection) : Connection :=
  c <| send_streams := map (fun s =>
         if negb (fin_acked s) || reset_sent s then s else
         s <| data_acked := negb (streamHasQueuedSendData c (st_stream_id s)) &&
                            negb (streamHasOutstandingSendData c (st_stream_id s)) |>) (send_streams c) |>.

Definition clonePendingStreamFrame (f : PendingStreamFrame) : M Connection PendingStreamFrame :=
  data ← dupe (ps_data f); mret (MkPendingStream (ps_stream_id f) (ps_offset f) (ps_fin f) data).

Definition clonePendingCryptoFrame (f : PendingCryptoFrame) : M Connection PendingCryptoFrame :=
  data ← dupe (pc_data f); mret (MkPendingCrypto (pc_offset f) data).

(** ** Which packets are lost *)

(** For a packet up to the largest acknowledged: lost, or the time it will be
    ([None]: the [i64] arithmetic overflows). *)
Definition lost_or_deadline (largest_acknowledged loss_delay_ns now_nanos : Z) (p : SentPacket) : option (bool * Z) :=
  delay ← intCast I64_MAX loss_delay_ns;
  let packet_threshold_lost := largest_acknowledged >=? saturatingAddU64 (packet_number p) packet_threshold_loss_gap in
  deadline ← i64 (sent_time_nanos p + delay);
  let time_threshold_lost := deadline <=? now_nanos in
  Some (packet_threshold_lost || time_threshold_lost, deadline).

(** The four local lists of frames to retransmit. *)
Record Retransmit : Type := MkRetransmit {
  rt_frames : list PendingStreamFrame;
  rt_crypto : list PendingCryptoFrame;
  rt_reset : list ResetStreamFrame;
  rt_stop : list StopSendingFrame;
}.
#[export] Instance eta_rt : Eta Retransmit := fun r => MkRetransmit (rt_frames r) (rt_crypto r) (rt_reset r) (rt_stop r).

Definition nothing : Retransmit := MkRetransmit [] [] [] [].

(** The [defer] blocks that free the cloned data. *)
Definition release (rt : Retransmit) (c : Connection) : Connection :=
  let c := fold_left (fun c f => free_data (ps_data f) c) (rt_frames rt) c in
  fold_left (fun c f => free_data (pc_data f) c) (rt_crypto rt) c.

Definition collect_stream (f : PendingStreamFrame) (rt : Retransmit) : M Connection Retransmit :=
  errdefer (release rt) (
    cloned ← clonePendingStreamFrame f;
    _ ← errdefer (free_data (ps_data cloned)) reserve;
    mret (rt <| rt_frames := rt_frames rt ++ [cloned] |>)).

Definition collect_crypto (f : PendingCryptoFrame) (rt : Retransmit) : M Connection Retransmit :=
  errdefer (release rt) (
    cloned ← clonePendingCryptoFrame f;
    _ ← errdefer (free_data (pc_data cloned)) reserve;
    mret (rt <| rt_crypto := rt_crypto rt ++ [cloned] |>)).

(** The part of the first loop that handles a lost packet; [continue] skips the rest of it. *)
Definition collect_packet (p : SentPacket) (rt : Retransmit) : M Connection Retransmit := fun c =>
  let skip_stream := match stream_frame p with
                     | Some pending => match findSendStream c (ps_stream_id pending) with Some s => reset_sent s | None => false end
                     | None => false
                     end in
  if skip_stream then Some (inr rt, c) else
  (rt ← match stream_frame p with Some pending => collect_stream pending rt | None => mret rt end;
   rt ← match crypto_frame p with Some pending => collect_crypto pending rt | None => mret rt end;
   if match reset_stream_frame p with Some reset => resetStreamFrameAlreadyAcked c reset | None => false end then mret rt else
   rt ← match reset_stream_frame p with
        | Some reset => _ ← errdefer (release rt) reserve; mret (rt <| rt_reset := rt_reset rt ++ [reset] |>)
        | None => mret rt
        end;
   match stop_sending_frame p with
   | Some stop => _ ← errdefer (release rt) reserve; mret (rt <| rt_stop := rt_stop rt ++ [stop] |>)
   | None => mret rt
   end) c.

(** The first loop: the frames to retransmit and the next deadline. *)
Fixpoint collect_lost (largest_acknowledged loss_delay_ns now_nanos : Z) (ps : list SentPacket) (rt : Retransmit)
    (next_loss_deadline : option Z) : M Connection (Retransmit * option Z) :=
  match ps with
  | [] => mret (rt, next_loss_deadline)
  | p :: ps =>
      if packet_number p >? largest_acknowledged
      then collect_lost largest_acknowledged loss_delay_ns now_nanos ps rt next_loss_deadline else
      '(lost, deadline) ← legal (lost_or_deadline largest_acknowledged loss_delay_ns now_nanos p);
      if negb lost
      then collect_lost largest_acknowledged loss_delay_ns now_nanos ps rt (min_option next_loss_deadline deadline) else
      rt ← collect_packet p rt;
      collect_lost largest_acknowledged loss_delay_ns now_nanos ps rt next_loss_deadline
  end.

(** The second loop: [kept] are the packets before index [i]. *)
Fixpoint remove_lost (space : PacketNumberSpace) (largest_acknowledged loss_delay_ns now_nanos : Z) (kept ps : list SentPacket)
    (result : LossDetectionResult) : M Connection LossDetectionResult :=
  match ps with
  | [] => mret result
  | p :: ps =>
      if packet_number p >? largest_acknowledged
      then remove_lost space largest_acknowledged loss_delay_ns now_nanos (kept ++ [p]) ps result else
      '(lost, deadline) ← legal (lost_or_deadline largest_acknowledged loss_delay_ns now_nanos p);
      if negb lost then
        _ ← modify (upd_space space (fun s => s <| loss_deadline_nanos := min_option (loss_deadline_nanos s) deadline |>));
        remove_lost space largest_acknowledged loss_delay_ns now_nanos (kept ++ [p]) ps result
      else
        _ ← modify (upd_space space (fun s => s <| sent_packets := kept ++ ps |>));
        first ← get (fun c => first_rtt_sample_sent_time_nanos (packetNumberSpace c space));
        result ← legal (recordLostPacket result p first);
        _ ← modify (deinitSentPacket p);
        remove_lost space largest_acknowledged loss_delay_ns now_nanos kept ps result
  end.

(** The retransmitted frames go to the front of their queues. *)
Definition commit_retransmit (space : PacketNumberSpace) (rt : Retransmit) (next_loss_deadline : option Z) (c : Connection)
    : Connection :=
  let c := upd_space space (fun s => s <| loss_deadline_nanos := next_loss_deadline |>) c in
  let c := c <| pending_reset_streams := rt_reset rt ++ pending_reset_streams c |>
             <| pending_stop_sending := rt_stop rt ++ pending_stop_sending c |>
             <| send_queue := rt_frames rt ++ send_queue c |> in
  upd_space space (fun s => s <| crypto_send_queue := rt_crypto rt ++ crypto_send_queue s |>) c.

Definition removeAckDrivenLosses (space : PacketNumberSpace) (largest_acknowledged : Z) (latest_rtt_sample_ns : option Z)
    (now_nanos : Z) : M Connection LossDetectionResult := fun c =>
  let packet_space := packetNumberSpace c space in
  let loss_delay_ns := timeThresholdLossDelayNs (Some (default 0 latest_rtt_sample_ns)) (smoothed_rtt_ns (recovery_state packet_space)) in
  ('(rt, deadline) ← collect_lost largest_acknowledged loss_delay_ns now_nanos (sent_packets packet_space) nothing None;
   _ ← errdefer (release rt) (_ ← reserve; _ ← reserve; _ ← reserve; reserve);
   _ ← modify (commit_retransmit space rt deadline);
   remove_lost space largest_acknowledged loss_delay_ns now_nanos [] (sent_packets packet_space) no_loss) c.

(** ** Timers and probes *)

Definition pendingNewConnectionIdCount (c : Connection) : Z :=
  zlen (List.filter (fun id => negb (fst id) && negb (snd id)) (local_connection_ids c)).

Definition hasQueuedAckElicitingDataInSpace (c : Connection) (space : PacketNumberSpace) : bool :=
  let packet_space := packetNumberSpace c space in
  if negb (zlen (crypto_send_queue packet_space) =? 0) || negb (pending_ping_count packet_space =? 0) then true else
  match space with
  | sp_application =>
      negb (pending_path_responses c =? 0) || negb (zlen (pending_reset_streams c) =? 0)
      || negb (pending_retire_connection_ids c =? 0) || pending_handshake_done c
      || negb (pendingNewConnectionIdCount c =? 0) || negb (pending_new_tokens c =? 0)
      || negb (pending_path_challenges c =? 0) || negb (zlen (pending_stop_sending c) =? 0)
      || negb (pending_max_frames c =? 0) || negb (pending_blocked_frames c =? 0) || negb (zlen (send_queue c) =? 0)
  | _ => false
  end.

Definition armCongestionProbeInSpace (space : PacketNumberSpace) (c : Connection) : Connection :=
  upd_space space (fun s => if congestion_probe_count s =? 0 then s <| congestion_probe_count := 1 |> else s) c.

Definition armCongestionProbeIfPendingData (space : PacketNumberSpace) (c : Connection) : Connection :=
  if hasQueuedAckElicitingDataInSpace c space then armCongestionProbeInSpace space c else c.

Definition bytesInFlight (c : Connection) (space : PacketNumberSpace) : Z :=
  bytes_in_flight (recovery_state (packetNumberSpace c space)).

Definition totalBytesInFlight (c : Connection) : Z :=
  saturatingAddU64 (saturatingAddU64 (bytesInFlight c sp_initial) (bytesInFlight c sp_handshake)) (bytesInFlight c sp_application).

Definition hasQueuedInitialOrHandshakeAckElicitingData (c : Connection) (space : PacketNumberSpace) : bool :=
  match space with
  | sp_initial => negb (zlen (crypto_send_queue (initial_packet_space c)) =? 0) || negb (pending_ping_count (initial_packet_space c) =? 0)
  | sp_handshake => negb (zlen (crypto_send_queue (handshake_packet_space c)) =? 0) || negb (pending_ping_count (handshake_packet_space c) =? 0)
  | sp_application => false
  end.

Definition antiDeadlockPtoSpace (c : Connection) : option PacketNumberSpace :=
  match PeerAddress.side (peer c) with PeerAddress.server => None | PeerAddress.client =>
  if handshake_confirmed c then None else
  if negb (totalBytesInFlight c =? 0) then None else
  if has_local_handshake_keys c && negb (discarded (handshake_packet_space c)) then
    if negb (hasQueuedInitialOrHandshakeAckElicitingData c sp_handshake) then Some sp_handshake else None
  else if negb (discarded (initial_packet_space c)) && negb (hasQueuedInitialOrHandshakeAckElicitingData c sp_initial)
  then Some sp_initial else None
  end.

Definition refreshAntiDeadlockPtoTimer (trigger_space : PacketNumberSpace) (now_nanos : Z) (c : Connection) : Connection :=
  match antiDeadlockPtoSpace c with
  | None => c <| anti_deadlock_pto_start_nanos := None |>
  | Some _ =>
      match anti_deadlock_pto_start_nanos c with
      | Some _ => c
      | None => if bool_decide (trigger_space = sp_application) then c else c <| anti_deadlock_pto_start_nanos := Some now_nanos |>
      end
  end.

Definition PtoBackoffSnapshot : Type := Z * Z * Z.

Definition ptoBackoffSnapshot (c : Connection) : PtoBackoffSnapshot :=
  (pto_count (recovery_state (initial_packet_space c)), pto_count (recovery_state (handshake_packet_space c)),
   pto_count (recovery_state (application_packet_space c))).

Definition set_pto_count (count : Z) (s : State) : State := s <| recovery_state := (recovery_state s) <| pto_count := count |> |>.

Definition restorePtoBackoffSnapshot (snapshot : PtoBackoffSnapshot) (c : Connection) : Connection :=
  let '(i, h, a) := snapshot in
  upd_space sp_application (set_pto_count a) (upd_space sp_handshake (set_pto_count h) (upd_space sp_initial (set_pto_count i) c)).

Definition setConnectionPtoBackoffCount (count : Z) (c : Connection) : Connection :=
  let f s := if discarded s then s else set_pto_count count s in
  upd_space sp_application f (upd_space sp_handshake f (upd_space sp_initial f c)).

Definition resetConnectionPtoBackoff (c : Connection) : Connection := setConnectionPtoBackoffCount 0 c.

Definition ackShouldResetPtoBackoff (c : Connection) (space : PacketNumberSpace) : bool :=
  negb (match PeerAddress.side (peer c) with PeerAddress.client => bool_decide (space = sp_initial) | _ => false end).

(** ** RTT samples *)

Definition rememberFirstRttSampleSentTime (sent_time_nanos : Z) (c : Connection) : Connection :=
  let f s := if discarded s then s else
             match first_rtt_sample_sent_time_nanos s with
             | None => s <| first_rtt_sample_sent_time_nanos := Some sent_time_nanos |>
             | Some _ => s
             end in
  upd_space sp_application f (upd_space sp_handshake f (upd_space sp_initial f c)).

(** An iteration of the loop of [syncRttEstimatesFromSpace]. *)
Definition sync_rtt (source_space : PacketNumberSpace) (source_recovery : Recovery) (target_space : PacketNumberSpace) (c : Connection)
    : Connection :=
  if bool_decide (target_space = source_space) then c else
  if discarded (packetNumberSpace c target_space) then c else
  upd_space target_space (fun s => s <| recovery_state := (recovery_state s)
    <| latest_rtt_ns := latest_rtt_ns source_recovery |> <| min_rtt_ns := min_rtt_ns source_recovery |>
    <| smoothed_rtt_ns := smoothed_rtt_ns source_recovery |> <| rttvar_ns := rttvar_ns source_recovery |> |>) c.

Definition syncRttEstimatesFromSpace (source_space : PacketNumberSpace) (c : Connection) : Connection :=
  let sync := sync_rtt source_space (recovery_state (packetNumberSpace c source_space)) in
  sync sp_application (sync sp_handshake (sync sp_initial c)).

(** [std.math.shl(u64, 1, n)] is [1 << n] without its bits past 64. *)
Definition scaledPeerAckDelay (c : Connection) (ack_delay : Z) : Z :=
  saturatingMulU64 ack_delay ((2 ^ peer_ack_delay_exponent c) mod 2 ^ 64).

(** [None]: the scaled delay in microseconds, times 1000, does not fit in 64 bits. *)
Definition ackDelayForRtt (c : Connection) (space : PacketNumberSpace) (ack_delay : Z) : option Z :=
  match space with
  | sp_initial | sp_handshake => Some 0
  | sp_application =>
      scaled_ack_delay_ns ← mul64 (scaledPeerAckDelay c ack_delay) 1000;
      Some (if negb (handshake_confirmed c) then scaled_ack_delay_ns
            else Z.min scaled_ack_delay_ns (max_ack_delay_ns (recovery_state (application_packet_space c))))
  end.

(** ** ECN *)

(** [EcnAckValidationResult.ce_congestion_event], and the space. *)
Definition validateEcnAck (s : State) (largest_acknowledged newly_acked_ect0 newly_acked_ect1 : Z)
    (counts : option EcnCounts) : bool * State :=
  let failed := (false, s <| ecn_validation_state := ecn_failed |>) in
  if bool_decide (ecn_validation_state s = ecn_failed) then (false, s) else
  if match ecn_largest_acknowledged s with Some previous_largest => largest_acknowledged <=? previous_largest | None => false end
  then (false, s) else
  match counts with
  | None => if negb (newly_acked_ect0 =? 0) || negb (newly_acked_ect1 =? 0) then failed else (false, s)
  | Some counts =>
      if (ect0_count counts >? ecn_sent_ect0 s) || (ect1_count counts >? ecn_sent_ect1 s)
         || (ecn_ce_count counts >? saturatingAddU64 (ecn_sent_ect0 s) (ecn_sent_ect1 s)) then failed else
      let previous := space_ecn_counts s in
      if (ect0_count counts <? ect0_count previous) || (ect1_count counts <? ect1_count previous)
         || (ecn_ce_count counts <? ecn_ce_count previous) then failed else
      let ect0_increase := ect0_count counts - ect0_count previous in
      let ect1_increase := ect1_count counts - ect1_count previous in
      let ce_increase := ecn_ce_count counts - ecn_ce_count previous in
      if (saturatingAddU64 ect0_increase ce_increase <? newly_acked_ect0)
         || (saturatingAddU64 ect1_increase ce_increase <? newly_acked_ect1) then failed else
      let s := s <| space_ecn_counts := counts |> <| ecn_largest_acknowledged := Some largest_acknowledged |> in
      let s := if bool_decide (ecn_validation_state s = ecn_capable) || negb (newly_acked_ect0 =? 0) || negb (newly_acked_ect1 =? 0)
               then s <| ecn_validation_state := ecn_capable |> else s in
      (negb (ce_increase =? 0), s)
  end.

(** ** Receiving an ACK frame *)

(** The local variables of the loop that removes acknowledged packets. *)
Record AckedPackets : Type := MkAcked {
  acked_bytes : Z;
  largest_acked_packet : option SentPacket;
  newly_acked_ect0 : Z;
  newly_acked_ect1 : Z;
  local_key_update_acked : bool;
}.
#[export] Instance eta_acked : Eta AckedPackets := fun a =>
  MkAcked (acked_bytes a) (largest_acked_packet a) (newly_acked_ect0 a) (newly_acked_ect1 a) (local_key_update_acked a).

Definition none_acked : AckedPackets := MkAcked 0 None 0 0 false.

(** What the loop notes of a removed packet ([None]: a counter overflows). *)
Definition note_acked (space : PacketNumberSpace) (threshold : option Z) (removed : SentPacket) (a : AckedPackets)
    : option AckedPackets :=
  let a := a <| acked_bytes := saturatingAddU64 (acked_bytes a) (bytes removed) |> in
  let a := match space, threshold with
           | sp_application, Some threshold =>
               if packet_number removed >=? threshold then a <| local_key_update_acked := true |> else a
           | _, _ => a
           end in
  let a := if match largest_acked_packet a with Some p => packet_number removed >? packet_number p | None => true end
           then a <| largest_acked_packet := Some (MkSent (packet_number removed) (sent_time_nanos removed) (bytes removed)
                       (ecn_codepoint removed) None None None None) |>
           else a in
  match ecn_codepoint removed with
  | not_ect => Some a
  | ect0 => n ← add64 (newly_acked_ect0 a) 1; Some (a <| newly_acked_ect0 := n |>)
  | ect1 => n ← add64 (newly_acked_ect1 a) 1; Some (a <| newly_acked_ect1 := n |>)
  end.

(** The loop: [kept] are the packets before index [i]. *)
Fixpoint remove_acked (space : PacketNumberSpace) (ack : AckFrame) (kept ps : list SentPacket) (a : AckedPackets)
    : M Connection AckedPackets :=
  match ps with
  | [] => mret a
  | removed :: ps =>
      if negb (ackFrameContains ack (packet_number removed)) then remove_acked space ack (kept ++ [removed]) ps a else
      _ ← modify (upd_space space (fun s => s <| sent_packets := kept ++ ps |>));
      threshold ← get local_one_rtt_key_update_ack_threshold;
      a ← legal (note_acked space threshold removed a);
      _ ← modify (markSentPacketAckedOnStreams removed);
      _ ← modify (deinitSentPacket removed);
      remove_acked space ack kept ps a
  end.

(** The congestion event of an increased CE count: whether it starts a recovery period. *)
Definition ecn_congestion (space : PacketNumberSpace) (now_nanos : Z) (ce_congestion_event : bool) (acked : option SentPacket)
    : M Connection bool :=
  if negb ce_congestion_event then mret false else
  match acked with
  | None => mret false
  | Some acked_packet =>
      probe ← get (fun c => wouldStartCongestionRecovery (recovery_state (packetNumberSpace c space)) (sent_time_nanos acked_packet));
      _ ← recover space (fun r => onCongestionEvent r (sent_time_nanos acked_packet) now_nanos);
      mret probe
  end.

(** The congestion event of lost packets. *)
Definition loss_congestion (space : PacketNumberSpace) (now_nanos : Z) (loss : LossDetectionResult) : M Connection bool :=
  lost_time ← legal (largest_lost_sent_time_nanos loss);
  probe ← get (fun c => wouldStartCongestionRecovery (recovery_state (packetNumberSpace c space)) lost_time);
  _ ← recover space (fun r => onPacketLostWithNumber r (lost_bytes loss) lost_time now_nanos (largest_lost_packet_number loss));
  mret probe.

(** The end of [receiveAckFrame], from the key update on. *)
Definition acknowledge (space : PacketNumberSpace) (now_nanos : Z) (ack : AckFrame) (a : AckedPackets) (utilized : bool)
    (latest_rtt_sample : option Z) (persistent : bool) : M Connection unit :=
  _ ← (if local_key_update_acked a then modify (fun c => c <| local_one_rtt_key_update_ack_threshold := None |>) else mret tt);
  _ ← recover space (fun r => Some (notifyLargestAcked r (largest_acknowledged ack)));
  pto_backoff_before_ack ← get ptoBackoffSnapshot;
  acked_packet ← legal (largest_acked_packet a);
  _ ← match latest_rtt_sample with
      | Some rtt_sample =>
          delay ← get (fun c => ackDelayForRtt c space (ack_delay ack));
          delay ← legal delay;
          _ ← recover space (fun r => onPacketAckedWithUtilization r (acked_bytes a) (sent_time_nanos acked_packet) rtt_sample delay utilized);
          modify (syncRttEstimatesFromSpace space)
      | None => recover space (fun r => onPacketAckedWithoutRttSample r (acked_bytes a) (sent_time_nanos acked_packet) utilized)
      end;
  resets ← get (fun c => ackShouldResetPtoBackoff c space);
  _ ← (if resets : bool then modify resetConnectionPtoBackoff else modify (restorePtoBackoffSnapshot pto_backoff_before_ack));
  _ ← (if persistent then
         _ ← recover space (fun r => Some (onPersistentCongestionWithRttSample r latest_rtt_sample));
         match latest_rtt_sample with Some _ => modify (syncRttEstimatesFromSpace space) | None => mret tt end
       else mret tt);
  modify (refreshAntiDeadlockPtoTimer space now_nanos).

(** The part of [receiveAckFrame] from the loss detection on. *)
Definition ack_losses (space : PacketNumberSpace) (now_nanos : Z) (ack : AckFrame) (a : AckedPackets) (ce_congestion_event utilized : bool)
    (latest_rtt_sample : option Z) (largest : Z) : M Connection unit :=
  loss ← removeAckDrivenLosses space largest latest_rtt_sample now_nanos;
  _ ← modify refreshSendDataAckedStates;
  probe ← ecn_congestion space now_nanos ce_congestion_event (largest_acked_packet a);
  persistent ← get (fun c => persistentCongestionEstablished loss space (recovery_state (packetNumberSpace c space)));
  probe ← (if lost_bytes loss =? 0 then mret probe else
           lost_probe ← loss_congestion space now_nanos loss;
           _ ← recover space (fun r => Some (recordRetransmission r));
           mret (probe || lost_probe));
  _ ← (if probe : bool then modify (armCongestionProbeIfPendingData space) else mret tt);
  acknowledge space now_nanos ack a utilized latest_rtt_sample persistent.

(** The part after the acknowledged packets are removed. *)
Definition ack_removed (space : PacketNumberSpace) (now_nanos : Z) (ack : AckFrame) (ecn_counts : option EcnCounts) (utilized : bool)
    (a : AckedPackets) : M Connection unit :=
  ecn_result ← get (fun c => validateEcnAck (packetNumberSpace c space) (largest_acknowledged ack) (newly_acked_ect0 a) (newly_acked_ect1 a) ecn_counts);
  _ ← modify (set_space space (snd ecn_result));
  let sampled := match largest_acked_packet a with Some p => packet_number p =? largest_acknowledged ack | None => false end in
  let sent_time := match largest_acked_packet a with Some p => sent_time_nanos p | None => 0 end in
  let latest_rtt_sample := if sampled then Some (elapsed sent_time now_nanos) else None in
  _ ← (if sampled then modify (rememberFirstRttSampleSentTime sent_time) else mret tt);
  _ ← modify (upd_space space (fun s => s <| space_largest_acknowledged :=
                max_option (space_largest_acknowledged s) (largest_acknowledged ack) |>));
  largest ← get (fun c => default (largest_acknowledged ack) (space_largest_acknowledged (packetNumberSpace c space)));
  ack_losses space now_nanos ack a (fst ecn_result) utilized latest_rtt_sample largest.

Definition receiveAckFrame (space : PacketNumberSpace) (now_nanos : Z) (ack : AckFrame) (ecn_counts : option EcnCounts)
    : M Connection unit :=
  packet_space ← get (fun c => packetNumberSpace c space);
  if discarded packet_space then throw InvalidPacket else
  if largest_acknowledged ack >=? next_packet_number packet_space then throw InvalidPacket else
  if negb (ackFrameRangesAreValid ack) then throw InvalidPacket else
  utilized ← legal (isCongestionWindowUtilized (recovery_state packet_space));
  a ← remove_acked space ack [] (sent_packets packet_space) none_acked;
  if acked_bytes a =? 0 then mret tt else
  ack_removed space now_nanos ack ecn_counts utilized a.

(** [receiveAckInSpace] and [receiveAckEcnInSpace]. *)
Definition receiveAckInSpace (space : PacketNumberSpace) (now_nanos : Z) (ack : AckFrame) : M Connection unit :=
  closed ← get (fun c => PeerAddress.closing_or_closed (peer c));
  if closed : bool then throw ConnectionClosed else receiveAckFrame space now_nanos ack None.

Definition receiveAckEcnInSpace (space : PacketNumberSpace) (now_nanos : Z) (frame : AckEcnFrame) : M Connection unit :=
  closed ← get (fun c => PeerAddress.closing_or_closed (peer c));
  if closed : bool then throw ConnectionClosed else receiveAckFrame space now_nanos (ae_ack frame) (Some (Frame.ecn_counts frame)).

(** ** The loss timer *)

Definition expireLossDetectionTimeoutInSpace (space : PacketNumberSpace) (now_nanos : Z) : M Connection unit :=
  packet_space ← get (fun c => packetNumberSpace c space);
  match loss_deadline_nanos packet_space with
  | None => mret tt
  | Some deadline =>
      if deadline >? now_nanos then mret tt else
      match space_largest_acknowledged packet_space with
      | None => modify (upd_space space (fun s => s <| loss_deadline_nanos := None |>))
      | Some largest_acknowledged =>
          loss ← removeAckDrivenLosses space largest_acknowledged None now_nanos;
          _ ← (if lost_bytes loss =? 0 then mret tt else
               probe ← loss_congestion space now_nanos loss;
               _ ← (if probe : bool then modify (armCongestionProbeIfPendingData space) else mret tt);
               persistent ← get (fun c => persistentCongestionEstablished loss space (recovery_state (packetNumberSpace c space)));
               if persistent : bool then recover space (fun r => Some (onPersistentCongestion r)) else mret tt);
          modify (refreshAntiDeadlockPtoTimer space now_nanos)
      end
  end.

Definition expireLossDetectionTimeouts (now_nanos : Z) : M Connection unit :=
  _ ← expireLossDetectionTimeoutInSpace sp_initial now_nanos;
  _ ← expireLossDetectionTimeoutInSpace sp_handshake now_nanos;
  expireLossDetectionTimeoutInSpace sp_application now_nanos.

(** ** Recording a sent packet *)

Inductive AckElicitingSendAdmission : Type := allowed | congestion_limited | anti_amplification_limited.

Definition canSendAckElicitingInSpace (c : Connection) (space : PacketNumberSpace) (bytes : Z) : bool :=
  let packet_space := packetNumberSpace c space in
  match add64 (totalBytesInFlight c) bytes with
  | None => false
  | Some after_send =>
      negb (pto_probe_count packet_space =? 0) || negb (congestion_probe_count packet_space =? 0)
      || (after_send <=? congestion_window (recovery_state packet_space))
  end.

Definition ackElicitingSendAdmission (c : Connection) (space : PacketNumberSpace) (bytes : Z) : AckElicitingSendAdmission :=
  if negb (canSendAckElicitingInSpace c space bytes) then congestion_limited else
  if negb (PeerAddress.canSendToPeerAddress (peer c) bytes) then anti_amplification_limited else allowed.

(** [clock] is what [clock.nanoTimestamp] returns. *)
Definition recordAckElicitingSendInSpace (space : PacketNumberSpace) (bytes clock : Z) (c : Connection) : Connection :=
  let largest := next_packet_number (application_packet_space c) in
  let c := upd_space space (fun s => s <| recovery_state := recordAckElicitingSend (recovery_state s) bytes largest clock |>) c in
  let c := c <| anti_deadlock_pto_start_nanos := None |> in
  let c := upd_space space (fun s => if pto_probe_count s =? 0 then s else s <| pto_probe_count := pto_probe_count s - 1 |>) c in
  upd_space space (fun s => if congestion_probe_count s =? 0 then s else s <| congestion_probe_count := congestion_probe_count s - 1 |>) c.

Definition effectiveIdleTimeout (c : Connection) : option Z :=
  let local := config_max_idle_timeout_ms c in
  let peer := peer_max_idle_timeout_ms c in
  if (local =? 0) && (peer =? 0) then None else
  if local =? 0 then Some peer else
  if peer =? 0 then Some local else Some (Z.min local peer).

Definition recordPacketActivity (now_nanos : Z) (c : Connection) : Connection :=
  match effectiveIdleTimeout c with None => c | Some _ => c <| last_packet_activity_nanos := Some now_nanos |> end.

(** The fields of received packets that this also resets are in [RecvRanges]; the loops that pop and free
    the queues are folds. *)
Definition discardPacketNumberSpaceState (space : PacketNumberSpace) (c : Connection) : Connection :=
  let packet_space := packetNumberSpace c space in
  if discarded packet_space then c else
  let c := match space with sp_handshake => c <| has_local_handshake_keys := false |> | _ => c end in
  let c := fold_right deinitSentPacket c (sent_packets packet_space) in
  let c := fold_right (fun f => free_data (pc_data f)) c (crypto_send_queue packet_space) in
  let c := fold_right (fun f => free_data (pc_data f)) c (crypto_recv_pending packet_space) in
  let c := upd_space space (fun s =>
    s <| discarded := true |> <| space_largest_acknowledged := None |> <| first_rtt_sample_sent_time_nanos := None |>
      <| loss_deadline_nanos := None |> <| sent_packets := [] |> <| pending_ping_count := 0 |> <| pto_probe_count := 0 |>
      <| congestion_probe_count := 0 |> <| crypto_send_queue := [] |> <| crypto_send_offset := 0 |> <| crypto_recv_buffer := [] |>
      <| crypto_read_offset := 0 |> <| crypto_recv_pending := [] |>
      <| recovery_state := (recovery_state s) <| bytes_in_flight := 0 |> <| pto_count := 0 |> <| congestion_avoidance_bytes_acked := 0 |> |>
      <| ecn_sent_ect0 := 0 |> <| ecn_sent_ect1 := 0 |> <| ecn_largest_acknowledged := None |>
      <| space_ecn_counts := zeroEcnCounts |> <| ecn_validation_state := ecn_unknown |>) c in
  resetConnectionPtoBackoff (c <| anti_deadlock_pto_start_nanos := None |>).

Definition maybeDiscardInitialAfterHandshakePacketSent (space : PacketNumberSpace) (c : Connection) : Connection :=
  match PeerAddress.side (peer c), space with
  | PeerAddress.client, sp_handshake => if PeerAddress.closing_or_closed (peer c) then c else discardPacketNumberSpaceState sp_initial c
  | _, _ => c
  end.

Definition recordPacketSentInSpaceWithEcn (space : PacketNumberSpace) (now_nanos bytes : Z) (codepoint : EcnCodepoint) (clock : Z)
    : M Connection Z :=
  closed ← get (fun c => PeerAddress.closing_or_closed (peer c));
  if closed : bool then throw ConnectionClosed else
  packet_space ← get (fun c => packetNumberSpace c space);
  if discarded packet_space then throw InvalidPacket else
  if next_packet_number packet_space >? max_quic_varint then throw Internal else
  admission ← get (fun c => ackElicitingSendAdmission c space bytes);
  match admission with
  | congestion_limited | anti_amplification_limited => throw FlowControlBlocked
  | allowed =>
      let packet_number := next_packet_number packet_space in
      _ ← reserve;
      _ ← modify (upd_space space (fun s => s <| sent_packets := sent_packets s ++ [MkSent packet_number now_nanos bytes codepoint None None None None] |>));
      next ← errdefer (upd_space space (fun s => s <| sent_packets := removelast (sent_packets s) |>)) (orelse (add64 packet_number 1) Internal);
      _ ← modify (upd_space space (fun s => s <| next_packet_number := next |>));
      n0 ← legal (if bool_decide (codepoint = ect0) then add64 (ecn_sent_ect0 packet_space) 1 else Some (ecn_sent_ect0 packet_space));
      n1 ← legal (if bool_decide (codepoint = ect1) then add64 (ecn_sent_ect1 packet_space) 1 else Some (ecn_sent_ect1 packet_space));
      _ ← modify (upd_space space (fun s => s <| ecn_sent_ect0 := n0 |> <| ecn_sent_ect1 := n1 |>));
      _ ← modify (recordAckElicitingSendInSpace space bytes clock);
      _ ← modify (fun c => c <| peer := PeerAddress.recordPeerAddressBytesSent (peer c) bytes |>);
      _ ← modify (recordPacketActivity now_nanos);
      _ ← modify (maybeDiscardInitialAfterHandshakePacketSent space);
      mret packet_number
  end.

Definition recordEcnPacketSentInSpace (space : PacketNumberSpace) (now_nanos bytes : Z) (codepoint : EcnCodepoint) (clock : Z)
    : M Connection Z :=
  if bool_decide (codepoint = not_ect) then throw InvalidPacket else
  state ← get (fun c => ecn_validation_state (packetNumberSpace c space));
  if bool_decide (state = ecn_failed) then throw InvalidPacket else
  recordPacketSentInSpaceWithEcn space now_nanos bytes codepoint clock.

End LossDetection.
