(* ===== verification/CryptoSend.v ===== *)
(** * Sending CRYPTO data (src/quic/connection.zig)

    Queueing the data of a handshake in a packet number space, and the packets
    [pollTxInSpace] makes of it: a CRYPTO frame, alone or after an ACK frame, or
    the ACK frame alone. *)
From S2P Require Import Prelude Codec Frame FramePayload Recovery Paths WireLen LossDetection.
Import Codec Frame FramePayload Recovery WireLen LossDetection.
Local Open Scope Z_scope.

Module CryptoSend.

Definition maxTxDatagramSize (c : Connection) : Z := Z.min (config_max_datagram_size c) (peer_max_udp_payload_size c).

(** src/quic/stream_id.zig *)
Definition endOffset (offset data_len : Z) : option Z :=
  end_offset ← add64 offset data_len;
  if end_offset >? max_quic_varint then None else Some end_offset.

Definition markHandshakeSpaceUsed (space : PacketNumberSpace) (c : Connection) : Connection :=
  match space, handshake_state c with
  | sp_handshake, hs_initial => c <| handshake_state := hs_handshake |>
  | _, _ => c
  end.

Definition maybeDiscardHandshakeAfterConfirmedCryptoSent (space : PacketNumberSpace) (c : Connection) : Connection :=
  match space with
  | sp_handshake =>
      if negb (handshake_confirmed c) || PeerAddress.closing_or_closed (peer c) then c else
      let packet_space := packetNumberSpace c sp_handshake in
      if discarded packet_space || negb (zlen (crypto_send_queue packet_space) =? 0) then c else
      discardPacketNumberSpaceState sp_handshake c
  | _ => c
  end.

(** ** Queueing *)

(** A computed length: an error, or illegal behaviour in its computation. *)
Definition length_of (len : option (Err + Z)) : M Connection Z := r ← legal len; lift r.

Definition queueCryptoFrame (space : PacketNumberSpace) (offset : Z) (data : list byte) : M Connection unit :=
  copy ← dupe data;
  _ ← errdefer (free_data copy) reserve;
  modify (upd_space space (fun s => s <| crypto_send_queue := crypto_send_queue s ++ [MkPendingCrypto offset copy] |>)).

(** The queue loses its last frames, down to [original_len]; the data of each is freed. *)
Definition rollbackCryptoSendQueue (space : PacketNumberSpace) (original_len : Z) (c : Connection) : Connection :=
  let queue := crypto_send_queue (packetNumberSpace c space) in
  let c := fold_right (fun f => free_data (pc_data f)) c (zdrop original_len queue) in
  upd_space space (fun s => s <| crypto_send_queue := ztake original_len queue |>) c.

(** The loop of [sendCryptoInSpace]; [rest] is the data from [consumed] on. *)
Fixpoint queue_chunks (fuel : nat) (space : PacketNumberSpace) (max_tx_datagram_size frame_offset : Z) (rest : list byte) : M Connection unit :=
  if zlen rest =? 0 then mret tt else
  match fuel with
  | 0%nat => legal None
  | S fuel =>
      chunk_len ← length_of (maxCryptoFrameDataLen frame_offset (zlen rest) max_tx_datagram_size);
      _ ← queueCryptoFrame space frame_offset (ztake chunk_len rest);
      next ← orelse (endOffset frame_offset chunk_len) Internal;
      queue_chunks fuel space max_tx_datagram_size next (zdrop chunk_len rest)
  end.

Definition sendCryptoInSpace (space : PacketNumberSpace) (data : list byte) : M Connection unit :=
  closed ← get (fun c => PeerAddress.closing_or_closed (peer c));
  if closed : bool then throw ConnectionClosed else
  if zlen data =? 0 then mret tt else
  packet_space ← get (fun c => packetNumberSpace c space);
  if discarded packet_space then throw InvalidPacket else
  let offset := crypto_send_offset packet_space in
  next_offset ← orelse (endOffset offset (zlen data)) CryptoError;
  max_tx_datagram_size ← get maxTxDatagramSize;
  _ ← length_of (maxCryptoFrameDataLen offset (zlen data) max_tx_datagram_size);
  let queue_snapshot := zlen (crypto_send_queue packet_space) in
  _ ← errdefer (rollbackCryptoSendQueue space queue_snapshot) (queue_chunks (length data) space max_tx_datagram_size offset data);
  _ ← modify (upd_space space (fun s => s <| crypto_send_offset := next_offset |>));
  modify (markHandshakeSpaceUsed space).

(** ** Packets *)

(** Encoding a frame into the output buffer, with the errors its callers make of it. *)
Definition encode (f : Frame) (w : FixedWriter) : M Connection FixedWriter := fun c =>
  match encodeFrame f w with
  | Some (inr _, w') => Some (inr w', c)
  | Some (inl NoSpaceLeft, _) => Some (inl BufferTooSmall, c)
  | Some (inl _, _) => Some (inl Internal, c)
  | None => None
  end.

(** What [pollAckOnlyInSpace] returns is the part of [out_buf] it wrote.  [pending_ack_largest], which this and
    [send_crypto_packet] reset with the ACK frame, is in [RecvRanges]. *)
Definition pollAckOnlyInSpace (space : PacketNumberSpace) (a : AckFrame) (now_nanos : Z) (out_buf : list byte)
    : M Connection (option (list byte)) :=
  encoded_len ← lift (ackFrameWireLen a);
  max_tx_datagram_size ← get maxTxDatagramSize;
  if encoded_len >? max_tx_datagram_size then throw BufferTooSmall else
  can_send ← get (fun c => PeerAddress.canSendToPeerAddress (peer c) encoded_len);
  if negb can_send then mret None else
  if zlen out_buf <? encoded_len then throw BufferTooSmall else
  out ← encode (ack a) (Writer (ztake encoded_len out_buf) 0);
  let written := getWritten out in
  _ ← modify (fun c => c <| peer := PeerAddress.recordPeerAddressBytesSent (peer c) (zlen written) |>);
  _ ← modify (recordPacketActivity now_nanos);
  _ ← modify (maybeDiscardInitialAfterHandshakePacketSent space);
  mret (Some written).

(** The [errdefer] that takes the appended packet back. *)
Definition take_back (space : PacketNumberSpace) (c : Connection) : Connection :=
  let sent := sent_packets (packetNumberSpace c space) in
  let c := upd_space space (fun s => s <| sent_packets := removelast sent |>) c in
  match list.last sent with Some removed => deinitSentPacket removed c | None => c end.

(** [queue.orderedRemove(0)] and the [free] of its data. *)
Definition drop_first (space : PacketNumberSpace) (c : Connection) : Connection :=
  match crypto_send_queue (packetNumberSpace c space) with
  | [] => c
  | removed :: queue => free_data (pc_data removed) (upd_space space (fun s => s <| crypto_send_queue := queue |>) c)
  end.

(** The end of [pollCryptoFrame], once it is known whether an ACK frame goes first ([included]). *)
Definition send_crypto_packet (space : PacketNumberSpace) (pending : PendingCryptoFrame) (included : option AckFrame) (encoded_len now_nanos : Z)
    (out_buf : list byte) (clock : Z) : M Connection (option (list byte)) :=
  can_send ← get (fun c => canSendAckElicitingInSpace c space encoded_len && PeerAddress.canSendToPeerAddress (peer c) encoded_len);
  if negb can_send then mret None else
  if zlen out_buf <? encoded_len then throw BufferTooSmall else
  packet_space ← get (fun c => packetNumberSpace c space);
  let packet_number := next_packet_number packet_space in
  if packet_number >? max_quic_varint then throw Internal else
  sent_crypto_frame ← clonePendingCryptoFrame pending;
  _ ← errdefer (free_data (pc_data sent_crypto_frame)) reserve;
  _ ← modify (upd_space space (fun s => s <| sent_packets :=
                sent_packets s ++ [MkSent packet_number now_nanos encoded_len not_ect None (Some sent_crypto_frame) None None] |>));
  errdefer (take_back space) (
    out ← match included with Some a => encode (ack a) (Writer (ztake encoded_len out_buf) 0) | None => mret (Writer (ztake encoded_len out_buf) 0) end;
    out ← encode (crypto (MkCrypto (pc_offset pending) (pc_data pending))) out;
    let written := getWritten out in
    _ ← legal (if zlen written =? encoded_len then Some tt else None);
    _ ← modify (drop_first space);
    next ← orelse (add64 packet_number 1) Internal;
    _ ← modify (upd_space space (fun s => s <| next_packet_number := next |>));
    _ ← modify (recordAckElicitingSendInSpace space (zlen written) clock);
    _ ← modify (fun c => c <| peer := PeerAddress.recordPeerAddressBytesSent (peer c) (zlen written) |>);
    _ ← modify (recordPacketActivity now_nanos);
    _ ← modify (maybeDiscardInitialAfterHandshakePacketSent space);
    _ ← modify (maybeDiscardHandshakeAfterConfirmedCryptoSent space);
    mret (Some written)).

Definition pollCryptoFrame (space : PacketNumberSpace) (ack_to_send : option AckFrame) (now_nanos : Z) (out_buf : list byte) (clock : Z)
    : M Connection (option (list byte)) :=
  packet_space ← get (fun c => packetNumberSpace c space);
  if discarded packet_space then throw InvalidPacket else
  pending ← legal (head (crypto_send_queue packet_space));
  crypto_encoded_len ← lift (cryptoFrameWireLen (pc_offset pending) (zlen (pc_data pending)));
  max_tx_datagram_size ← get maxTxDatagramSize;
  if crypto_encoded_len >? max_tx_datagram_size then throw BufferTooSmall else
  match ack_to_send with
  | None => send_crypto_packet space pending None crypto_encoded_len now_nanos out_buf clock
  | Some a =>
      ack_encoded_len ← lift (ackFrameWireLen a);
      coalesced_len ← lift (addWireLen ack_encoded_len crypto_encoded_len);
      can_send ← get (fun c => canSendAckElicitingInSpace c space coalesced_len && PeerAddress.canSendToPeerAddress (peer c) coalesced_len);
      if (coalesced_len <=? max_tx_datagram_size) && (zlen out_buf >=? coalesced_len) && can_send
      then send_crypto_packet space pending (Some a) coalesced_len now_nanos out_buf clock else
      if (ack_encoded_len <=? max_tx_datagram_size) && (zlen out_buf >=? ack_encoded_len)
      then pollAckOnlyInSpace space a now_nanos out_buf else throw BufferTooSmall
  end.

End CryptoSend.
