(* ===== verification/LossDetectionProps.v ===== *)
(** * Loss detection: exactness, buffers and byte counts

    What [removeAckDrivenLosses] removes and queues again, when it reports
    persistent congestion, and the invariant of a connection under sent packets,
    ACK frames and loss timeouts. *)
From S2P Require Import Prelude Codec Frame FramePayload HyStart Cubic Recovery RecoveryProps Paths LossDetection.
Import Codec Frame FramePayload Recovery LossDetection.
Import RecoveryProps.
Local Open Scope Z_scope.

Module LossDetectionProps.

(** ** Sums over lists *)

Definition zsum {A} (f : A -> Z) (l : list A) : Z := foldr (fun a n => f a + n) 0 l.

Arguments zsum : simpl never.

Lemma zsum_nil {A} (f : A -> Z) : zsum f [] = 0.
Proof. done. Qed.
Lemma zsum_cons {A} (f : A -> Z) a l : zsum f (a :: l) = f a + zsum f l.
Proof. done. Qed.

Lemma zsum_app {A} (f : A -> Z) l1 l2 : zsum f (l1 ++ l2) = zsum f l1 + zsum f l2.
Proof. induction l1; cbn; rewrite ?zsum_cons, ?zsum_nil; lia. Qed.

Lemma zsum_split {A} (f : A -> Z) (b : A -> bool) l :
  zsum f l = zsum f (List.filter b l) + zsum f (List.filter (fun a => negb (b a)) l).
Proof. induction l as [|a l IH]; cbn; [done|]. destruct (b a); cbn; rewrite !zsum_cons; lia. Qed.

Lemma zsum_nonneg {A} (f : A -> Z) l : (forall a, In a l -> 0 <= f a) -> 0 <= zsum f l.
Proof.
  induction l as [|a l IH]; [done|]. intros H. rewrite zsum_cons. pose proof (H a (or_introl eq_refl)).
  pose proof (IH (fun x Hx => H x (or_intror Hx))). lia.
Qed.

Lemma Forall_filter_bool {A} (P : A -> Prop) b (l : list A) : Forall P l -> Forall P (List.filter b l).
Proof. intros H. induction H; cbn; [done|]. destruct (b x); auto. Qed.

(** ** Runs of a connection: the value or the error, and the state *)

Definition run_to {A} (o : option ((Err + A) * Connection)) (Q : A -> Connection -> Prop) (E : Err -> Connection -> Prop) : Prop :=
  wp o (fun r => match fst r with inr a => Q a (snd r) | inl e => E e (snd r) end).

Lemma run_seq {A B} (m : M Connection A) (k : A -> M Connection B) c Q E :
  run_to (m c) (fun a c' => run_to (k a c') Q E) E -> run_to ((m ≫= k) c) Q E.
Proof. unfold run_to, mbind, M_bind. by destruct (m c) as [[[e|a] c']|]. Qed.

Lemma run_ret {A} (a : A) c (Q : A -> Connection -> Prop) (E : Err -> Connection -> Prop) : Q a c -> run_to ((mret a : M Connection A) c) Q E.
Proof. done. Qed.

Lemma run_legal {A} (o : option A) a c (Q : A -> Connection -> Prop) (E : Err -> Connection -> Prop) :
  o = Some a -> Q a c -> run_to (legal o c) Q E.
Proof. by intros ->. Qed.

Lemma run_get {A} (f : Connection -> A) c (Q : A -> Connection -> Prop) (E : Err -> Connection -> Prop) :
  Q (f c) c -> run_to (get f c) Q E.
Proof. done. Qed.

Lemma run_modify f c (Q : unit -> Connection -> Prop) (E : Err -> Connection -> Prop) : Q tt (f c) -> run_to (modify f c) Q E.
Proof. done. Qed.

Lemma run_mono {A} (o : option ((Err + A) * Connection)) (Q Q' : A -> Connection -> Prop) (E E' : Err -> Connection -> Prop) :
  run_to o Q E -> (forall a c, Q a c -> Q' a c) -> (forall e c, E e c -> E' e c) -> run_to o Q' E'.
Proof. unfold run_to. destruct o as [[[e|a] c]|]; cbn; auto. Qed.

Lemma run_errdefer {A} cl (m : M Connection A) c Q (E : Err -> Connection -> Prop) :
  run_to (m c) Q (fun e c' => E e (cl c')) -> run_to (errdefer cl m c) Q E.
Proof. unfold run_to, errdefer. by destruct (m c) as [[[e|a] c']|]. Qed.

(** ** Buffers *)

Definition data_buf (data : list byte) : Z := if zlen data =? 0 then 0 else 1.
Definition stream_buf (f : PendingStreamFrame) : Z := data_buf (ps_data f).
Definition crypto_buf (f : PendingCryptoFrame) : Z := data_buf (pc_data f).
Definition packet_bufs (p : SentPacket) : Z :=
  zsum stream_buf (option_list (stream_frame p)) + zsum crypto_buf (option_list (crypto_frame p)).
Definition space_bufs (s : State) : Z :=
  zsum packet_bufs (sent_packets s) + zsum crypto_buf (crypto_send_queue s) + zsum crypto_buf (crypto_recv_pending s).

(** The buffers of frame data a connection owns. *)
Definition owned (c : Connection) : Z :=
  space_bufs (initial_packet_space c) + space_bufs (handshake_packet_space c) + space_bufs (application_packet_space c)
  + zsum stream_buf (send_queue c).

(** The connection with another allocator. *)
Definition mem (l : list bool) (n : Z) (c : Connection) : Connection := c <| allocator := l |> <| live_frames := n |>.

Lemma mem_self c : mem (allocator c) (live_frames c) c = c.
Proof. by destruct c. Qed.

Lemma free_mem data l n c : free_data data (mem l n c) = mem l (n - data_buf data) c.
Proof. unfold free_data, data_buf. destruct (zlen data =? 0); [|done]. by rewrite Z.sub_0_r. Qed.

Lemma deinit_mem p l n c : deinitSentPacket p (mem l n c) = mem l (n - packet_bufs p) c.
Proof.
  unfold deinitSentPacket, packet_bufs. destruct (stream_frame p) as [f|], (crypto_frame p) as [g|]; cbn -[free_data];
    rewrite ?free_mem, ?zsum_cons, ?zsum_nil; unfold stream_buf, crypto_buf; f_equal; lia.
Qed.

Lemma run_reserve l n c : run_to (reserve (mem l n c))
  (fun _ c' => exists l', c' = mem l' n c) (fun e c' => e = OutOfMemory /\ exists l', c' = mem l' n c).
Proof. unfold reserve. cbn. destruct l as [|[] l]; cbn; eauto. Qed.

Lemma run_dupe data l n c : run_to (dupe data (mem l n c))
  (fun d c' => d = data /\ exists l', c' = mem l' (n + data_buf data) c) (fun e c' => e = OutOfMemory /\ exists l', c' = mem l' n c).
Proof.
  unfold dupe, data_buf. destruct (zlen data =? 0); cbn; [|destruct l as [|[] l]; cbn; eauto].
  split; [done|]. exists l. by rewrite Z.add_0_r.
Qed.

(** ** What is retransmitted *)

Definition stream_was_reset (c : Connection) (p : SentPacket) : bool :=
  match stream_frame p with
  | Some pending => match findSendStream c (ps_stream_id pending) with Some s => reset_sent s | None => false end
  | None => false
  end.
Definition reset_was_acked (c : Connection) (p : SentPacket) : bool :=
  match reset_stream_frame p with Some reset => resetStreamFrameAlreadyAcked c reset | None => false end.

(** The frames of a lost packet that are sent again: none if its stream has been reset, no RESET_STREAM that is
    acknowledged. *)
Definition resend (c : Connection) (p : SentPacket) : Retransmit :=
  if stream_was_reset c p then nothing else
  MkRetransmit (option_list (stream_frame p)) (option_list (crypto_frame p))
    (if reset_was_acked c p then [] else option_list (reset_stream_frame p))
    (if reset_was_acked c p then [] else option_list (stop_sending_frame p)).

Definition rt_app (a b : Retransmit) : Retransmit :=
  MkRetransmit (rt_frames a ++ rt_frames b) (rt_crypto a ++ rt_crypto b) (rt_reset a ++ rt_reset b) (rt_stop a ++ rt_stop b).
Definition resend_all (c : Connection) (ps : list SentPacket) : Retransmit := foldr (fun p rt => rt_app (resend c p) rt) nothing ps.
Arguments resend_all : simpl never.
Lemma resend_all_cons c p ps : resend_all c (p :: ps) = rt_app (resend c p) (resend_all c ps).
Proof. done. Qed.

Definition rt_bufs (rt : Retransmit) : Z := zsum stream_buf (rt_frames rt) + zsum crypto_buf (rt_crypto rt).

Lemma rt_app_assoc a b d : rt_app (rt_app a b) d = rt_app a (rt_app b d).
Proof. unfold rt_app; cbn. by rewrite <- !(assoc_L (++)). Qed.
Lemma rt_app_nil a : rt_app a nothing = a.
Proof. destruct a. unfold rt_app; cbn. by rewrite !app_nil_r. Qed.
Lemma rt_nil_app a : rt_app nothing a = a.
Proof. by destruct a. Qed.
Lemma rt_bufs_app a b : rt_bufs (rt_app a b) = rt_bufs a + rt_bufs b.
Proof. unfold rt_bufs, rt_app; cbn. rewrite !zsum_app. lia. Qed.

Lemma release_mem rt l n c : release rt (mem l n c) = mem l (n - rt_bufs rt) c.
Proof.
  unfold release, rt_bufs. destruct rt as [fs gs rs ss]; cbn. revert n. induction fs as [|f fs IH]; intros n; cbn -[free_data].
  - revert n. induction gs as [|g gs IH]; intros n; cbn -[free_data]; [rewrite !zsum_nil; f_equal; lia|]. rewrite free_mem, IH.
    rewrite zsum_cons, !zsum_nil. change (data_buf (pc_data g)) with (crypto_buf g). f_equal. lia.
  - rewrite free_mem, IH. rewrite zsum_cons. change (data_buf (ps_data f)) with (stream_buf f). f_equal. lia.
Qed.

Definition oom_free (n : Z) (c : Connection) (e : Err) (c' : Connection) : Prop := e = OutOfMemory /\ exists l', c' = mem l' n c.

(** [m] adds the frames [add] to [rt], with their buffers, or fails and frees [rt]. *)
Definition collects (c : Connection) (m : M Connection Retransmit) (rt add : Retransmit) : Prop := forall l n,
  run_to (m (mem l n c)) (fun rt' c' => rt' = rt_app rt add /\ exists l', c' = mem l' (n + rt_bufs add) c) (oom_free (n - rt_bufs rt) c).

Lemma rt_bufs_nothing : rt_bufs nothing = 0.
Proof. done. Qed.

Lemma collects_skip c rt : collects c (mret rt) rt nothing.
Proof. intros l n. apply run_ret. rewrite rt_app_nil. split; [done|]. exists l. f_equal. rewrite rt_bufs_nothing. lia. Qed.

Lemma collects_seq c m k rt a1 a2 : collects c m rt a1 -> collects c (k (rt_app rt a1)) (rt_app rt a1) a2 ->
  collects c (m ≫= k) rt (rt_app a1 a2).
Proof.
  intros H1 H2 l n. apply run_seq. eapply run_mono; [apply H1| |done]. intros ? ? (-> & l1 & ->).
  eapply run_mono; [apply H2| |].
  - intros ? ? (-> & l2 & ->). rewrite rt_app_assoc, rt_bufs_app. split; [done|]. exists l2. f_equal. lia.
  - intros e c' (-> & l2 & ->). split; [done|]. exists l2. f_equal. rewrite rt_bufs_app. lia.
Qed.

(** A clone of frame data, then an append. *)
Lemma collects_clone {F} c (data : list byte) (mk : list byte -> F) (dat : F -> list byte) (grow : F -> Retransmit) rt add :
  (forall d, dat (mk d) = d) -> grow (mk data) = rt_app rt add -> rt_bufs add = data_buf data ->
  collects c (errdefer (release rt) ((dupe data ≫= fun d => mret (mk d)) ≫= fun x =>
    errdefer (free_data (dat x)) reserve ≫= fun _ => mret (grow x))) rt add.
Proof.
  intros Hd Hg Hb l n. apply run_errdefer, run_seq, run_seq. eapply run_mono; [apply run_dupe| |].
  - intros d c' (-> & l' & ->). apply run_ret, run_seq, run_errdefer. rewrite Hd. eapply run_mono; [apply run_reserve| |].
    + intros _ c' (l2 & ->). apply run_ret. rewrite Hb. split; [done|]. by exists l2.
    + intros e c' (-> & l2 & ->). split; [done|]. exists l2. rewrite free_mem, release_mem. f_equal. lia.
  - intros e c' (-> & l' & ->). split; [done|]. exists l'. by rewrite release_mem.
Qed.

Lemma collects_stream c f rt : collects c (collect_stream f rt) rt (MkRetransmit [f] [] [] []).
Proof.
  apply (collects_clone c (ps_data f) (MkPendingStream (ps_stream_id f) (ps_offset f) (ps_fin f)) ps_data
    (fun x => rt <| rt_frames := rt_frames rt ++ [x] |>)); [done| |].
  - destruct rt, f. unfold rt_app; cbn. by rewrite !app_nil_r.
  - unfold rt_bufs; cbn. rewrite zsum_cons, !zsum_nil. unfold stream_buf. lia.
Qed.

Lemma collects_crypto c f rt : collects c (collect_crypto f rt) rt (MkRetransmit [] [f] [] []).
Proof.
  apply (collects_clone c (pc_data f) (MkPendingCrypto (pc_offset f)) pc_data
    (fun x => rt <| rt_crypto := rt_crypto rt ++ [x] |>)); [done| |].
  - destruct rt, f. unfold rt_app; cbn. by rewrite !app_nil_r.
  - unfold rt_bufs; cbn. rewrite zsum_cons, !zsum_nil. unfold crypto_buf. lia.
Qed.

(** An append of a frame without data. *)
Lemma collects_plain c rt rt' add : rt' = rt_app rt add -> rt_bufs add = 0 ->
  collects c (errdefer (release rt) reserve ≫= fun _ => mret rt') rt add.
Proof.
  intros -> Hb l n. apply run_seq, run_errdefer. eapply run_mono; [apply run_reserve| |].
  - intros _ c' (l' & ->). apply run_ret. split; [done|]. exists l'. f_equal. lia.
  - intros e c' (-> & l' & ->). split; [done|]. exists l'. by rewrite release_mem.
Qed.

Lemma collects_option {F} c (o : option F) (k : F -> M Connection Retransmit) (u : list F -> Retransmit) rt :
  u [] = nothing -> (forall f, collects c (k f) rt (u [f])) ->
  collects c (match o with Some f => k f | None => mret rt end) rt (u (option_list o)).
Proof. intros Hu Hk. destruct o as [f|]; cbn; [apply Hk|]. rewrite Hu. apply collects_skip. Qed.

Lemma collects_packet c p rt : collects c (collect_packet p rt) rt (resend c p).
Proof.
  intros l n. unfold collect_packet.
  change (match stream_frame p with Some _ => _ | None => false end) with (stream_was_reset c p).
  unfold resend. destruct (stream_was_reset c p); [apply collects_skip|].
  change (match reset_stream_frame p with Some _ => resetStreamFrameAlreadyAcked _ _ | None => false end) with (reset_was_acked c p).
  set (fs := option_list (stream_frame p)). set (gs := option_list (crypto_frame p)).
  assert (forall rs ss, MkRetransmit fs gs rs ss =
    rt_app (MkRetransmit fs [] [] []) (rt_app (MkRetransmit [] gs [] []) (MkRetransmit [] [] rs ss))) as ->
    by (intros; unfold rt_app; cbn; by rewrite !app_nil_r).
  apply collects_seq; [apply (collects_option c _ _ (fun l => MkRetransmit l [] [] [])); [done|intros; apply collects_stream]|].
  apply collects_seq; [apply (collects_option c _ _ (fun l => MkRetransmit [] l [] [])); [done|intros; apply collects_crypto]|].
  destruct (reset_was_acked c p); [apply collects_skip|].
  assert (forall rs ss, MkRetransmit [] [] rs ss = rt_app (MkRetransmit [] [] rs []) (MkRetransmit [] [] [] ss)) as ->
    by (intros; unfold rt_app; cbn; by rewrite app_nil_r).
  apply collects_seq.
  - apply (collects_option c _ _ (fun l => MkRetransmit [] [] l [])); [done|]. intros g. apply collects_plain; [|done].
    unfold rt_app; cbn. by rewrite !app_nil_r.
  - apply (collects_option c _ _ (fun l => MkRetransmit [] [] [] l)); [done|]. intros g. apply collects_plain; [|done].
    unfold rt_app; cbn. by rewrite !app_nil_r.
Qed.

(** ** Which packets are lost *)

(** A packet is lost when it is at or below the largest acknowledged number and either three numbers below it or
    older than the loss delay. *)
Definition lost_now (la delay now : Z) (p : SentPacket) : bool :=
  (packet_number p <=? la) && ((packet_number p + 3 <=? la) || (sent_time_nanos p + delay <=? now)).

(** The times at which the packets up to the largest acknowledged that are not lost yet will be. *)
Definition waiting (la delay now : Z) (ps : list SentPacket) : list Z :=
  map (fun p => sent_time_nanos p + delay) (List.filter (fun p => (packet_number p <=? la) && negb (lost_now la delay now p)) ps).

Definition times_ok (delay : Z) (p : SentPacket) : Prop :=
  0 <= packet_number p <= max_quic_varint /\ I64_MIN <= sent_time_nanos p + delay <= I64_MAX.

Lemma lost_or_deadline_ok la delay now p : 0 <= delay <= I64_MAX -> times_ok delay p ->
  lost_or_deadline la delay now p =
    Some ((packet_number p + 3 <=? la) || (sent_time_nanos p + delay <=? now), sent_time_nanos p + delay).
Proof.
  intros Hd (Hn & Ht). unfold lost_or_deadline, intCast.
  rewrite (proj2 (Z.leb_le 0 delay)), (proj2 (Z.leb_le delay _)) by lia. cbn. rewrite i64_in by done. cbn.
  rewrite sat_add, Z.min_l by (unfold packet_threshold_loss_gap, U64_MAX, max_quic_varint in *; lia).
  by rewrite Z.geb_leb.
Qed.

Lemma lost_now_eq la delay now p : lost_now la delay now p =
  (packet_number p <=? la) && ((packet_number p + 3 <=? la) || (sent_time_nanos p + delay <=? now)).
Proof. done. Qed.

Lemma run_collect_lost la delay now c ps rt d l n : 0 <= delay <= I64_MAX -> Forall (times_ok delay) ps ->
  let lost := List.filter (lost_now la delay now) ps in
  run_to (collect_lost la delay now ps rt d (mem l n c))
    (fun r c' => r = (rt_app rt (resend_all c lost), fold_left min_option (waiting la delay now ps) d) /\
       exists l', c' = mem l' (n + rt_bufs (resend_all c lost)) c)
    (oom_free (n - rt_bufs rt) c).
Proof.
  intros Hd Hps. cbv zeta. revert rt d l n. induction Hps as [|p ps Hp Hps IH]; intros rt d l n; cbn [collect_lost].
  - apply run_ret. unfold waiting; cbn. change (resend_all c []) with nothing. rewrite rt_app_nil. split; [done|]. exists l.
    f_equal. rewrite rt_bufs_nothing. lia.
  - unfold waiting in *; cbn [List.filter]. rewrite (lost_now_eq la delay now p), Z.gtb_ltb, Z.ltb_antisym.
    destruct (packet_number p <=? la) eqn:Ep; cbn [andb negb]; [|apply IH].
    apply run_seq. eapply run_legal; [by apply lost_or_deadline_ok|].
    destruct (_ || _) eqn:El; cbn [negb].
    + apply run_seq. eapply run_mono; [apply collects_packet| |done]. intros ? ? (-> & l1 & ->).
      eapply run_mono; [apply IH| |].
      * intros ? ? (-> & l2 & ->). cbn. rewrite resend_all_cons, rt_app_assoc, rt_bufs_app. split; [done|]. exists l2. f_equal. lia.
      * intros e c' (-> & l2 & ->). split; [done|]. exists l2. f_equal. rewrite rt_bufs_app. lia.
    + apply IH.
Qed.

(** The second loop, on the recorded losses. *)
Fixpoint record_all (first : option Z) (ps : list SentPacket) (r : LossDetectionResult) : option LossDetectionResult :=
  match ps with [] => Some r | p :: ps => r ← recordLostPacket r p first; record_all first ps r end.

Lemma record_total first p r : pc_candidate_count r < U64_MAX ->
  exists r', recordLostPacket r p first = Some r' /\ pc_candidate_count r <= pc_candidate_count r' <= pc_candidate_count r + 1.
Proof.
  intros Hc. unfold recordLostPacket. cbv zeta. destruct first as [t|]; [|eexists; split; [done|cbn; lia]].
  destruct (_ <=? t); [eexists; split; [done|cbn; lia]|].
  assert (forall x : LossDetectionResult, pc_candidate_count x = pc_candidate_count r -> exists r',
    (count ← add64 (pc_candidate_count x) 1; Some (x <| pc_candidate_count := count |>)) = Some r' /\
    pc_candidate_count r <= pc_candidate_count r' <= pc_candidate_count r + 1) as K.
  { intros x Ex. unfold add64. rewrite Ex, (proj2 (Z.leb_le _ _)) by lia. eexists; split; [done|cbn; lia]. }
  apply K. destruct (_ =? 0); [done|]. by destruct (negb _).
Qed.

Lemma record_all_total first ps r : pc_candidate_count r + zlen ps <= U64_MAX -> is_Some (record_all first ps r).
Proof.
  revert r. induction ps as [|p ps IH]; intros r Hc; cbn; [done|]. rewrite zlen_cons in Hc. pose proof (zlen_nonneg ps).
  destruct (record_total first p r ltac:(lia)) as (r' & -> & Hr). cbn. apply IH. lia.
Qed.

(** The state of the second loop. *)
Definition put (sp : PacketNumberSpace) (ps : list SentPacket) (d : option Z) (l : list bool) (n : Z) (c : Connection) : Connection :=
  mem l n (upd_space sp (fun s => s <| sent_packets := ps |> <| loss_deadline_nanos := d |>) c).

Lemma put_first sp ps d l n c : first_rtt_sample_sent_time_nanos (packetNumberSpace (put sp ps d l n c) sp) =
  first_rtt_sample_sent_time_nanos (packetNumberSpace c sp).
Proof. by destruct sp. Qed.

Lemma run_remove_lost sp la delay now c kept ps r r' d l n : 0 <= delay <= I64_MAX -> Forall (times_ok delay) ps ->
  let lost := List.filter (lost_now la delay now) ps in
  record_all (first_rtt_sample_sent_time_nanos (packetNumberSpace c sp)) lost r = Some r' ->
  remove_lost sp la delay now kept ps r (put sp (kept ++ ps) d l n c) =
    Some (inr r', put sp (kept ++ List.filter (fun p => negb (lost_now la delay now p)) ps)
      (fold_left min_option (waiting la delay now ps) d) l (n - zsum packet_bufs lost) c).
Proof.
  intros Hd Hps. cbv zeta. revert kept r d n. induction Hps as [|p ps Hp Hps IH]; intros kept r d n Hr; cbn [remove_lost].
  - cbn in Hr. injection Hr as ->. cbn. rewrite zsum_nil, Z.sub_0_r. done.
  - unfold waiting in *; cbn [List.filter] in *. rewrite (lost_now_eq la delay now p) in *. rewrite Z.gtb_ltb, Z.ltb_antisym.
    destruct (packet_number p <=? la) eqn:Ep; cbn [andb negb] in *.
    2: { rewrite (cons_middle p kept ps), (assoc_L (++) kept [p] ps). rewrite IH by done. by rewrite <- (assoc_L (++)). }
    unfold mbind, M_bind. rewrite lost_or_deadline_ok by done. cbn [legal].
    destruct (_ || _) eqn:El; cbn [negb modify get legal] in *.
    + cbn [record_all] in Hr. destruct (recordLostPacket r p _) as [r1|] eqn:E1; [|done]. cbn in Hr.
      replace (upd_space sp _ (put sp (kept ++ p :: ps) d l n c)) with (put sp (kept ++ ps) d l n c) by (by destruct sp).
      rewrite put_first, E1. cbn. unfold put at 1. rewrite deinit_mem.
      fold (put sp (kept ++ ps) d l (n - packet_bufs p) c). rewrite IH by done. rewrite zsum_cons. do 3 f_equal. lia.
    + replace (upd_space sp _ (put sp (kept ++ p :: ps) d l n c))
        with (put sp (kept ++ p :: ps) (min_option d (sent_time_nanos p + delay)) l n c) by (by destruct sp).
      rewrite (cons_middle p kept ps), (assoc_L (++) kept [p] ps). rewrite IH by done. by rewrite <- (assoc_L (++)).
Qed.

(** ** The exact effect of loss detection *)

Definition is_min (o : option Z) (l : list Z) : Prop :=
  match o with None => l = [] | Some d => In d l /\ forall x, In x l -> d <= x end.

Lemma fold_min l o : is_min (fold_left min_option l o) (option_list o ++ l).
Proof.
  revert o. induction l as [|x l IH]; intros o; cbn [fold_left].
  - rewrite app_nil_r. destruct o; cbn; [|done]. split; [by left|]. intros y [->|[]]. lia.
  - specialize (IH (min_option o x)). unfold min_option in *. destruct (fold_left _ l _) as [d|]; [|done].
    cbn in IH. destruct IH as (Hin & Hle), o as [y|]; cbn in *.
    + split; [|intros z [<-|[<-|Hz]]; [| |apply Hle; auto]].
      * destruct Hin as [<-|Hin]; [|auto]. destruct (Z.min_spec y x) as [[_ ->]|[_ ->]]; auto.
      * pose proof (Hle _ (or_introl eq_refl)). lia.
      * pose proof (Hle _ (or_introl eq_refl)). lia.
    + split; [done|]. intros z Hz. apply Hle. tauto.
Qed.

Lemma fold_min_twice l : is_min (fold_left min_option l (fold_left min_option l None)) l.
Proof.
  pose proof (fold_min l None) as H1. pose proof (fold_min l (fold_left min_option l None)) as H2. cbn in H1.
  destruct (fold_left min_option l None) as [d|]; cbn in *; [|by rewrite H1].
  destruct (fold_left min_option l (Some d)) as [e|]; [|done]. cbn in *. destruct H1 as (Hd & Hle), H2 as (He & Hle').
  split; [|intros x Hx; apply Hle'; auto]. by destruct He as [<-|He].
Qed.

Definition survivors (la delay now : Z) (ps : list SentPacket) : list SentPacket :=
  List.filter (fun p => negb (lost_now la delay now p)) ps.

(** The connection after the losses of a space are removed: the lost packets leave [sent_packets], their frames are at
    the front of the queues, the loss timer is [d]. *)
Definition after_losses (c : Connection) (sp : PacketNumberSpace) (la delay now : Z) (d : option Z) (l : list bool) : Connection :=
  let s := packetNumberSpace c sp in
  let lost := List.filter (lost_now la delay now) (sent_packets s) in
  let rt := resend_all c lost in
  mem l (live_frames c + rt_bufs rt - zsum packet_bufs lost)
    (set_space sp (s <| sent_packets := survivors la delay now (sent_packets s) |> <| loss_deadline_nanos := d |>
                     <| crypto_send_queue := rt_crypto rt ++ crypto_send_queue s |>)
       (c <| send_queue := rt_frames rt ++ send_queue c |> <| pending_reset_streams := rt_reset rt ++ pending_reset_streams c |>
          <| pending_stop_sending := rt_stop rt ++ pending_stop_sending c |>)).

Lemma after_losses_owned c sp la delay now d l :
  live_frames (after_losses c sp la delay now d l) - owned (after_losses c sp la delay now d l) = live_frames c - owned c.
Proof.
  pose proof (zsum_split packet_bufs (lost_now la delay now) (sent_packets (packetNumberSpace c sp))) as Hs.
  unfold after_losses, owned, space_bufs, rt_bufs, survivors in *. destruct sp; cbn in *; rewrite !zsum_app; lia.
Qed.

Definition loss_delay (s : State) (rtt : option Z) : Z :=
  timeThresholdLossDelayNs (Some (default 0 rtt)) (smoothed_rtt_ns (recovery_state s)).

Lemma loss_delay_pos s rtt : 0 <= loss_delay s rtt.
Proof. unfold loss_delay, timeThresholdLossDelayNs, timer_granularity_ns. lia. Qed.

Lemma run_reserve4 l n c : run_to ((_ ← reserve; _ ← reserve; _ ← reserve; reserve) (mem l n c))
  (fun _ c' => exists l', c' = mem l' n c) (fun e c' => e = OutOfMemory /\ exists l', c' = mem l' n c).
Proof.
  do 3 (apply run_seq; eapply run_mono; [apply run_reserve| |done]; intros _ ? (? & ->)). apply run_reserve.
Qed.

Lemma run_removeAckDrivenLosses c sp la rtt now (s := packetNumberSpace c sp) (delay := loss_delay s rtt)
    (lost := List.filter (lost_now la delay now) (sent_packets s)) :
  delay <= I64_MAX -> Forall (times_ok delay) (sent_packets s) -> zlen (sent_packets s) <= U64_MAX ->
  run_to (removeAckDrivenLosses sp la rtt now c)
    (fun result c' => exists d l, record_all (first_rtt_sample_sent_time_nanos s) lost no_loss = Some result /\
       is_min d (waiting la delay now (sent_packets s)) /\ c' = after_losses c sp la delay now d l)
    (fun e c' => e = OutOfMemory /\ exists l, c' = c <| allocator := l |>).
Proof.
  intros Hd Hps Hlen. pose proof (loss_delay_pos s rtt) as Hpos. fold delay in Hpos.
  assert (zlen lost <= zlen (sent_packets s)) as Hl by (unfold zlen, lost; pose proof (List.filter_length_le (lost_now la delay now) (sent_packets s)); lia).
  destruct (record_all_total (first_rtt_sample_sent_time_nanos s) lost no_loss) as (result & Hr); [cbn; lia|].
  unfold removeAckDrivenLosses. cbv zeta. fold s. fold (loss_delay s rtt). fold delay.
  match goal with |- run_to (?m c) _ _ => replace (m c) with (m (mem (allocator c) (live_frames c) c)) by (by rewrite mem_self) end.
  apply run_seq. eapply run_mono; [by apply run_collect_lost| |].
  2: { intros e c' (-> & l' & ->). split; [done|]. exists l'. rewrite rt_bufs_nothing, Z.sub_0_r. by destruct c. }
  fold lost. intros ? ? (-> & l1 & ->). rewrite rt_nil_app. set (rt := resend_all c lost).
  set (d1 := fold_left _ _ _).
  apply run_seq, run_errdefer. eapply run_mono; [apply run_reserve4| |].
  2: { intros e c' (-> & l' & ->). split; [done|]. exists l'. rewrite release_mem.
       replace (live_frames c + rt_bufs rt - rt_bufs rt) with (live_frames c) by lia. by destruct c. }
  intros _ c' (l2 & ->). apply run_seq, run_modify.
  replace (commit_retransmit sp rt d1 _) with (put sp ([] ++ sent_packets s) d1 l2 (live_frames c + rt_bufs rt)
    (upd_space sp (fun s => s <| crypto_send_queue := rt_crypto rt ++ crypto_send_queue s |>)
       (c <| send_queue := rt_frames rt ++ send_queue c |> <| pending_reset_streams := rt_reset rt ++ pending_reset_streams c |>
          <| pending_stop_sending := rt_stop rt ++ pending_stop_sending c |>))) by (unfold s; by destruct sp).
  unfold run_to. rewrite (run_remove_lost sp la delay now _ [] (sent_packets s) no_loss result); [|lia|done|by rewrite <- Hr; destruct sp].
  cbn. eexists _, l2. split_and!; [done|apply fold_min_twice|]. unfold after_losses. fold s. by destruct sp.
Qed.

(** ** What the result records *)

Fixpoint consecutive (l : list Z) : bool :=
  match l with x :: ((y :: _) as l') => (y =? x + 1) && consecutive l' | _ => true end.

Lemma consecutive_snoc l y : consecutive (l ++ [y]) = consecutive l && match list.last l with Some x => y =? x + 1 | None => true end.
Proof.
  induction l as [|x l IH]; [done|]. destruct l as [|z l]; [cbn; by rewrite andb_comm|].
  change (consecutive ((x :: z :: l) ++ [y])) with ((z =? x + 1) && consecutive ((z :: l) ++ [y])).
  change (consecutive (x :: z :: l)) with ((z =? x + 1) && consecutive (z :: l)). rewrite IH.
  change (list.last (x :: z :: l)) with (list.last (z :: l)). by rewrite andb_assoc.
Qed.

(** The lost packets sent after the first RTT sample. *)
Definition candidates (first : option Z) (ps : list SentPacket) : list SentPacket :=
  List.filter (fun p => match first with Some t => t <? sent_time_nanos p | None => false end) ps.

Record describes (first : option Z) (ps : list SentPacket) (r : LossDetectionResult) : Prop := {
  de_bytes : lost_bytes r = Z.min (zsum bytes ps) U64_MAX;
  de_time : largest_lost_sent_time_nanos r = None <-> ps = [];
  de_count : pc_candidate_count r = zlen (candidates first ps);
  de_first : match candidates first ps with p :: _ => pc_first_sent_time_nanos r = sent_time_nanos p | [] => True end;
  de_last : match list.last (candidates first ps) with
            | Some p => pc_last_packet_number r = packet_number p /\ pc_last_sent_time_nanos r = sent_time_nanos p
            | None => True end;
  de_run : pc_contiguous_packet_numbers r = consecutive (map packet_number (candidates first ps));
}.

Definition number_ok (p : SentPacket) : Prop := 0 <= packet_number p <= max_quic_varint /\ 0 <= bytes p <= U64_MAX.

Lemma describes_nil first : describes first [] no_loss.
Proof. split; try done. Qed.

Lemma sat_min a b : 0 <= a -> 0 <= b -> saturatingAddU64 (Z.min a U64_MAX) b = Z.min (a + b) U64_MAX.
Proof. intros. rewrite sat_add. lia. Qed.

(** The part of [recordLostPacket] on persistent congestion. *)
Lemma describes_candidate t cs p r r' : Forall number_ok cs -> number_ok p ->
  pc_candidate_count r = zlen cs ->
  match cs with q :: _ => pc_first_sent_time_nanos r = sent_time_nanos q | [] => True end ->
  match list.last cs with
  | Some q => pc_last_packet_number r = packet_number q /\ pc_last_sent_time_nanos r = sent_time_nanos q | None => True end ->
  pc_contiguous_packet_numbers r = consecutive (map packet_number cs) ->
  t < sent_time_nanos p -> recordLostPacket r p (Some t) = Some r' ->
  pc_candidate_count r' = zlen (cs ++ [p]) /\
  match cs ++ [p] with q :: _ => pc_first_sent_time_nanos r' = sent_time_nanos q | [] => True end /\
  pc_last_packet_number r' = packet_number p /\ pc_last_sent_time_nanos r' = sent_time_nanos p /\
  pc_contiguous_packet_numbers r' = consecutive (map packet_number (cs ++ [p])).
Proof.
  intros Hcs Hp Hc Hf Hl Hr Ht Hrec. unfold recordLostPacket in Hrec. cbv zeta in Hrec.
  rewrite (proj2 (Z.leb_gt _ _)) in Hrec by lia. cbn [pc_candidate_count] in Hrec.
  destruct cs as [|q cs].
  - change (zlen []) with 0 in Hc. cbn in Hr. cbn -[add64] in Hrec. rewrite Hc in Hrec. cbn -[add64] in Hrec. rewrite Hc in Hrec.
    cbn in Hrec. injection Hrec as <-. cbn. by rewrite Hr.
  - destruct (list.last (q :: cs)) as [x|] eqn:Ex; [|by apply last_None in Ex]. destruct Hl as (Hn & Hs).
    assert (In x (q :: cs)) as Hx by (apply list_elem_of_In; by apply last_Some_elem_of).
    rewrite List.Forall_forall in Hcs. apply Hcs in Hx as [Hx _].
    assert (list.last (map packet_number (q :: cs)) = Some (packet_number x)) as Em
      by (change (map packet_number (q :: cs)) with (packet_number <$> (q :: cs)); by rewrite fmap_last, Ex).
    rewrite map_app. change (map packet_number [p]) with [packet_number p]. rewrite consecutive_snoc, Em, <- Hr. clear Em Ex.
    rewrite zlen_app, <- Hc. change (zlen [p]) with 1. rewrite zlen_cons in Hc. pose proof (zlen_nonneg cs).
    cbn -[add64 saturatingAddU64] in Hrec. rewrite (proj2 (Z.eqb_neq (pc_candidate_count r) 0)) in Hrec by lia.
    rewrite Hn, sat_add, Z.min_l in Hrec by (unfold U64_MAX, max_quic_varint in *; lia).
    unfold add64 in Hrec.
    destruct (packet_number p =? packet_number x + 1); cbn in Hrec; destruct (_ <=? U64_MAX) in Hrec; try done;
      injection Hrec as <-; cbn; by rewrite ?andb_true_r, ?andb_false_r.
Qed.

Lemma record_base r p first r' : recordLostPacket r p first = Some r' ->
  lost_bytes r' = saturatingAddU64 (lost_bytes r) (bytes p) /\ is_Some (largest_lost_sent_time_nanos r').
Proof.
  unfold recordLostPacket. cbv zeta. intros Hrec. destruct first as [t|]; [|by injection Hrec as <-].
  destruct (_ <=? t); [by injection Hrec as <-|]. cbn -[add64] in Hrec. unfold add64 in Hrec.
  destruct (_ =? 0) in Hrec; [|destruct (negb _) in Hrec]; cbn in Hrec; destruct (_ <=? U64_MAX) in Hrec; try done;
    injection Hrec as <-; done.
Qed.

Lemma record_other r p first r' : match first with Some t => sent_time_nanos p <= t | None => True end ->
  recordLostPacket r p first = Some r' -> pc_candidate_count r' = pc_candidate_count r /\
  pc_first_sent_time_nanos r' = pc_first_sent_time_nanos r /\ pc_last_packet_number r' = pc_last_packet_number r /\
  pc_last_sent_time_nanos r' = pc_last_sent_time_nanos r /\ pc_contiguous_packet_numbers r' = pc_contiguous_packet_numbers r.
Proof.
  unfold recordLostPacket. cbv zeta. intros Hle Hrec. destruct first as [t|]; [|by injection Hrec as <-].
  rewrite (proj2 (Z.leb_le _ _)) in Hrec by done. by injection Hrec as <-.
Qed.

Lemma describes_snoc first ps p r r' : Forall number_ok ps -> number_ok p -> describes first ps r ->
  recordLostPacket r p first = Some r' -> describes first (ps ++ [p]) r'.
Proof.
  intros Hps Hp [Hb Ht Hc Hf Hl Hr] Hrec. destruct (record_base _ _ _ _ Hrec) as (Hb' & ti & Hti).
  assert (0 <= zsum bytes ps) as Hs by (apply zsum_nonneg; intros a Ha; rewrite List.Forall_forall in Hps; by apply Hps in Ha as [_ []]).
  rewrite Hb, sat_min in Hb'; [|lia|apply Hp].
  assert (candidates first (ps ++ [p]) = candidates first ps ++ candidates first [p]) as Ec by apply List.filter_app.
  assert (match first with Some t => sent_time_nanos p <= t | None => True end \/ exists t, first = Some t /\ t < sent_time_nanos p)
    as [Hle|(t & -> & Hlt)].
  { destruct first as [t|]; [|by left]. destruct (Z_lt_le_dec t (sent_time_nanos p)); eauto. }
  - destruct (record_other _ _ _ _ Hle Hrec) as (E1 & E2 & E3 & E4 & E5).
    assert (candidates first [p] = []) as En.
    { unfold candidates; cbn. destruct first as [t|]; [|done]. by rewrite (proj2 (Z.ltb_ge _ _)). }
    rewrite En, app_nil_r in Ec. split; rewrite ?Ec, ?E1, ?E2, ?E3, ?E4, ?E5; try done.
    + by rewrite Hb', zsum_app, zsum_cons, zsum_nil, Z.add_0_r.
    + rewrite Hti. split; [done|]. intros E. by apply app_eq_nil in E as [_ E].
  - assert (candidates (Some t) [p] = [p]) as En by (unfold candidates; cbn; by rewrite (proj2 (Z.ltb_lt _ _))).
    rewrite En in Ec.
    destruct (describes_candidate t (candidates (Some t) ps) p r r') as (E1 & E2 & E3 & E4 & E5); try done.
    { apply Forall_filter_bool. done. }
    split; rewrite ?Ec, ?last_snoc; try done.
    + by rewrite Hb', zsum_app, zsum_cons, zsum_nil, Z.add_0_r.
    + rewrite Hti. split; [done|]. intros E. by apply app_eq_nil in E as [_ E].
Qed.

Lemma record_all_describes first ps r' : Forall number_ok ps -> record_all first ps no_loss = Some r' -> describes first ps r'.
Proof.
  intros Hps. assert (forall pre r, Forall number_ok pre -> describes first pre r -> record_all first ps r = Some r' ->
    describes first (pre ++ ps) r') as K; [|by apply (K [] no_loss (List.Forall_nil _) (describes_nil first))].
  induction Hps as [|p ps Hp Hps IH]; intros pre r Hpre Hd Hrec; cbn in Hrec.
  - injection Hrec as <-. by rewrite app_nil_r.
  - destruct (recordLostPacket r p first) as [r1|] eqn:E1; [|done]. cbn in Hrec.
    rewrite (cons_middle p pre ps), (assoc_L (++) pre [p] ps). apply (IH _ r1); [|by eapply describes_snoc|done].
    apply List.Forall_app. auto.
Qed.

(** ** Loss detection *)

Definition sent_ok (delay : Z) (p : SentPacket) : Prop := times_ok delay p /\ 0 <= bytes p <= U64_MAX.

Lemma sent_ok_times delay ps : Forall (sent_ok delay) ps -> Forall (times_ok delay) ps.
Proof. apply List.Forall_impl. by intros p []. Qed.
Lemma sent_ok_number delay ps : Forall (sent_ok delay) ps -> Forall number_ok ps.
Proof. apply List.Forall_impl. by intros p [[] ?]. Qed.

(** C15: Loss detection after an ACK removes exactly the packets at or below the largest acknowledged number that are three
    numbers behind it or older than the loss delay, keeps the others in order, and counts the bytes of the lost ones.  Their
    frames go, in order, to the front of the queues, except those of a packet whose stream has been reset and RESET_STREAM
    frames already acknowledged.  The loss timer is the earliest time at which a kept packet up to the largest acknowledged is
    late, or off if there is none.  No buffer of frame data leaks or is freed twice.  The only error is OutOfMemory, and it
    leaves the connection as it was. *)
Theorem loss_detection_exact (c : Connection) (sp : PacketNumberSpace) (la : Z) (rtt : option Z) (now : Z)
    (s := packetNumberSpace c sp) (delay := loss_delay s rtt) (lost := List.filter (lost_now la delay now) (sent_packets s))
    (Hd : delay <= I64_MAX) (Hps : Forall (sent_ok delay) (sent_packets s)) (Hlen : zlen (sent_packets s) <= U64_MAX) :
  run_to (removeAckDrivenLosses sp la rtt now c)
    (fun result c' => exists d l, c' = after_losses c sp la delay now d l /\ is_min d (waiting la delay now (sent_packets s)) /\
       lost_bytes result = Z.min (zsum bytes lost) U64_MAX /\ (largest_lost_sent_time_nanos result = None <-> lost = []) /\
       live_frames c' - owned c' = live_frames c - owned c)
    (fun e c' => e = OutOfMemory /\ exists l, c' = c <| allocator := l |>).
Proof.
  eapply run_mono; [apply run_removeAckDrivenLosses; [done|by eapply sent_ok_times|done]| |done].
  intros result c' (d & l & Hrec & Hmin & ->).
  apply record_all_describes in Hrec as []; [|by eapply Forall_filter_bool, sent_ok_number].
  exists d, l. split_and!; try done. apply after_losses_owned.
Qed.

Lemma two_ended {A} (l : list A) : 2 <= zlen l <-> exists p mid q, l = p :: mid ++ [q].
Proof.
  split.
  - destruct l as [|p l]; [done|]. rewrite zlen_cons. intros Hl. destruct (exists_last (l := l)) as (mid & q & ->); [by intros ->|eauto].
  - intros (p & mid & q & ->). rewrite zlen_cons, zlen_app. change (zlen [q]) with 1. pose proof (zlen_nonneg mid). lia.
Qed.

Definition congestion_duration (sp : PacketNumberSpace) (r : Recovery) : Z :=
  match sp with sp_application => persistentCongestionDuration r | _ => persistentCongestionDurationWithoutMaxAckDelay r end.

(** C26: Loss detection reports persistent congestion exactly when the packets lost in this call that were sent after the
    first RTT sample are at least two with consecutive packet numbers, and the first and the last of them were sent at least
    the persistent congestion duration apart. *)
Theorem persistent_congestion_exact (c : Connection) (sp : PacketNumberSpace) (la : Z) (rtt : option Z) (now : Z)
    (s := packetNumberSpace c sp) (delay := loss_delay s rtt) (lost := List.filter (lost_now la delay now) (sent_packets s))
    (cs := candidates (first_rtt_sample_sent_time_nanos s) lost)
    (Hd : delay <= I64_MAX) (Hps : Forall (sent_ok delay) (sent_packets s)) (Hlen : zlen (sent_packets s) <= U64_MAX) :
  run_to (removeAckDrivenLosses sp la rtt now c)
    (fun result c' => persistentCongestionEstablished result sp (recovery_state (packetNumberSpace c' sp)) = true <->
       exists p mid q, cs = p :: mid ++ [q] /\ consecutive (map packet_number cs) = true /\
         congestion_duration sp (recovery_state s) <= elapsed (sent_time_nanos p) (sent_time_nanos q))
    (fun e _ => e = OutOfMemory).
Proof.
  eapply run_mono; [apply run_removeAckDrivenLosses; [done|by eapply sent_ok_times|done]| |by intros e c' []].
  intros result c' (d & l & Hrec & _ & ->).
  apply record_all_describes in Hrec as [_ _ Hc Hf Hl Hr]; [|by eapply Forall_filter_bool, sent_ok_number].
  fold s delay lost cs in Hc, Hf, Hl, Hr.
  assert (forall x, recovery_state (packetNumberSpace (after_losses c sp la x now d l) sp) = recovery_state s) as -> by (by destruct sp).
  unfold persistentCongestionEstablished. change (match sp with sp_application => _ | _ => _ end) with (congestion_duration sp (recovery_state s)).
  rewrite Hc, Hr, Z.ltb_antisym. destruct (2 <=? zlen cs) eqn:E2; cbn [negb orb].
  2: { split; [done|]. intros (p & mid & q & E & _). assert (2 <= zlen cs) by (apply two_ended; eauto). lia. }
  apply Z.leb_le, two_ended in E2 as (p & mid & q & E). rewrite E in *. rewrite app_comm_cons, last_snoc in Hl. destruct Hl as (_ & Hl).
  rewrite Hf, Hl. destruct (consecutive _); cbn [negb].
  - rewrite Z.geb_leb, Z.leb_le. split; [eauto 10|]. intros (p' & mid' & q' & E' & _ & H).
    injection E' as -> E'. apply app_inj_tail in E' as [-> ->]. done.
  - split; [done|]. by intros (? & ? & ? & _ & ? & _).
Qed.

End LossDetectionProps.
