(* ===== verification/AckProps.v ===== *)
(** * ACK frames, loss timeouts and sent packets: the invariant of a connection

    In every packet number space the bytes in flight are the bytes of the
    packets that are sent and neither acknowledged nor lost, plus a number of
    stuck bytes, and every buffer of frame data has one owner.  Receiving an ACK
    frame and the loss timers keep this; an ACK frame that runs out of memory
    leaves the bytes it acknowledged stuck.  Nothing is illegal on arguments in
    range but an ACK delay that overflows. *)
From Stdlib Require Import Sorting.Sorted.
From S2P Require Import Prelude Codec Frame FramePayload HyStart Cubic Recovery RecoveryProps Paths LossDetection LossDetectionProps.
Import Codec Frame FramePayload Recovery RecoveryProps LossDetection LossDetectionProps.
Local Open Scope Z_scope.

Module AckProps.

(** ** What the recovery calls do to the bytes in flight and the smoothed RTT *)

Definition keeps (r r' : Recovery) : Prop :=
  bytes_in_flight r' = bytes_in_flight r /\ smoothed_rtt_ns r' = smoothed_rtt_ns r /\ max_ack_delay_ns r' = max_ack_delay_ns r.

Lemma keeps_trans r1 r2 r3 : keeps r1 r2 -> keeps r2 r3 -> keeps r1 r3.
Proof. unfold keeps. by intros (-> & -> & ->) (-> & -> & ->). Qed.

Lemma keeps_new_reno fuel r r' : new_reno_loop fuel r = Some r' -> keeps r r'.
Proof.
  revert r. induction fuel as [|fuel IH]; intros r; cbn [new_reno_loop].
  all: destruct (_ >=? congestion_window r); [|by intros [= <-]]; try done.
  cbv zeta. destruct (_ =? U64_MAX); [by intros [= <-]|]. intros H. by apply IH in H.
Qed.

Lemma keeps_cubic r b now r' : growCongestionAvoidanceCubic r b now = Some r' -> keeps r r'.
Proof.
  unfold growCongestionAvoidanceCubic. destruct (congestion_recovery_start_time_nanos r); [|by intros [= <-]].
  cbv zeta. intros H. repeat (apply bind_Some in H as (? & _ & H) || case_match); try by injection H as <-.
  all: repeat (apply bind_Some in H as (? & _ & H) || case_match); by injection H as <-.
Qed.

Lemma keeps_acked r b t u r' : onAckedBytesForCongestion r b t u = Some r' -> keeps r r'.
Proof.
  unfold onAckedBytesForCongestion. cbv zeta. set (r0 := if u then _ else _). intros H. apply (keeps_trans r r0).
  { unfold r0. destruct u; [done|]. by destruct (congestion_algorithm _). }
  clearbody r0. destruct (_ && _) in H; [by injection H as <-|]. destruct (_ && _) in H; [by injection H as <-|].
  set (r1 := if bool_decide (congestion_state r0 = recovery) then _ else _) in H. apply (keeps_trans r0 r1).
  { unfold r1. by destruct (bool_decide _). }
  clearbody r1. destruct (inSlowStart r1); [apply bind_Some in H as (i & _ & H); by injection H as <-|].
  destruct (_ =? 0); [by injection H as <-|]. unfold growCongestionAvoidance in H. destruct (congestion_algorithm r1).
  - unfold growCongestionAvoidanceNewReno in H. cbv zeta in H. by apply keeps_new_reno in H.
  - by apply keeps_cubic in H.
Qed.

Lemma keeps_congestion r t now pn r' : onCongestionEventWithPacketNumber r t now pn = Some r' -> keeps r r'.
Proof.
  unfold onCongestionEventWithPacketNumber. cbv zeta. intros H. destruct (bool_decide _) in H; [by injection H as <-|].
  destruct (match pn with Some _ => _ | None => _ end); [by injection H as <-|].
  case_match; [by injection H as <-|].
  apply bind_Some in H as ([w cu] & _ & H). by injection H as <-.
Qed.

Lemma smoothed_update M r rtt d : min_trackable_rtt_ns <= M -> rtt <= M -> 0 <= d -> smoothed_rtt_ns r <= M ->
  bytes_in_flight (updateRtt r rtt d) = bytes_in_flight r /\ smoothed_rtt_ns (updateRtt r rtt d) <= M /\
  max_ack_delay_ns (updateRtt r rtt d) = max_ack_delay_ns r.
Proof.
  intros HM Hr Hd Hs. unfold updateRtt. cbv zeta. rewrite !sat_add, !sat_mul. set (c := Z.max rtt min_trackable_rtt_ns).
  set (adj := if c >? _ then c - d else c).
  assert (adj <= M) by (subst adj c; destruct (_ >? _); lia).
  destruct (negb _); cbn; [done|]. split_and!; [done| |done]. apply Z.div_le_upper_bound; lia.
Qed.

(** The bytes an event of an acknowledgement removes. *)
Definition removed (e : event) : option Z :=
  match e with
  | Acked b _ _ _ _ | AckedNoSample b _ _ | Lost b _ _ _ => Some b
  | LargestAcked _ | Retransmitted | CongestionEvent _ _ | PersistentCongestion _ => Some 0
  | Sent _ _ _ | PtoExpired | MaxDatagramSize _ => None
  end.
Definition sample_below (M : Z) (e : event) : Prop := match e with Acked _ _ rtt d _ => rtt <= M /\ 0 <= d | _ => True end.

Lemma removed_flight r b : b <= bytes_in_flight r -> bytes_in_flight (removeBytesInFlight r b) = bytes_in_flight r - b.
Proof. intros Hb. cbn. destruct (Z.geb_spec b (bytes_in_flight r)); lia. Qed.

Lemma event_flight M r e r' b : apply_event r e = Some r' -> removed e = Some b -> b <= bytes_in_flight r ->
  min_trackable_rtt_ns <= M -> sample_below M e -> smoothed_rtt_ns r <= M ->
  bytes_in_flight r' = bytes_in_flight r - b /\ smoothed_rtt_ns r' <= M /\ max_ack_delay_ns r' = max_ack_delay_ns r.
Proof.
  intros He Hr Hb HM Hs Hsm. destruct e as [| pn | b' t rtt d u | b' t u | b' t now pn | | t now | | rtt | ]; try done;
    cbn in Hr; injection Hr as <-; cbn [apply_event sample_below] in *.
  - injection He as <-. unfold notifyLargestAcked. cbv zeta. repeat case_match; cbn; split_and!; lia || done.
  - unfold onPacketAckedWithUtilization in He. cbv zeta in He. apply bind_Some in He as (r1 & H1 & He).
    apply keeps_acked in He as (-> & -> & ->). set (r0 := updateRtt _ _ _) in H1. assert (keeps r0 r1) as (-> & -> & ->).
    { destruct (inSlowStart r0); [|by injection H1 as <-]. apply bind_Some in H1 as (h & _ & H1). by injection H1 as <-. }
    destruct (smoothed_update M (removeBytesInFlight r b') rtt d) as (E & ? & ?); [done|apply Hs|apply Hs|done|]. split; [|done].
    unfold r0. rewrite E. by apply removed_flight.
  - apply keeps_acked in He as (-> & -> & ->). split; [by apply removed_flight|done].
  - unfold onPacketLostWithNumber in He. cbv zeta in He. apply keeps_congestion in He as (-> & -> & ->).
    split; [|done]. cbn. destruct (Z.geb_spec b' (bytes_in_flight r)); lia.
  - injection He as <-. cbn. split; [lia|done].
  - apply keeps_congestion in He as (-> & -> & ->). split; [lia|done].
  - injection He as <-. destruct rtt; cbn; split_and!; lia || done.
Qed.

(** ** The invariant *)

(** Times and RTTs are below 2^60 nanoseconds (36 years). *)
Definition time_max : Z := 2 ^ 60.

(** A sent packet of a space whose next packet number is [next]. *)
Definition packet_ok (next : Z) (p : SentPacket) : Prop :=
  0 <= packet_number p < next /\ 0 <= sent_time_nanos p <= time_max /\ 1 <= bytes p <= U64_MAX.

Definition ecn_ok (s : State) : Prop :=
  0 <= ecn_sent_ect0 s /\ 0 <= ecn_sent_ect1 s /\ ecn_sent_ect0 s + ecn_sent_ect1 s <= next_packet_number s /\
  ect0_count (space_ecn_counts s) <= ecn_sent_ect0 s /\ ect1_count (space_ecn_counts s) <= ecn_sent_ect1 s /\
  ecn_ce_count (space_ecn_counts s) <= ecn_sent_ect0 s + ecn_sent_ect1 s.

(** A space after [n] recovery calls, with the packets [ps], whose bytes in flight exceed theirs by [k]. *)
Record space_ok (n k : Z) (ps : list SentPacket) (s : State) : Prop := {
  so_recovery : rec_ok n (recovery_state s);
  so_rtt : smoothed_rtt_ns (recovery_state s) <= time_max;
  so_delay : 0 <= max_ack_delay_ns (recovery_state s);
  so_sent : sent_packets s = ps;
  so_flight : bytes_in_flight (recovery_state s) = zsum bytes ps + k;
  so_next : 0 <= next_packet_number s <= max_quic_varint + 1;
  so_packets : Forall (packet_ok (next_packet_number s)) ps;
  so_order : StronglySorted (fun p q => packet_number p < packet_number q) ps;
  so_largest : match space_largest_acknowledged s with Some la => la < next_packet_number s | None => True end;
  so_ecn : ecn_ok s;
}.

(** [run_to] of a step that is legal exactly when [legal] holds. *)
Definition run_if {A} (legal : bool) (o : option ((Err + A) * Connection)) (Q : A -> Connection -> Prop) (E : Err -> Connection -> Prop) : Prop :=
  match o with
  | Some (inr a, c) => legal = true /\ Q a c
  | Some (inl e, c) => E e c
  | None => legal = false
  end.

Lemma run_if_seq {A B} b (m : M Connection A) (k : A -> M Connection B) c Q E :
  run_to (m c) (fun a c' => run_if b (k a c') Q E) E -> run_if b ((a ← m; k a) c) Q E.
Proof. unfold mbind, M_bind. by destruct (m c) as [[[e|a] c']|]. Qed.

Lemma run_if_to {A} (o : option ((Err + A) * Connection)) Q E : run_to o Q E -> run_if true o Q E.
Proof. by destruct o as [[[e|a] c]|]. Qed.

Lemma run_if_mono {A} b (o : option ((Err + A) * Connection)) (Q Q' : A -> Connection -> Prop) (E E' : Err -> Connection -> Prop) :
  run_if b o Q E -> (forall a c, Q a c -> Q' a c) -> (forall e c, E e c -> E' e c) -> run_if b o Q' E'.
Proof. intros H HQ HE. destruct o as [[[e|a] c]|]; cbn in *; [auto|destruct H; auto|done]. Qed.

Section Connections.
Variable exponent : Z.

(** In each space, bytes in flight that belong to no packet any more. *)
Variable stuck : PacketNumberSpace -> Z.
Hypothesis stuck_pos : forall sp, 0 <= stuck sp.

(** A connection whose spaces have the packets [pk]; the bytes in flight of [sp] exceed theirs by [k], those of the
    other spaces by [stuck]. *)
Record conn_ok (n : Z) (sp : PacketNumberSpace) (k : Z) (pk : PacketNumberSpace -> list SentPacket) (c : Connection) : Prop := {
  co_space : forall sp', space_ok n (if bool_decide (sp' = sp) then k else stuck sp') (pk sp') (packetNumberSpace c sp');
  co_live : live_frames c = owned c;
  co_exponent : peer_ack_delay_exponent c = exponent;
}.

Lemma space_mono n m k ps s : n <= m -> space_ok n k ps s -> space_ok m k ps s.
Proof. intros Hnm []. split; try done. by eapply rec_mono. Qed.

Lemma get_upd_same sp f c : packetNumberSpace (upd_space sp f c) sp = f (packetNumberSpace c sp).
Proof. by destruct sp. Qed.
Lemma get_upd_other sp sp' f c : sp' <> sp -> packetNumberSpace (upd_space sp f c) sp' = packetNumberSpace c sp'.
Proof. by destruct sp, sp'. Qed.
Lemma owned_upd sp f c : owned (upd_space sp f c) = owned c - space_bufs (packetNumberSpace c sp) + space_bufs (f (packetNumberSpace c sp)).
Proof. destruct sp; unfold owned; cbn; lia. Qed.
Lemma live_upd sp f c : live_frames (upd_space sp f c) = live_frames c.
Proof. by destruct sp. Qed.

(** Steps that write no packet number space, no queue of data and no buffer. *)
Lemma conn_same n sp k pk c c' : conn_ok n sp k pk c -> (forall sp', packetNumberSpace c' sp' = packetNumberSpace c sp') ->
  send_queue c' = send_queue c -> live_frames c' = live_frames c -> peer_ack_delay_exponent c' = peer_ack_delay_exponent c ->
  conn_ok n sp k pk c'.
Proof.
  intros [Hs Hl He] Hp Hq Hlive He'. split; [intros sp'; rewrite Hp; apply Hs| |by rewrite He']. rewrite Hlive, Hl. unfold owned. rewrite Hq.
  pose proof (Hp sp_initial) as E1. pose proof (Hp sp_handshake) as E2. pose proof (Hp sp_application) as E3. cbn in *. by rewrite E1, E2, E3.
Qed.

(** Steps that write one space and keep its buffers. *)
Lemma conn_upd n n' sp k k' pk c u f : conn_ok n sp k pk c -> n <= n' -> (u <> sp -> k' = k) ->
  space_bufs (f (packetNumberSpace c u)) = space_bufs (packetNumberSpace c u) ->
  (space_ok n (if bool_decide (u = sp) then k else stuck u) (pk u) (packetNumberSpace c u) ->
   space_ok n' (if bool_decide (u = sp) then k' else stuck u) (pk u) (f (packetNumberSpace c u))) ->
  conn_ok n' sp k' pk (upd_space u f c).
Proof.
  intros [Hs Hl He] Hn Hk Hb Hf. split.
  - intros sp'. destruct (decide (sp' = u)) as [->|Hne]; [rewrite get_upd_same; auto|]. rewrite get_upd_other by done.
    apply (space_mono n); [done|]. specialize (Hs sp'). destruct (bool_decide (sp' = sp)) eqn:E; [|done].
    apply bool_decide_eq_true in E as ->. by rewrite (Hk (not_eq_sym Hne)).
  - rewrite owned_upd, live_upd, Hb, Hl. lia.
  - rewrite <- He. by destruct u.
Qed.

Lemma conn_mono n n' sp k pk c : n <= n' -> conn_ok n sp k pk c -> conn_ok n' sp k pk c.
Proof. intros Hn [Hs Hl He]. split; [|done|done]. intros sp'. by eapply space_mono. Qed.

Lemma run_event n sp k pk c e b f : conn_ok n sp k pk c -> n < U64_MAX -> event_ok e -> removed e = Some b -> b <= k ->
  sample_below time_max e -> (forall r, f r = apply_event r e) ->
  run_to (recover sp f c) (fun _ c' => conn_ok (n + 1) sp (k - b) pk c') (fun _ _ => False).
Proof.
  intros Hc Hn He Hr Hb Hs Hf. pose proof (co_space _ _ _ _ _ Hc sp) as Hsp. rewrite bool_decide_true in Hsp by done.
  pose proof (so_recovery _ _ _ _ Hsp) as Hrec. unfold recover. rewrite Hf.
  pose proof (rec_event n _ e Hrec Hn He) as Hw. apply wp_elim in Hw as (r' & Er & Hr'). rewrite Er. cbn.
  apply (conn_upd n _ sp k); [done|lia|done|done|]. rewrite bool_decide_true by done. intros _. destruct Hsp.
  destruct (event_flight time_max (recovery_state (packetNumberSpace c sp)) e r' b) as (E1 & E2 & E3); try done.
  { rewrite so_flight0. pose proof (zsum_nonneg bytes (pk sp)) as Hz. specialize (Hz ltac:(intros p Hp; rewrite List.Forall_forall in so_packets0; apply so_packets0 in Hp as (_ & _ & ?); lia)). lia. }
  split; cbn; try done; [by rewrite E3|lia].
Qed.

(** ** Steps that keep the packets and their bytes *)

(** The fields of a space the invariant is about. *)
Definition inert (s s' : State) : Prop :=
  recovery_state s' = recovery_state s /\ sent_packets s' = sent_packets s /\ next_packet_number s' = next_packet_number s /\
  space_largest_acknowledged s' = space_largest_acknowledged s /\ ecn_sent_ect0 s' = ecn_sent_ect0 s /\
  ecn_sent_ect1 s' = ecn_sent_ect1 s /\ space_ecn_counts s' = space_ecn_counts s /\
  crypto_send_queue s' = crypto_send_queue s /\ crypto_recv_pending s' = crypto_recv_pending s.

Lemma inert_ok n k ps s s' : inert s s' -> space_ok n k ps s -> space_ok n k ps s' /\ space_bufs s' = space_bufs s.
Proof.
  intros (E1 & E2 & E3 & E4 & E5 & E6 & E7 & E8 & E9) []. split; [|unfold space_bufs; by rewrite E2, E8, E9].
  split; unfold ecn_ok in *; by rewrite ?E1, ?E2, ?E3, ?E4, ?E5, ?E6, ?E7.
Qed.

Lemma conn_inert n sp k pk c u f : conn_ok n sp k pk c -> (forall s, inert s (f s)) -> conn_ok n sp k pk (upd_space u f c).
Proof.
  intros Hc Hf. pose proof (co_space _ _ _ _ _ Hc u) as Hu. apply (inert_ok _ _ _ _ _ (Hf _)) in Hu as (Hu & Hb).
  apply (conn_upd n n sp k k); [done|lia|done|done|done].
Qed.

Lemma conn_remember n sp k pk c t : conn_ok n sp k pk c -> conn_ok n sp k pk (rememberFirstRttSampleSentTime t c).
Proof.
  intros Hc. unfold rememberFirstRttSampleSentTime. cbv zeta. repeat apply conn_inert; [done|..].
  all: intros s; destruct (discarded s); [done|]; by destruct (first_rtt_sample_sent_time_nanos s).
Qed.

Lemma conn_probe n sp k pk c u : conn_ok n sp k pk c -> conn_ok n sp k pk (armCongestionProbeIfPendingData u c).
Proof.
  intros Hc. unfold armCongestionProbeIfPendingData. destruct (hasQueuedAckElicitingDataInSpace c u); [|done].
  apply conn_inert; [done|]. intros s. by destruct (congestion_probe_count s =? 0).
Qed.

Lemma conn_streams n sp k pk c ss : conn_ok n sp k pk c -> conn_ok n sp k pk (c <| send_streams := ss |>).
Proof. intros Hc. apply (conn_same _ _ _ _ _ _ Hc); [by intros []|done|done|done]. Qed.

Lemma mark_streams p c : exists ss, markSentPacketAckedOnStreams p c = c <| send_streams := ss |>.
Proof.
  unfold markSentPacketAckedOnStreams. destruct (stream_frame p) as [g|]; [destruct (ps_fin g)|];
    destruct (reset_stream_frame p); first [by eexists|exists (send_streams c); by destruct c].
Qed.

Lemma conn_anti_deadlock n sp k pk c u now : conn_ok n sp k pk c -> conn_ok n sp k pk (refreshAntiDeadlockPtoTimer u now c).
Proof.
  intros Hc. unfold refreshAntiDeadlockPtoTimer. repeat case_match; try done;
    (apply (conn_same _ _ _ _ _ _ Hc); [by intros []|done|done|done]).
Qed.

(** Writes of the recovery state that keep its invariant and the bytes in flight. *)
Lemma conn_recovery n sp k pk c u g : conn_ok n sp k pk c ->
  (forall s, space_ok n (if bool_decide (u = sp) then k else stuck u) (pk u) s -> rec_ok n (g (recovery_state s)) /\
     bytes_in_flight (g (recovery_state s)) = bytes_in_flight (recovery_state s) /\
     smoothed_rtt_ns (g (recovery_state s)) <= time_max /\ max_ack_delay_ns (g (recovery_state s)) = max_ack_delay_ns (recovery_state s)) ->
  conn_ok n sp k pk (upd_space u (fun s => s <| recovery_state := g (recovery_state s) |>) c).
Proof.
  intros Hc Hg. apply (conn_upd n n sp k k); [done|lia|done|done|]. intros Hu. destruct (Hg _ Hu) as (E1 & E2 & E3 & E4).
  destruct Hu. split; cbn; try done; [by rewrite E4|by rewrite E2].
Qed.

Lemma conn_pto n sp k pk c u x : 0 <= x <= 255 -> conn_ok n sp k pk c -> conn_ok n sp k pk (upd_space u (set_pto_count x) c).
Proof.
  intros Hx Hc. apply (conn_recovery n sp k pk c u (fun r => r <| pto_count := x |>) Hc). intros s []. split_and!; try done.
  destruct so_recovery0. by rec_split.
Qed.

Lemma conn_restore n m sp k k' pk c c0 : conn_ok n sp k' pk c0 -> conn_ok m sp k pk c ->
  conn_ok m sp k pk (restorePtoBackoffSnapshot (ptoBackoffSnapshot c0) c).
Proof.
  intros H0 Hc. unfold restorePtoBackoffSnapshot, ptoBackoffSnapshot.
  assert (forall u, 0 <= pto_count (recovery_state (packetNumberSpace c0 u)) <= 255) as Hp
    by (intros u; destruct (co_space _ _ _ _ _ H0 u) as [[]]; done).
  by repeat apply conn_pto; [apply (Hp sp_application)|apply (Hp sp_handshake)|apply (Hp sp_initial)|].
Qed.

Lemma conn_reset_pto n sp k pk c : conn_ok n sp k pk c -> conn_ok n sp k pk (resetConnectionPtoBackoff c).
Proof.
  intros Hc. unfold resetConnectionPtoBackoff, setConnectionPtoBackoffCount. cbv zeta.
  assert (forall u c, conn_ok n sp k pk c -> conn_ok n sp k pk (upd_space u (fun s => if discarded s then s else set_pto_count 0 s) c)) as K.
  { intros u c1 H1. destruct (discarded (packetNumberSpace c1 u)) eqn:E.
    - apply (conn_upd n n sp k k); rewrite ?E; (done || lia).
    - pose proof (conn_pto n sp k pk c1 u 0 ltac:(lia) H1) as H2. unfold upd_space in *. by rewrite E. }
  by repeat apply K.
Qed.

Lemma conn_sync n sp k pk c u : conn_ok n sp k pk c -> conn_ok n sp k pk (syncRttEstimatesFromSpace u c).
Proof.
  intros Hc. unfold syncRttEstimatesFromSpace. cbv zeta. set (src := recovery_state _).
  assert (rec_ok n src /\ smoothed_rtt_ns src <= time_max) as ([] & Hs) by (by destruct (co_space _ _ _ _ _ Hc u)).
  clearbody src.
  assert (forall t c, conn_ok n sp k pk c -> conn_ok n sp k pk (sync_rtt u src t c)) as K; [|by repeat apply K].
  intros t c1 H1. unfold sync_rtt. case_bool_decide; [done|]. destruct (discarded _); [done|].
  apply (conn_recovery n sp k pk c1 t (fun r => r <| latest_rtt_ns := latest_rtt_ns src |> <| min_rtt_ns := min_rtt_ns src |>
    <| smoothed_rtt_ns := smoothed_rtt_ns src |> <| rttvar_ns := rttvar_ns src |>) H1).
  intros s [[]]. split_and!; try done.
Qed.

Lemma ecn_validate_ok n k ps s la n0 n1 counts : space_ok n k ps s ->
  space_ok n k ps (snd (validateEcnAck s la n0 n1 counts)) /\
  inert (s <| space_ecn_counts := space_ecn_counts (snd (validateEcnAck s la n0 n1 counts)) |>) (snd (validateEcnAck s la n0 n1 counts)).
Proof.
  intros Hs. unfold validateEcnAck. cbv zeta. case_bool_decide; [done|]. case_match; [done|]. destruct counts as [x|].
  2: { destruct (_ || _); [|done]. split; [|done]. by eapply (inert_ok n k ps s). }
  destruct ((ect0_count x >? ecn_sent_ect0 s) || (ect1_count x >? ecn_sent_ect1 s)
    || (ecn_ce_count x >? saturatingAddU64 (ecn_sent_ect0 s) (ecn_sent_ect1 s))) eqn:E1; [split; [by eapply (inert_ok n k ps s)|done]|].
  destruct ((_ <? _) || (_ <? _) || (_ <? _)) in |- *; [split; [by eapply (inert_ok n k ps s)|done]|].
  destruct ((_ <? n0) || (_ <? n1)) in |- *; [split; [by eapply (inert_ok n k ps s)|done]|].
  set (y := s <| space_ecn_counts := x |> <| ecn_largest_acknowledged := Some la |>).
  assert (space_ok n k ps y) as Hy.
  { rewrite sat_add in E1. apply orb_false_iff in E1 as [E1 E3]. apply orb_false_iff in E1 as [E1 E2].
    rewrite Z.gtb_ltb, Z.ltb_ge in E1, E2, E3. destruct Hs. split; cbn; try done. destruct so_ecn0 as (? & ? & ? & _).
    unfold ecn_ok; cbn. split_and!; lia. }
  cbn [snd]. destruct (_ || _) in |- *; [|done]. split; [|done]. by eapply (inert_ok n k ps y).
Qed.

Lemma conn_ecn n sp k pk c la n0 n1 counts : conn_ok n sp k pk c ->
  conn_ok n sp k pk (set_space sp (snd (validateEcnAck (packetNumberSpace c sp) la n0 n1 counts)) c).
Proof.
  intros Hc. pose proof (co_space _ _ _ _ _ Hc sp) as Hs. apply (ecn_validate_ok _ _ _ _ la n0 n1 counts) in Hs as (Hs & Hi).
  change (set_space sp ?x c) with (upd_space sp (fun _ => x) c). apply (conn_upd n n sp k k); [done|lia|done| |done].
  unfold space_bufs. destruct Hi as (_ & -> & _ & _ & _ & _ & _ & -> & ->). done.
Qed.

Lemma conn_largest n sp k pk c la : conn_ok n sp k pk c -> la < next_packet_number (packetNumberSpace c sp) ->
  conn_ok n sp k pk (upd_space sp (fun s => s <| space_largest_acknowledged := max_option (space_largest_acknowledged s) la |>) c).
Proof.
  intros Hc Hla. apply (conn_upd n n sp k k); [done|lia|done|done|]. intros []. split; cbn; try done.
  destruct (space_largest_acknowledged _); lia.
Qed.

(** ** Acknowledged packets *)

(** What the loop knows of the packets [ps] it has removed. *)
Record noted (ps : list SentPacket) (a : AckedPackets) : Prop := {
  no_bytes : acked_bytes a = zsum bytes ps;
  no_largest : match largest_acked_packet a with
               | None => ps = []
               | Some p => (exists q, In q ps /\ packet_number q = packet_number p /\ sent_time_nanos q = sent_time_nanos p) /\
                           forall q, In q ps -> packet_number q <= packet_number p
               end;
  no_ect0 : 0 <= newly_acked_ect0 a <= zlen ps;
  no_ect1 : 0 <= newly_acked_ect1 a <= zlen ps;
}.

Lemma noted_none : noted [] none_acked.
Proof. split; done. Qed.

Lemma noted_snoc sp threshold p ps a : noted ps a -> 0 <= zsum bytes ps -> 0 <= bytes p -> zsum bytes (ps ++ [p]) <= U64_MAX ->
  zlen ps < U64_MAX -> exists a', note_acked sp threshold p a = Some a' /\ noted (ps ++ [p]) a'.
Proof.
  intros [Hb Hl H0 H1] Hz Hp Hs Hlen. unfold note_acked. cbv zeta.
  set (a1 := a <| acked_bytes := _ |>). set (a2 := match sp with sp_application => _ | _ => _ end).
  assert (a2 = a1 \/ a2 = a1 <| local_key_update_acked := true |>) as E2 by (unfold a2; repeat case_match; auto).
  assert (acked_bytes a2 = zsum bytes (ps ++ [p]) /\ largest_acked_packet a2 = largest_acked_packet a /\
    newly_acked_ect0 a2 = newly_acked_ect0 a /\ newly_acked_ect1 a2 = newly_acked_ect1 a) as (Eb & El & En0 & En1).
  { rewrite zsum_app, zsum_cons, zsum_nil in *. destruct E2 as [-> | ->]; cbn; rewrite Hb, sat_add; split_and!; try done; lia. }
  clearbody a1 a2. clear E2. rewrite El. set (m := MkSent _ _ _ _ None None None None). 
  match goal with |- context [if ?b then ?x else a2] => set (a3 := if b then x else a2) end.
  assert (acked_bytes a3 = zsum bytes (ps ++ [p]) /\ newly_acked_ect0 a3 = newly_acked_ect0 a /\ newly_acked_ect1 a3 = newly_acked_ect1 a)
    as (Eb3 & E03 & E13) by (unfold a3; match goal with |- context [if ?b then _ else _] => destruct b end; by split_and!).
  assert (match largest_acked_packet a3 with
          | None => ps ++ [p] = []
          | Some x => (exists q, In q (ps ++ [p]) /\ packet_number q = packet_number x /\ sent_time_nanos q = sent_time_nanos x) /\
                      forall q, In q (ps ++ [p]) -> packet_number q <= packet_number x end) as Hl3.
  { assert (forall y, In y (ps ++ [p]) -> In y ps \/ y = p) as Hin by (intros y Hy; apply in_app_or in Hy as [?|[<-|[]]]; auto).
    assert (In p (ps ++ [p])) as Hpin by (apply in_or_app; right; by left).
    unfold a3. destruct (largest_acked_packet a) as [x|].
    - destruct Hl as ((q & Hq & Eq) & Hle). destruct (Z.gtb_spec (packet_number p) (packet_number x)); cbn [largest_acked_packet].
      + split; [by exists p|]. intros y [Hy| ->]%Hin; cbn; [apply Hle in Hy; lia|lia].
      + rewrite El. split; [exists q; split; [apply in_or_app; by left|done]|]. intros y [Hy| ->]%Hin; [auto|lia].
    - subst ps. split; [by exists p|]. intros y [[]| ->]%Hin. cbn. lia. }
  clearbody a3. pose proof (zlen_nonneg ps). assert (zlen (ps ++ [p]) = zlen ps + 1) as Ez by (by rewrite zlen_app).
  unfold add64. destruct (ecn_codepoint p); [|rewrite (proj2 (Z.leb_le _ _)) by lia..]; eexists; (split; [done|]); split; cbn; try done; lia.
Qed.

Definition pk_set (sp : PacketNumberSpace) (ps : list SentPacket) (pk : PacketNumberSpace -> list SentPacket) : PacketNumberSpace -> list SentPacket :=
  fun sp' => if bool_decide (sp' = sp) then ps else pk sp'.

Lemma pk_set_same sp ps pk : pk_set sp ps pk sp = ps.
Proof. unfold pk_set. by rewrite bool_decide_true. Qed.
Lemma pk_set_other sp sp' ps pk : sp' <> sp -> pk_set sp ps pk sp' = pk sp'.
Proof. intros. unfold pk_set. by rewrite bool_decide_false. Qed.

Lemma conn_pk n sp k pk pk' c : (forall sp', pk' sp' = pk sp') -> conn_ok n sp k pk c -> conn_ok n sp k pk' c.
Proof. intros E [Hs Hl He]. split; [|done|done]. intros sp'. rewrite E. apply Hs. Qed.

(** Changing the packets and the buffers of one space, and the queue of stream data. *)
Lemma conn_set n sp k k' pk c c' ps : conn_ok n sp k pk c ->
  (forall sp', sp' <> sp -> packetNumberSpace c' sp' = packetNumberSpace c sp') ->
  (space_ok n k (pk sp) (packetNumberSpace c sp) -> space_ok n k' ps (packetNumberSpace c' sp)) ->
  live_frames c' - owned c' = live_frames c - owned c -> peer_ack_delay_exponent c' = peer_ack_delay_exponent c ->
  conn_ok n sp k' (pk_set sp ps pk) c'.
Proof.
  intros [Hs Hl He] Ho Hf Hb He'. split; [|lia|by rewrite He']. intros sp'. specialize (Hs sp').
  destruct (decide (sp' = sp)) as [->|Hne].
  - rewrite pk_set_same. rewrite bool_decide_true in * by done. auto.
  - rewrite pk_set_other by done. rewrite bool_decide_false in * by done. by rewrite Ho.
Qed.

Lemma sorted_drop {A} (R : A -> A -> Prop) l1 x l2 : StronglySorted R (l1 ++ x :: l2) -> StronglySorted R (l1 ++ l2).
Proof.
  induction l1 as [|y l1 IH]; cbn; intros H; [by inversion H|]. inversion_clear H as [|? ? H1 H2]. constructor; [auto|].
  rewrite List.Forall_forall in *. intros z Hz. apply H2. apply in_app_iff in Hz as []; apply in_app_iff; [auto|right; by right].
Qed.

Lemma sorted_filter {A} (R : A -> A -> Prop) b l : StronglySorted R l -> StronglySorted R (List.filter b l).
Proof. induction 1; cbn; [constructor|]. destruct (b a); [|done]. constructor; [done|by apply Forall_filter_bool]. Qed.

Definition drop_acked (sp : PacketNumberSpace) (l : list SentPacket) (p : SentPacket) (c : Connection) : Connection :=
  deinitSentPacket p (markSentPacketAckedOnStreams p (upd_space sp (fun s => s <| sent_packets := l |>) c)).

Lemma drop_acked_eq sp l p c : exists ss, drop_acked sp l p c =
  mem (allocator c) (live_frames c - packet_bufs p) (upd_space sp (fun s => s <| sent_packets := l |>) (c <| send_streams := ss |>)).
Proof.
  unfold drop_acked. destruct (mark_streams p (upd_space sp (fun s => s <| sent_packets := l |>) c)) as (ss & ->). exists ss.
  rewrite <- (mem_self (_ <| send_streams := ss |>)), deinit_mem. by destruct sp.
Qed.

Lemma drop_acked_space sp l p c : packetNumberSpace (drop_acked sp l p c) sp = (packetNumberSpace c sp) <| sent_packets := l |>.
Proof. destruct (drop_acked_eq sp l p c) as (ss & ->). by destruct sp. Qed.

Lemma conn_drop n sp k pk c kept p ps : conn_ok n sp k (pk_set sp (kept ++ p :: ps) pk) c ->
  conn_ok n sp (k + bytes p) (pk_set sp (kept ++ ps) pk) (drop_acked sp (kept ++ ps) p c).
Proof.
  intros Hc. pose proof (co_space _ _ _ _ _ Hc sp) as Hsp. rewrite pk_set_same, bool_decide_true in Hsp by done.
  pose proof (so_sent _ _ _ _ Hsp) as Es.
  apply (conn_pk n sp _ (pk_set sp (kept ++ ps) (pk_set sp (kept ++ p :: ps) pk))).
  { intros sp'. unfold pk_set. by case_bool_decide. }
  apply (conn_set n sp k _ _ c); [done| | | |].
  - intros sp' Hne. destruct (drop_acked_eq sp (kept ++ ps) p c) as (ss & ->). by destruct sp, sp'.
  - intros _. rewrite drop_acked_space. destruct Hsp. rewrite zsum_app, zsum_cons in *. split; cbn; try done.
    + rewrite zsum_app. lia.
    + apply List.Forall_app in so_packets0 as [? Hps]. inversion_clear Hps. by apply List.Forall_app.
    + by eapply sorted_drop.
  - destruct (drop_acked_eq sp (kept ++ ps) p c) as (ss & ->). unfold owned, space_bufs.
    destruct sp; cbn in *; rewrite Es, !zsum_app, zsum_cons; lia.
  - destruct (drop_acked_eq sp (kept ++ ps) p c) as (ss & ->). by destruct sp.
Qed.

Lemma run_remove_acked n sp k pk c ack kept ps dn a : conn_ok n sp k (pk_set sp (kept ++ ps) pk) c -> noted dn a -> k = stuck sp + zsum bytes dn ->
  0 <= zsum bytes dn -> zlen dn + zlen ps <= U64_MAX ->
  let acked := List.filter (fun p => ackFrameContains ack (packet_number p)) ps in
  let rest := List.filter (fun p => negb (ackFrameContains ack (packet_number p))) ps in
  run_to (remove_acked sp ack kept ps a c)
    (fun a' c' => conn_ok n sp (k + zsum bytes acked) (pk_set sp (kept ++ rest) pk) c' /\ noted (dn ++ acked) a' /\
       packetNumberSpace c' sp = (packetNumberSpace c sp) <| sent_packets := kept ++ rest |>)
    (fun _ _ => False).
Proof.
  cbv zeta. pose proof (stuck_pos sp) as Hst. revert kept k c dn a. induction ps as [|p ps IH]; intros kept k c dn a Hc Ha Hk Hpos Hlen; cbn [remove_acked List.filter].
  - apply run_ret. rewrite zsum_nil, Z.add_0_r, !app_nil_r in *. split_and!; try done.
    pose proof (co_space _ _ _ _ _ Hc sp) as []. rewrite pk_set_same in so_sent0. rewrite <- so_sent0. by destruct (packetNumberSpace c sp).
  - rewrite zlen_cons in Hlen. pose proof (zlen_nonneg ps).
    destruct (ackFrameContains ack (packet_number p)); cbn [negb].
    2: { rewrite (cons_middle p kept ps), (assoc_L (++) kept [p] ps) in Hc.
         eapply run_mono; [apply (IH (kept ++ [p]) k c dn a); try done; lia| |done].
         intros a' c' H'. rewrite <- (assoc_L (++)) in H'. exact H'. }
    pose proof (co_space _ _ _ _ _ Hc sp) as Hsp. rewrite pk_set_same, bool_decide_true in Hsp by done. destruct Hsp.
    assert (1 <= bytes p) by (apply List.Forall_app in so_packets0 as [_ Hps]; inversion_clear Hps as [|? ? (_ & _ & ? & _) _]; done).
    assert (0 <= zsum bytes (kept ++ ps)).
    { apply zsum_nonneg. intros q Hq. rewrite List.Forall_forall in so_packets0. destruct (so_packets0 q) as (_ & _ & ?); [|lia].
      apply in_app_iff in Hq as []; apply in_app_iff; [auto|right; by right]. }
    pose proof (ro_flight _ _ so_recovery0) as Hfl. rewrite so_flight0, zsum_app, zsum_cons in Hfl. rewrite zsum_app in *. unfold u64_ok in Hfl.
    destruct (noted_snoc sp (local_one_rtt_key_update_ack_threshold c) p dn a) as (a' & Ea & Ha'); [done|lia|lia| |lia|].
    { rewrite zsum_app, zsum_cons, zsum_nil. lia. }
    unfold mbind, M_bind, modify, get, legal. cbn [run_to]. 
    replace (local_one_rtt_key_update_ack_threshold (upd_space sp _ c)) with (local_one_rtt_key_update_ack_threshold c) by (by destruct sp).
    rewrite Ea. fold (drop_acked sp (kept ++ ps) p c).
    eapply run_mono; [apply (IH kept (k + bytes p) _ (dn ++ [p]) a')| |done].
    + by apply conn_drop.
    + done.
    + rewrite zsum_app, zsum_cons, zsum_nil. lia.
    + rewrite zsum_app, zsum_cons, zsum_nil. lia.
    + rewrite zlen_app. change (zlen [p]) with 1. lia.
    + intros x c' (Hx & Hn & Hs). rewrite zsum_cons, (cons_middle p dn), (assoc_L (++) dn [p]). rewrite drop_acked_space in Hs.
      split_and!; [|done|by rewrite Hs].
      by replace (k + (bytes p + _)) with (k + bytes p + zsum bytes (List.filter (fun p => ackFrameContains ack (packet_number p)) ps)) by lia.
Qed.

(** ** Lost packets *)

Lemma packets_nonneg next ps : Forall (packet_ok next) ps -> 0 <= zsum bytes ps.
Proof. intros H. apply zsum_nonneg. intros p Hp. rewrite List.Forall_forall in H. destruct (H p Hp) as (_ & _ & ?). lia. Qed.

Definition rtt_ok (rtt : option Z) : Prop := match rtt with Some r => 0 <= r <= time_max | None => True end.

Lemma loss_delay_bound s rtt : u64_ok (smoothed_rtt_ns (recovery_state s)) -> smoothed_rtt_ns (recovery_state s) <= time_max -> rtt_ok rtt ->
  loss_delay s rtt <= 2 ^ 61.
Proof.
  intros Hu Hs Hr. unfold loss_delay, timeThresholdLossDelayNs, timer_granularity_ns. cbv zeta. unfold u64_ok in Hu.
  set (b := Z.max (default 0 rtt) _). assert (0 <= b <= time_max) by (subst b; unfold rtt_ok, time_max in *; destruct rtt; cbn; lia).
  apply Z.max_lub; [|lia]. unfold saturatingCeilMulDivU64, time_threshold_numerator, time_threshold_denominator, time_max in *. cbv zeta.
  rewrite sat_mul, sat_add. unfold U64_MAX. destruct (_ =? _) eqn:E; [lia|]. apply Z.div_le_upper_bound; lia.
Qed.

Lemma sorted_count lo next ps : lo <= next -> Forall (fun p => lo <= packet_number p < next) ps ->
  StronglySorted (fun p q => packet_number p < packet_number q) ps -> zlen ps <= next - lo.
Proof.
  intros Hlo Hps Hs. revert lo Hlo Hps. induction Hs as [|p ps Hs IH Hall]; intros lo Hlo Hps; [change (zlen []) with 0; lia|].
  inversion_clear Hps as [|? ? Hp Hps']. rewrite zlen_cons. specialize (IH (packet_number p + 1)).
  rewrite List.Forall_forall in Hall, Hps'. assert (zlen ps <= next - (packet_number p + 1)); [|lia]. apply IH; [lia|].
  rewrite List.Forall_forall. intros q Hq. specialize (Hall q Hq). specialize (Hps' q Hq). lia.
Qed.

Lemma space_count n k ps s : space_ok n k ps s -> zlen ps <= max_quic_varint + 1.
Proof.
  intros []. pose proof (sorted_count 0 (next_packet_number s) ps) as H. rewrite Z.sub_0_r in H. etransitivity; [apply H|lia]; [lia| |done].
  eapply List.Forall_impl; [|done]. by intros p [].
Qed.

Lemma packets_sent_ok next delay ps : 0 <= delay <= 2 ^ 61 -> next <= max_quic_varint + 1 -> Forall (packet_ok next) ps -> Forall (sent_ok delay) ps.
Proof.
  intros Hd Hn. apply List.Forall_impl. intros p (Hp & Ht & Hb). unfold time_max, sent_ok, times_ok, I64_MIN, I64_MAX in *. lia.
Qed.

Lemma after_losses_space c sp la delay now d l : packetNumberSpace (after_losses c sp la delay now d l) sp =
  (packetNumberSpace c sp) <| sent_packets := survivors la delay now (sent_packets (packetNumberSpace c sp)) |> <| loss_deadline_nanos := d |>
    <| crypto_send_queue := rt_crypto (resend_all c (List.filter (lost_now la delay now) (sent_packets (packetNumberSpace c sp))))
         ++ crypto_send_queue (packetNumberSpace c sp) |>.
Proof. by destruct sp. Qed.

Lemma conn_losses n sp k pk c la delay now d l : conn_ok n sp k pk c ->
  conn_ok n sp (k + zsum bytes (List.filter (lost_now la delay now) (pk sp))) (pk_set sp (survivors la delay now (pk sp)) pk)
    (after_losses c sp la delay now d l).
Proof.
  intros Hc. pose proof (co_space _ _ _ _ _ Hc sp) as Hsp. rewrite bool_decide_true in Hsp by done.
  pose proof (zsum_split bytes (lost_now la delay now) (pk sp)) as Hz. fold (survivors la delay now (pk sp)) in Hz.
  apply (conn_set n sp k _ _ c); [done|by intros []; destruct sp| |apply after_losses_owned|by destruct sp].
  intros _. rewrite after_losses_space. destruct Hsp. rewrite so_sent0. split; cbn; try done; [lia|by apply Forall_filter_bool|by apply sorted_filter].
Qed.

Lemma run_losses n sp k pk c la rtt now : conn_ok n sp k pk c -> 0 <= k -> rtt_ok rtt ->
  let delay := loss_delay (packetNumberSpace c sp) rtt in
  run_to (removeAckDrivenLosses sp la rtt now c)
    (fun result c' => conn_ok n sp (k + lost_bytes result) (pk_set sp (survivors la delay now (pk sp)) pk) c' /\
       u64_ok (lost_bytes result) /\ (lost_bytes result <> 0 -> is_Some (largest_lost_sent_time_nanos result)))
    (fun e c' => e = OutOfMemory /\ conn_ok n sp k pk c').
Proof.
  intros Hc Hk Hr. cbv zeta. pose proof (co_space _ _ _ _ _ Hc sp) as Hsp. rewrite bool_decide_true in Hsp by done.
  pose proof (space_count _ _ _ _ Hsp) as Hlen. destruct Hsp. pose proof (loss_delay_pos (packetNumberSpace c sp) rtt) as Hp.
  assert (loss_delay (packetNumberSpace c sp) rtt <= 2 ^ 61) as Hd by (apply loss_delay_bound; [apply so_recovery0|done|done]).
  assert (Forall (sent_ok (loss_delay (packetNumberSpace c sp) rtt)) (pk sp)) as Hok by (eapply packets_sent_ok; [lia|apply so_next0|done]).
  eapply run_mono; [apply run_removeAckDrivenLosses| |].
  - unfold I64_MAX; lia.
  - rewrite so_sent0. by eapply sent_ok_times.
  - rewrite so_sent0. unfold U64_MAX, max_quic_varint in *; lia.
  - intros result c' (d & l & Hrec & _ & ->). rewrite so_sent0 in Hrec.
    apply record_all_describes in Hrec as [Hb Ht _ _ _ _]; [|by eapply Forall_filter_bool, sent_ok_number].
    pose proof (conn_losses n sp k pk c la (loss_delay (packetNumberSpace c sp) rtt) now d l Hc) as H'.
    set (lost := List.filter _ (pk sp)) in *. set (left := survivors _ _ _ _) in *.
    assert (zsum bytes (pk sp) = zsum bytes lost + zsum bytes left) as Hz by apply zsum_split.
    assert (0 <= zsum bytes lost) by (by eapply packets_nonneg, Forall_filter_bool).
    assert (0 <= zsum bytes left) by (by eapply packets_nonneg, Forall_filter_bool).
    pose proof (ro_flight _ _ so_recovery0) as [_ Hf]. rewrite Z.min_l in Hb by lia. rewrite Hb. unfold u64_ok. split_and!; [done|lia|lia|].
    intros Hne. destruct (largest_lost_sent_time_nanos result); [done|]. destruct Ht as [Ht _]. rewrite (Ht eq_refl), zsum_nil in Hne. done.
  - intros e c' (-> & l & ->). split; [done|]. apply (conn_same _ _ _ _ _ _ Hc); [by intros []|done|done|done].
Qed.

(** ** Congestion events and the acknowledgement *)

Lemma run_ecn_congestion n sp k pk c now ce acked : conn_ok n sp k pk c -> n < U64_MAX -> 0 <= k ->
  run_to (ecn_congestion sp now ce acked c) (fun _ c' => conn_ok (n + 1) sp k pk c') (fun _ _ => False).
Proof.
  intros Hc Hn Hk. assert (conn_ok (n + 1) sp k pk c) by (apply (conn_mono n); [lia|done]).
  unfold ecn_congestion. destruct ce; cbn [negb]; [|by apply run_ret]. destruct acked as [p|]; [|by apply run_ret].
  apply run_seq, run_get, run_seq. eapply run_mono; [apply (run_event n sp k pk c (CongestionEvent (sent_time_nanos p) now) 0); done || lia| |done].
  intros ? c' H'. rewrite Z.sub_0_r in H'. by apply run_ret.
Qed.

Lemma run_loss_congestion n sp k pk c now loss : conn_ok n sp k pk c -> n < U64_MAX -> u64_ok (lost_bytes loss) -> lost_bytes loss <= k ->
  is_Some (largest_lost_sent_time_nanos loss) ->
  run_to (loss_congestion sp now loss c) (fun _ c' => conn_ok (n + 1) sp (k - lost_bytes loss) pk c') (fun _ _ => False).
Proof.
  intros Hc Hn Hu Hk (t & Ht). unfold loss_congestion. apply run_seq. rewrite Ht. eapply run_legal; [done|]. apply run_seq, run_get, run_seq.
  eapply run_mono; [apply (run_event n sp k pk c (Lost (lost_bytes loss) t now (largest_lost_packet_number loss)) (lost_bytes loss)); done| |done].
  intros ? c' H'. by apply run_ret.
Qed.

(** Whether the delay of an ACK frame with an RTT sample, scaled to nanoseconds, fits in 64 bits; only the application
    space uses it. *)
Definition delay_fits (sp : PacketNumberSpace) (rtt : option Z) (ack : AckFrame) : bool :=
  match sp, rtt with
  | sp_application, Some _ => ack_delay ack * 2 ^ exponent * 1000 <=? U64_MAX
  | _, _ => true
  end.

Lemma ack_delay_eq n sp k pk c ack rtt : 0 <= exponent < 64 -> conn_ok n sp k pk c -> 0 <= ack_delay ack ->
  match ackDelayForRtt c sp (ack_delay ack) with
  | Some d => delay_fits sp (Some rtt) ack = true /\ u64_ok d
  | None => delay_fits sp (Some rtt) ack = false
  end.
Proof.
  intros Hx Hc H0. unfold ackDelayForRtt. destruct sp; [done|done|]. cbn [delay_fits].
  unfold scaledPeerAckDelay. rewrite (co_exponent _ _ _ _ _ Hc), Z.mod_small.
  2: { split; [apply Z.pow_nonneg; lia|apply Z.pow_lt_mono_r; lia]. }
  assert (0 <= 2 ^ exponent) by (apply Z.pow_nonneg; lia). assert (0 <= ack_delay ack * 2 ^ exponent) by nia.
  rewrite sat_mul. unfold mul64. destruct (Z.leb_spec (ack_delay ack * 2 ^ exponent * 1000) U64_MAX) as [Hle|Hgt].
  - rewrite Z.min_l, (proj2 (Z.leb_le _ _)) by lia. cbn. split; [done|].
    destruct (co_space _ _ _ _ _ Hc sp_application). unfold u64_ok. cbn in so_delay0. destruct (negb _); lia.
  - by rewrite (proj2 (Z.leb_gt _ _)) by (unfold U64_MAX in *; lia).
Qed.

Lemma run_acknowledge n sp k pk c now ack a p utilized rtt persistent : conn_ok n sp k pk c -> n + 3 <= U64_MAX ->
  k = stuck sp + acked_bytes a -> 0 <= acked_bytes a < 2 ^ 24 -> largest_acked_packet a = Some p -> rtt_ok rtt -> 0 <= exponent < 64 ->
  0 <= ack_delay ack ->
  run_if (delay_fits sp rtt ack) (acknowledge sp now ack a utilized rtt persistent c) (fun _ c' => conn_ok (n + 3) sp (stuck sp) pk c')
    (fun _ _ => False).
Proof.
  intros Hc Hn Hk Ha Hp Hr Hx Hd. pose proof (stuck_pos sp) as Hst. unfold acknowledge. apply run_if_seq.
  eapply (run_mono _ (fun _ c' => conn_ok n sp k pk c') _ (fun _ _ => False)); [|clear c Hc; intros ? c Hc|done].
  { destruct (local_key_update_acked a); [|by apply run_ret]. apply run_modify.
    apply (conn_same _ _ _ _ _ _ Hc); [by intros []|done|done|done]. }
  apply run_if_seq. eapply run_mono; [apply (run_event n sp k pk c (LargestAcked (largest_acknowledged ack)) 0); done || lia| |done].
  clear c Hc. intros ? c Hc. rewrite Z.sub_0_r in Hc. apply run_if_seq, run_get. set (snap := ptoBackoffSnapshot c).
  assert (forall m k' c', conn_ok m sp k' pk c' -> conn_ok m sp k' pk (restorePtoBackoffSnapshot snap c')) as Hsnap
    by (intros m k' c'; by eapply conn_restore).
  apply run_if_seq. eapply run_legal; [done|]. destruct (delay_fits sp rtt ack) eqn:Ef.
  2: { destruct rtt as [r|]; [|by destruct sp]. unfold mbind, M_bind, get. cbn. pose proof (ack_delay_eq _ _ _ _ _ ack r Hx Hc Hd) as H'.
       destruct (ackDelayForRtt c sp (ack_delay ack)); [by destruct H' as [H' _]; rewrite H' in Ef|done]. }
  apply run_if_to, run_seq.
  eapply (run_mono _ (fun _ c' => conn_ok (n + 2) sp (stuck sp) pk c') _ (fun _ _ => False)); [|clearbody snap; clear c Hc; intros ? c Hc|done].
  { destruct rtt as [r|]; cbn in Hr.
    - apply run_seq, run_get. pose proof (ack_delay_eq _ _ _ _ _ ack r Hx Hc Hd) as H'.
      destruct (ackDelayForRtt c sp (ack_delay ack)) as [d|]; [destruct H' as [_ Hdu]|by rewrite H' in Ef]. apply run_seq. eapply run_legal; [done|].
      apply run_seq. eapply run_mono; [apply (run_event (n + 1) sp k pk c (Acked (acked_bytes a) (sent_time_nanos p) r d utilized) (acked_bytes a))| |done].
      all: try done; try lia.
      + cbn. unfold time_max, I64_MAX in *. split_and!; try lia. done.
      + split; [lia|]. unfold u64_ok in Hdu. lia.
      + intros ? c' Hc'. apply run_modify, conn_sync. replace (n + 1 + 1) with (n + 2) in Hc' by lia. by replace (k - acked_bytes a) with (stuck sp) in Hc' by lia.
    - eapply run_mono; [apply (run_event (n + 1) sp k pk c (AckedNoSample (acked_bytes a) (sent_time_nanos p) utilized) (acked_bytes a))| |done].
      all: try done; try lia.
      intros ? c' Hc'. replace (n + 1 + 1) with (n + 2) in Hc' by lia. by replace (k - acked_bytes a) with (stuck sp) in Hc' by lia. }
  apply run_seq, run_get, run_seq.
  eapply (run_mono _ (fun _ c' => conn_ok (n + 2) sp (stuck sp) pk c') _ (fun _ _ => False)); [|clear c Hc; intros ? c Hc|done].
  { destruct (ackShouldResetPtoBackoff c sp); apply run_modify; [by apply conn_reset_pto|by apply Hsnap]. }
  apply run_seq.
  eapply (run_mono _ (fun _ c' => conn_ok (n + 3) sp (stuck sp) pk c') _ (fun _ _ => False)); [|clear c Hc; intros ? c Hc; apply run_modify; by apply conn_anti_deadlock|done].
  destruct persistent; [|apply run_ret, (conn_mono (n + 2)); [lia|done]]. apply run_seq.
  eapply run_mono; [apply (run_event (n + 2) sp (stuck sp) pk c (PersistentCongestion rtt) 0)| |done]; try done; try lia.
  { destruct rtt; cbn in *; [|done]. unfold u64_ok, time_max, U64_MAX in *. lia. }
  intros ? c' Hc'. replace (n + 2 + 1) with (n + 3) in Hc' by lia. rewrite Z.sub_0_r in Hc'.
  destruct rtt; [apply run_modify; by apply conn_sync|by apply run_ret].
Qed.

(** ** Receiving an ACK frame *)

Definition acked_of (ack : AckFrame) (ps : list SentPacket) : list SentPacket :=
  List.filter (fun p => ackFrameContains ack (packet_number p)) ps.
Definition unacked_of (ack : AckFrame) (ps : list SentPacket) : list SentPacket :=
  List.filter (fun p => negb (ackFrameContains ack (packet_number p))) ps.

(** The RTT sample of an ACK frame: from the newest packet it acknowledges, if that is the largest acknowledged number. *)
Definition rtt_sample (ack : AckFrame) (now : Z) (acked : list SentPacket) : option Z :=
  match list.last acked with
  | Some p => if packet_number p =? largest_acknowledged ack then Some (elapsed (sent_time_nanos p) now) else None
  | None => None
  end.

(** The packets of a space that are left after an ACK frame. *)
Definition left_after (s : State) (now : Z) (ack : AckFrame) (ps : list SentPacket) : list SentPacket :=
  match acked_of ack ps with
  | [] => ps
  | acked => survivors (match space_largest_acknowledged s with Some la => Z.max la (largest_acknowledged ack) | None => largest_acknowledged ack end)
               (loss_delay s (rtt_sample ack now acked)) now (unacked_of ack ps)
  end.

Lemma unacked_all ack ps : acked_of ack ps = [] -> unacked_of ack ps = ps.
Proof.
  unfold acked_of, unacked_of. induction ps as [|p ps IH]; cbn; [done|]. destruct (ackFrameContains _ _); [done|]. cbn. intros H. by rewrite IH.
Qed.

Lemma sorted_last l z q : StronglySorted (fun p q => packet_number p < packet_number q) l -> list.last l = Some z -> In q l ->
  packet_number q < packet_number z \/ q = z.
Proof.
  intros Hs Hz Hq. apply last_Some in Hz as (l' & ->). apply in_app_iff in Hq as [Hq|[->|[]]]; [left|by right].
  induction l' as [|y l' IH]; [done|]. cbn in Hs. inversion_clear Hs as [|? ? Hs' Hall]. destruct Hq as [->|Hq]; [|auto].
  rewrite List.Forall_forall in Hall. apply Hall, in_app_iff. right. by left.
Qed.

Lemma noted_sample ack now acked a : noted acked a -> StronglySorted (fun p q => packet_number p < packet_number q) acked ->
  (if match largest_acked_packet a with Some p => packet_number p =? largest_acknowledged ack | None => false end
   then Some (elapsed (match largest_acked_packet a with Some p => sent_time_nanos p | None => 0 end) now) else None)
  = rtt_sample ack now acked.
Proof.
  intros [_ Hl _ _] Hs. unfold rtt_sample. destruct (largest_acked_packet a) as [p|]; [|by rewrite Hl].
  destruct Hl as ((q & Hq & En & Et) & Hle). destruct (list.last acked) as [z|] eqn:Ez; [|apply last_None in Ez as ->; done].
  assert (In z acked) as Hz by (apply list_elem_of_In; by apply last_Some_elem_of).
  destruct (sorted_last acked z q Hs Ez Hq) as [Hlt| ->]; [apply Hle in Hz; lia|]. by rewrite En, Et.
Qed.

Lemma elapsed_ok t now : 0 <= t <= time_max -> 0 <= now <= time_max -> 0 <= elapsed t now <= time_max.
Proof.
  intros Ht Hn. unfold elapsed, time_max in *. destruct (Z.leb_spec now t); [lia|]. rewrite i64_in by (unfold I64_MIN, I64_MAX; lia). lia.
Qed.

Lemma loss_delay_eq s s' rtt : recovery_state s' = recovery_state s -> loss_delay s' rtt = loss_delay s rtt.
Proof. unfold loss_delay. by intros ->. Qed.

Lemma zsum_acked_nil next acked : Forall (packet_ok next) acked -> zsum bytes acked = 0 -> acked = [].
Proof.
  destruct acked as [|p l]; [done|]. intros H. inversion_clear H as [|? ? (_ & _ & Hb) Hl]. rewrite zsum_cons.
  pose proof (packets_nonneg next l Hl). lia.
Qed.

Lemma remember_space t c sp : recovery_state (packetNumberSpace (rememberFirstRttSampleSentTime t c) sp) = recovery_state (packetNumberSpace c sp) /\
  space_largest_acknowledged (packetNumberSpace (rememberFirstRttSampleSentTime t c) sp) = space_largest_acknowledged (packetNumberSpace c sp) /\
  next_packet_number (packetNumberSpace (rememberFirstRttSampleSentTime t c) sp) = next_packet_number (packetNumberSpace c sp).
Proof. unfold rememberFirstRttSampleSentTime. destruct sp; cbn; repeat case_match; done. Qed.

(** From the losses on. *)
Lemma run_ack_losses n sp k pk c now la rtt ack a p ce utilized : conn_ok n sp k pk c -> n + 6 <= U64_MAX -> rtt_ok rtt ->
  k = stuck sp + acked_bytes a -> 0 <= acked_bytes a < 2 ^ 24 -> largest_acked_packet a = Some p -> 0 <= exponent < 64 -> 0 <= ack_delay ack ->
  let left := survivors la (loss_delay (packetNumberSpace c sp) rtt) now (pk sp) in
  run_if (delay_fits sp rtt ack) (ack_losses sp now ack a ce utilized rtt la c)
    (fun _ c' => conn_ok (n + 6) sp (stuck sp) (pk_set sp left pk) c')
    (fun e c' => e = OutOfMemory /\ conn_ok n sp k pk c').
Proof.
  intros Hc Hn Hr Hk Ha Hp Hx Hd. pose proof (stuck_pos sp) as Hst. cbv zeta. set (left := survivors _ _ _ _). unfold ack_losses. rewrite Hp. apply run_if_seq.
  eapply run_mono; [apply (run_losses n sp k pk c la rtt now Hc); [lia|done]| |done]. fold left. clear Hc. clearbody left.
  intros loss c1 (Hc & Hu & Ht). apply run_if_seq, run_modify, run_if_seq. unfold u64_ok in Hu.
  eapply run_mono; [apply run_ecn_congestion; [by apply conn_streams|lia|lia]| |by intros ? ? []].
  clear c1 Hc. intros probe c1 Hc. apply run_if_seq, run_get.
  generalize (persistentCongestionEstablished loss sp (recovery_state (packetNumberSpace c1 sp))). intros pers. apply run_if_seq.
  eapply (run_mono _ (fun _ c' => conn_ok (n + 3) sp k (pk_set sp left pk) c') _ (fun _ _ => False)); [| |by intros ? ? []].
  { destruct (Z.eqb_spec (lost_bytes loss) 0) as [E|E].
    - apply run_ret. rewrite E, Z.add_0_r in Hc. by apply (conn_mono (n + 1)); [lia|].
    - apply run_seq. eapply run_mono; [apply (run_loss_congestion _ _ _ _ _ now loss Hc); [lia|done|lia|auto]| |done].
      intros lp c2 H2. apply run_seq. eapply run_mono; [apply (run_event (n + 1 + 1) sp _ _ c2 Retransmitted 0 _ H2); done || lia| |done].
      intros ? c3 H3. apply run_ret. replace (n + 3) with (n + 1 + 1 + 1) by lia.
      by replace k with (k + lost_bytes loss - lost_bytes loss - 0) by lia. }
  clear c1 Hc. intros pr c1 Hc. apply run_if_seq.
  eapply (run_mono _ (fun _ c' => conn_ok (n + 3) sp k (pk_set sp left pk) c') _ (fun _ _ => False)); [| |by intros ? ? []].
  { destruct pr; [apply run_modify; by apply conn_probe|by apply run_ret]. }
  clear c1 Hc. intros ? c1 Hc. eapply run_if_mono; [apply (run_acknowledge (n + 3) sp k (pk_set sp left pk) c1 now ack a p); done || lia| |by intros ? ? []].
  intros ? c2 H2. by replace (n + 6) with (n + 3 + 3) by lia.
Qed.

Lemma utilized_some n r : rec_ok n r -> is_Some (isCongestionWindowUtilized r).
Proof.
  intros []. unfold isCongestionWindowUtilized. destruct (_ >=? _); [done|]. destruct (inSlowStart r); [done|].
  cbv zeta. rewrite mul64_ok by (unfold U64_MAX; lia). done.
Qed.

Definition ack_valid (s : State) (ack : AckFrame) : bool :=
  negb (discarded s) && (largest_acknowledged ack <? next_packet_number s) && ackFrameRangesAreValid ack.

Lemma left_after_some s now ack ps : acked_of ack ps <> [] -> left_after s now ack ps =
  survivors (default (largest_acknowledged ack) (max_option (space_largest_acknowledged s) (largest_acknowledged ack)))
    (loss_delay s (rtt_sample ack now (acked_of ack ps))) now (unacked_of ack ps).
Proof. unfold left_after. by destruct (acked_of ack ps). Qed.

Lemma rtt_sample_ok next ack now acked : Forall (packet_ok next) acked -> 0 <= now <= time_max -> rtt_ok (rtt_sample ack now acked).
Proof.
  intros Ha Hn. unfold rtt_sample. destruct (list.last acked) as [p|] eqn:Ep; [|done]. destruct (_ =? _); [|done]. apply elapsed_ok; [|done].
  apply last_Some_elem_of, list_elem_of_In in Ep. rewrite List.Forall_forall in Ha. by apply Ha in Ep as (_ & ? & _).
Qed.

(** A connection whose space [sp] differs from [s] neither in its recovery state nor in its packet numbers. *)
Definition like (sp : PacketNumberSpace) (s : State) (c : Connection) : Prop :=
  recovery_state (packetNumberSpace c sp) = recovery_state s /\
  space_largest_acknowledged (packetNumberSpace c sp) = space_largest_acknowledged s /\
  next_packet_number (packetNumberSpace c sp) = next_packet_number s.

Lemma run_ack_removed n sp k pk c s now ack counts u a acked : conn_ok n sp k pk c -> n + 6 <= U64_MAX -> 0 <= now <= time_max ->
  noted acked a -> k = stuck sp + zsum bytes acked -> 0 < zsum bytes acked < 2 ^ 24 -> Forall (packet_ok (next_packet_number s)) acked ->
  StronglySorted (fun p q => packet_number p < packet_number q) acked -> 0 <= exponent < 64 -> 0 <= ack_delay ack ->
  like sp s c -> largest_acknowledged ack < next_packet_number s ->
  let left := survivors (default (largest_acknowledged ack) (max_option (space_largest_acknowledged s) (largest_acknowledged ack)))
    (loss_delay s (rtt_sample ack now acked)) now (pk sp) in
  run_if (delay_fits sp (rtt_sample ack now acked) ack) (ack_removed sp now ack counts u a c)
    (fun _ c' => conn_ok (n + 6) sp (stuck sp) (pk_set sp left pk) c')
    (fun e c' => e = OutOfMemory /\ conn_ok n sp k pk c').
Proof.
  intros Hc Hn Hnow Ha Hk Hk0 Hacked Hsort Hx Hd Hlike Hla. cbv zeta.
  pose proof (no_bytes _ _ Ha) as Hbytes. pose proof (noted_sample ack now acked a Ha Hsort) as Hsample.
  assert (exists p, largest_acked_packet a = Some p) as (p & Ep).
  { destruct Ha as [_ Hl _ _]. destruct (largest_acked_packet a) as [p|]; [by exists p|]. rewrite Hl, zsum_nil in Hk0. lia. }
  unfold ack_removed. apply run_if_seq, run_get, run_if_seq, run_modify. cbv zeta. rewrite Hsample. apply run_if_seq.
  set (ce := fst _). set (c1 := set_space sp _ c).
  assert (conn_ok n sp k pk c1 /\ like sp s c1) as (H1 & Hl1).
  { split; [by apply conn_ecn|].
    destruct (ecn_validate_ok n _ _ _ (largest_acknowledged ack) (newly_acked_ect0 a) (newly_acked_ect1 a) counts (co_space _ _ _ _ _ Hc sp))
      as (_ & E1 & _ & E3 & E4 & _).
    unfold like, c1. change (set_space sp ?x c) with (upd_space sp (fun _ => x) c). rewrite get_upd_same, E1, E3, E4. exact Hlike. }
  clearbody c1 ce. clear c Hc Hlike. rewrite Ep in Hsample. rewrite Ep.
  eapply (run_mono _ (fun _ c' => conn_ok n sp k pk c' /\ like sp s c') _ (fun _ _ => False)); [| |by intros ? ? []].
  { destruct (_ =? _); [|by apply run_ret]. apply run_modify. split; [by apply conn_remember|]. unfold like.
    destruct (remember_space (sent_time_nanos p) c1 sp) as (-> & -> & ->). exact Hl1. }
  clear c1 H1 Hl1. intros ? c (Hc & Er & El & En). apply run_if_seq, run_modify.
  apply (conn_largest _ _ _ _ _ (largest_acknowledged ack)) in Hc; [|by rewrite En]. set (c1 := upd_space sp _ c) in *.
  assert (recovery_state (packetNumberSpace c1 sp) = recovery_state s) as Er1 by (unfold c1; by rewrite get_upd_same, <- Er).
  assert (space_largest_acknowledged (packetNumberSpace c1 sp) = max_option (space_largest_acknowledged s) (largest_acknowledged ack)) as El1
    by (unfold c1; rewrite get_upd_same, <- El; done).
  apply run_if_seq, run_get. rewrite El1. clearbody c1. rewrite <- (loss_delay_eq s (packetNumberSpace c1 sp)) by done.
  apply (run_ack_losses n sp k pk c1 now _ _ ack a p); try done; try lia. by eapply rtt_sample_ok.
Qed.

(** Whether an ACK frame is processed without overflow: only the ACK delay can be too large. *)
Definition ack_legal (sp : PacketNumberSpace) (now : Z) (ack : AckFrame) (ps : list SentPacket) : bool :=
  delay_fits sp (rtt_sample ack now (acked_of ack ps)) ack.

Lemma run_receive_ack n sp pk c now ack counts : conn_ok n sp (stuck sp) pk c -> n + 6 <= U64_MAX -> 0 <= now <= time_max ->
  zsum bytes (pk sp) < 2 ^ 24 -> 0 <= exponent < 64 -> 0 <= ack_delay ack ->
  let valid := ack_valid (packetNumberSpace c sp) ack in
  run_if (ack_legal sp now ack (pk sp)) (receiveAckFrame sp now ack counts c)
    (fun _ c' => valid = true /\
       conn_ok (n + 6) sp (stuck sp) (pk_set sp (left_after (packetNumberSpace c sp) now ack (pk sp)) pk) c')
    (fun e c' => e = InvalidPacket /\ valid = false /\ c' = c \/
       e = OutOfMemory /\ valid = true /\ conn_ok n sp (stuck sp + zsum bytes (acked_of ack (pk sp))) (pk_set sp (unacked_of ack (pk sp)) pk) c').
Proof.
  intros Hc Hn Hnow Hfl Hx Hd. pose proof (stuck_pos sp) as Hst. unfold receiveAckFrame, ack_valid, ack_legal. cbv zeta. apply run_if_seq, run_get.
  set (s := packetNumberSpace c sp).
  destruct (discarded s); [by left|]. rewrite Z.geb_leb, Z.leb_antisym.
  destruct (Z.ltb_spec (largest_acknowledged ack) (next_packet_number s)) as [Hla|]; cbn [negb]; [|by left].
  destruct (ackFrameRangesAreValid ack); cbn [negb]; [|by left]. cbn [andb].
  pose proof (co_space _ _ _ _ _ Hc sp) as Hsp. rewrite bool_decide_true in Hsp by done. fold s in Hsp.
  destruct (utilized_some n (recovery_state s)) as (u & Hu); [apply Hsp|]. apply run_if_seq. eapply run_legal; [done|].
  pose proof (space_count _ _ _ _ Hsp) as Hlen. destruct Hsp. rewrite so_sent0. apply run_if_seq.
  eapply run_mono; [apply (run_remove_acked n sp (stuck sp) pk c ack [] (pk sp) [] none_acked)| |by intros ? ? []].
  { apply (conn_pk n sp _ pk); [|done]. intros sp'. unfold pk_set. by case_bool_decide; [subst|]. }
  { apply noted_none. }
  { rewrite zsum_nil. lia. } { done. } { rewrite zlen_nil. unfold U64_MAX, max_quic_varint in *. lia. }
  fold (acked_of ack (pk sp)) (unacked_of ack (pk sp)). cbn [app]. intros a c1 (H1 & Ha & Hs1).
  assert (Forall (packet_ok (next_packet_number s)) (acked_of ack (pk sp))) as Hacked by (by apply Forall_filter_bool).
  assert (0 <= zsum bytes (acked_of ack (pk sp)) < 2 ^ 24) as Hsum.
  { assert (zsum bytes (pk sp) = zsum bytes (acked_of ack (pk sp)) + zsum bytes (unacked_of ack (pk sp))) as Hz
      by apply (zsum_split bytes (fun p => ackFrameContains ack (packet_number p))).
    assert (0 <= zsum bytes (unacked_of ack (pk sp))) by (by eapply packets_nonneg, Forall_filter_bool).
    pose proof (packets_nonneg _ _ Hacked). lia. }
  rewrite (no_bytes _ _ Ha). destruct (Z.eqb_spec (zsum bytes (acked_of ack (pk sp))) 0) as [E|E].
  { apply (zsum_acked_nil _ _ Hacked) in E. unfold left_after. rewrite E in *. rewrite zsum_nil, Z.add_0_r, unacked_all in H1 by done.
    split; [by destruct sp|]. split; [done|]. apply (conn_mono n); [lia|done]. }
  rewrite left_after_some by (intros E'; rewrite E', zsum_nil in E; lia).
  eapply run_if_mono; [apply (run_ack_removed n sp _ _ c1 s now ack counts u a (acked_of ack (pk sp)) H1); try done; try lia| |].
  - by apply sorted_filter.
  - unfold like. by rewrite Hs1.
  - rewrite pk_set_same. intros ? c2 H2. split; [done|]. eapply conn_pk; [|exact H2]. intros sp'. unfold pk_set. by case_bool_decide.
  - intros e c2 (-> & H2). by right.
Qed.

(** ** The loss timers *)

Lemma conn_zero n sp sp' pk c : conn_ok n sp (stuck sp) pk c -> conn_ok n sp' (stuck sp') pk c.
Proof. intros [Hs Hl He]. split; [|done|done]. intros u. specialize (Hs u). by repeat case_bool_decide; subst. Qed.

(** The packets of a space that are left after its loss timer is looked at. *)
Definition left_at (s : State) (now : Z) (ps : list SentPacket) : list SentPacket :=
  match loss_deadline_nanos s, space_largest_acknowledged s with
  | Some deadline, Some la => if deadline <=? now then survivors la (loss_delay s None) now ps else ps
  | _, _ => ps
  end.

Lemma pk_self sp pk sp' : pk_set sp (pk sp) pk sp' = pk sp'.
Proof. unfold pk_set. by case_bool_decide; [subst|]. Qed.

Lemma run_timeout n sp pk c now : conn_ok n sp (stuck sp) pk c -> n + 2 <= U64_MAX ->
  run_to (expireLossDetectionTimeoutInSpace sp now c)
    (fun _ c' => conn_ok (n + 2) sp (stuck sp) (pk_set sp (left_at (packetNumberSpace c sp) now (pk sp)) pk) c')
    (fun e c' => e = OutOfMemory /\ conn_ok n sp (stuck sp) pk c').
Proof.
  intros Hc Hn. assert (conn_ok (n + 2) sp (stuck sp) (pk_set sp (pk sp) pk) c) as Hsame.
  { apply (conn_pk _ _ _ pk); [apply pk_self|]. apply (conn_mono n); [lia|done]. }
  unfold expireLossDetectionTimeoutInSpace, left_at. apply run_seq, run_get. set (s := packetNumberSpace c sp).
  destruct (loss_deadline_nanos s) as [deadline|]; [|by apply run_ret]. rewrite Z.gtb_ltb, Z.ltb_antisym.
  destruct (deadline <=? now); cbn [negb]; [|destruct (space_largest_acknowledged s); by apply run_ret].
  destruct (space_largest_acknowledged s) as [la|]; [|by apply run_modify, conn_inert].
  set (left := survivors _ _ _ _). apply run_seq. eapply run_mono; [apply (run_losses n sp _ pk c la None now Hc); [apply stuck_pos|exact I]| |done].
  fold s. fold left. clear Hsame. clearbody left. intros loss c1 (H1 & Hu & Ht). apply run_seq.
  eapply (run_mono _ (fun _ c' => conn_ok (n + 2) sp (stuck sp) (pk_set sp left pk) c') _ (fun _ _ => False)); [| |by intros ? ? []].
  2: { intros ? c2 H2. apply run_modify. by apply conn_anti_deadlock. }
  destruct (Z.eqb_spec (lost_bytes loss) 0) as [E|E].
  { apply run_ret. rewrite E, Z.add_0_r in H1. by apply (conn_mono n); [lia|]. }
  apply run_seq. eapply run_mono; [apply (run_loss_congestion _ _ _ _ _ now loss H1); [lia|done|pose proof (stuck_pos sp); lia|auto]| |done].
  intros probe c2 H2. replace (stuck sp + lost_bytes loss - lost_bytes loss) with (stuck sp) in H2 by lia. apply run_seq.
  eapply (run_mono _ (fun _ c' => conn_ok (n + 1) sp (stuck sp) (pk_set sp left pk) c') _ (fun _ _ => False)); [| |done].
  { destruct probe; [apply run_modify; by apply conn_probe|by apply run_ret]. }
  clear c2 H2. intros ? c2 H2. apply run_seq, run_get. destruct (persistentCongestionEstablished _ _ _); [|apply run_ret, (conn_mono (n + 1)); [lia|done]].
  eapply run_mono; [apply (run_event (n + 1) sp (stuck sp) _ c2 (PersistentCongestion None) 0 _ H2); done || lia || apply stuck_pos| |done].
  intros ? c3 H3. rewrite Z.sub_0_r in H3. by replace (n + 2) with (n + 1 + 1) by lia.
Qed.

End Connections.
End AckProps.
