(* ===== verification/SendProps.v ===== *)
(** * Sending keeps the invariant of a connection

    Recording a sent packet, queueing CRYPTO data and sending a CRYPTO frame keep
    the invariant of [AckProps], with the spaces they discard. *)
From Stdlib Require Import Sorting.Sorted.
From S2P Require Import Prelude Codec CodecSafe Frame FrameProps FramePayload HyStart Cubic Recovery RecoveryProps Paths WireLen WireLenProps.
From S2P Require Import LossDetection CryptoSend LossDetectionProps AckProps.
Import Codec Frame FrameProps FramePayload Recovery RecoveryProps WireLen WireLenProps LossDetection CryptoSend LossDetectionProps AckProps.
Local Open Scope Z_scope.

Module SendProps.

(** ** Discarding a packet number space *)

Lemma fold_deinit ps l n c : fold_right deinitSentPacket (mem l n c) ps = mem l (n - zsum packet_bufs ps) c.
Proof.
  revert n. induction ps as [|p ps IH]; intros n; cbn [fold_right]; [by rewrite zsum_nil, Z.sub_0_r|].
  rewrite IH, deinit_mem, zsum_cons. f_equal. lia.
Qed.

Lemma fold_free fs l n c : fold_right (fun f => free_data (pc_data f)) (mem l n c) fs = mem l (n - zsum crypto_buf fs) c.
Proof.
  revert n. induction fs as [|f fs IH]; intros n; cbn [fold_right]; [by rewrite zsum_nil, Z.sub_0_r|].
  rewrite IH, free_mem, zsum_cons. f_equal. unfold crypto_buf. lia.
Qed.

(** A space that is discarded loses the bytes that were stuck in flight. *)
Definition forgotten (c c' : Connection) (stuck : PacketNumberSpace -> Z) (sp : PacketNumberSpace) : Z :=
  if discarded (packetNumberSpace c' sp) && negb (discarded (packetNumberSpace c sp)) then 0 else stuck sp.

(** What discarding spaces does to the bytes stuck in flight. *)
Definition drops (c : Connection) (st : PacketNumberSpace -> Z) (c' : Connection) (st' : PacketNumberSpace -> Z) : Prop :=
  forall sp, (discarded (packetNumberSpace c sp) = true -> discarded (packetNumberSpace c' sp) = true) /\ st' sp = forgotten c c' st sp.

Lemma drops_same c c' st : (forall sp, discarded (packetNumberSpace c' sp) = discarded (packetNumberSpace c sp)) -> drops c st c' st.
Proof. intros E sp. unfold forgotten. rewrite E. by destruct (discarded _). Qed.

Lemma drops_trans c1 st1 c2 st2 c3 st3 : drops c1 st1 c2 st2 -> drops c2 st2 c3 st3 -> drops c1 st1 c3 st3.
Proof.
  intros H1 H2 sp. destruct (H1 sp) as (M1 & E1), (H2 sp) as (M2 & E2). split; [auto|]. rewrite E2. unfold forgotten in *. rewrite E1.
  destruct (discarded (packetNumberSpace c1 sp)), (discarded (packetNumberSpace c2 sp)), (discarded (packetNumberSpace c3 sp)); try done;
    [discriminate (M1 eq_refl)|discriminate (M2 eq_refl)].
Qed.

Lemma reset_pto_discarded c sp : discarded (packetNumberSpace (resetConnectionPtoBackoff c) sp) = discarded (packetNumberSpace c sp).
Proof. unfold resetConnectionPtoBackoff, setConnectionPtoBackoffCount, upd_space, set_pto_count. destruct sp; cbn; by repeat case_match. Qed.

Lemma conn_stuck x st st' n sp k pk c : (forall u, u <> sp -> st' u = st u) -> conn_ok x st n sp k pk c -> conn_ok x st' n sp k pk c.
Proof.
  intros E [Hs Hl He]. split; [|done|done]. intros u. specialize (Hs u). case_bool_decide; [done|]. by rewrite E.
Qed.

Lemma discard_discarded c u sp : discarded (packetNumberSpace c u) = false ->
  discarded (packetNumberSpace (discardPacketNumberSpaceState u c) sp) = if bool_decide (sp = u) then true else discarded (packetNumberSpace c sp).
Proof.
  intros Ed. unfold discardPacketNumberSpaceState. cbv zeta. rewrite Ed, reset_pto_discarded.
  set (c0 := match u with sp_handshake => _ | _ => c end).
  replace c0 with (mem (allocator c) (live_frames c) c0) by (subst c0; clear; destruct u, c; done).
  rewrite fold_deinit, !fold_free. subst c0. by destruct u, sp.
Qed.

Lemma discard_ok x st n sp pk c u : (forall u, 0 <= st u) -> conn_ok x st n sp (st sp) pk c ->
  exists pk' st', conn_ok x st' n sp (st' sp) pk' (discardPacketNumberSpaceState u c) /\ (forall u', u' <> u -> pk' u' = pk u') /\
    drops c st (discardPacketNumberSpaceState u c) st' /\ (forall u, 0 <= st' u).
Proof.
  intros Hst Hc. destruct (discarded (packetNumberSpace c u)) eqn:Ed.
  { exists pk, st. unfold discardPacketNumberSpaceState. rewrite Ed. split_and!; try done. by apply drops_same. }
  set (st' := fun u' => if bool_decide (u' = u) then 0 else st u'). exists (pk_set u [] pk), st'. split_and!.
  2: { intros u' Hne. by apply pk_set_other. }
  2: { intros u'. unfold forgotten. rewrite discard_discarded by done. unfold st'. destruct (decide (u' = u)) as [->|Hne].
       - rewrite !bool_decide_true, Ed by done. split; done.
       - rewrite !bool_decide_false by done. split; [done|]. by destruct (discarded (packetNumberSpace c u')). }
  2: { intros u'. unfold st'. case_bool_decide; [done|apply Hst]. }
  apply (conn_zero x st' n u). apply (conn_zero x st n sp u) in Hc. assert (st' u = 0) as -> by (unfold st'; by rewrite bool_decide_true).
  apply (conn_stuck x st). { intros u' Hne. unfold st'. by rewrite bool_decide_false. }
  unfold discardPacketNumberSpaceState. cbv zeta. rewrite Ed. set (s := packetNumberSpace c u). apply conn_reset_pto.
  set (c0 := match u with sp_handshake => _ | _ => c end).
  replace c0 with (mem (allocator c) (live_frames c) c0) by (subst c0; clear; destruct u, c; done).
  rewrite fold_deinit, !fold_free.
  apply (conn_set x st n u (st u) 0 pk c); [done| | | |].
  - intros sp' Hne. unfold c0. by destruct u, sp'.
  - intros Hs. subst c0. destruct Hs as [[] ? ? ? ? ? ? ? ? []].
    split; try (destruct u; done); destruct u; cbn in *; try (by rec_split); try constructor; unfold ecn_ok; cbn; lia.
  - unfold owned, space_bufs, s, c0. destruct u; cbn; rewrite !zsum_nil; lia.
  - unfold c0. by destruct u.
Qed.

(** A discarded space loses its queue; the others keep theirs. *)
Definition keeps_queues (c c' : Connection) : Prop := forall sp, discarded (packetNumberSpace c' sp) = false ->
  discarded (packetNumberSpace c sp) = false /\ crypto_send_queue (packetNumberSpace c' sp) = crypto_send_queue (packetNumberSpace c sp).

Lemma reset_pto_queue c sp : crypto_send_queue (packetNumberSpace (resetConnectionPtoBackoff c) sp) = crypto_send_queue (packetNumberSpace c sp).
Proof. unfold resetConnectionPtoBackoff, setConnectionPtoBackoffCount, upd_space, set_pto_count. destruct sp; cbn; by repeat case_match. Qed.

Lemma discard_queues c u : keeps_queues c (discardPacketNumberSpaceState u c).
Proof.
  intros sp. destruct (discarded (packetNumberSpace c u)) eqn:Ed; [by unfold discardPacketNumberSpaceState; rewrite Ed|].
  rewrite discard_discarded by done. destruct (decide (sp = u)) as [->|Hne]; [by rewrite bool_decide_true|rewrite bool_decide_false by done].
  intros Hd. split; [done|]. unfold discardPacketNumberSpaceState. cbv zeta. rewrite Ed, reset_pto_queue.
  set (c0 := match u with sp_handshake => _ | _ => c end).
  replace c0 with (mem (allocator c) (live_frames c) c0) by (subst c0; clear; destruct u, c; done).
  rewrite fold_deinit, !fold_free. subst c0. by destruct u, sp.
Qed.

Lemma initial_queues c u : keeps_queues c (maybeDiscardInitialAfterHandshakePacketSent u c).
Proof.
  unfold maybeDiscardInitialAfterHandshakePacketSent. destruct (PeerAddress.side _), u; try (intros sp; done).
  destruct (PeerAddress.closing_or_closed _); [by intros sp|apply discard_queues].
Qed.

Lemma handshake_queues c u : keeps_queues c (maybeDiscardHandshakeAfterConfirmedCryptoSent u c).
Proof.
  unfold maybeDiscardHandshakeAfterConfirmedCryptoSent. destruct u; try (intros sp; done). destruct (_ || _); [by intros sp|]. cbv zeta.
  destruct (_ || _); [by intros sp|apply discard_queues].
Qed.

(** ** Recording a sent packet *)

Lemma send_fields sp b clock c (s := packetNumberSpace c sp) (s' := packetNumberSpace (recordAckElicitingSendInSpace sp b clock c) sp) :
  recovery_state s' = recordAckElicitingSend (recovery_state s) b (next_packet_number (application_packet_space c)) clock /\
  inert (s <| recovery_state := recovery_state s' |>) s'.
Proof.
  subst s s'. unfold recordAckElicitingSendInSpace, upd_space. destruct sp; cbn; repeat case_match; done.
Qed.

Lemma send_others sp b clock c (c' := recordAckElicitingSendInSpace sp b clock c) :
  (forall sp', sp' <> sp -> packetNumberSpace c' sp' = packetNumberSpace c sp') /\ send_queue c' = send_queue c /\
  live_frames c' = live_frames c /\ peer_ack_delay_exponent c' = peer_ack_delay_exponent c.
Proof.
  subst c'. unfold recordAckElicitingSendInSpace. cbv zeta. split; [|by destruct sp].
  intros sp' Hne. rewrite !get_upd_other by done. rewrite <- (get_upd_other sp sp' (fun s => s <| recovery_state :=
    recordAckElicitingSend (recovery_state s) b (next_packet_number (application_packet_space c)) clock |>) c Hne). by destruct sp'.
Qed.

Lemma flight_admitted x st n sp k pk c bytes : conn_ok x st n sp k pk c -> canSendAckElicitingInSpace c sp bytes = true ->
  bytes_in_flight (recovery_state (packetNumberSpace c sp)) + bytes <= U64_MAX.
Proof.
  intros Hc. unfold canSendAckElicitingInSpace. cbv zeta. destruct (add64 (totalBytesInFlight c) bytes) as [z|] eqn:E; [|done]. intros _.
  unfold add64 in E. destruct (Z.leb_spec (totalBytesInFlight c + bytes) U64_MAX); [|done].
  assert (bytes_in_flight (recovery_state (packetNumberSpace c sp)) <= totalBytesInFlight c); [|lia].
  unfold totalBytesInFlight, bytesInFlight. rewrite !sat_add.
  assert (forall u, u64_ok (bytes_in_flight (recovery_state (packetNumberSpace c u)))) as Hu
    by (intros u; destruct (co_space _ _ _ _ _ _ _ Hc u) as [[]]; done).
  pose proof (Hu sp_initial) as [? ?]. pose proof (Hu sp_handshake) as [? ?]. pose proof (Hu sp_application) as [? ?]. destruct sp; lia.
Qed.

Lemma sorted_snoc {A} (R : A -> A -> Prop) l z : StronglySorted R l -> Forall (fun y => R y z) l -> StronglySorted R (l ++ [z]).
Proof.
  intros Hs. induction Hs as [|y l Hs IH Hall]; intros Hz; cbn; [repeat constructor|]. inversion_clear Hz.
  constructor; [auto|]. apply List.Forall_app. auto.
Qed.

(** A packet with the next number added to a space whose bytes in flight do not overflow. *)
Lemma send_space_ok n k ps s s' p next largest clock n0 n1 : space_ok n k ps s -> packet_number p = next_packet_number s ->
  next = next_packet_number s + 1 -> next_packet_number s <= max_quic_varint -> 0 <= sent_time_nanos p <= time_max -> 1 <= bytes p <= U64_MAX ->
  bytes_in_flight (recovery_state s) + bytes p <= U64_MAX -> ecn_sent_ect0 s <= n0 -> ecn_sent_ect1 s <= n1 ->
  n0 + n1 <= ecn_sent_ect0 s + ecn_sent_ect1 s + 1 ->
  recovery_state s' = recordAckElicitingSend (recovery_state s) (bytes p) largest clock ->
  inert (s <| sent_packets := ps ++ [p] |> <| next_packet_number := next |> <| ecn_sent_ect0 := n0 |> <| ecn_sent_ect1 := n1 |>
           <| recovery_state := recovery_state s' |>) s' ->
  space_ok n k (ps ++ [p]) s'.
Proof.
  intros [] Hp -> Hmax Ht Hb Hf H0 H1 H01 Hr (E1 & E2 & E3 & E4 & E5 & E6 & E7 & _). cbn in *.
  destruct so_ecn0 as (? & ? & ? & ? & ? & ?).
  split; rewrite ?Hr, ?E2, ?E3, ?E4; cbn; try done.
  - apply rec_sent; [done|unfold u64_ok; lia].
  - unfold add64. rewrite (proj2 (Z.leb_le _ _)) by done. rewrite zsum_app, zsum_cons, zsum_nil. lia.
  - lia.
  - apply List.Forall_app. split; [|constructor; [|constructor]; unfold packet_ok; lia].
    eapply List.Forall_impl; [|done]. unfold packet_ok. intros q. cbn. lia.
  - apply sorted_snoc; [done|]. rewrite List.Forall_forall in *. intros q Hq. destruct (so_packets0 q Hq). lia.
  - destruct (space_largest_acknowledged s); lia.
  - unfold ecn_ok. rewrite E3, E5, E6, E7. cbn. lia.
Qed.

Lemma activity_space now b c sp : packetNumberSpace (recordPacketActivity now (c <| peer := PeerAddress.recordPeerAddressBytesSent (peer c) b |>)) sp =
  packetNumberSpace c sp.
Proof. unfold recordPacketActivity. by destruct (effectiveIdleTimeout _), sp. Qed.

Lemma conn_activity x st n sp k pk c b now : conn_ok x st n sp k pk c ->
  conn_ok x st n sp k pk (recordPacketActivity now (c <| peer := PeerAddress.recordPeerAddressBytesSent (peer c) b |>)).
Proof.
  intros Hc. apply (conn_same x _ _ _ _ _ _ _ Hc); [intros sp'; apply activity_space|..];
    unfold recordPacketActivity; by destruct (effectiveIdleTimeout _).
Qed.

Section Discards.
Context (x : Z) (st : PacketNumberSpace -> Z) (st_pos : forall u, 0 <= st u).
Context (n : Z) (sp : PacketNumberSpace) (pk : PacketNumberSpace -> list SentPacket) (c : Connection) (Hc : conn_ok x st n sp (st sp) pk c).

(** What a step that may discard spaces leaves; the packets of the space [keep] stay. *)
Definition left_by (keep : PacketNumberSpace) (c' : Connection) : Prop :=
  exists pk' st', conn_ok x st' n sp (st' sp) pk' c' /\ pk' keep = pk keep /\ drops c st c' st' /\ forall u, 0 <= st' u.

Lemma left_by_same keep : left_by keep c.
Proof using Hc st_pos. exists pk, st. split_and!; try done. by apply drops_same. Qed.

Lemma left_by_initial u : left_by u (maybeDiscardInitialAfterHandshakePacketSent u c).
Proof using Hc st_pos.
  unfold maybeDiscardInitialAfterHandshakePacketSent. destruct (PeerAddress.side (peer c)), u; try apply left_by_same.
  destruct (PeerAddress.closing_or_closed (peer c)); [apply left_by_same|].
  destruct (discard_ok x st n sp pk c sp_initial st_pos Hc) as (pk' & st' & Hc' & Ho & Hd & Hp). exists pk', st'. split_and!; auto.
Qed.

Lemma left_by_handshake u (c' := maybeDiscardHandshakeAfterConfirmedCryptoSent u c) :
  exists pk' st', conn_ok x st' n sp (st' sp) pk' c' /\ (forall u', discarded (packetNumberSpace c' u') = false -> pk' u' = pk u') /\
    drops c st c' st' /\ forall u, 0 <= st' u.
Proof using Hc st_pos.
  assert (exists pk' st', conn_ok x st' n sp (st' sp) pk' c /\ (forall u', discarded (packetNumberSpace c u') = false -> pk' u' = pk u') /\
    drops c st c st' /\ forall u, 0 <= st' u) as Hsame by (exists pk, st; split_and!; try done; by apply drops_same).
  subst c'. unfold maybeDiscardHandshakeAfterConfirmedCryptoSent. destruct u; try done. destruct (_ || _); [done|]. cbv zeta.
  destruct (discarded (packetNumberSpace c sp_handshake)) eqn:Ed; [done|]. cbn [orb]. destruct (negb _); [done|].
  destruct (discard_ok x st n sp pk c sp_handshake st_pos Hc) as (pk' & st' & Hc' & Ho & Hd & Hp). exists pk', st'. split_and!; try done.
  intros u'. rewrite discard_discarded by done. destruct (decide (u' = sp_handshake)) as [->|Hne]; [by rewrite bool_decide_true|auto].
Qed.
End Discards.

(** The packet [recordPacketSentInSpaceWithEcn] records. *)
Definition new_packet (s : State) (now bytes : Z) (codepoint : EcnCodepoint) : SentPacket :=
  MkSent (next_packet_number s) now bytes codepoint None None None None.

Definition may_send (c : Connection) (sp : PacketNumberSpace) (bytes : Z) : Prop :=
  PeerAddress.closing_or_closed (peer c) = false /\ discarded (packetNumberSpace c sp) = false /\
  next_packet_number (packetNumberSpace c sp) <= max_quic_varint /\ ackElicitingSendAdmission c sp bytes = allowed.

(** The counters of marked packets. *)
Lemma mark_count cp n0 n1 : 0 <= n0 -> 0 <= n1 -> n0 + n1 <= max_quic_varint + 1 -> exists m0 m1,
  (if bool_decide (cp = ect0) then add64 n0 1 else Some n0) = Some m0 /\ (if bool_decide (cp = ect1) then add64 n1 1 else Some n1) = Some m1 /\
  n0 <= m0 /\ n1 <= m1 /\ m0 + m1 <= n0 + n1 + 1.
Proof.
  intros. assert (forall z, z <= max_quic_varint + 1 -> add64 z 1 = Some (z + 1)) as Ha.
  { intros z Hz. unfold add64. by rewrite (proj2 (Z.leb_le _ _)) by (unfold U64_MAX, max_quic_varint in *; lia). }
  destruct cp; cbn; rewrite ?Ha by lia; eexists _, _; split_and!; try done; lia.
Qed.

(** A packet, its number and the rest [q] of the CRYPTO queue written to a space, the buffers accounted for. *)
Record with_packet (sp : PacketNumberSpace) (p : SentPacket) (q : list PendingCryptoFrame) (n0 n1 : Z) (c c' : Connection) : Prop := {
  wp_space : packetNumberSpace c' sp = (packetNumberSpace c sp)
    <| sent_packets := sent_packets (packetNumberSpace c sp) ++ [p] |> <| next_packet_number := next_packet_number (packetNumberSpace c sp) + 1 |>
    <| ecn_sent_ect0 := n0 |> <| ecn_sent_ect1 := n1 |> <| crypto_send_queue := q |>;
  wp_other : forall sp', sp' <> sp -> packetNumberSpace c' sp' = packetNumberSpace c sp';
  wp_queue : send_queue c' = send_queue c;
  wp_live : live_frames c' - live_frames c = packet_bufs p + zsum crypto_buf q - zsum crypto_buf (crypto_send_queue (packetNumberSpace c sp));
  wp_exponent : peer_ack_delay_exponent c' = peer_ack_delay_exponent c;
}.

Lemma with_packet_owned sp p q n0 n1 c c' : with_packet sp p q n0 n1 c c' ->
  owned c' = owned c + packet_bufs p + zsum crypto_buf q - zsum crypto_buf (crypto_send_queue (packetNumberSpace c sp)).
Proof.
  intros [E Ho Eq _ _]. unfold owned. rewrite Eq.
  assert (space_bufs (packetNumberSpace c' sp) = space_bufs (packetNumberSpace c sp) + packet_bufs p + zsum crypto_buf q
    - zsum crypto_buf (crypto_send_queue (packetNumberSpace c sp))) as Es
    by (rewrite E; unfold space_bufs; cbn; rewrite zsum_app, zsum_cons, zsum_nil; lia).
  pose proof (Ho sp_initial) as H1. pose proof (Ho sp_handshake) as H2. pose proof (Ho sp_application) as H3.
  destruct sp; cbn in *; rewrite ?H1, ?H2, ?H3 by done; lia.
Qed.

Lemma sent_owned sp b clock c : owned (recordAckElicitingSendInSpace sp b clock c) = owned c.
Proof.
  pose proof (send_fields sp b clock c) as (_ & _ & E2 & _ & _ & _ & _ & _ & E8 & E9).
  pose proof (send_others sp b clock c) as (Eo & Eq & _). unfold owned. rewrite Eq.
  assert (space_bufs (packetNumberSpace (recordAckElicitingSendInSpace sp b clock c) sp) = space_bufs (packetNumberSpace c sp)) as Es
    by (unfold space_bufs; by rewrite E2, E8, E9).
  pose proof (Eo sp_initial) as H1. pose proof (Eo sp_handshake) as H2. pose proof (Eo sp_application) as H3.
  destruct sp; cbn in *; rewrite ?H1, ?H2, ?H3 by done; lia.
Qed.

Lemma conn_add x st n sp pk c c' p q n0 n1 clock (s := packetNumberSpace c sp) : conn_ok x st n sp (st sp) pk c -> with_packet sp p q n0 n1 c c' ->
  packet_number p = next_packet_number s -> next_packet_number s <= max_quic_varint -> 0 <= sent_time_nanos p <= time_max ->
  1 <= bytes p <= U64_MAX -> bytes_in_flight (recovery_state s) + bytes p <= U64_MAX -> ecn_sent_ect0 s <= n0 -> ecn_sent_ect1 s <= n1 ->
  n0 + n1 <= ecn_sent_ect0 s + ecn_sent_ect1 s + 1 ->
  conn_ok x st n sp (st sp) (pk_set sp (pk sp ++ [p]) pk) (recordAckElicitingSendInSpace sp (bytes p) clock c').
Proof.
  intros Hc Hw Hp Hmax Hnow Hb Hf H0 H1 H01.
  pose proof (send_fields sp (bytes p) clock c') as (Er & Ei).
  pose proof (send_others sp (bytes p) clock c') as (Eo & Eq & El & Ee). pose proof (sent_owned sp (bytes p) clock c') as Eown.
  set (c4 := recordAckElicitingSendInSpace _ _ _ _) in *.
  apply (conn_set x st n sp (st sp) (st sp) pk c); [done| | | |].
  - intros sp' Hne. rewrite Eo by done. by apply (wp_other _ _ _ _ _ _ _ Hw).
  - intros Hs. rewrite (wp_space _ _ _ _ _ _ _ Hw) in Er, Ei. fold s in Er, Ei, Hs. pose proof (so_sent _ _ _ _ Hs) as Es. rewrite Es in Ei.
    apply (send_space_ok n (st sp) (pk sp) (s <| crypto_send_queue := q |>) _ p (next_packet_number s + 1)
      (next_packet_number (application_packet_space c')) clock n0 n1); try done. by destruct Hs; split.
  - rewrite El, Eown, (with_packet_owned _ _ _ _ _ _ _ Hw). pose proof (wp_live _ _ _ _ _ _ _ Hw). lia.
  - rewrite Ee. apply Hw.
Qed.

Lemma sent_discarded sp b clock c u : discarded (packetNumberSpace (recordAckElicitingSendInSpace sp b clock c) u) = discarded (packetNumberSpace c u).
Proof. unfold recordAckElicitingSendInSpace, upd_space. destruct sp, u; cbn; by repeat case_match. Qed.

Lemma with_packet_discarded sp p q n0 n1 c c' u : with_packet sp p q n0 n1 c c' -> discarded (packetNumberSpace c' u) = discarded (packetNumberSpace c u).
Proof. intros [E Ho _ _ _]. destruct (decide (u = sp)) as [->|Hne]; [by rewrite E|by rewrite Ho]. Qed.

(** A recorded packet: the state [recordPacketActivity] leaves. *)
Definition recorded (sp : PacketNumberSpace) (b clock now : Z) (c : Connection) : Connection :=
  let c := recordAckElicitingSendInSpace sp b clock c in recordPacketActivity now (c <| peer := PeerAddress.recordPeerAddressBytesSent (peer c) b |>).

Lemma conn_recorded x st n sp pk c c' p q n0 n1 clock now (s := packetNumberSpace c sp) : (forall u, 0 <= st u) -> conn_ok x st n sp (st sp) pk c ->
  with_packet sp p q n0 n1 c c' -> packet_number p = next_packet_number s -> next_packet_number s <= max_quic_varint ->
  0 <= sent_time_nanos p <= time_max -> 1 <= bytes p <= U64_MAX -> bytes_in_flight (recovery_state s) + bytes p <= U64_MAX ->
  ecn_sent_ect0 s <= n0 -> ecn_sent_ect1 s <= n1 -> n0 + n1 <= ecn_sent_ect0 s + ecn_sent_ect1 s + 1 ->
  exists pk' st', conn_ok x st' n sp (st' sp) pk' (maybeDiscardInitialAfterHandshakePacketSent sp (recorded sp (bytes p) clock now c')) /\
    pk' sp = pk sp ++ [p] /\ drops c st (maybeDiscardInitialAfterHandshakePacketSent sp (recorded sp (bytes p) clock now c')) st' /\ forall u, 0 <= st' u.
Proof.
  intros Hst Hc Hw Hp Hmax Hnow Hb Hf H0 H1 H01. pose proof (conn_add x st n sp pk c c' p q n0 n1 clock Hc Hw Hp Hmax Hnow Hb Hf H0 H1 H01) as Ha.
  apply (fun K => conn_activity x st n sp _ _ _ (bytes p) now K) in Ha. fold (recorded sp (bytes p) clock now c') in Ha.
  destruct (left_by_initial x st Hst n sp _ _ Ha sp) as (pk' & st' & Hc' & Epk & Hd & Hp'). exists pk', st'. rewrite pk_set_same in Epk.
  split_and!; try done. eapply drops_trans; [|exact Hd]. apply drops_same. intros u. unfold recorded. cbv zeta.
  by rewrite activity_space, sent_discarded, (with_packet_discarded _ _ _ _ _ _ _ _ Hw).
Qed.

Lemma run_send x st n sp pk c now b cp clock : (forall u, 0 <= st u) -> conn_ok x st n sp (st sp) pk c -> 0 <= now <= time_max -> 1 <= b <= U64_MAX ->
  run_to (recordPacketSentInSpaceWithEcn sp now b cp clock c)
    (fun number c' => may_send c sp b /\ number = next_packet_number (packetNumberSpace c sp) /\ exists pk' st',
       conn_ok x st' n sp (st' sp) pk' c' /\ pk' sp = pk sp ++ [new_packet (packetNumberSpace c sp) now b cp] /\ drops c st c' st' /\ forall u, 0 <= st' u)
    (fun e c' => conn_ok x st n sp (st sp) pk c' /\ (e = OutOfMemory \/ c' = c /\ ~ may_send c sp b)).
Proof.
  intros Hst Hc Hnow Hb. unfold recordPacketSentInSpaceWithEcn, may_send. apply run_seq, run_get.
  destruct (PeerAddress.closing_or_closed (peer c)); [split; [done|right; split; [done|by intros (? & _)]]|].
  apply run_seq, run_get. set (s := packetNumberSpace c sp). destruct (discarded s); [split; [done|right; split; [done|by intros (_ & ? & _)]]|].
  destruct (Z.gtb_spec (next_packet_number s) max_quic_varint) as [Hgt|Hle]; [split; [done|right; split; [done|intros (_ & _ & ? & _); lia]]|].
  apply run_seq, run_get. destruct (ackElicitingSendAdmission c sp b) eqn:Ead;
    [|split; [done|right; split; [done|by intros (_ & _ & _ & ?)]]..].
  pose proof (co_space _ _ _ _ _ _ _ Hc sp) as Hsp. rewrite bool_decide_true in Hsp by done. fold s in Hsp.
  assert (bytes_in_flight (recovery_state s) + b <= U64_MAX) as Hfl.
  { eapply flight_admitted; [done|]. unfold ackElicitingSendAdmission in Ead. by destruct (canSendAckElicitingInSpace c sp b). }
  apply run_seq. eapply (run_mono _ (fun _ c' => exists l, c' = mem l (live_frames c) c) _ (fun e c' => e = OutOfMemory /\ exists l, c' = mem l (live_frames c) c)).
  { pose proof (run_reserve (allocator c) (live_frames c) c) as Hr. by rewrite mem_self in Hr. }
  2: { intros e c' (-> & l & ->). split; [|by left]. apply (conn_same x _ _ _ _ _ _ _ Hc); [by intros []|done|done|done]. }
  intros ? c0 (l & ->). destruct Hsp. destruct so_ecn0 as (? & ? & ? & _).
  destruct (mark_count cp (ecn_sent_ect0 s) (ecn_sent_ect1 s)) as (m0 & m1 & E0 & E1 & ? & ? & ?); [lia..|].
  apply run_seq, run_modify, run_seq, run_errdefer. unfold add64, orelse. rewrite (proj2 (Z.leb_le _ _)) by (unfold U64_MAX, max_quic_varint in *; lia).
  apply run_ret. apply run_seq, run_modify, run_seq. eapply run_legal; [exact E0|]. apply run_seq. eapply run_legal; [exact E1|].
  do 5 (apply run_seq, run_modify). apply run_ret. split; [done|]. split; [done|].
  apply (conn_recorded x st n sp pk c _ (new_packet s now b cp) (crypto_send_queue s) m0 m1 clock now Hst Hc); try done.
  split; [|intros sp' Hne; by destruct sp, sp'|by destruct sp| |by destruct sp].
  - subst s. destruct sp; cbn; by destruct (packetNumberSpace c _).
  - assert (packet_bufs (new_packet s now b cp) = 0) as -> by done. fold s. destruct sp; cbn; lia.
Qed.

(** ** Sending CRYPTO data *)

(** A frame whose computed length is [n] is encoded in [n] bytes. *)
Lemma wire_len_emits f n : frame_typed f -> wire_len_of f = Some (inr n) -> emits (encodeFrame f) (frame_bytes f) /\ zlen (frame_bytes f) = n.
Proof.
  intros Ht Hn. pose proof (validate_ok f Ht (len_inr f n Ht Hn)) as Hok. split; [by apply emits_frame; [|by eapply len_inr]|].
  rewrite len_ok in Hn; [by injection Hn|done|by destruct f|by destruct f].
Qed.

Lemma run_encode f bs w c (Q : FixedWriter -> Connection -> Prop) (E : Err -> Connection -> Prop) :
  emits (encodeFrame f) bs -> wf_writer w -> zlen bs <= room w -> Q (push w bs) c -> run_to (encode f w c) Q E.
Proof. intros He Hw Hr HQ. unfold encode. specialize (He w Hw). by rewrite (proj2 (Z.leb_le _ _) Hr) in He; rewrite He. Qed.

Lemma out_ok (out_buf : list byte) n (w := Writer (ztake n out_buf) 0) : 0 <= n <= zlen out_buf -> wf_writer w /\ room w = n /\ getWritten w = [].
Proof. intros Hn. unfold wf_writer, room, w. cbn. rewrite zlen_ztake by lia. split_and!; try lia. done. Qed.

(** Only the answers of the allocator are used up. *)
Definition same_but_answers (c c' : Connection) : Prop := exists l, c' = mem l (live_frames c) c.

Lemma conn_same_answers x st n sp k pk c c' : conn_ok x st n sp k pk c -> same_but_answers c c' -> conn_ok x st n sp k pk c'.
Proof. intros Hc (l & ->). apply (conn_same x _ _ _ _ _ _ _ Hc); [by intros []|done|done|done]. Qed.

Lemma same_refl c : same_but_answers c c.
Proof. exists (allocator c). by rewrite mem_self. Qed.

Lemma run_ack_only x st n sp pk c u a now out_buf : (forall u, 0 <= st u) -> conn_ok x st n sp (st sp) pk c -> ack_typed a ->
  run_to (pollAckOnlyInSpace u a now out_buf c)
    (fun r c' => match r with
                 | None => c' = c
                 | Some written => written = frame_bytes (ack a) /\ keeps_queues c c' /\ exists pk' st', conn_ok x st' n sp (st' sp) pk' c' /\ pk' u = pk u /\
                     drops c st c' st' /\ forall u, 0 <= st' u
                 end)
    (fun _ c' => c' = c).
Proof.
  intros Hst Hc Ha. unfold pollAckOnlyInSpace. apply run_seq. destruct (ackFrameWireLen a) as [e|len] eqn:El; [done|]. apply run_ret.
  apply run_seq, run_get. destruct (_ >? _); [done|]. apply run_seq, run_get. destruct (negb _); [done|].
  destruct (Z.ltb_spec (zlen out_buf) len); [done|]. destruct (wire_len_emits (ack a) len Ha) as (He & Hl); [cbn; by rewrite El|].
  pose proof (zlen_nonneg (frame_bytes (ack a))). destruct (out_ok out_buf len) as (Hw & Hr & Hg); [lia|].
  apply run_seq. eapply run_encode; [done|done|lia|]. rewrite getWritten_push, Hg by (done || lia). cbn [app].
  do 3 (apply run_seq, run_modify). apply run_ret. split; [done|]. split.
  { intros u' Hu. apply initial_queues in Hu. by rewrite !activity_space in Hu. }
  apply (fun K => conn_activity x st n sp _ _ _ (zlen (frame_bytes (ack a))) now K) in Hc.
  destruct (left_by_initial x st Hst n sp _ _ Hc u) as (pk' & st' & Hc' & Epk & Hd & Hp). exists pk', st'. split_and!; try done.
  eapply drops_trans; [|exact Hd]. apply drops_same. intros u'. by rewrite activity_space.
Qed.

(** The packet of a CRYPTO frame. *)
Definition crypto_packet (s : State) (now b : Z) (f : PendingCryptoFrame) : SentPacket :=
  MkSent (next_packet_number s) now b not_ect None (Some f) None None.

Section SendCrypto.
Context (x : Z) (st : PacketNumberSpace -> Z) (st_pos : forall u, 0 <= st u).
Context (n : Z) (sp : PacketNumberSpace) (pk : PacketNumberSpace -> list SentPacket) (c : Connection) (Hc : conn_ok x st n sp (st sp) pk c).
Context (f : PendingCryptoFrame) (rest : list PendingCryptoFrame) (Hq : crypto_send_queue (packetNumberSpace c sp) = f :: rest).
Context (now : Z) (Hnow : 0 <= now <= time_max) (clock : Z).
Let s : State := packetNumberSpace c sp.

(** The connection after [clone], [reserve], the append and [drop_first]. *)
Definition moved (l : list bool) (p : SentPacket) : Connection :=
  let c := mem l (live_frames c + crypto_buf f) c in
  let c := upd_space sp (fun s => s <| sent_packets := sent_packets s ++ [p] |>) c in
  upd_space sp (fun s => s <| next_packet_number := packet_number p + 1 |>) (drop_first sp c).

Lemma moved_with l b : with_packet sp (crypto_packet s now b f) rest (ecn_sent_ect0 s) (ecn_sent_ect1 s) c (moved l (crypto_packet s now b f)).
Proof using Hq.
  clear Hc Hnow st_pos.
  unfold moved, drop_first. cbv zeta. rewrite get_upd_same. cbn [crypto_send_queue].
  assert (crypto_send_queue ((packetNumberSpace (mem l (live_frames c + crypto_buf f) c) sp) <| sent_packets := sent_packets (packetNumberSpace (mem l (live_frames c + crypto_buf f) c) sp) ++ [crypto_packet s now b f] |>) = f :: rest)
    as -> by (by destruct sp).
  rewrite <- (mem_self (upd_space sp (fun s => s <| crypto_send_queue := rest |>) _)), free_mem.
  split; [|intros sp' Hne; by destruct sp, sp'|by destruct sp| |by destruct sp].
  - unfold s. by destruct sp.
  - rewrite Hq, zsum_cons. assert (packet_bufs (crypto_packet s now b f) = crypto_buf f) as ->
      by (unfold packet_bufs, crypto_packet; cbn; rewrite zsum_nil, zsum_cons, zsum_nil; lia).
    unfold crypto_buf at 1 4. destruct sp; cbn; unfold crypto_buf; lia.
Qed.

Lemma run_crypto_packet pre included out_buf len (body := frame_bytes (crypto (MkCrypto (pc_offset f) (pc_data f)))) :
  match included with Some a => emits (encodeFrame (ack a)) pre | None => pre = [] end ->
  emits (encodeFrame (crypto (MkCrypto (pc_offset f) (pc_data f)))) body -> 1 <= zlen body -> len = zlen pre + zlen body ->
  run_to (send_crypto_packet sp f included len now out_buf clock c)
    (fun r c' => match r with
                 | None => c' = c
                 | Some written => written = pre ++ body /\ exists pk' st', conn_ok x st' n sp (st' sp) pk' c' /\
                     (discarded (packetNumberSpace c' sp) = false -> pk' sp = pk sp ++ [crypto_packet s now len f] /\
                        crypto_send_queue (packetNumberSpace c' sp) = rest) /\
                     drops c st c' st' /\ forall u, 0 <= st' u
                 end)
    (fun _ c' => same_but_answers c c').
Proof using Hc Hq Hnow st_pos.
  intros Hpre Hbody Hb Hlen. pose proof (zlen_nonneg pre). unfold send_crypto_packet. apply run_seq, run_get.
  destruct (canSendAckElicitingInSpace c sp len) eqn:Ecan; [|done]. destruct (PeerAddress.canSendToPeerAddress _ _); [|done]. cbn [andb negb].
  destruct (Z.ltb_spec (zlen out_buf) len) as [|Hout]; [apply same_refl|]. apply run_seq, run_get. fold s.
  destruct (Z.gtb_spec (next_packet_number s) max_quic_varint) as [|Hmax]; [apply same_refl|].
  apply run_seq. unfold clonePendingCryptoFrame. apply run_seq. rewrite <- (mem_self c) at 1. eapply run_mono; [apply run_dupe| |].
  2: { intros e c' (_ & l & ->). by exists l. }
  intros d c1 (-> & l1 & ->). apply run_ret. assert (MkPendingCrypto (pc_offset f) (pc_data f) = f) as -> by (by destruct f). apply run_seq, run_errdefer. eapply run_mono; [apply run_reserve| |].
  2: { intros e c' (_ & l & ->). rewrite free_mem. exists l. f_equal. lia. }
  intros ? c2 (l & ->). apply run_seq, run_modify, run_errdefer.
  pose proof (moved_with l len) as Hw. pose proof (co_space _ _ _ _ _ _ _ Hc sp) as Hsp. rewrite bool_decide_true in Hsp by done. fold s in Hsp.
  pose proof (flight_admitted _ _ _ _ _ _ _ _ Hc Ecan) as Hfl. destruct (out_ok out_buf len) as (Hwf & Hr & Hg); [lia|].
  set (c3 := upd_space sp _ _). apply run_seq.
  eapply (run_mono _ (fun w c' => w = push (Writer (ztake len out_buf) 0) pre /\ c' = c3) _ (fun _ _ => False)); [| |done].
  { destruct included; [eapply run_encode; [done|done|lia|done]|]. apply run_ret. split; [|done]. subst pre. unfold push. cbn.
    done. }
  intros w c' (-> & ->). apply run_seq. eapply run_encode; [done|by apply push_wf; [|lia]|rewrite push_room by (done || lia); lia|].
  rewrite getWritten_push, getWritten_push, Hg by (done || lia || (apply push_wf; done || lia)). cbn [app].
  apply run_seq. eapply run_legal; [by rewrite (proj2 (Z.eqb_eq _ _)) by (rewrite zlen_app; lia)|]. apply run_seq, run_modify, run_seq.
  unfold add64, orelse. rewrite (proj2 (Z.leb_le _ _)) by (unfold U64_MAX, max_quic_varint in *; lia). apply run_ret.
  do 5 (apply run_seq, run_modify). apply run_seq, run_modify, run_ret. split; [done|].
  replace (zlen (pre ++ body)) with len by (rewrite zlen_app; lia).
  destruct Hsp. destruct (conn_recorded x st n sp pk c _ (crypto_packet s now len f) rest _ _ clock now st_pos Hc Hw) as (pk' & st' & Hc' & Epk & Hd & Hp);
    try done; try lia; try (pose proof (ro_flight _ _ so_recovery0) as [? _]; cbn; unfold s in *; lia).
  destruct (left_by_handshake x st' Hp n sp pk' _ Hc' sp) as (pk2 & st2 & Hc2 & Epk2 & Hd2 & Hp2). exists pk2, st2. split_and!; [exact Hc2| |exact (drops_trans _ _ _ _ _ _ Hd Hd2)|exact Hp2].
  intros Hnd. split; [by rewrite Epk2, Epk|]. apply handshake_queues in Hnd as [Hnd ->]. apply initial_queues in Hnd as [Hnd ->].
  unfold recorded. cbv zeta. rewrite activity_space.
  change (upd_space sp _ (drop_first sp c3)) with (moved l (crypto_packet s now len f)). destruct (send_fields sp len clock (moved l (crypto_packet s now len f))) as (_ & Hi).
  cbn [bytes crypto_packet]. destruct Hi as (_ & _ & _ & _ & _ & _ & _ & -> & _). by rewrite (wp_space _ _ _ _ _ _ _ Hw).
Qed.
End SendCrypto.

(** What [pollCryptoFrame] returns, for the first frame [f] of the queue. *)
Definition poll_written (ack_to_send : option AckFrame) (f : PendingCryptoFrame) (written : list byte) (sends : bool) : Prop :=
  let pre := match ack_to_send with Some a => frame_bytes (ack a) | None => [] end in
  if sends then written = pre ++ frame_bytes (crypto (MkCrypto (pc_offset f) (pc_data f))) else is_Some ack_to_send /\ written = pre.

Lemma run_poll_crypto x st n sp pk c f rest ack_to_send now out_buf clock (s := packetNumberSpace c sp) : (forall u, 0 <= st u) ->
  conn_ok x st n sp (st sp) pk c -> crypto_send_queue s = f :: rest -> 0 <= pc_offset f ->
  match ack_to_send with Some a => ack_typed a | None => True end -> 0 <= now <= time_max ->
  run_to (pollCryptoFrame sp ack_to_send now out_buf clock c)
    (fun r c' => discarded s = false /\ match r with
       | None => c' = c
       | Some written => exists sends pk' st', poll_written ack_to_send f written sends /\ conn_ok x st' n sp (st' sp) pk' c' /\
           (discarded (packetNumberSpace c' sp) = false -> pk' sp = pk sp ++ (if sends then [crypto_packet s now (zlen written) f] else []) /\
              crypto_send_queue (packetNumberSpace c' sp) = if sends then rest else f :: rest) /\
           drops c st c' st' /\ forall u, 0 <= st' u
       end)
    (fun _ c' => same_but_answers c c').
Proof.
  intros Hst Hc Hq Hoff Ha Hnow. unfold pollCryptoFrame. apply run_seq, run_get. fold s. destruct (discarded s); [apply same_refl|]. rewrite Hq.
  apply run_seq. eapply run_legal; [done|]. apply run_seq. set (cf := crypto (MkCrypto (pc_offset f) (pc_data f))).
  destruct (cryptoFrameWireLen _ _) as [e|len] eqn:El; [apply same_refl|]. apply run_ret.
  assert (frame_typed cf) as Ht.
  { pose proof (crypto_len_inr _ _ _ El). pose proof (zlen_nonneg (pc_data f)). cbn. unfold u64, U64_MAX, max_quic_varint in *. lia. }
  destruct (wire_len_emits cf len Ht) as (He & Hl); [cbn; by rewrite El|].
  assert (1 <= zlen (frame_bytes cf)).
  { rewrite Hl. rewrite crypto_len_ok in El by (try apply (crypto_len_inr _ _ _ El); try apply zlen_nonneg; done). injection El as <-.
    pose proof (zlen_nonneg (pc_data f)). pose proof (vi_len (pc_offset f)). pose proof (vi_len (zlen (pc_data f))). lia. }
  apply run_seq, run_get. destruct (_ >? _); [apply same_refl|]. destruct ack_to_send as [a|].
  2: { eapply run_mono; [apply (run_crypto_packet x st Hst n sp pk c Hc f rest Hq now Hnow clock []); done || lia| |done].
       intros [written|] c'; [|done]. intros (-> & pk' & st' & Hc' & Hpk & Hd & Hp). split; [done|]. exists true, pk', st'. cbn [app]. fold cf. by rewrite Hl. }
  apply run_seq. destruct (ackFrameWireLen a) as [e|alen] eqn:Eal; [apply same_refl|]. apply run_ret.
  destruct (wire_len_emits (ack a) alen Ha) as (Hea & Hla); [cbn; by rewrite Eal|]. apply run_seq.
  destruct (addWireLen alen len) as [e|clen] eqn:Ecl; [apply same_refl|]. apply run_ret. apply add_or_inr in Ecl as [_ ->].
  assert (alen + len = zlen (frame_bytes (ack a)) + zlen (frame_bytes cf)) as Hcl by lia.
  apply run_seq, run_get. destruct (_ && _ && _).
  { eapply run_mono; [apply (run_crypto_packet x st Hst n sp pk c Hc f rest Hq now Hnow clock (frame_bytes (ack a))); done || lia| |done].
    intros [written|] c'; [|done]. intros (-> & pk' & st' & Hc' & Hpk & Hd & Hp). split; [done|]. exists true, pk', st'. fold cf.
    by rewrite zlen_app, Hl, Hla. }
  destruct (_ && _); [|apply same_refl].
  eapply run_mono; [by apply (run_ack_only x st n sp pk c sp a)| |intros e c' ->; apply same_refl].
  intros [written|] c'; [|done]. intros (-> & Hk & pk' & st' & Hc' & Hpk & Hd & Hp). split; [done|]. exists false, pk', st'.
  split_and!; try done. intros [_ ->]%Hk. fold s. by rewrite app_nil_r, Hq.
Qed.

(** ** Queueing CRYPTO data *)

(** Frames whose data, put together, are [data], from [offset] on without a gap, each of which fits a datagram. *)
Fixpoint chunks (max_tx offset : Z) (fs : list PendingCryptoFrame) (data : list byte) : Prop :=
  match fs with
  | [] => data = []
  | f :: fs => pc_offset f = offset /\ pc_data f <> [] /\ fits (cryptoFrameWireLen offset) max_tx (zlen (pc_data f)) /\
      exists rest, data = pc_data f ++ rest /\ chunks max_tx (offset + zlen (pc_data f)) fs rest
  end.

(** A connection with [fs] added to a CRYPTO queue. *)
Definition queued (sp : PacketNumberSpace) (fs : list PendingCryptoFrame) (l : list bool) (c : Connection) : Connection :=
  upd_space sp (fun s => s <| crypto_send_queue := crypto_send_queue s ++ fs |>) (mem l (live_frames c + zsum crypto_buf fs) c).

Lemma live_queued sp fs l c : live_frames (queued sp fs l c) = live_frames c + zsum crypto_buf fs.
Proof. by destruct sp. Qed.

Lemma mem_queued sp fs l l' c : mem l' (live_frames (queued sp fs l c)) (queued sp fs l c) = queued sp fs l' c.
Proof. by destruct sp. Qed.

Lemma queued_snoc sp fs f l l' c : upd_space sp (fun s => s <| crypto_send_queue := crypto_send_queue s ++ [f] |>)
    (mem l' (live_frames (queued sp fs l c) + crypto_buf f) (queued sp fs l c)) = queued sp (fs ++ [f]) l' c.
Proof.
  rewrite live_queued. unfold queued. rewrite zsum_app, zsum_cons, zsum_nil, Z.add_0_r, Z.add_assoc. destruct sp; cbn; by rewrite <- app_assoc.
Qed.

Lemma run_queue_frame sp off data l fs c : run_to (queueCryptoFrame sp off data (queued sp fs l c))
  (fun _ c' => exists l', c' = queued sp (fs ++ [MkPendingCrypto off data]) l' c) (fun e c' => e = OutOfMemory /\ exists l', c' = queued sp fs l' c).
Proof.
  unfold queueCryptoFrame. apply run_seq. rewrite <- (mem_self (queued sp fs l c)) at 1. eapply run_mono; [apply run_dupe| |].
  2: { intros e c' (-> & l' & ->). split; [done|]. exists l'. apply mem_queued. }
  intros d c1 (-> & l1 & ->). apply run_seq, run_errdefer. eapply run_mono; [apply run_reserve| |].
  2: { intros e c' (-> & l' & ->). split; [done|]. rewrite free_mem. exists l'. rewrite Z.add_simpl_r. apply mem_queued. }
  intros ? c2 (l' & ->). apply run_modify. exists l'. apply (queued_snoc sp fs (MkPendingCrypto off data)).
Qed.

Lemma end_offset_eq off n : 0 <= off -> 0 <= n -> off + n <= max_quic_varint -> endOffset off n = Some (off + n).
Proof.
  intros. unfold endOffset, add64. rewrite (proj2 (Z.leb_le _ _)) by (unfold U64_MAX, max_quic_varint in *; lia). cbn.
  by destruct (Z.gtb_spec (off + n) max_quic_varint); [lia|].
Qed.

Lemma chunks_snoc max_tx off fs data f : chunks max_tx off fs data -> pc_offset f = off + zlen data -> pc_data f <> [] ->
  fits (cryptoFrameWireLen (off + zlen data)) max_tx (zlen (pc_data f)) -> chunks max_tx off (fs ++ [f]) (data ++ pc_data f).
Proof.
  revert off data. induction fs as [|g fs IH]; intros off data Hfs Ho Hne Hf; cbn [chunks app] in *.
  - subst data. change (zlen (@nil byte)) with 0 in *. rewrite Z.add_0_r in *. split_and!; try done. exists []. by rewrite app_nil_r.
  - destruct Hfs as (Hg & Hgne & Hgf & rest & -> & Hrest). split_and!; try done. exists (rest ++ pc_data f). rewrite <- app_assoc. split; [done|].
    rewrite zlen_app, Z.add_assoc in *. by apply IH.
Qed.

Lemma run_chunks fuel sp max_tx off done_data rest fs l c : 0 <= off -> off + zlen (done_data ++ rest) <= max_quic_varint -> 0 <= max_tx <= U64_MAX ->
  (length rest <= fuel)%nat -> chunks max_tx off fs done_data ->
  run_to (queue_chunks fuel sp max_tx (off + zlen done_data) rest (queued sp fs l c))
    (fun _ c' => exists fs' l', c' = queued sp fs' l' c /\ chunks max_tx off fs' (done_data ++ rest))
    (fun _ c' => exists fs' l', c' = queued sp fs' l' c).
Proof.
  intros Hoff Hmax Htx. revert done_data rest fs l Hmax. induction fuel as [|fuel IH]; intros d rest fs l Hmax Hfuel Hfs; cbn [queue_chunks].
  - destruct rest; [|cbn in Hfuel; lia]. apply run_ret. exists fs, l. by rewrite app_nil_r.
  - destruct (Z.eqb_spec (zlen rest) 0) as [E|E].
    { destruct rest; [|rewrite zlen_cons in E; pose proof (zlen_nonneg rest); lia]. apply run_ret. exists fs, l. by rewrite app_nil_r. }
    rewrite zlen_app in Hmax. pose proof (zlen_nonneg d). pose proof (zlen_nonneg rest).
    pose proof (crypto_chunk_optimal (off + zlen d) (zlen rest) max_tx ltac:(lia) ltac:(unfold U64_MAX, max_quic_varint in *; lia) ltac:(lia)) as Ho.
    unfold length_of. apply run_seq, run_seq.
    destruct (maxCryptoFrameDataLen _ _ _) as [[e|len]|]; [|destruct Ho as ((Hlen & Hne) & Hf & _)|done].
    { eapply run_legal; [done|]. cbn. eauto. }
    eapply run_legal; [done|]. apply run_ret. apply run_seq.
    eapply run_mono; [apply run_queue_frame| |intros e c' (_ & l' & ->); eauto]. intros ? c' (l' & ->). apply run_seq.
    assert (zlen (ztake len rest) = len) as El by (by apply zlen_ztake). unfold orelse. rewrite end_offset_eq by lia. apply run_ret.
    specialize (IH (d ++ ztake len rest) (zdrop len rest) (fs ++ [MkPendingCrypto (off + zlen d) (ztake len rest)]) l').
    rewrite <- app_assoc, ztake_zdrop, !zlen_app, El, (Z.add_assoc off (zlen d) len) in IH. apply IH; [lia| |].
    + assert (zlen (zdrop len rest) = zlen rest - len) as Ez by (by apply zlen_zdrop). unfold zlen in *. lia.
    + apply chunks_snoc; try done; [|cbn; by rewrite El]. cbn. intros E'. rewrite E' in El. change (zlen (@nil byte)) with 0 in El. lia.
Qed.

Lemma rollback_queued sp fs l c : rollbackCryptoSendQueue sp (zlen (crypto_send_queue (packetNumberSpace c sp))) (queued sp fs l c) =
  mem l (live_frames c) c.
Proof.
  unfold rollbackCryptoSendQueue. cbv zeta. set (q := crypto_send_queue (packetNumberSpace c sp)).
  assert (crypto_send_queue (packetNumberSpace (queued sp fs l c) sp) = q ++ fs) as -> by (unfold q, queued; by destruct sp).
  rewrite zdrop_app_exact, ztake_app_all by done. rewrite <- (mem_self (queued sp fs l c)), fold_free, live_queued, Z.add_simpl_r.
  unfold queued, q. destruct sp; cbn; by destruct c as [[] [] []].
Qed.

(** A connection with [fs] in the CRYPTO queue of a space, and the offset and the handshake state that go with it. *)
Definition crypto_queued (sp : PacketNumberSpace) (fs : list PendingCryptoFrame) (n : Z) (l : list bool) (c : Connection) : Connection :=
  markHandshakeSpaceUsed sp (upd_space sp (fun s => s <| crypto_send_offset := crypto_send_offset s + n |>) (queued sp fs l c)).

Lemma run_send_crypto sp data c (s := packetNumberSpace c sp) : 0 <= crypto_send_offset s -> 0 <= maxTxDatagramSize c <= U64_MAX ->
  run_to (sendCryptoInSpace sp data c)
    (fun _ c' => data = [] /\ c' = c \/ exists fs l, c' = crypto_queued sp fs (zlen data) l c /\ chunks (maxTxDatagramSize c) (crypto_send_offset s) fs data)
    (fun _ c' => same_but_answers c c').
Proof.
  intros Hoff Htx. unfold sendCryptoInSpace. apply run_seq, run_get. destruct (PeerAddress.closing_or_closed (peer c)); [apply same_refl|].
  destruct (Z.eqb_spec (zlen data) 0) as [E|E].
  { left. destruct data as [|b bs]; [done|]. rewrite zlen_cons in E. pose proof (zlen_nonneg bs). lia. }
  apply run_seq, run_get. fold s. destruct (discarded s); [apply same_refl|]. pose proof (zlen_nonneg data).
  apply run_seq. destruct (Z.le_gt_cases (crypto_send_offset s + zlen data) max_quic_varint) as [Hmax|Hmax].
  2: { assert (endOffset (crypto_send_offset s) (zlen data) = None) as ->; [|apply same_refl]. unfold endOffset.
       unfold add64. destruct (_ <=? U64_MAX); [cbn|done]. by destruct (Z.gtb_spec (crypto_send_offset s + zlen data) max_quic_varint); [|lia]. }
  rewrite end_offset_eq by done. apply run_ret, run_seq, run_get, run_seq. unfold length_of. apply run_seq.
  pose proof (crypto_chunk_optimal (crypto_send_offset s) (zlen data) (maxTxDatagramSize c) Hoff ltac:(unfold U64_MAX, max_quic_varint in *; lia) ltac:(lia)) as Ho.
  destruct (maxCryptoFrameDataLen _ _ _) as [[e|len]|]; [|clear Ho|done].
  { eapply run_legal; [done|]. apply same_refl. }
  eapply run_legal; [done|]. apply run_ret, run_seq, run_errdefer.
  assert (queued sp [] (allocator c) c = c) as Ec by (unfold queued; rewrite zsum_nil, Z.add_0_r, mem_self; destruct sp; cbn; rewrite app_nil_r; by destruct c as [[] [] []]).
  pose proof (run_chunks (length data) sp (maxTxDatagramSize c) (crypto_send_offset s) [] data [] (allocator c) c) as Hr.
  rewrite Ec, Z.add_0_r in Hr. eapply run_mono; [by apply Hr| |].
  - intros ? c1 (fs & l & -> & Hfs). apply run_seq, run_modify, run_modify. right. exists fs, l. split; [|done]. unfold crypto_queued. f_equal. unfold s.
    by destruct sp.
  - intros e c1 (fs & l & ->). exists l. apply rollback_queued.
Qed.

Lemma conn_crypto_queued x st n sp k pk c fs m l u : conn_ok x st n sp k pk c -> conn_ok x st n sp k pk (crypto_queued u fs m l c).
Proof.
  intros Hc.
  assert (conn_ok x st n sp k pk (upd_space u (fun s => s <| crypto_send_offset := crypto_send_offset s + m |>) (queued u fs l c))) as H1.
  { destruct Hc as [Hs Hl He]. split; [|unfold owned, space_bufs in *; destruct u; cbn in *; rewrite !zsum_app; lia|by destruct u].
    intros sp'. specialize (Hs sp'). destruct Hs. destruct u, sp'; by split. }
  unfold crypto_queued, markHandshakeSpaceUsed. destruct u; try done. case_match; try done.
  apply (conn_same x _ _ _ _ _ _ _ H1); [by intros []|done|done|done].
Qed.

End SendProps.
