(* ===== verification/SentHistory.v ===== *)
(** * Histories of sent packets

    In every state reached by sending, acknowledging and loss timeouts the bytes
    in flight of a space are the bytes of its outstanding packets, and those
    stuck by ACK frames that ran out of memory. *)
From Stdlib Require Import Sorting.Sorted.
From S2P Require Import Prelude Codec Frame FrameProps FramePayload HyStart Cubic Recovery RecoveryProps Paths WireLen WireLenProps.
From S2P Require Import LossDetection CryptoSend LossDetectionProps AckProps SendProps.
Import Codec Frame FrameProps FramePayload Recovery RecoveryProps WireLen WireLenProps LossDetection CryptoSend LossDetectionProps AckProps SendProps.
Local Open Scope Z_scope.

Module SentHistory.

(** ** The invariant of a connection *)

Definition outstanding (c : Connection) (sp : PacketNumberSpace) : list SentPacket := sent_packets (packetNumberSpace c sp).

(** [x] is the peer's ACK delay exponent, [n] bounds the number of recovery calls so far, [stuck] are the bytes in flight that
    belong to no outstanding packet. *)
Definition conn_inv (x n : Z) (stuck : PacketNumberSpace -> Z) (c : Connection) : Prop :=
  conn_ok x stuck n sp_initial (stuck sp_initial) (outstanding c) c /\ forall sp, 0 <= stuck sp.

Section Invariant.
Context (x : Z) (st : PacketNumberSpace -> Z) (st_pos : forall sp, 0 <= st sp).

Lemma inv_of n sp pk c : conn_ok x st n sp (st sp) pk c -> conn_inv x n st c /\ forall sp', outstanding c sp' = pk sp'.
Proof using st_pos.
  intros Hc. assert (forall sp', outstanding c sp' = pk sp') as E by (intros sp'; by destruct (co_space _ _ _ _ _ _ _ Hc sp')).
  split; [split; [|done]|done]. apply (conn_pk x st n _ _ pk); [done|]. by eapply conn_zero.
Qed.

Lemma inv_to n sp c : conn_inv x n st c -> conn_ok x st n sp (st sp) (outstanding c) c.
Proof using Type. intros [Hc _]. by eapply conn_zero. Qed.

Lemma conn_inv_mono n m c : n <= m -> conn_inv x n st c -> conn_inv x m st c.
Proof using Type. intros Hle [Hc ?]. split; [by apply (conn_mono x st n)|done]. Qed.

Lemma inv_flight n sp c : conn_inv x n st c -> bytesInFlight c sp = zsum bytes (outstanding c sp) + st sp.
Proof using Type. intros [[Hs _ _] _]. destruct (Hs sp). unfold bytesInFlight. rewrite so_flight0. by case_bool_decide; [subst|]. Qed.

Lemma run_timeouts n c now : conn_inv x n st c -> n + 6 <= U64_MAX ->
  run_to (expireLossDetectionTimeouts now c) (fun _ c' => conn_inv x (n + 6) st c') (fun e c' => e = OutOfMemory /\ conn_inv x (n + 6) st c').
Proof using st_pos.
  intros Hc Hn. unfold expireLossDetectionTimeouts.
  assert (forall sp m c, conn_inv x m st c -> m + 2 <= U64_MAX -> run_to (expireLossDetectionTimeoutInSpace sp now c)
    (fun _ c' => conn_inv x (m + 2) st c') (fun e c' => e = OutOfMemory /\ conn_inv x (m + 2) st c')) as K.
  { intros sp m c1 H1 Hm. eapply run_mono; [apply (run_timeout x st st_pos); [by apply inv_to|done]| |].
    - intros ? c2 H2. by apply inv_of in H2 as [? _].
    - intros e c2 (-> & H2). split; [done|]. apply inv_of in H2 as [H2 _]. by apply (conn_inv_mono m); [lia|]. }
  apply run_seq. eapply run_mono; [apply K; [done|lia]| |intros e c1 []; split; [done|]; by apply (conn_inv_mono (n + 2)); [lia|]]. intros ? c1 H1.
  apply run_seq. eapply run_mono; [apply (K _ (n + 2)); [done|lia]| |intros e c2 []; split; [done|]; by apply (conn_inv_mono (n + 2 + 2)); [lia|]]. intros ? c2 H2.
  eapply run_mono; [apply (K _ (n + 2 + 2)); [done|lia]| |intros e c3 []; split; [done|]; by apply (conn_inv_mono (n + 2 + 2 + 2)); [lia|]].
  intros ? c3 H3. by apply (conn_inv_mono (n + 2 + 2 + 2)); [lia|].
Qed.
End Invariant.

Lemma inv_ext x n st st' c : (forall sp, st' sp = st sp) -> conn_inv x n st c -> conn_inv x n st' c.
Proof.
  intros E [Hc Hp]. split; [|intros sp; by rewrite E]. rewrite E. apply (conn_stuck x st); [done|exact Hc].
Qed.

(** ** Histories *)

Inductive op : Type :=
  | Send (sp : PacketNumberSpace) (now bytes : Z) (codepoint : EcnCodepoint) (clock : Z)
  | QueueCrypto (sp : PacketNumberSpace) (data : list byte)
  | PollCrypto (sp : PacketNumberSpace) (ack_to_send : option AckFrame) (now : Z) (out_buf : list byte) (clock : Z)
  | Ack (sp : PacketNumberSpace) (now : Z) (ack : AckFrame) (counts : option EcnCounts)
  | Timeouts (now : Z).

Definition apply_op (o : op) : M Connection unit :=
  match o with
  | Send sp now bytes codepoint clock => _ ← recordPacketSentInSpaceWithEcn sp now bytes codepoint clock; mret tt
  | QueueCrypto sp data => sendCryptoInSpace sp data
  | PollCrypto sp ack_to_send now out_buf clock => _ ← pollCryptoFrame sp ack_to_send now out_buf clock; mret tt
  | Ack sp now a counts => receiveAckFrame sp now a counts
  | Timeouts now => expireLossDetectionTimeouts now
  end.

(** The conditions of an operation: values of their types, times below 2^60 ns, packets of at least one byte, a CRYPTO frame
    to send, and less than 16 MiB outstanding in a space whose ACK frame is received. *)
Definition op_ok (c : Connection) (o : op) : Prop :=
  match o with
  | Send _ now bytes _ _ => 0 <= now <= time_max /\ 1 <= bytes <= U64_MAX
  | QueueCrypto sp _ => 0 <= crypto_send_offset (packetNumberSpace c sp) /\ 0 <= maxTxDatagramSize c <= U64_MAX
  | PollCrypto sp ack_to_send now _ _ => 0 <= now <= time_max /\ match ack_to_send with Some a => ack_typed a | None => True end /\
      crypto_send_queue (packetNumberSpace c sp) <> [] /\ Forall (fun f => 0 <= pc_offset f) (crypto_send_queue (packetNumberSpace c sp))
  | Ack sp now a _ => 0 <= now <= time_max /\ 0 <= ack_delay a /\ zsum bytes (outstanding c sp) < 2 ^ 24
  | Timeouts _ => True
  end.

(** Whether an operation is legal: the delay of an ACK frame can overflow. *)
Definition op_legal (x : Z) (c : Connection) (o : op) : bool :=
  match o with Ack sp now a _ => ack_legal x sp now a (outstanding c sp) | _ => true end.

(** The bytes in flight without a packet: an ACK frame that runs out of memory leaves those of the packets it acknowledged,
    and discarding a space forgets its own. *)
Definition stuck_after (o : op) (r : Err + unit) (c c' : Connection) (stuck : PacketNumberSpace -> Z) (sp : PacketNumberSpace) : Z :=
  match o, r with
  | Ack sp' _ a _, inl OutOfMemory => if bool_decide (sp = sp') then stuck sp + zsum bytes (acked_of a (outstanding c sp)) else stuck sp
  | (Send _ _ _ _ _ | PollCrypto _ _ _ _ _), inr _ => forgotten c c' stuck sp
  | _, _ => stuck sp
  end.

Definition fresh (x : Z) (c : Connection) : Prop :=
  (forall sp, exists config, packetNumberSpace c sp = init_state (init config) /\ config_ok config /\
     cfg_initial_rtt_ns config <= time_max /\ 0 <= cfg_max_ack_delay_ns config) /\
  live_frames c = owned c /\ peer_ack_delay_exponent c = x.

(** The states of histories, with the number of recovery calls made at most and the bytes stuck in flight. *)
Inductive reached (x : Z) : Z -> (PacketNumberSpace -> Z) -> Connection -> Prop :=
  | reached_fresh c : fresh x c -> reached x 0 (fun _ => 0) c
  | reached_step n stuck c o r c' : reached x n stuck c -> op_ok c o -> apply_op o c = Some (r, c') ->
      reached x (n + 6) (stuck_after o r c c' stuck) c'.

Lemma fresh_inv x c : fresh x c -> conn_inv x 0 (fun _ => 0) c.
Proof.
  intros (Hs & Hl & He). split; [|done]. split; [|done|done]. intros sp. destruct (Hs sp) as (cfg & E & Hc & Hr & Hd). unfold outstanding. rewrite E.
  destruct (bool_decide _); split; cbn; try done; try (by apply rec_init); try (by constructor); unfold ecn_ok; cbn; lia.
Qed.

Lemma ack_refused sp now a counts c : ack_valid (packetNumberSpace c sp) a = false -> receiveAckFrame sp now a counts c = Some (inl InvalidPacket, c).
Proof.
  unfold ack_valid, receiveAckFrame, mbind, M_bind, get. destruct (discarded _); [done|]. rewrite Z.geb_leb, Z.leb_antisym.
  destruct (_ <? _); [|done]. by destruct (ackFrameRangesAreValid a).
Qed.

Lemma inv_drops x n sp st c c' st' pk' : conn_ok x st' n sp (st' sp) pk' c' -> drops c st c' st' -> (forall u, 0 <= st' u) ->
  conn_inv x n (forgotten c c' st) c' /\ outstanding c' sp = pk' sp.
Proof.
  intros Hc Hd Hp. apply (inv_of x st' Hp) in Hc as [Hc Ho]. split; [|done]. apply (inv_ext x n st'); [|done]. intros u. by destruct (Hd u) as [_ ->].
Qed.

Lemma inv_answers x n st c c' : conn_inv x n st c -> same_but_answers c c' -> conn_inv x n st c'.
Proof. intros [Hc Hp] Hs. apply (inv_of x st Hp) with (sp := sp_initial) (pk := outstanding c). by eapply conn_same_answers. Qed.

(** Where an ACK frame that runs out of memory leaves a connection. *)
Lemma inv_oom x n st c c' sp a (st' := fun u => if bool_decide (u = sp) then st u + zsum bytes (acked_of a (outstanding c u)) else st u) :
  conn_inv x n st c -> conn_ok x st n sp (st sp + zsum bytes (acked_of a (outstanding c sp))) (pk_set sp (unacked_of a (outstanding c sp)) (outstanding c)) c' ->
  conn_inv x n st' c' /\ forall u, outstanding c' u = pk_set sp (unacked_of a (outstanding c sp)) (outstanding c) u.
Proof.
  intros [Hc Hp] H'. assert (forall u, 0 <= st' u) as Hp'.
  { intros u. unfold st'. case_bool_decide; [|done]. subst u. pose proof (co_space _ _ _ _ _ _ _ Hc sp) as [_ _ _ _ _ _ Hps _ _ _]. specialize (Hp sp).
    pose proof (packets_nonneg _ (acked_of a (outstanding c sp)) ltac:(by apply Forall_filter_bool)). lia. }
  assert (st' sp = st sp + zsum bytes (acked_of a (outstanding c sp))) as E by (unfold st'; by rewrite bool_decide_true).
  rewrite <- E in H'. apply (conn_stuck x st st') in H'; [|intros u Hne; unfold st'; by rewrite bool_decide_false].
  by apply (inv_of x st' Hp') in H'.
Qed.

(** Every operation with its conditions returns, unless the delay of an ACK frame overflows, and keeps the invariant. *)
Lemma op_inv x n st c o : conn_inv x n st c -> 0 <= x < 64 -> n + 6 <= U64_MAX -> op_ok c o ->
  match apply_op o c with
  | Some (r, c') => conn_inv x (n + 6) (stuck_after o r c c' st) c'
  | None => op_legal x c o = false
  end.
Proof.
  intros Hc Hx Hn Ho. pose proof (proj2 Hc) as Hp.
  assert (run_if (op_legal x c o) (apply_op o c) (fun u c' => conn_inv x (n + 6) (stuck_after o (inr u) c c' st) c')
    (fun e c' => conn_inv x (n + 6) (stuck_after o (inl e) c c' st) c')) as K.
  2: { unfold run_if in K. destruct (apply_op o c) as [[[e|u] c']|]; [done|apply K|done]. }
  destruct o as [sp now b cp clock|sp data|sp a now out clock|sp now a counts|now]; cbn [apply_op op_ok op_legal] in *.
  - apply run_if_to, run_seq. eapply run_mono; [apply (run_send x st n sp (outstanding c)); [done|by apply inv_to|apply Ho|apply Ho]| |].
    + intros k c' (_ & _ & pk' & st' & H' & _ & Hd & Hp'). apply run_ret. apply (conn_inv_mono x _ n); [lia|]. by eapply inv_drops.
    + intros e c' (H' & _). apply (inv_of x st Hp) in H' as [? _]. by apply (conn_inv_mono x _ n); [lia|].
  - apply run_if_to. eapply run_mono; [apply (run_send_crypto sp data c); apply Ho| |].
    + intros ? c' H'. apply (conn_inv_mono x _ n); [lia|]. destruct H' as [(_ & ->)|(fs & l & -> & _)]; [done|].
      apply (inv_of x st Hp n sp_initial (outstanding c)). by apply conn_crypto_queued, inv_to.
    + intros e c' H'. apply (conn_inv_mono x _ n); [lia|]. by eapply inv_answers.
  - destruct Ho as (Hnow & Ha & Hq & Hoff). destruct (crypto_send_queue _) as [|f rest] eqn:Eq; [done|]. inversion_clear Hoff.
    apply run_if_to, run_seq. eapply run_mono; [apply (run_poll_crypto x st n sp (outstanding c) c f rest); try done; by apply inv_to| |].
    + intros r c' (_ & H'). apply run_ret. cbn [stuck_after]. apply (conn_inv_mono x _ n); [lia|].
      destruct r as [written|]; [destruct H' as (sends & pk' & st' & _ & H' & _ & Hd & Hp'); by eapply inv_drops|]. subst c'.
      apply (inv_ext x n st); [|done]. intros u. cbn. unfold forgotten. by destruct (discarded (packetNumberSpace c u)).
    + intros e c' H'. apply (conn_inv_mono x _ n); [lia|]. by eapply inv_answers.
  - destruct Ho as (Hnow & Hd & Hz). eapply run_if_mono; [apply (run_receive_ack x st Hp n sp (outstanding c)); try done; by apply inv_to| |].
    + intros ? c' (_ & H'). by apply (inv_of x st Hp) in H' as [? _].
    + intros e c' [(-> & _ & ->)|(-> & _ & H')]; apply (conn_inv_mono x _ n); [lia|done|lia|]. by eapply inv_oom.
  - apply run_if_to. eapply run_mono; [by apply (run_timeouts x st Hp n)|done|]. by intros e c' (_ & ?).
Qed.

Lemma reached_inv x n st c : 0 <= x < 64 -> reached x n st c -> n <= U64_MAX -> conn_inv x n st c /\ 0 <= n.
Proof.
  intros Hx. induction 1 as [c Hf|n st c o r c' Hr IH Ho Hs]; intros Hn; [split; [by apply fresh_inv|done]|].
  destruct IH as (Hi & H0); [lia|]. split; [|lia]. pose proof (op_inv x n st c o Hi Hx Hn Ho) as Hw. by rewrite Hs in Hw.
Qed.

(** ** The properties *)



(** C39: CRYPTO data is queued and sent without loss.  [sendCryptoInSpace] adds frames to the queue that cut the data into
    pieces, in order and without a gap from the stream's offset on, each of which fits a datagram, and moves the offset past
    them; on any error, in particular when memory runs out halfway, nothing has changed.  [pollCryptoFrame] writes the ACK
    frame it is given alone, or that frame and the first frame of the queue, in exactly the bytes it computed for them; in the
    second case the frame has left the queue and is recorded, with a copy of its data, in a packet of the next number, unless
    the space has been discarded.  When it sends nothing, or on an error, nothing has changed.  The other packets stay as
    they are. *)
Theorem crypto_send_exact (x n : Z) (stuck : PacketNumberSpace -> Z) (c : Connection) (sp : PacketNumberSpace) (Hc : conn_inv x n stuck c)
    (s := packetNumberSpace c sp) :
  (forall data, op_ok c (QueueCrypto sp data) ->
     match sendCryptoInSpace sp data c with
     | Some (inr _, c') => exists fs, crypto_send_queue (packetNumberSpace c' sp) = crypto_send_queue s ++ fs /\
         chunks (maxTxDatagramSize c) (crypto_send_offset s) fs data /\ crypto_send_offset (packetNumberSpace c' sp) = crypto_send_offset s + zlen data /\
         (forall sp', outstanding c' sp' = outstanding c sp') /\ live_frames c' = owned c'
     | Some (inl _, c') => same_but_answers c c'
     | None => False
     end) /\
  (forall ack_to_send now out_buf clock, op_ok c (PollCrypto sp ack_to_send now out_buf clock) ->
     match pollCryptoFrame sp ack_to_send now out_buf clock c with
     | Some (inr (Some written), c') => exists f rest sends, crypto_send_queue s = f :: rest /\ poll_written ack_to_send f written sends /\
         (discarded (packetNumberSpace c' sp) = false ->
            outstanding c' sp = outstanding c sp ++ (if sends : bool then [crypto_packet s now (zlen written) f] else []) /\
            crypto_send_queue (packetNumberSpace c' sp) = if sends then rest else f :: rest) /\
         live_frames c' = owned c'
     | Some (inr None, c') => c' = c
     | Some (inl _, c') => same_but_answers c c'
     | None => False
     end).
Proof.
  pose proof (proj2 Hc) as Hp. split.
  - intros data (Hoff & Htx). pose proof (run_send_crypto sp data c Hoff Htx) as H. fold s in H. unfold run_to, wp in H.
    destruct (sendCryptoInSpace sp data c) as [[[e|u] c']|]; cbn [fst snd] in H; [done| |done]. destruct H as [(-> & ->)|(fs & l & -> & Hfs)].
    + exists []. rewrite app_nil_r. change (zlen (@nil byte)) with 0. rewrite Z.add_0_r. split_and!; try done. apply Hc.
    + pose proof (conn_crypto_queued x stuck n sp_initial _ _ c fs (zlen data) l sp (proj1 Hc)) as H'. exists fs. split_and!; try done.
      * unfold crypto_queued, queued, markHandshakeSpaceUsed, s. destruct sp; cbn; by repeat case_match.
      * unfold crypto_queued, queued, markHandshakeSpaceUsed, s. destruct sp; cbn; by repeat case_match.
      * intros sp'. by destruct (co_space _ _ _ _ _ _ _ H' sp').
      * apply H'.
  - intros ack_to_send now out_buf clock (Hnow & Ha & Hq & Hoff). fold s in Hq, Hoff.
    destruct (crypto_send_queue s) as [|f rest] eqn:Eq; [done|]. inversion_clear Hoff as [|? ? Hf _].
    pose proof (run_poll_crypto x stuck n sp (outstanding c) c f rest ack_to_send now out_buf clock Hp (inv_to x stuck n sp c Hc) Eq Hf Ha Hnow) as H. unfold run_to, wp in H.
    destruct (pollCryptoFrame sp ack_to_send now out_buf clock c) as [[[e|[written|]] c']|]; cbn [fst snd] in H; [done| |by destruct H|done].
    destruct H as (_ & sends & pk' & st' & Hw & H & Hpk & _ & Hp'). exists f, rest, sends. apply (inv_of x st' Hp') in H as [H Ho].
    split_and!; [done|done| |apply H]. intros Hd. rewrite Ho. by apply Hpk.
Qed.

End SentHistory.
