(* ===== verification/SentExamples.v ===== *)
(** * Sent packets: concrete runs

    The theorems on loss detection and ACK frames at concrete connections, and
    the runs that show where the code falls short: an ACK delay that overflows,
    an ACK frame that runs out of memory, and the packet number a cutback uses. *)
From Stdlib Require Import Sorting.Sorted.
From S2P Require Import Prelude Codec Frame FramePayload HyStart Cubic Recovery RecoveryProps Paths WireLen WireLenProps.
From S2P Require Import LossDetection CryptoSend LossDetectionProps AckProps SendProps SentHistory.
Import Codec Frame FramePayload Recovery RecoveryProps WireLen WireLenProps LossDetection CryptoSend LossDetectionProps AckProps SendProps SentHistory.
Local Open Scope Z_scope.

Module SentExamples.

Definition ex_config : Config := MkConfig 1200 333000000 25000000 new_reno 0.
Definition ex_space : State := init_state (init ex_config).
Definition ex_conn : Connection :=
  MkConnection ex_space ex_space ex_space (PeerAddress.init PeerAddress.client) true false None 3 None 0 0 None [] [] [] [] 0 0 false []
    0 0 0 0 hs_initial 1200 65527 [true; true; true; true; true; true; true; true; false] 0.

Lemma ex_fresh : fresh 3 ex_conn.
Proof. split; [|done]. intros sp. exists ex_config. unfold config_ok, u64_ok, time_max. destruct sp; split_and!; vm_compute; done || lia. Qed.

(** The result of an operation, and the connection after it. *)
Definition result (o : op) (c : Connection) : Err + unit := match apply_op o c with Some (r, _) => r | None => inl Internal end.
Definition after (o : op) (c : Connection) : Connection := match apply_op o c with Some (_, c') => c' | None => c end.

Lemma reached_after x n st c o : reached x n st c -> op_ok c o -> match apply_op o c with Some _ => true | None => false end = true ->
  reached x (n + 6) (stuck_after o (result o c) c (after o c) st) (after o c).
Proof.
  intros Hr Ho Hs. unfold result, after. destruct (apply_op o c) as [[r c']|] eqn:E; [|done]. by apply (reached_step x n st c o).
Qed.

(** Data queued and sent in packet 0, and four packets without frames. *)
Definition ex_data : list byte := replicate 1000 x01.
Definition ex_out : list byte := replicate 1500 x00.
Definition ex_queue : op := QueueCrypto sp_application ex_data.
Definition ex_poll : op := PollCrypto sp_application None 0 ex_out 0.
Definition ex_send (i : Z) : op := Send sp_application (i * 1000000) 1200 not_ect 0.
Definition ex_queued : Connection := after ex_queue ex_conn.
Definition ex_polled : Connection := after ex_poll ex_queued.
Definition ex_sent : Connection := after (ex_send 4) (after (ex_send 3) (after (ex_send 2) (after (ex_send 1) ex_polled))).

(** Packet 4 only: packets 0 and 1 are three numbers behind it.  There is no memory to clone the data of packet 0. *)
Definition ex_ack : AckFrame := MkAck 4 0 0 [].
Definition ex_lost : op := Ack sp_application 20000000 ex_ack None.
Definition ex_stuck : Connection := after ex_lost ex_sent.

Lemma ex_run : map packet_number (outstanding ex_stuck sp_application) = [0; 1; 2; 3] /\ live_frames ex_stuck = 1 /\
  result ex_lost ex_sent = inl OutOfMemory /\ map packet_number (outstanding (after ex_lost ex_stuck) sp_application) = [0; 1; 2; 3].
Proof. vm_compute. done. Qed.

Lemma ex_queue_ok : op_ok ex_conn ex_queue.
Proof. cbn [op_ok ex_queue]. vm_compute. split_and!; congruence. Qed.

Lemma ex_poll_ok : op_ok ex_queued ex_poll.
Proof. cbn [op_ok ex_poll]. unfold time_max. split_and!; [done..|vm_compute; congruence|vm_compute; repeat constructor; congruence]. Qed.

Lemma ex_send_ok c i : 0 <= i <= 100 -> op_ok c (ex_send i).
Proof. cbn [op_ok ex_send]. unfold time_max, U64_MAX. lia. Qed.

Lemma ex_lost_ok : op_ok ex_sent ex_lost.
Proof. cbn [op_ok ex_lost]. unfold time_max. split_and!; vm_compute; congruence. Qed.

Definition ex_ledger : PacketNumberSpace -> Z := fun sp => if bool_decide (sp = sp_application) then 1200 else 0.

Lemma ex_sent_reached : exists st, reached 3 36 st ex_sent /\ forall sp, st sp = 0.
Proof.
  eexists. split.
  - change 36 with (0 + 6 + 6 + 6 + 6 + 6 + 6). unfold ex_sent.
    do 4 (apply reached_after; [|by apply ex_send_ok|vm_compute; done]).
    apply reached_after; [|exact ex_poll_ok|vm_compute; done]. apply reached_after; [|exact ex_queue_ok|vm_compute; done].
    apply reached_fresh, ex_fresh.
  - intros []; vm_compute; done.
Qed.
(** The history ends with the ACK frame that runs out of memory. *)
Lemma ex_stuck_reached : exists st, reached 3 42 st ex_stuck /\ st sp_application = 1200.
Proof.
  destruct ex_sent_reached as (st & Hr & Hst). exists (stuck_after ex_lost (result ex_lost ex_sent) ex_sent ex_stuck st). split.
  - change 42 with (36 + 6). apply reached_after; [done|exact ex_lost_ok|vm_compute; done].
  - assert (result ex_lost ex_sent = inl OutOfMemory) as -> by (vm_compute; done). cbn [stuck_after ex_lost]. rewrite bool_decide_true by done.
    rewrite Hst. vm_compute. done.
Qed.


Lemma ex_sent_inv : exists st, conn_inv 3 36 st ex_sent.
Proof.
  destruct ex_sent_reached as (st & Hr & _). exists st. apply (reached_inv 3 36 st ex_sent); [lia|done|unfold U64_MAX; lia].
Qed.


(** Three packets sent two seconds apart, after the first RTT sample, and far behind number 9. *)
Definition stale (i : Z) : SentPacket := MkSent i ((2 * i + 1) * 1000000000) 1200 not_ect (Some (MkPendingStream 0 (1200 * i) false [x01])) None None None.
Definition ex_stale : Connection :=
  (upd_space sp_application (fun s => s <| sent_packets := [stale 0; stale 1; stale 2] |> <| first_rtt_sample_sent_time_nanos := Some 0 |>) ex_conn)
  <| allocator := [] |>.

Ltac stale_ok := unfold I64_MAX, I64_MIN, U64_MAX, max_quic_varint; cbn;
  repeat (constructor; [unfold sent_ok, times_ok, U64_MAX, I64_MIN, I64_MAX, max_quic_varint; vm_compute; repeat split; done|]); constructor.

Lemma loss_detection_exact_witness :
  let s := packetNumberSpace ex_stale sp_application in let delay := loss_delay s None in
  let lost := List.filter (lost_now 9 delay 6000000000) (sent_packets s) in
  zsum bytes lost = 3600 /\
  run_to (removeAckDrivenLosses sp_application 9 None 6000000000 ex_stale)
    (fun result c' => exists d l, c' = after_losses ex_stale sp_application 9 delay 6000000000 d l /\ is_min d (waiting 9 delay 6000000000 (sent_packets s)) /\
       lost_bytes result = Z.min (zsum bytes lost) U64_MAX /\ (largest_lost_sent_time_nanos result = None <-> lost = []) /\
       live_frames c' - owned c' = live_frames ex_stale - owned ex_stale)
    (fun e c' => e = OutOfMemory /\ exists l, c' = ex_stale <| allocator := l |>).
Proof.
  cbv zeta. split; [vm_compute; reflexivity|]. apply (loss_detection_exact ex_stale sp_application 9 None 6000000000).
  - vm_compute. done.
  - stale_ok.
  - vm_compute. done.
Defined.

Lemma persistent_congestion_exact_witness :
  let s := packetNumberSpace ex_stale sp_application in
  let cs := candidates (first_rtt_sample_sent_time_nanos s) (List.filter (lost_now 9 (loss_delay s None) 6000000000) (sent_packets s)) in
  option_map (fun r => match fst r with inr loss => persistentCongestionEstablished loss sp_application (recovery_state s) | inl _ => false end)
    (removeAckDrivenLosses sp_application 9 None 6000000000 ex_stale) = Some true /\
  run_to (removeAckDrivenLosses sp_application 9 None 6000000000 ex_stale)
    (fun result c' => persistentCongestionEstablished result sp_application (recovery_state (packetNumberSpace c' sp_application)) = true <->
       exists p mid q, cs = p :: mid ++ [q] /\ consecutive (map packet_number cs) = true /\
         congestion_duration sp_application (recovery_state s) <= elapsed (sent_time_nanos p) (sent_time_nanos q))
    (fun e _ => e = OutOfMemory).
Proof.
  cbv zeta. split; [vm_compute; reflexivity|]. apply (persistent_congestion_exact ex_stale sp_application 9 None 6000000000).
  - vm_compute. done.
  - stale_ok.
  - vm_compute. done.
Defined.

(** ** Limits of the code *)

(** The smallest ACK delay that overflows with the default exponent 3: the frame's processing is illegal. *)
Lemma ack_delay_overflows (c := ex_sent <| allocator := [] |>) :
  receiveAckFrame sp_application 20000000 (MkAck 4 2305843009213694 0 []) None c = None /\
  is_Some (receiveAckFrame sp_application 20000000 (MkAck 4 2305843009213693 0 []) None c).
Proof. split; [vm_compute; reflexivity|]. vm_compute. eauto. Qed.

(** When the data of a lost packet cannot be cloned, the acknowledged packet is gone but its bytes stay in flight. *)
Lemma ack_out_of_memory_keeps_bytes : result ex_lost ex_sent = inl OutOfMemory /\
  bytesInFlight ex_stuck sp_application = bytesInFlight ex_sent sp_application /\
  zsum bytes (outstanding ex_stuck sp_application) = bytesInFlight ex_sent sp_application - 1200.
Proof. vm_compute. done. Qed.

(** The number a cutback remembers is the next one of the application space, in every space. *)
Lemma sent_number_of_application sp b clock c :
  largest_sent_packet_number (recovery_state (packetNumberSpace (recordAckElicitingSendInSpace sp b clock c) sp)) =
  next_packet_number (application_packet_space c).
Proof. destruct (send_fields sp b clock c) as (E & _). by rewrite E. Qed.

(** ** CRYPTO data *)

Lemma ex_queued_inv : exists st, conn_inv 3 6 st ex_queued.
Proof.
  eexists. apply (reached_inv 3 6 _ ex_queued); [lia| |unfold U64_MAX; lia]. change 6 with (0 + 6).
  apply reached_after; [apply reached_fresh, ex_fresh|exact ex_queue_ok|vm_compute; done].
Qed.

Lemma crypto_send_exact_witness : zlen (crypto_send_queue (packetNumberSpace ex_queued sp_application)) = 1 /\
  match pollCryptoFrame sp_application None 0 ex_out 0 ex_queued with
  | Some (inr (Some written), c') => exists f rest sends, crypto_send_queue (packetNumberSpace ex_queued sp_application) = f :: rest /\
      poll_written None f written sends /\
      (discarded (packetNumberSpace c' sp_application) = false ->
         outstanding c' sp_application = outstanding ex_queued sp_application ++
           (if sends : bool then [crypto_packet (packetNumberSpace ex_queued sp_application) 0 (zlen written) f] else []) /\
         crypto_send_queue (packetNumberSpace c' sp_application) = if sends then rest else f :: rest) /\
      live_frames c' = owned c'
  | Some (inr None, c') => c' = ex_queued
  | Some (inl _, c') => same_but_answers ex_queued c'
  | None => False
  end.
Proof.
  split; [vm_compute; reflexivity|]. destruct ex_queued_inv as (st & Hi).
  apply (crypto_send_exact 3 6 st ex_queued sp_application Hi). exact ex_poll_ok.
Defined.

End SentExamples.
