(* ===== verification/Witnesses.v ===== *)
(** * Concrete sessions

    A small OpenSSL that sends, reads and releases on every handshake step,
    executable traces of the adapter, and for every theorem about the OpenSSL
    clients that has hypotheses one concrete instance that meets them. *)
From S2P Require Import Prelude CAbi OpenSSL CryptoLevels Adapter AdapterInv AdapterSession AdapterConfirm AdapterLife AdapterProps PairTranscript PairInv PairLife PairProps Probe DemoBackend TlsBackend TlsTables.
Local Open Scope Z_scope.

Module Witnesses.

(** Every call succeeds; a handshake step sends three bytes, then reads and
    releases what is there; no protocol is ever selected. *)
Definition toy_step (o : nat) : ssl_prog nat :=
  PCall (TCryptoSend [x01; x02; x03]) (fun _ =>
  PCall TCryptoRecv (fun a =>
  PCall (TCryptoRelease (Z.max 0 (Z.min (ans_len a) 65536))) (fun _ =>
  PDone 1 (S o)))).

#[export] Instance toy_openssl : OpenSSL := {|
  ossl := nat;
  respond c o := (1, o);
  SSL_do_handshake s o := toy_step o;
  SSL_get0_alpn_selected s o := None;
  SSL_select_next_proto server client := (2, client);
|}.

#[export] Existing Instance openssl_headers_3.
#[export] Existing Instance openssl_headers_3_ok.

Lemma toy_bounded : forall s o, bounded 3 (SSL_do_handshake s o).
Proof. intros s o. repeat constructor; cbn; unfold SIZE_MAX, zlen; cbn; try lia. Qed.

Definition toy_world : world toy_openssl := World 0%nat 0 ∅.

Lemma toy_world_wf : world_wf toy_world.
Proof. intros k n Hin. by apply elem_of_empty in Hin. Qed.

(** ** Executable adapter traces *)

Inductive event : Type :=
  | ECall (c : tls_call)
  | EReceive (space : Z) (data : list byte)
  | ECopy (level : Z) (out : list byte).

Import Adapter AdapterInv AdapterSession.

Definition do_event (e : event) (b : backend) : option (label * backend) :=
  match e with
  | ECall c => '(a, b') ← invoke c b; Some (label_of b c a, b')
  | EReceive space data =>
      '(st, arg) ← quicz_openssl_tls_backend_receive (Some b) space (Some data) (zlen data);
      b' ← arg; Some (receive_label space data st, b')
  | ECopy level out =>
      '(st, out', n, b') ← copy_pending_outbound b level (Some out) (zlen out) (Some 0);
      Some (copy_label level st out' n, b')
  end.

Definition event_ok (e : event) : Prop :=
  match e with ECall c => tls_call_ok c | EReceive _ _ => True | ECopy level _ => 0 <= level < 4 end.

Fixpoint run_events (es : list event) (b : backend) : option (list label * backend) :=
  match es with
  | [] => Some ([], b)
  | e :: es => '(l, b1) ← do_event e b; '(ls, b2) ← run_events es b1; Some (l :: ls, b2)
  end.

Lemma do_event_step e b l b' : event_ok e -> do_event e b = Some (l, b') -> step (O := toy_openssl) b l b'.
Proof.
  destruct e as [c|space data|level out]; cbn [do_event event_ok]; intros Hok He.
  - destruct (invoke c b) as [[a b1]|] eqn:E; [|done]. cbn in He. simplify_eq. by eapply step_callback.
  - destruct (quicz_openssl_tls_backend_receive _ _ _ _) as [[st [b1|]]|] eqn:E; try done. cbn in He. simplify_eq.
    by eapply step_receive.
  - destruct (copy_pending_outbound _ _ _ _ _) as [[[[st out'] n] b1]|] eqn:E; try done. cbn in He. simplify_eq.
    by eapply step_copy.
Qed.

Lemma run_events_steps es : forall b ls b', Forall event_ok es -> run_events es b = Some (ls, b') ->
  steps (O := toy_openssl) b ls b'.
Proof.
  induction es as [|e es IH]; cbn [run_events]; intros b ls b' Hes Hr; [simplify_eq; constructor|].
  apply Forall_cons in Hes as [He Hes]. destruct (do_event e b) as [[l b1]|] eqn:Ee; cbn [mbind option_bind] in Hr; [|done].
  destruct (run_events es b1) as [[ls1 b2]|] eqn:Er; cbn [mbind option_bind] in Hr; [|done]. simplify_eq.
  eapply steps_cons; [by eapply do_event_step|by apply IH].
Qed.

Definition fresh : backend := fresh_backend (Some 1%nat) (Some 2%nat) 1 1.

(** Receive, read, release; the four secrets and the peer's parameters. *)
Definition handshake_events : list event :=
  [EReceive 0 [x0a; x0b; x0c]; ECall TCryptoRecv; ECall (TCryptoRelease 3);
   ECall (TCryptoSend [x01; x02]); ECopy 0 (replicate 8 x00);
   ECall (TGotTransportParams [x00; x01; xff]);
   ECall (TYieldSecret 2 0 (replicate 32 x11)); ECall (TYieldSecret 2 1 (replicate 32 x22));
   ECall (TYieldSecret 3 0 (replicate 32 x33)); ECall (TYieldSecret 3 1 (replicate 32 x44))].

Definition trace_of (es : list event) (b : backend) : list label := default [] (fst <$> run_events es b).
Definition state_of (es : list event) (b : backend) : backend := default b (snd <$> run_events es b).

Lemma run_of es b : is_Some (run_events es b) -> Forall event_ok es ->
  steps (O := toy_openssl) b (trace_of es b) (state_of es b).
Proof.
  intros [[ls b'] E] Hes. unfold trace_of, state_of. rewrite E. cbn. by eapply run_events_steps.
Qed.

Ltac run_ok := apply run_of; [vm_compute; eexists; reflexivity | repeat constructor; vm_compute; congruence].

Lemma adapter_outbound_integrity_witness :
  let ls := trace_of handshake_events fresh in let b := state_of handshake_events fresh in
  zlen ls <= INT_MAX /\ sent 0 ls = pulled 0 ls ++ outp b 0.
Proof.
  split; [by vm_compute|].
  apply (adapter_outbound_integrity (O := toy_openssl) (Some 1%nat) (Some 2%nat) 1 1 (trace_of handshake_events fresh)
    (state_of handshake_events fresh) 0); [by vm_compute|run_ok].
Defined.

(** The callbacks of a run with the answers they got. *)
Fixpoint calls_of (es : list event) (b : backend) : list (tls_call * tls_answer) :=
  match es with
  | [] => []
  | e :: es =>
      let rest := match do_event e b with Some (_, b1) => calls_of es b1 | None => [] end in
      match e with
      | ECall c => match invoke c b with Some (a, _) => (c, a) :: rest | None => rest end
      | _ => rest
      end
  end.

Lemma run_traced es : forall b ls b', Forall event_ok es -> run_events es b = Some (ls, b') ->
  AdapterConfirm.traced (O := toy_openssl) b ls (calls_of es b) b'.
Proof.
  induction es as [|e es IH]; cbn [run_events calls_of]; intros b ls b' Hes Hr; [simplify_eq; constructor|].
  apply Forall_cons in Hes as [He Hes]. destruct (do_event e b) as [[l b1]|] eqn:Ee; cbn [mbind option_bind] in Hr; [|done].
  destruct (run_events es b1) as [[ls1 b2]|] eqn:Er; cbn [mbind option_bind] in Hr; [|done]. simplify_eq.
  specialize (IH b1 ls1 b' Hes Er). destruct e as [c|space data|level out]; cbn [do_event event_ok] in *.
  - destruct (invoke c b) as [[a b2]|] eqn:E; [|done]. cbn in Ee. simplify_eq. by eapply AdapterConfirm.traced_callback.
  - destruct (quicz_openssl_tls_backend_receive _ _ _ _) as [[st [b2|]]|] eqn:E; try done. cbn in Ee. simplify_eq.
    eapply AdapterConfirm.traced_api; [by eapply AdapterConfirm.api_receive|done].
  - destruct (copy_pending_outbound _ _ _ _ _) as [[[[st out'] n] b2]|] eqn:E; try done. cbn in Ee. simplify_eq.
    eapply AdapterConfirm.traced_api; [by eapply AdapterConfirm.api_copy|done].
Qed.

Lemma adapter_confirmed_exact_witness :
  let ls := trace_of handshake_events fresh in let b := state_of handshake_events fresh in
  let cs := calls_of handshake_events fresh in
  quicz_openssl_tls_backend_handshake_confirmed (Some b) = true /\
  AdapterConfirm.reported_params cs = Some [x00; x01; xff] /\
  AdapterConfirm.held_params b = AdapterConfirm.reported_params cs /\ received 0 ls = consumed 0 ls.
Proof.
  destruct (AdapterConfirm.adapter_confirmed_exact (O := toy_openssl) (Some 1%nat) (Some 2%nat) 1 1 (trace_of handshake_events fresh)
    (calls_of handshake_events fresh) (state_of handshake_events fresh)) as [Hiff Hheld];
    [by vm_compute|apply run_traced; [repeat constructor; vm_compute; congruence|by vm_compute]|].
  assert (quicz_openssl_tls_backend_handshake_confirmed (Some (state_of handshake_events fresh)) = true) as Hc by (by vm_compute).
  split; [done|]. split; [by vm_compute|]. split; [by apply Hheld|]. apply Hiff in Hc. apply Hc.
Defined.

(** The discipline of [adapter_inbound_integrity], checked along the run. *)
Definition disciplined_b (b : backend) (l : label) : bool :=
  match l with
  | LReceived L _ => loan b L =? 0
  | LReleased L _ => negb (loan b L =? 0) || bool_decide (inp b L = [])
  | _ => true
  end.

Fixpoint disciplined_run (es : list event) (b : backend) : bool :=
  match es with
  | [] => true
  | e :: es => match do_event e b with
               | Some (l, b1) => disciplined_b b l && disciplined_run es b1
               | None => false
               end
  end.

Lemma disciplined_b_ok b l : disciplined_b b l = true -> disciplined b l.
Proof.
  destruct l; cbn; try done; [lia|]. intros [Hl|Hl%bool_decide_eq_true]%orb_true_iff; [left; lia|by right].
Qed.

Lemma run_disciplined es : forall b ls b', Forall event_ok es -> disciplined_run es b = true ->
  run_events es b = Some (ls, b') -> disciplined_steps (O := toy_openssl) b ls b'.
Proof.
  induction es as [|e es IH]; cbn [run_events disciplined_run]; intros b ls b' Hes Hd Hr; [simplify_eq; constructor|].
  apply Forall_cons in Hes as [He Hes]. destruct (do_event e b) as [[l b1]|] eqn:Ee; cbn [mbind option_bind] in Hr; [|done].
  apply andb_true_iff in Hd as [Hd1 Hd2].
  destruct (run_events es b1) as [[ls1 b2]|] eqn:Er; cbn [mbind option_bind] in Hr; [|done]. simplify_eq.
  eapply dsteps_cons; [by eapply do_event_step|by apply disciplined_b_ok|by apply IH].
Qed.

Lemma adapter_inbound_integrity_witness :
  let ls := trace_of handshake_events fresh in let b := state_of handshake_events fresh in
  received 0 ls = [x0a; x0b; x0c] /\ lost b = 0 /\ received 0 ls = consumed 0 ls ++ inp b 0.
Proof.
  split; [by vm_compute|].
  apply (adapter_inbound_integrity (O := toy_openssl) (Some 1%nat) (Some 2%nat) 1 1 (trace_of handshake_events fresh)
    (state_of handshake_events fresh) 0); [by vm_compute|].
  apply (run_disciplined handshake_events); [repeat constructor; vm_compute; congruence|by vm_compute|by vm_compute].
Defined.

(** OpenSSL has been lent three bytes of level 0. *)
Definition lent_events : list event := [EReceive 0 [x0a; x0b; x0c]; ECall TCryptoRecv].
Definition lent : backend := state_of lent_events fresh.

Lemma adapter_loan_stable_witness :
  let later := [EReceive 0 [x0d]; ECall (TCryptoSend [x01])] in
  loan lent 0 = 3 /\ loan (state_of later lent) 0 = loan lent 0.
Proof.
  split; [by vm_compute|].
  apply (adapter_loan_stable (O := toy_openssl) (Some 1%nat) (Some 2%nat) 1 1 (trace_of lent_events fresh)
    (trace_of [EReceive 0 [x0d]; ECall (TCryptoSend [x01])] lent) lent
    (state_of [EReceive 0 [x0d]; ECall (TCryptoSend [x01])] lent) 0).
  - by vm_compute.
  - run_ok.
  - run_ok.
  - by vm_compute.
  - repeat constructor; by vm_compute.
Defined.

(** Level 0 is lent, one byte arrives, OpenSSL sends and asks again, and then
    releases the three bytes it was lent. *)
Definition delivered : backend := state_of [EReceive 0 [x0d]] lent.
Definition between_events : list event := [ECall (TCryptoSend [x01]); ECall TCryptoRecv].
Definition between : backend := state_of between_events delivered.
Definition after_release : backend := state_of [ECall (TCryptoRelease 3)] between.

Lemma adapter_receive_during_loan_blocks_witness :
  1 <= lost after_release /\ quicz_openssl_tls_backend_handshake_confirmed (Some after_release) = false.
Proof.
  apply (adapter_receive_during_loan_blocks (O := toy_openssl) (Some 1%nat) (Some 2%nat) 1 1 (trace_of lent_events fresh)
    (trace_of between_events delivered) [] lent delivered between after_release after_release 0 [x0d] [x0a; x0b; x0c]).
  - by vm_compute.
  - run_ok.
  - by vm_compute.
  - by apply (do_event_step (EReceive 0 [x0d])); [|by vm_compute].
  - done.
  - run_ok.
  - repeat constructor; by vm_compute.
  - by apply (do_event_step (ECall (TCryptoRelease 3))); [by vm_compute|by vm_compute].
  - constructor.
Defined.

Lemma adapter_session_integrity_witness :
  exists t b' w', AdapterLife.session [AdapterLife.OpReceive 0 [x0a]; AdapterLife.OpPull 0 (replicate 8 x00); AdapterLife.OpConfirmed]
    fresh toy_world = Some (t, b', w') /\ AdapterLife.client_pulled 0 t = [x01; x02; x03] /\
    exists ls, AdapterLife.client_pulled 0 t ++ outp b' 0 = sent 0 ls.
Proof.
  pose proof (AdapterLife.adapter_session_integrity (Some 1%nat) (Some 2%nat) 1 1 3
    [AdapterLife.OpReceive 0 [x0a]; AdapterLife.OpPull 0 (replicate 8 x00); AdapterLife.OpConfirmed] toy_world
    toy_bounded ltac:(by vm_compute)) as Hs.
  apply wp_elim in Hs as ([[t b'] w'] & E & Ht & ls & Hs & HL). exists t, b', w'. split; [exact E|].
  split; [|exists ls; apply HL].
  assert (AdapterLife.client_pulled 0 (default [] ((fun x => x.1.1) <$> AdapterLife.session [AdapterLife.OpReceive 0 [x0a];
    AdapterLife.OpPull 0 (replicate 8 x00); AdapterLife.OpConfirmed] fresh toy_world)) = [x01; x02; x03]) as Hp by (by vm_compute).
  unfold fresh in Hp. by rewrite E in Hp.
Defined.

Lemma adapter_lifecycle_safe_witness :
  exists t w', AdapterLife.lifecycle true [AdapterLife.OpPull 0 (replicate 8 x00); AdapterLife.OpPullAlpn []] toy_world = Some (t, w') /\
    w_live w' = w_live toy_world.
Proof.
  pose proof (AdapterLife.adapter_lifecycle_safe 3 true [AdapterLife.OpPull 0 (replicate 8 x00); AdapterLife.OpPullAlpn []]
    toy_world toy_bounded toy_world_wf ltac:(by vm_compute)) as Hs.
  apply wp_elim in Hs as ([t w'] & E & Hl & _). exists t, w'. exact (conj E Hl).
Defined.

Import AdapterProps.

Lemma adapter_handoff_refines_witness :
  let b := state_of handshake_events fresh in
  p_local (h_handshake (handoff_of b)) = Some (replicate 32 x22) /\
  wp (quicz_openssl_tls_backend_pull_peer_transport_parameters (Some b) (Some [x00]) 1 (Some 0)) (pull_params_ok b [x00]).
Proof.
  split; [by vm_compute|].
  apply (adapter_handoff_refines 10 (state_of handshake_events fresh)).
  apply (steps_inv (O := toy_openssl) 0 fresh (trace_of handshake_events fresh)); [apply inv_init|by vm_compute|run_ok].
Defined.

Lemma adapter_yield_switches_level_witness :
  yield_result 2 [x01] = 0 /\
  wp (yield_secret_cb 2 1 (Some [x01]) (zlen [x01]) (Some fresh)) (fun '(r, arg) => r = yield_result 2 [x01] /\
    wp (crypto_send_cb (Some [x05]) (zlen [x05]) (Some 0) arg) (fun '(rs, _, arg) => exists b', arg = Some b' /\
      forall L, outp b' L = outp fresh L ++ (if rs =? 1 then at_level L 2 [x05] else []))).
Proof.
  split; [by vm_compute|].
  exact (proj1 (adapter_yield_switches_level 0 fresh 2 [x01] [x05] (inv_init _ _ _ _) ltac:(by vm_compute) ltac:(lia))).
Defined.

(** One send of 9000 bytes. *)
Lemma adapter_overflow_final_witness :
  let b := state_of [ECall (TCryptoSend (replicate (Z.to_nat 9000) x00))] fresh in
  outbound_crypto_overflow b = 1 /\
  wp (quicz_openssl_tls_backend_pull (Some b) QUICZ_TLS_BACKEND_INITIAL (Some (replicate 16 x00)) 16 (Some 0) toy_world)
    (fun '(st, out', n, arg, _) => st = QUICZ_TLS_BACKEND_BUFFER_TOO_SMALL /\ out' = Some (replicate 16 x00) /\ n = Some 0 /\
       exists b'', arg = Some b'' /\ outbound_crypto_overflow b'' = 1).
Proof.
  split; [by vm_compute|].
  apply (adapter_overflow_final (O := toy_openssl) (Some 1%nat) 2 1 1
    (trace_of [ECall (TCryptoSend (replicate (Z.to_nat 9000) x00))] fresh) []
    (state_of [ECall (TCryptoSend (replicate (Z.to_nat 9000) x00))] fresh)
    (state_of [ECall (TCryptoSend (replicate (Z.to_nat 9000) x00))] fresh) 3 (replicate 16 x00) toy_world toy_bounded).
  - by vm_compute.
  - run_ok.
  - by vm_compute.
  - constructor.
  - by vm_compute.
Defined.

Lemma adapter_pull_no_drive_witness :
  exists st out' n b',
    quicz_openssl_tls_backend_pull (Some fresh) QUICZ_TLS_BACKEND_HANDSHAKE (Some [x00]) 1 (Some 0) toy_world =
      Some (st, out', n, Some b', toy_world) /\ st = QUICZ_TLS_BACKEND_PENDING /\ b' = fresh.
Proof.
  destruct (adapter_pull_no_drive (H := openssl_headers_3) (O := toy_openssl) 0 fresh QUICZ_TLS_BACKEND_HANDSHAKE 2 2 [x00] toy_world (inv_init _ _ _ _)
    eq_refl eq_refl ltac:(right; by vm_compute)) as (st & out' & n & b' & E & Hr).
  exists st, out', n, b'. split; [exact E|]. rewrite decide_True in Hr by (by vm_compute). by destruct Hr as (-> & _ & _ & ->).
Defined.

Lemma adapter_set_local_once_witness :
  quicz_openssl_tls_backend_set_local_transport_parameters (O := toy_openssl) (Some fresh) (Some [x07]) 1 toy_world =
    Some (QUICZ_TLS_BACKEND_OK, Some (fresh <| local_transport_parameters_set := 1 |>
            <| local_transport_parameters_len := 1 |>), toy_world).
Proof.
  exact (proj1 (adapter_set_local_once (O := toy_openssl) fresh 2 [x07] [x08] toy_world eq_refl eq_refl)).
Defined.

(** ** The pair *)

Import Pair PairInv PairLife PairProps.

Lemma init_globals_ok : globals_ok init_globals.
Proof. constructor; cbn; try lia; try (by apply levels_ok_fresh); apply shape2_fresh. Qed.


Lemma pair_configure_exact_witness :
  exists g', quicz_openssl_pair_transcript_configure_transport_parameters (Some [x01; x02]) 2 None 0 init_globals = Some (1, g') /\
    local_params g' true = [x01; x02] /\ local_params g' false = [].
Proof.
  pose proof (pair_configure_exact init_globals (Some [x01; x02]) None 2 0
    ltac:(left; by vm_compute) ltac:(right; by vm_compute)) as Hs.
  apply wp_elim in Hs as ([r g'] & E & Hr). exists g'. change (r = 1 /\ local_params g' true = [x01; x02] /\
    local_params g' false = [] /\ (globals_ok init_globals -> globals_ok g')) in Hr.
  destruct Hr as (-> & H1 & H2 & _). exact (conj E (conj H1 H2)).
Defined.

(** An endpoint whose OpenSSL sent two bytes. *)
Definition sender : endpoint := default zero_endpoint (snd <$> invoke (TCryptoSend [x01; x02]) zero_endpoint).

Lemma sender_inv : inv 1 sender.
Proof.
  refine (proj1 (wp_use _ _ (Answer 1 2 [], sender)
    (ep_invoke_wp 0 zero_endpoint (TCryptoSend [x01; x02]) (zero_endpoint_inv _ eq_refl) _ _) _)); by vm_compute.
Qed.

Lemma pair_pump_conserves_witness :
  outp sender 0 = [x01; x02] /\
  exists r from' to', pump_crypto sender zero_endpoint = Some (r, from', to') /\
    forall L, exists moved, inp to' L = inp zero_endpoint L ++ moved /\ outp sender L = moved ++ outp from' L.
Proof.
  split; [by vm_compute|].
  pose proof (pair_pump_conserves 1 sender zero_endpoint sender_inv
    (ep_inv_mono 0 1 _ ltac:(lia) (zero_endpoint_inv _ eq_refl)) ltac:(by vm_compute)) as Hs.
  apply wp_elim in Hs as ([[r from'] to'] & E & Hm & _). exists r, from', to'. exact (conj E Hm).
Defined.

(** The globals of a run whose client sent two bytes. *)
Definition two_bytes : globals := default init_globals (copy_last_crypto sender zero_endpoint init_globals).

Lemma two_bytes_ok : globals_ok two_bytes.
Proof.
  destruct (wp_elim _ _ (copy_last_crypto_wp 1 sender zero_endpoint init_globals sender_inv
    (ep_inv_mono 0 1 _ ltac:(lia) (zero_endpoint_inv _ eq_refl)) init_globals_ok)) as (g' & E & cb & cl & sb & sl & Eg & Rc & Rs).
  unfold two_bytes. rewrite E. cbn. subst g'. destruct init_globals_ok. constructor; try done; [apply Rc|apply Rs].
Qed.

Lemma pair_copy_crypto_exact_witness :
  exists r out n, quicz_openssl_pair_transcript_copy_client_crypto two_bytes 0 (Some [x00; x00; x00]) 3 (Some 7) = Some (r, out, n) /\
    r = 1 /\ n = Some 2 /\ out = Some [x01; x02; x00].
Proof.
  pose proof (proj1 (pair_copy_crypto_exact two_bytes 0 7 [x00; x00; x00] two_bytes_ok)) as Hs.
  apply wp_elim in Hs as ([[r out] n] & E & Hr). exists r, out, n. split; [exact E|].
  change (r = 1 /\ n = Some 2 /\ out = Some [x01; x02; x00]) in Hr. exact Hr.
Defined.

Lemma pair_copy_null_undefined_witness :
  quicz_openssl_pair_transcript_copy_client_crypto init_globals 1 None 0 (Some 7) = None.
Proof.
  exact (proj1 (pair_copy_null_undefined init_globals 1 7 0 init_globals_ok ltac:(lia) ltac:(lia) eq_refl)).
Defined.

Lemma pair_copy_secret_exact_witness :
  exists r out n, quicz_openssl_pair_transcript_copy_client_secret init_globals 2 1 (Some (replicate 32 x00)) 32 (Some 7) =
    Some (r, out, n) /\ r = 0 /\ n = Some 0.
Proof.
  pose proof (proj1 (pair_copy_secret_exact init_globals 2 1 7 (replicate 32 x00) init_globals_ok)) as Hs.
  apply wp_elim in Hs as ([[r out] n] & E & Hr). exists r, out, n. split; [exact E|].
  change (r = 0 /\ n = Some 0 /\ out = Some (replicate 32 x00)) in Hr. exact (conj (proj1 Hr) (proj1 (proj2 Hr))).
Defined.

Lemma pair_context_lifecycle_witness :
  let ops := [CDrive true; CCopyPending true 0 (replicate 8 x00); CProvide false 0 [x01]; CResult] in
  exists t c w', ctx_lifecycle init_globals ops toy_world = Some (t, c, w') /\ w_live w' = w_live toy_world.
Proof.
  pose proof (pair_context_lifecycle 3 init_globals
    [CDrive true; CCopyPending true 0 (replicate 8 x00); CProvide false 0 [x01]; CResult] toy_world
    toy_bounded init_globals_ok toy_world_wf ltac:(by vm_compute)) as Hs.
  apply wp_elim in Hs as ([[t c] w'] & E & Hl & _). exists t, c, w'. exact (conj E Hl).
Defined.

Definition toy_logged_world : world (@Probe.logged toy_openssl) := World (O := @Probe.logged toy_openssl) ([], 0%nat) 0 ∅.

Lemma toy_logged_world_wf : world_wf toy_logged_world.
Proof. intros k n Hin. by apply elem_of_empty in Hin. Qed.

Lemma probe_report_exact_witness :
  exists r w' m c s q t, Probe.quicz_openssl_probe_run (O := @Probe.logged toy_openssl) false toy_logged_world = Some (r, w') /\
    w_live w' = w_live toy_logged_world /\ Probe.log w' = Probe.quic_calls 0 m c s q ++ t.
Proof.
  pose proof (Probe.probe_report_exact false toy_logged_world toy_logged_world_wf) as Hs.
  apply wp_elim in Hs as ([r w'] & E & Hl & m & c & s & q & c' & s' & b & k & a & p & HL & _).
  exists r, w', m, c, s, q. eexists. exact (conj E (conj Hl HL)).
Defined.

(** ** The transport's tables *)

(** A backend that answers every pull with OK and claims 1000 bytes. *)
Definition liar_tls_backend : TlsBackend.tls_backend unit := {|
  TlsBackend.receive := fun s _ _ _ => Some (QUICZ_TLS_BACKEND_OK, s);
  TlsBackend.pull := fun s _ out _ _ => Some (QUICZ_TLS_BACKEND_OK, out, Some 1000, s);
  TlsBackend.set_local_transport_parameters := None;
  TlsBackend.pull_peer_transport_parameters := None;
  TlsBackend.pull_handshake_traffic_secrets := None;
  TlsBackend.pull_zero_rtt_traffic_secrets := None;
  TlsBackend.pull_1rtt_traffic_secrets := None;
  TlsBackend.pull_negotiated_alpn := None;
  TlsBackend.handshake_confirmed := None;
|}.

Definition zig_ops : list TlsBackend.zig_op :=
  [TlsBackend.ZReceive TlsBackend.handshake [x07; x08];
   TlsBackend.ZPull TlsBackend.initial (replicate 8 x00);
   TlsBackend.ZPullPeer (replicate 4 x00); TlsBackend.ZConfirmed].

Lemma tls_backend_slices_in_bounds_witness :
  TlsBackend.zig_session liar_tls_backend zig_ops tt =
    Some ([(TlsBackend.ZReceive TlsBackend.handshake [x07; x08], TlsBackend.ZUnit (inr tt));
           (TlsBackend.ZPull TlsBackend.initial (replicate 8 x00), TlsBackend.ZSlice (inl TlsBackend.BufferTooSmall));
           (TlsBackend.ZPullPeer (replicate 4 x00), TlsBackend.ZSlice (inr None));
           (TlsBackend.ZConfirmed, TlsBackend.ZBool false)], tt) /\
  Forall TlsBackend.in_bounds
    (default [] (fst <$> TlsBackend.zig_session liar_tls_backend zig_ops tt)).
Proof.
  split; [reflexivity|].
  apply (TlsBackend.tls_backend_slices_in_bounds liar_tls_backend ltac:(constructor; cbn; try done; intros s sp out st o w s' E; simplify_eq; lia)
    zig_ops tt tt). reflexivity.
Defined.

Lemma tls_backend_session_safe_witness : Demo.inv Demo.static_init /\
  wp (TlsBackend.zig_session (TlsTables.demo_tls_backend (HandshakeSecrets [] [])) zig_ops Demo.static_init)
    (fun '(t, s') => t.*1 = zig_ops /\ Demo.inv s' /\ Forall TlsBackend.in_bounds t).
Proof.
  assert (Demo.inv Demo.static_init) as Hi by (constructor; cbn; lia).
  split; [exact Hi|].
  exact (TlsBackend.tls_backend_session_safe (BC := TlsTables.demo_contract (HandshakeSecrets [] []))
    (TlsTables.demo_tls_backend (HandshakeSecrets [] [])) zig_ops 0 Demo.static_init Hi).
Defined.

Lemma tls_backend_openssl_stream_witness :
  let hs := HandshakeSecrets [] [] in let ort := OneRttSecrets [] [] in
  wp (TlsBackend.zig_session (TlsTables.openssl_tls_backend (O := toy_openssl) hs ort) zig_ops (fresh, toy_world))
    (fun '(t, (b', w')) => t.*1 = zig_ops /\ Forall TlsBackend.in_bounds t /\
      exists ls, AdapterSession.steps (O := toy_openssl) fresh ls b' /\ forall L,
        TlsTables.zig_pulled L t ++ AdapterInv.outp b' L = AdapterSession.sent L ls /\ TlsTables.zig_delivered L t = AdapterSession.received L ls /\
        (TlsBackend.handshakeConfirmedAdapter (TlsTables.openssl_tls_backend (O := toy_openssl) hs ort) (b', w') = true ->
          AdapterSession.consumed L ls = TlsTables.zig_delivered L t)).
Proof.
  refine (TlsTables.tls_backend_openssl_stream (O := toy_openssl) (HandshakeSecrets [] []) (OneRttSecrets [] []) 3
    (Some 1%nat) (Some 2%nat) 1 1 zig_ops toy_world toy_bounded _).
  by vm_compute.
Defined.

End Witnesses.
